(* ===== verification/_CoqProject ===== *)
-Q . S2P
Prelude.v
Host.v
ShortName.v
UniqueNames.v
Uniqueness.v
NameFilter.v
Layers.v
Tools.v
RemoveLayerData.v
TargetUI.v
InfluencesView.v
LayersPanel.v
SetWeights.v
ImportExport.v
CopyPaste.v
MiscActions.v
TabTools.v
Actions.v
