(* ===== verification/Prelude.v ===== *)
(** * A verification development of ngSkinTools2's Python layer

    The repository is the Chinese localisation of the ngSkinTools2 Maya
    plugin.  Its Python sources under
    [src/ngskintools-2.3.0-windows/.../ngSkinTools2] are the plugin's UI and
    operations; they sit on the plugin's API ([ngSkinTools2.api]), Qt and
    Maya's [cmds], none of which is under [src/].  The parts and how they
    interact:
    - [api/influence_names.py]: the shortest unique display names of a batch
      of DAG paths ([unique_names]) and the influence-list filter
      ([InfluenceNameFilter]);
    - [ui/influencesview.py]: the influences tree; [wanted_tree_items]
      composes [unique_names] and the filter, [build_items] writes the rows
      into the tree (rows past the new ones removed, the current row moving
      as Qt's selection model moves it), the handlers sync the selection
      with the layer's paint targets and lock influences;
    - [ui/targetui.py]: the panel holding the tree and the filter box, whose
      edits drive [set_filter_string];
    - [operations/layers.py], [operations/tools.py],
      [operations/removeLayerData.py]: the actions on layers, the tool
      actions (one of which calls [addLayer]) and the removal of the
      plugin's nodes, over the session, the layers API and Maya;
    - [ui/tabSetWeights.py], [ui/tabTools.py]: the tabs whose widgets edit
      the paint settings passed to [flood_weights] and the options the tool
      actions read;
    - [operations/import_export_actions.py], [copy_paste_actions.py],
      [paint.py], [website_links.py]: actions whose callbacks guard on the
      session's state and call the plugin's API, Qt's file dialog or Maya.

    Files of the development, in dependency order:
    - [Prelude.v] (this file): Python's string built-ins as the code uses
      them ([str.rfind] with slice bounds, slicing, [lower], [split],
      [strip], comparison, [enumerate]) on strings modelled as [list ascii]
      (code points 0..255, read as Latin-1, which is what [str.lower] and
      [str.isspace] see; strings that are only stored, such as Chinese
      messages and layer names, are held by their UTF-8 bytes); the
      notation scope, hint database, tactic and shared list lemmas.
    - [Host.v]: the session's signals ([Event]) and dialogs; the calls the
      operations make on the layers API as a typeclass [LayersApi], what
      they rely on as [LayersApiLaws] (under a well-formedness predicate),
      and [ListLayers], a list-based implementation that proves the laws;
      signals as handlers registered in order ([subscribe]) and called in
      that order on each emission ([deliver]), and the enabled flag an
      [update] keeps between the signals it listens to ([signal_enabled]).
    - [ShortName.v]: [short_name] and [IndexedName]; every short name is a
      whole-segment suffix of its path, an extension adds one segment, and
      a name that is already the whole path wraps round (Python's negative
      slice bound).
    - [UniqueNames.v]: [extend_unique_names] and [unique_names].  The
      [IndexedName] objects are shared between the input-order and sorted
      lists, so the state is an arena indexed by input position and the
      sorted view a list of indices; the [while] loop is a [Fixpoint] on
      fuel that answers [None] when the fuel runs out.  Theorems: the
      in-place [for] loop equals a reference pass; the output has the
      input's length and order, each name a suffix of its path; the loop
      terminates within [1 + len path] passes on pairwise distinct Maya paths
      (so [unique_names] returns); it diverges for every fuel when two inputs
      are the same path; distinct non-Maya paths can get equal names.
    - [Uniqueness.v]: what [unique_names] computes on Maya paths, written as
      lists of segments ([seg_path]).  The store is described by a count of
      segments per object ([stc]); in reversed-path order what an earlier
      path shares with a later one goes through every path between them,
      which makes each [while] loop raise the current object and the later
      ones in lock step ([while_stc]) and each pass move the counts to those
      of the next ([pass_step]).  Theorems: the names are the shortest
      whole-segment suffixes that are no suffix of another input, and they
      are pairwise distinct (the spec's "uniqueness where possible"), and
      a path's name depends only on the path and the set of inputs, so
      reordering the inputs reorders the names and nothing else.
    - [NameFilter.v]: [InfluenceNameFilter] (its three fields),
      [set_filter_string], [is_match]; the compiled patterns as a small
      regular-expression type with an executable [re.search] refined by its
      language semantics; the filter's reachable states by rule induction,
      the change signal counted, "empty filter matches all", "OR of tokens".
    - [Layers.v]: [initializeLayers], [addLayer] with [guessParent],
      [setCurrentLayer], [renameLayer], [deleteSelectedLayers],
      [ToggleEnabledAction] and the actions' enabling conditions, in a
      section over any [LayersApiLaws] implementation.  [addLayer] is its
      body up to [layerListChanged] ([addLayer_list]) followed by
      [setCurrentLayer], and the step relation of the operations cuts it
      there, so that every step ends where the code emits.  Theorems: what
      [addLayer], [deleteSelectedLayers], [initializeLayers] and the toggle
      do to the stack and the signals, the toggle's exception on a stale
      layer, and that the steps keep the stack well formed.
    - [InfluencesView.v]: [wanted_tree_items] (the rows yielded and whether
      the generator finished), [build_items] (rows rewritten in place), the
      lock/unlock handler, [sync_paint_targets_to_selection],
      [current_influence_changed], the toggles, [current_layer_changed].
    - [Tools.v]: [__create_tool_action__]'s guards and every tool handler,
      over the session of [Layers.v] and a log of the API calls made;
      weights are an abstract type with [+], [0] and the significance test.
    - [RemoveLayerData.v]: [remove_custom_nodes] with the Maya queries as
      parameters and its effects as an ordered list.
    - [TargetUI.v]: the filter box as a state machine over the filter, the
      page shown and the no-layers labels.
    - [LayersPanel.v]: [build_target_ui] as a whole: both pages, the
      influences tree and its two actions, wired by the signals each part
      emits, with the handlers of a signal run in subscription order
      ([panel_handle]).  Theorems: in every state the tree shows what
      [wanted_tree_items] computes from the current layer, configuration,
      filter and influences, the pages and labels follow the target, and
      the clear button brings every influence back.
    - [SetWeights.v]: [ui/tabSetWeights.py].  [Model]'s [presets] dict as a
      total map from [PaintMode] and [current_settings] as the key of the
      preset it aliases, [make_presets], every handler of the tab with the
      [UiLock], both [update_ui]s, [apply], as a step function [handle] on
      the tab's state; reachable states by rule induction.  Theorems: the
      aliasing and shared-settings invariant, the bounds of every preset and
      of every [flood_weights] call (they come from the sliders' clamp,
      [NumberSliderGroup] being modelled from the spec), the settings of disabled
      widgets kept (the volume check box has no handler), and a mode
      remembering its edits across mode switches (a roundtrip).
    - [ImportExport.v]: [operations/import_export_actions.py], over a model
      of Qt's file dialog (its filter parsing, preselection and answer) and
      the persistent default filter: the [";;"] join/split roundtrip,
      [export_callback]'s behaviour on every answer, no [KeyError], and the
      type of [default_filter] along any sequence of clicks (a [FileFormat]
      only until a dialog is accepted, an offered filter label after).
    - [CopyPaste.v]: [operations/copy_paste_actions.py]: the callbacks'
      guards and calls, the enabled state recomputed on signals.
    - [MiscActions.v]: [operations/paint.py] ([FloodAction], [PaintAction]
      over Maya's current tool), [operations/website_links.py], and
      [build_action_randomize_influences_colors] of [operations/layers.py]
      (Maya's palette as a function, [random.choice] as an arbitrary draw):
      every influence gets a palette colour that passes the brightness
      filter, or the trigger raises [IndexError] on an empty palette.
    - [TabTools.v]: [ui/tabTools.py]: the tools tab's widgets over the
      option objects of [Tools.v] that the actions read; the invariant that
      the actions run with the options the widgets show.
    - [Actions.v]: the builders of [operations/] as the [QAction] each
      returns (text, tooltip, the signals its [update] subscribes to,
      whether it runs [update()] at build) and the enabled flag after a
      history of signals ([signal_enabled] of [Host.v]); runs of the layer
      operations with the signals each step emits, and the theorems that
      the create, delete and initialize actions and the tool actions show
      their [update] on the final session after any run, and that the tools
      tab and its buttons are usable exactly when the final session has
      layers and a current layer.  The [Action] subclasses
      ([ToggleEnabledAction], [FloodAction], [PaintAction]) by what they
      define; [ui/action.py] is not under [src/], so its wiring is taken to
      be the builders' and its default methods are parameters.  The toggle
      action's flag and check mark follow the session along every run in
      which no toggle raised; one that raised leaves the check mark stale.

    Fuel: a [while] pass of [extend_unique_names] repeats only while the
    current name grows, and a name is at most its path's length, so
    [S (length path)] passes are enough; [unique_names] gives each loop [S]
    of the longest input's length ([loop_fuel]) and the termination theorem
    shows that every larger fuel gives the same result.  [wanted_tree_items]
    and [build_items] inherit it: they answer "not finished" exactly when
    [unique_names] does not return.

    Not modelled: Qt widgets beyond the values the code reads and writes
    (rows, current item, selection, visibility), Maya commands and the
    plugin's API beyond the calls made and what is read back, floating-point
    arithmetic (weights are abstract), the evaluation banner of
    [ui/targetui.py] (it runs an external program), the Qt layout code of
    the tabs and the display curve [set_paint_expo], the transfer dialog of
    [LayersTransfer] and [webbrowser], icons and keyboard shortcuts, and
    the [@undoable] decorator (Maya's undo chunks).  [signal.py],
    [ui/action.py], [ui/actions.py] and [ui/qt.py] are not under [src/]:
    [emitIfChanged] is modelled as an emission (the change test it makes
    is the plugin's), [Action]'s wiring as the builders' own, and
    [bind_action_to_button] as a button showing its action.  Floats of the
    set-weights and tools tabs are rationals: the code only stores,
    compares and clamps them. *)

From stdpp Require Export base list strings sorting sets relations.
From Stdlib Require Export Ascii ZArith.

(** ** Notation scope, hint database, tactics *)

Declare Scope py_scope.
Delimit Scope py_scope with py.

(** Python [str] values: sequences of code points. *)
Abbreviation pystr := (list ascii).

(** A Python string literal. *)
Definition py (s : string) : pystr := String.list_ascii_of_string s.

(** The DAG path delimiter of Maya. *)
Definition PIPE : ascii := "|"%char.

Notation "s =? t" := (bool_decide (s = t)) (at level 70, no associativity) : py_scope.

Create HintDb pyhints discriminated.
Create Rewrite HintDb pyrw.

(** Close a decidable goal about concrete values by evaluation. *)
Ltac decide_vm :=
  lazymatch goal with |- ?P => apply (bool_decide_eq_true_1 P) end; vm_compute; reflexivity.

(** ** [str.rfind(c, None, stop)] with Python's slice semantics for [stop] *)

(** Slice bound of [s[:stop]]: a negative bound counts from the end and is
    clamped at 0, a bound past the end is clamped at [len s]. *)
Definition py_slice_stop (n : nat) (stop : Z) : nat :=
  if (stop <? 0)%Z then Z.to_nat (stop + Z.of_nat n) else Nat.min n (Z.to_nat stop).

(** Index of the last occurrence of [c] in a list. *)
Fixpoint last_index (c : ascii) (l : pystr) : option nat :=
  match l with
  | [] => None
  | x :: l' =>
      match last_index c l' with
      | Some i => Some (S i)
      | None => if decide (x = c) then Some 0 else None
      end
  end.

(** [s.rfind(c, None, stop)]: [-1] when not found. *)
Definition py_rfind (s : pystr) (c : ascii) (stop : Z) : Z :=
  match last_index c (take (py_slice_stop (length s) stop) s) with
  | Some i => Z.of_nat i
  | None => (-1)%Z
  end.

(** [s[i:]] for [0 <= i]. *)
Definition py_from (s : pystr) (i : Z) : pystr := drop (Z.to_nat i) s.

(** ** [str.lower] and [str.isspace] on code points 0..255 *)

Definition char_lower (c : ascii) : ascii :=
  let n := nat_of_ascii c in
  if (65 <=? n) && (n <=? 90) then ascii_of_nat (n + 32)
  else if (192 <=? n) && (n <=? 222) && negb (n =? 215) then ascii_of_nat (n + 32)
  else c.

Definition py_lower (s : pystr) : pystr := map char_lower s.

Definition py_isspace (c : ascii) : bool :=
  let n := nat_of_ascii c in
  ((9 <=? n) && (n <=? 13)) || ((28 <=? n) && (n <=? 32)) || (n =? 133) || (n =? 160).

(** [s.split()] with no separator: runs of whitespace separate the tokens,
    and no token is empty.  [cur] is the token being read, reversed. *)
Fixpoint split_go (cur : pystr) (s : pystr) : list pystr :=
  match s with
  | [] => if cur is [] then [] else [reverse cur]
  | c :: s' =>
      if py_isspace c then (if cur is [] then [] else [reverse cur]) ++ split_go [] s'
      else split_go (c :: cur) s'
  end.

Definition py_split (s : pystr) : list pystr := split_go [] s.

(** [s.strip()]. *)
Fixpoint lstrip (s : pystr) : pystr :=
  match s with
  | c :: s' => if py_isspace c then lstrip s' else s
  | [] => []
  end.

Definition py_strip (s : pystr) : pystr := reverse (lstrip (reverse (lstrip s))).

(** ** Python's string order: lexicographic on code points *)

Fixpoint py_str_leb (s t : pystr) : bool :=
  match s, t with
  | [], _ => true
  | _ :: _, [] => false
  | a :: s', b :: t' =>
      match Ascii.compare a b with
      | Lt => true
      | Gt => false
      | Eq => py_str_leb s' t'
      end
  end.

(** ** [needle in hay] and [s.replace(c, new)] *)

Fixpoint py_prefix (p s : pystr) : bool :=
  match p, s with
  | [], _ => true
  | a :: p', b :: s' => bool_decide (a = b) && py_prefix p' s'
  | _ :: _, [] => false
  end.

(** [needle in hay] on strings: a substring test. *)
Fixpoint py_in (needle hay : pystr) : bool :=
  py_prefix needle hay || match hay with _ :: hay' => py_in needle hay' | [] => false end.

Definition py_replace_char (s : pystr) (old : ascii) (new : pystr) : pystr :=
  s ≫= fun c => if decide (c = old) then new else [c].

(** ** Shared lemmas *)

Lemma last_index_lookup c l i : last_index c l = Some i -> l !! i = Some c.
Proof.
  revert i. induction l as [|x l IH]; intros i H; simpl in H; [discriminate|].
  destruct (last_index c l) as [k|] eqn:E.
  - injection H as <-. simpl. by apply IH.
  - destruct (decide (x = c)); [|discriminate]. injection H as <-. by subst.
Qed.

Lemma last_index_None c l : last_index c l = None <-> c ∉ l.
Proof.
  induction l as [|x l IH]; simpl; [split; [intros _; apply not_elem_of_nil|done]|].
  rewrite elem_of_cons. destruct (last_index c l) as [k|] eqn:E.
  - split; [discriminate|]. intros Hn. exfalso. apply Hn. right.
    apply list_elem_of_lookup. exists k. by apply last_index_lookup.
  - destruct (decide (x = c)) as [->|Hne].
    + split; [discriminate|]. intros Hn. exfalso. apply Hn. by left.
    + split; [|done]. intros _ [->|Hin]; [done|]. by apply IH.
Qed.

Lemma last_index_Some c l i :
  last_index c l = Some i -> l !! i = Some c /\ forall j, i < j -> l !! j <> Some c.
Proof.
  intros H. split; [by apply last_index_lookup|]. revert i H.
  induction l as [|x l IH]; intros i H; simpl in H; [discriminate|].
  destruct (last_index c l) as [k|] eqn:E.
  - injection H as <-. intros [|j] Hj; [lia|]. apply (IH k eq_refl). lia.
  - destruct (decide (x = c)); [|discriminate]. injection H as <-.
    intros [|j] Hj; [lia|]. simpl. intros Hl. apply (proj1 (last_index_None c l) E).
    apply list_elem_of_lookup. eauto.
Qed.

Lemma NoDup_drop_any {A} n (l : list A) : NoDup l -> NoDup (drop n l).
Proof. intros H. rewrite <- (take_drop n l) in H. by apply NoDup_app in H as (_ & _ & H). Qed.

Lemma lookup_elem_drop {A} (l : list A) i p x : i < p -> l !! p = Some x -> x ∈ drop (S i) l.
Proof.
  intros Hip Hp. apply list_elem_of_lookup. exists (p - S i).
  rewrite lookup_drop. by replace (S i + (p - S i)) with p by lia.
Qed.

Lemma NoDup_not_elem_drop {A} (l : list A) i x : NoDup l -> l !! i = Some x -> x ∉ drop (S i) l.
Proof.
  intros Hnd Hi Hin. apply list_elem_of_lookup in Hin as [j Hj]. rewrite lookup_drop in Hj.
  pose proof (NoDup_lookup _ _ _ _ Hnd Hi Hj). lia.
Qed.

Lemma elem_of_drop_any {A} n (l : list A) x : x ∈ drop n l -> x ∈ l.
Proof. intros H. rewrite <- (take_drop n l). apply elem_of_app. by right. Qed.

#[export] Hint Resolve NoDup_drop_any NoDup_not_elem_drop : pyhints.

Lemma py_replace_char_cons c s old new :
  py_replace_char (c :: s) old new = (if decide (c = old) then new else [c]) ++ py_replace_char s old new.
Proof. done. Qed.

Lemma py_in_single c s : py_in [c] s = true <-> c ∈ s.
Proof.
  induction s as [|a s IH]; simpl; [split; [discriminate|intros H; by apply not_elem_of_nil in H]|].
  rewrite orb_true_iff, elem_of_cons, IH, andb_true_r, bool_decide_eq_true. naive_solver.
Qed.

(** A property of all 256 characters, checked by enumeration. *)
Lemma ascii_forall (P : ascii -> Prop) `{forall c, Decision (P c)} :
  forallb (fun n => bool_decide (P (ascii_of_nat n))) (seq 0 256) = true -> forall c, P c.
Proof.
  intros Hall c. rewrite <- (ascii_nat_embedding c).
  rewrite forallb_forall in Hall.
  apply (bool_decide_eq_true_1 (P (ascii_of_nat (nat_of_ascii c)))), Hall.
  apply in_seq. pose proof (nat_ascii_bounded c). lia.
Qed.

Lemma ascii_compare_N a b : Ascii.compare a b = N.compare (N_of_ascii a) (N_of_ascii b).
Proof. done. Qed.

Lemma ascii_compare_eq a b : Ascii.compare a b = Eq -> a = b.
Proof. apply Ascii.compare_eq_iff. Qed.

Lemma py_str_leb_total s t : py_str_leb s t = true \/ py_str_leb t s = true.
Proof.
  revert t. induction s as [|a s IH]; intros [|b t]; simpl; auto.
  rewrite !ascii_compare_N, (N.compare_antisym (N_of_ascii b)).
  destruct (N.compare (N_of_ascii b) (N_of_ascii a)); simpl; auto.
Qed.

Lemma py_str_leb_trans s t u : py_str_leb s t = true -> py_str_leb t u = true -> py_str_leb s u = true.
Proof.
  revert t u. induction s as [|a s IH]; intros [|b t] [|c u]; simpl; auto; try discriminate.
  rewrite !ascii_compare_N.
  destruct (N.compare_spec (N_of_ascii a) (N_of_ascii b)) as [Hab|Hab|Hab];
  destruct (N.compare_spec (N_of_ascii b) (N_of_ascii c)) as [Hbc|Hbc|Hbc];
  destruct (N.compare_spec (N_of_ascii a) (N_of_ascii c)) as [Hac|Hac|Hac];
  try discriminate; try lia; eauto.
Qed.

Lemma filter_all {A} (P : A -> Prop) `{forall x, Decision (P x)} (l : list A) :
  (forall x, x ∈ l -> P x) -> filter P l = l.
Proof.
  induction l as [|x l IH]; intros Hall; [done|].
  rewrite filter_cons_True by set_solver. f_equal. apply IH. set_solver.
Qed.

(** Python's [enumerate(l)]. *)
Definition py_enumerate {A} (l : list A) : list (nat * A) := zip (seq 0 (length l)) l.

Lemma elem_of_py_enumerate {A} (l : list A) k x : (k, x) ∈ py_enumerate l <-> l !! k = Some x.
Proof.
  unfold py_enumerate. rewrite list_elem_of_lookup. split.
  - intros [i Hi]. rewrite lookup_zip_with in Hi.
    destruct (seq 0 (length l) !! i) as [j|] eqn:Hj; [|done]. simpl in Hi.
    destruct (l !! i) as [y|] eqn:Hy; [|done]. simpl in Hi. injection Hi as <- <-.
    apply lookup_seq in Hj as [-> _]. done.
  - intros Hk. exists k. rewrite lookup_zip_with, lookup_seq_lt by (eapply lookup_lt_Some; eauto).
    simpl. by rewrite Hk.
Qed.

Lemma py_inj (s t : string) : py s = py t -> s = t.
Proof.
  intros E. rewrite <- (String.string_of_list_ascii_of_string s), <- (String.string_of_list_ascii_of_string t).
  unfold py in E. by rewrite E.
Qed.
