(* ===== verification/Host.v ===== *)
(** * The host the operations run in: the layers API and the session

    The operations of [operations/layers.py] and [operations/tools.py] call
    the plugin's layers API ([ngSkinTools2.api.Layers], [Layer]), which is
    not under [src/].  [LayersApi] lists the calls they make; [LayersApiLaws]
    states what the operations rely on of them, under a well-formedness
    predicate of the API's state.  [ListLayers] is a list-based
    implementation of the interface that discharges the laws, so that the
    laws are satisfiable and the operations can be run on concrete stacks.
    [Event] names the session's signals, [Dialog] the dialogs shown;
    [signal_enabled] is the enabled flag of an action whose [update] is
    attached to some signals with [signal.on]; [subscribe] and [deliver]
    are a signal's handlers, called in registration order. *)

From S2P Require Import Prelude.

(** ** Signals and dialogs *)

(** [session.events.*]: the signals the UI and the operations emit. *)
Inductive Event :=
  | TargetChanged | LayerListChanged | CurrentLayerChanged
  | InfluencesListUpdated | CurrentInfluenceChanged | NodeSelectionChanged
  (** Maya's current tool changed *)
  | ToolChanged.

#[export] Instance Event_eq_dec : EqDecision Event.
Proof. solve_decision. Defined.

(** [dialogs.info(msg)] and [dialogs.yesNo(msg)]. *)
Inductive Dialog := DialogInfo (msg : pystr) | DialogYesNo (msg : pystr).

(** ** Enabled states kept by signals

    An action's [update] runs on the signals it subscribes to
    ([@signal.on(...)]) and sets [QAction.setEnabled]; between two such
    signals the flag keeps its value.  A history is the sequence of the
    session's states, each with the signal emitted as it was reached, if
    any. *)

Section SignalEnabled.

Context {St Sig : Type} `{EqDecision Sig}.
Variable signals : list Sig.
Variable update : St -> bool.

(** The flag after a history, from [enabled]. *)
Fixpoint signal_enabled (enabled : bool) (history : list (St * option Sig)) : bool :=
  match history with
  | [] => enabled
  | (st, Some e) :: h => signal_enabled (if decide (e ∈ signals) then update st else enabled) h
  | (_, None) :: h => signal_enabled enabled h
  end.

Lemma signal_enabled_app enabled h1 h2 :
  signal_enabled enabled (h1 ++ h2) = signal_enabled (signal_enabled enabled h1) h2.
Proof. revert enabled. induction h1 as [|[st [e|]] h1 IH]; intros enabled; cbn; [done|apply IH|apply IH]. Qed.

(** Signals delivered on one state: the flag is [update] there as soon as
    one of them is listened to. *)
Lemma signal_enabled_same st enabled es :
  signal_enabled enabled ((fun e => (st, Some e)) <$> es)
  = if existsb (fun e => bool_decide (e ∈ signals)) es then update st else enabled.
Proof.
  revert enabled. induction es as [|e es IH]; intros enabled; [done|]. cbn. rewrite IH.
  case_decide; [rewrite bool_decide_eq_true_2 by done|rewrite bool_decide_eq_false_2 by done];
    by destruct (existsb _ es).
Qed.

End SignalEnabled.

(** ** Subscribers

    [signal.on(...)] registers a handler on a signal and [emit()] calls
    the handlers synchronously, in registration order ([signal.py] is not
    under [src/]; this is the spec's model of it).  A handler is the
    function of the state it changes. *)

Section Subscribers.

Context {St : Type}.

(** Register [handler] after the handlers already registered. *)
Definition subscribe (subs : list (St -> St)) (handler : St -> St) : list (St -> St) := subs ++ [handler].

(** Deliver an emission: every handler, oldest first. *)
Definition deliver (subs : list (St -> St)) (st : St) : St := foldl (fun st handler => handler st) st subs.

Lemma deliver_subscribe subs handler st : deliver (subscribe subs handler) st = handler (deliver subs st).
Proof. unfold deliver, subscribe. by rewrite foldl_app. Qed.

End Subscribers.

(** ** The layers API *)

(** The calls of [Layers] and [Layer] the operations make; a layer is
    named by its id. *)
Class LayersApi (S : Type) := {
  layers_wf : S -> Prop;
  layer_ids : S -> list nat;
  current_layer_id : S -> option nat;
  layer_parent : S -> nat -> option nat;
  layer_num_children : S -> nat -> nat;
  layer_name : S -> nat -> option pystr;
  (** [layer.enabled]; [None] when the id is not a layer (the call raises). *)
  layer_enabled : S -> nat -> option bool;
  (** [init_layers(target)]: an empty stack. *)
  layers_init : S;
  (** [layers.add(name)]: the new state and the new layer's id. *)
  layers_add : S -> pystr -> S * nat;
  layer_set_parent : S -> nat -> option nat -> S;
  layer_set_current : S -> nat -> S;
  layer_set_name : S -> nat -> pystr -> S;
  (** [layer.enabled = b]; [None] when the id is not a layer. *)
  layer_set_enabled : S -> nat -> bool -> option S;
  layers_delete : S -> nat -> S
}.

(** What the operations rely on. *)
Class LayersApiLaws (S : Type) `{LayersApi S} : Prop := {
  init_wf : layers_wf layers_init;
  init_ids : layer_ids layers_init = [];
  current_valid s c : layers_wf s -> current_layer_id s = Some c -> c ∈ layer_ids s;
  add_wf s n : layers_wf s -> layers_wf (layers_add s n).1;
  add_ids s n : layers_wf s ->
    layer_ids (layers_add s n).1 = layer_ids s ++ [(layers_add s n).2] /\ (layers_add s n).2 ∉ layer_ids s;
  add_current s n : current_layer_id (layers_add s n).1 = current_layer_id s;
  add_name s n : layers_wf s -> layer_name (layers_add s n).1 (layers_add s n).2 = Some n;
  add_parent s n j : layers_wf s -> j ∈ layer_ids s -> layer_parent (layers_add s n).1 j = layer_parent s j;
  add_num_children s n j : layers_wf s -> j ∈ layer_ids s ->
    layer_num_children (layers_add s n).1 j = layer_num_children s j;
  set_parent_wf s i p : layers_wf s -> layers_wf (layer_set_parent s i p);
  set_parent_ids s i p : layer_ids (layer_set_parent s i p) = layer_ids s;
  set_parent_current s i p : current_layer_id (layer_set_parent s i p) = current_layer_id s;
  set_parent_get s i p j : layers_wf s -> j ∈ layer_ids s ->
    layer_parent (layer_set_parent s i p) j = if decide (j = i) then p else layer_parent s j;
  set_parent_name s i p j : layer_name (layer_set_parent s i p) j = layer_name s j;
  set_current_wf s i : layers_wf s -> i ∈ layer_ids s -> layers_wf (layer_set_current s i);
  set_current_ids s i : layer_ids (layer_set_current s i) = layer_ids s;
  set_current_get s i : current_layer_id (layer_set_current s i) = Some i;
  set_current_parent s i j : layer_parent (layer_set_current s i) j = layer_parent s j;
  set_current_name s i j : layer_name (layer_set_current s i) j = layer_name s j;
  set_current_enabled s i j : layer_enabled (layer_set_current s i) j = layer_enabled s j;
  set_name_wf s i n : layers_wf s -> layers_wf (layer_set_name s i n);
  set_name_ids s i n : layer_ids (layer_set_name s i n) = layer_ids s;
  set_name_current s i n : current_layer_id (layer_set_name s i n) = current_layer_id s;
  set_name_get s i n j : layers_wf s -> j ∈ layer_ids s ->
    layer_name (layer_set_name s i n) j = if decide (j = i) then Some n else layer_name s j;
  set_name_enabled s i n j : layer_enabled (layer_set_name s i n) j = layer_enabled s j;
  enabled_some s i : layers_wf s -> is_Some (layer_enabled s i) <-> i ∈ layer_ids s;
  set_enabled_some s i b : is_Some (layer_set_enabled s i b) <-> i ∈ layer_ids s;
  set_enabled_spec s i b s' : layers_wf s -> layer_set_enabled s i b = Some s' ->
    layers_wf s' /\ layer_ids s' = layer_ids s /\ current_layer_id s' = current_layer_id s /\
    forall j, layer_enabled s' j = if decide (j = i) then Some b else layer_enabled s j;
  delete_wf s i : layers_wf s -> layers_wf (layers_delete s i);
  delete_ids s i : layer_ids (layers_delete s i) = filter (fun j => j <> i) (layer_ids s)
}.

(** ** A list-based implementation *)

Module ListLayers.

(** A layer: its id, name, parent, enabled flag, paint targets and used
    influences. *)
Record rec := mkRec {
  r_id : nat; r_name : pystr; r_parent : option nat; r_enabled : bool;
  r_paint_targets : list nat; r_used : list nat
}.

(** The stack: its layers in order, the current layer, the next id. *)
Record store := mkStore { recs : list rec; cur : option nat; next : nat }.

Definition ids (st : store) : list nat := r_id <$> recs st.

Definition wf (st : store) : Prop :=
  NoDup (ids st) /\ Forall (fun j => j < next st) (ids st) /\ (forall c, cur st = Some c -> c ∈ ids st).

Fixpoint find_in (l : list rec) (i : nat) : option rec :=
  match l with [] => None | r :: l' => if decide (r_id r = i) then Some r else find_in l' i end.

Definition update (st : store) (i : nat) (f : rec -> rec) : store :=
  mkStore ((fun r => if decide (r_id r = i) then f r else r) <$> recs st) (cur st) (next st).

#[export] Instance api : LayersApi store := {
  layers_wf := wf;
  layer_ids := ids;
  current_layer_id := cur;
  layer_parent st i := find_in (recs st) i ≫= r_parent;
  layer_num_children st i := length (filter (fun r => r_parent r = Some i) (recs st));
  layer_name st i := r_name <$> find_in (recs st) i;
  layer_enabled st i := r_enabled <$> find_in (recs st) i;
  layers_init := mkStore [] None 0;
  layers_add st n := (mkStore (recs st ++ [mkRec (next st) n None true [] []]) (cur st) (S (next st)), next st);
  layer_set_parent st i p := update st i (fun r => mkRec (r_id r) (r_name r) p (r_enabled r) (r_paint_targets r) (r_used r));
  layer_set_current st i := mkStore (recs st) (Some i) (next st);
  layer_set_name st i n := update st i (fun r => mkRec (r_id r) n (r_parent r) (r_enabled r) (r_paint_targets r) (r_used r));
  layer_set_enabled st i b :=
    if decide (i ∈ ids st) then Some (update st i (fun r => mkRec (r_id r) (r_name r) (r_parent r) b (r_paint_targets r) (r_used r))) else None;
  layers_delete st i :=
    mkStore (filter (fun r => r_id r <> i) (recs st)) (if decide (cur st = Some i) then None else cur st) (next st)
}.

(** *** Lemmas on [find_in] and [update] *)

Lemma find_in_Some l i : is_Some (find_in l i) <-> i ∈ r_id <$> l.
Proof.
  induction l as [|r l IH]; simpl; [split; [by intros []|set_solver]|].
  case_decide; [split; [set_solver|eauto]|]. rewrite IH. set_solver.
Qed.

Lemma find_in_app_fresh l r i : r_id r ∉ r_id <$> l ->
  find_in (l ++ [r]) i = if decide (i = r_id r) then Some r else find_in l i.
Proof.
  induction l as [|r' l IH]; intros Hf; simpl.
  - by repeat case_decide; subst.
  - destruct (decide (r_id r' = i)) as [<-|E]; [rewrite decide_False; [done|set_solver]|].
    apply IH. set_solver.
Qed.

Lemma find_in_update l i j (f : rec -> rec) : (forall r, r_id (f r) = r_id r) ->
  find_in ((fun r => if decide (r_id r = i) then f r else r) <$> l) j
  = if decide (j = i) then f <$> find_in l j else find_in l j.
Proof.
  intros Hf. induction l as [|r l IH]; [simpl; by case_decide|].
  rewrite fmap_cons. cbn [find_in]. rewrite IH. destruct (decide (r_id r = i)); rewrite ?Hf; repeat case_decide; subst; done.
Qed.

Lemma ids_update st i f : (forall r, r_id (f r) = r_id r) -> ids (update st i f) = ids st.
Proof.
  intros Hf. unfold ids, update. simpl. rewrite <- list_fmap_compose.
  apply list_fmap_ext. intros _ r _. simpl. case_decide; auto.
Qed.

Lemma wf_update st i f : (forall r, r_id (f r) = r_id r) -> wf st -> wf (update st i f).
Proof. intros Hf. unfold wf. rewrite ids_update by done. done. Qed.

Lemma ids_filter (l : list rec) i : r_id <$> filter (fun r => r_id r <> i) l = filter (fun j => j <> i) (r_id <$> l).
Proof.
  induction l as [|r l IH]; [done|]. rewrite fmap_cons, !filter_cons.
  case_decide; by rewrite ?fmap_cons, IH.
Qed.

Lemma next_fresh st : wf st -> next st ∉ ids st.
Proof. intros (_ & Hlt & _) Hin. rewrite Forall_forall in Hlt. specialize (Hlt _ Hin). lia. Qed.

Lemma wf_add st n : wf st ->
  wf (mkStore (recs st ++ [mkRec (next st) n None true [] []]) (cur st) (S (next st))).
Proof.
  intros Hwf. pose proof (next_fresh st Hwf) as Hfr. destruct Hwf as (Hnd & Hlt & Hcur).
  unfold wf, ids in *. simpl. rewrite fmap_app. simpl. split_and!.
  - apply NoDup_app. split_and!; [done| |apply NoDup_singleton]. set_solver.
  - apply Forall_app. split; [eapply Forall_impl; [done|simpl; lia]|]. constructor; [lia|done].
  - intros c Hc. apply elem_of_app. left. auto.
Qed.

Lemma wf_delete st i : wf st ->
  wf (mkStore (filter (fun r => r_id r <> i) (recs st)) (if decide (cur st = Some i) then None else cur st) (next st)).
Proof.
  intros (Hnd & Hlt & Hcur). unfold wf, ids in *. simpl. rewrite ids_filter. split_and!.
  - by apply NoDup_filter.
  - apply Forall_forall. intros j [_ Hj]%list_elem_of_filter. by eapply Forall_forall in Hlt.
  - intros c. case_decide; [done|]. intros Hc. apply list_elem_of_filter. split; [intros ->; congruence|auto].
Qed.

#[export] Instance laws : LayersApiLaws store.
Proof.
  split; cbn.
  - split_and!; [constructor|constructor|done].
  - done.
  - intros s c (_ & _ & Hc). apply Hc.
  - apply wf_add.
  - intros s n Hwf. split; [by unfold ids; rewrite fmap_app|by apply next_fresh].
  - done.
  - intros s n Hwf. rewrite find_in_app_fresh by (apply next_fresh, Hwf). by rewrite decide_True.
  - intros s n j Hwf Hj. rewrite find_in_app_fresh by (apply next_fresh, Hwf).
    rewrite decide_False; [done|]. intros ->. by apply (next_fresh s).
  - intros s n j _ _. rewrite filter_app, length_app, filter_cons, decide_False by done. simpl. lia.
  - intros s i p. by apply wf_update.
  - intros s i p. by apply ids_update.
  - done.
  - intros s i p j _ Hj. rewrite find_in_update by done. apply find_in_Some in Hj as [r ->].
    by case_decide.
  - intros s i p j. rewrite find_in_update by done. case_decide; [|done]. by destruct (find_in _ _).
  - intros s i (Hnd & Hlt & _) Hi. split_and!; [done|done|]. by intros c [= <-].
  - done.
  - done.
  - done.
  - done.
  - done.
  - intros s i n. by apply wf_update.
  - intros s i n. by apply ids_update.
  - done.
  - intros s i n j _ Hj. rewrite find_in_update by done. apply find_in_Some in Hj as [r ->].
    by case_decide.
  - intros s i n j. rewrite find_in_update by done. case_decide; [|done]. by destruct (find_in _ _).
  - intros s i _. rewrite fmap_is_Some. apply find_in_Some.
  - intros s i b. case_decide; split; [done|done|by intros []|done].
  - intros s i b s' Hwf. case_decide as Hi; [|done]. intros [= <-]. split_and!.
    + by apply wf_update.
    + by apply ids_update.
    + done.
    + intros j. cbn. rewrite find_in_update by done. case_decide; [|done].
      subst j. apply find_in_Some in Hi as [r ->]. done.
  - intros s i. apply wf_delete.
  - intros s i. apply ids_filter.
Qed.

(** A stack with a root [base], a group [grp] and its child [child] (the
    current layer); [child] is disabled. *)
Definition ex_store : store :=
  mkStore [mkRec 0 (py "base") None true [] [];
           mkRec 1 (py "grp") None true [] [];
           mkRec 2 (py "child") (Some 1) false [] []]
          (Some 2) 3.

(** The layer attributes the tool actions read and write. *)
Definition paint_targets (st : store) (i : nat) : list nat := default [] (r_paint_targets <$> find_in (recs st) i).
Definition used_influences (st : store) (i : nat) : list nat := default [] (r_used <$> find_in (recs st) i).
Definition set_paint_target (st : store) (i t : nat) : store :=
  update st i (fun r => mkRec (r_id r) (r_name r) (r_parent r) (r_enabled r) [t] (r_used r)).
(** A stand-in for the plugin's weight assignment: the influences it was
    given (all, [0] and [1], for [None]) become the layer's used ones. *)
Definition assign_used (st : store) (i : nat) (influences : option (list nat)) : store :=
  update st i (fun r => mkRec (r_id r) (r_name r) (r_parent r) (r_enabled r) (r_paint_targets r)
                              (default [0; 1] influences)).
(** [layer.index]: the position in the stack. *)
Definition layer_index (st : store) (i : nat) : nat := default 0 (list_find (fun j => j = i) (ids st) ≫= fun p => Some p.1).

Lemma set_paint_target_ids st i t : ids (set_paint_target st i t) = ids st.
Proof. by apply ids_update. Qed.

Lemma set_paint_target_get st i t : i ∈ ids st -> head (paint_targets (set_paint_target st i t) i) = Some t.
Proof.
  intros Hi. unfold paint_targets, set_paint_target, update. cbn.
  rewrite find_in_update by done. rewrite decide_True by done.
  by apply find_in_Some in Hi as [r ->].
Qed.

Lemma assign_used_ids st i infl : ids (assign_used st i infl) = ids st.
Proof. by apply ids_update. Qed.

Lemma ex_store_wf : wf ex_store.
Proof. split_and!; [decide_vm|decide_vm|]. intros c [= <-]. decide_vm. Qed.

End ListLayers.

#[export] Existing Instances ListLayers.api ListLayers.laws.
