(* ===== verification/ShortName.v ===== *)
(** * [short_name] and [IndexedName] of [api/influence_names.py]

    [short_name name min_len] searches the last ['|'] strictly before the
    last [min_len + 1] characters of [name] and returns what follows it; the
    search bound [len(name) - min_len - 1] is a Python slice bound, so when
    [min_len = len(name)] it is [-1] and counts from the end.  [IndexedName]
    pairs a path with its current short name; [extend_short_name] moves the
    name one segment to the left. *)

From S2P Require Import Prelude.

(** ** Definitions *)

(** [def short_name(name, min_len=0)] *)
Definition short_name (name : pystr) (min_len : nat) : pystr :=
  let idx := py_rfind name PIPE (Z.of_nat (length name) - Z.of_nat min_len - 1) in
  if (idx <? 0)%Z then name else py_from name (idx + 1).

Module IndexedName.

(** [class IndexedName]: the two attributes of an instance. *)
Record t := mk { path : pystr; name : pystr }.

(** [IndexedName.__init__(self, path)] *)
Definition init (p : pystr) : t := mk p (short_name p 0).

(** [IndexedName.extend_short_name(self)] *)
Definition extend_short_name (it : t) : t :=
  mk (path it) (short_name (path it) (length (name it))).

End IndexedName.

(** What follows the last ['|'] of [x], or [x] itself. *)
Definition after_last_pipe (x : pystr) : pystr :=
  match last_index PIPE x with Some i => drop (S i) x | None => x end.

(** A short name of [p]: [p] itself, or the part of [p] after some ['|']. *)
Definition name_ok (p n : pystr) : Prop := n = p \/ exists pre, p = pre ++ PIPE :: n.

(** Maya DAG paths: a leading ['|'] and no empty segment. *)
Fixpoint no_empty_segment (p : pystr) : bool :=
  match p with
  | a :: ((b :: _) as p') => negb (bool_decide (a = PIPE /\ b = PIPE)) && no_empty_segment p'
  | [a] => negb (bool_decide (a = PIPE))
  | [] => true
  end.

Definition maya_path (p : pystr) : bool :=
  bool_decide (head p = Some PIPE) && no_empty_segment p.

(** ** The search window of [short_name] *)

Lemma py_slice_stop_window (x y : pystr) m :
  length y = S m ->
  py_slice_stop (length (x ++ y)) (Z.of_nat (length (x ++ y)) - Z.of_nat m - 1) = length x.
Proof.
  intros Hy. unfold py_slice_stop. rewrite length_app.
  destruct (Z.ltb_spec (Z.of_nat (length x + length y) - Z.of_nat m - 1) 0); lia.
Qed.

(** The master lemma: with a window that leaves out the last [m + 1]
    characters [y], [short_name] keeps [y] and what follows the last ['|']
    of the window [x]. *)
Lemma short_name_app x y m :
  length y = S m -> short_name (x ++ y) m = after_last_pipe x ++ y.
Proof.
  intros Hy. unfold short_name, py_rfind, after_last_pipe.
  rewrite py_slice_stop_window by done. rewrite take_app_length.
  destruct (last_index PIPE x) as [i|] eqn:E; [|done].
  destruct (last_index_Some _ _ _ E) as [Hi _].
  apply lookup_lt_Some in Hi.
  destruct (Z.ltb_spec (Z.of_nat i) 0); [lia|].
  unfold py_from. rewrite Z2Nat.inj_add, Nat2Z.id by lia. simpl.
  rewrite drop_app_le by lia. f_equal. f_equal. lia.
Qed.

(** Extending a name that is already the whole path does not keep it:
    the search bound [len(name) - len(name) - 1 = -1] is a Python slice bound
    that counts from the end, so the name starts over at the first short
    name.  The short name is not monotone. *)
Theorem short_name_wrap p : short_name p (length p) = short_name p 0.
Proof.
  assert (E : py_slice_stop (length p) (Z.of_nat (length p) - Z.of_nat (length p) - 1)
            = py_slice_stop (length p) (Z.of_nat (length p) - Z.of_nat 0 - 1)).
  { unfold py_slice_stop.
    destruct (Z.ltb_spec (Z.of_nat (length p) - Z.of_nat (length p) - 1) 0),
             (Z.ltb_spec (Z.of_nat (length p) - Z.of_nat 0 - 1) 0); lia. }
  unfold short_name, py_rfind. by rewrite E.
Qed.

(** ** What follows the last delimiter *)

Lemma after_last_pipe_no_pipe pre seg :
  PIPE ∉ seg -> after_last_pipe (pre ++ PIPE :: seg) = seg.
Proof.
  intros Hseg. unfold after_last_pipe.
  destruct (last_index PIPE (pre ++ PIPE :: seg)) as [i|] eqn:E.
  - destruct (last_index_Some _ _ _ E) as [Hi Hmax].
    destruct (decide (i = length pre)) as [->|Hne].
    + rewrite drop_app_ge by lia. by replace (S (length pre) - length pre) with 1 by lia.
    + exfalso. destruct (decide (i < length pre)).
      * apply (Hmax (length pre)); [lia|]. by rewrite list_lookup_middle.
      * rewrite lookup_app_r in Hi by lia.
        destruct (i - length pre) as [|j] eqn:Ej; [lia|]. simpl in Hi.
        apply Hseg. apply list_elem_of_lookup. eauto.
  - exfalso. apply (proj1 (last_index_None _ _) E). set_solver.
Qed.

Lemma after_last_pipe_id x : PIPE ∉ x -> after_last_pipe x = x.
Proof. intros Hx. unfold after_last_pipe. by rewrite (proj2 (last_index_None _ _) Hx). Qed.

Lemma after_last_pipe_shape x : name_ok x (after_last_pipe x).
Proof.
  unfold name_ok, after_last_pipe.
  destruct (last_index PIPE x) as [i|] eqn:E; [right|by left].
  destruct (last_index_Some _ _ _ E) as [Hi _]. exists (take i x).
  symmetry. by apply take_drop_middle.
Qed.

(** ** Every short name is a whole-segment suffix of its path *)

Lemma short_name_shape p m : name_ok p (short_name p m).
Proof.
  unfold short_name, py_rfind.
  destruct (last_index PIPE (take (py_slice_stop (length p) _) p)) as [i|] eqn:E; [|by left].
  destruct (Z.ltb_spec (Z.of_nat i) 0); [lia|]. right.
  destruct (last_index_Some _ _ _ E) as [Hi _]. rewrite lookup_take_Some in Hi.
  destruct Hi as [Hi _]. exists (take i p). unfold py_from.
  replace (Z.to_nat (Z.of_nat i + 1)) with (S i) by lia.
  symmetry. by apply take_drop_middle.
Qed.

Lemma name_ok_length p n : name_ok p n -> length n <= length p.
Proof. intros [->|[pre ->]]; [lia|rewrite length_app; simpl; lia]. Qed.

Lemma name_ok_length_lt p n : name_ok p n -> n <> p -> length n < length p.
Proof. intros [->|[pre ->]] Hne; [done|rewrite length_app; simpl; lia]. Qed.

#[export] Hint Resolve short_name_shape name_ok_length : pyhints.

(** ** One more segment *)

(** Extending a proper short name [r] of [x ++ '|' :: r] keeps [r] and adds
    what follows the last delimiter of [x]: exactly one segment. *)
Lemma short_name_extend x r :
  short_name (x ++ PIPE :: r) (length r) = after_last_pipe x ++ PIPE :: r.
Proof. by apply short_name_app. Qed.

(** Extending a short name [r] that follows a delimiter adds exactly
    the segment before it, with its delimiter. *)
Theorem short_name_extend_segment pre seg r :
  PIPE ∉ seg ->
  short_name (pre ++ PIPE :: seg ++ PIPE :: r) (length r) = seg ++ PIPE :: r.
Proof.
  intros Hseg. rewrite app_comm_cons, app_assoc, short_name_extend.
  by rewrite after_last_pipe_no_pipe.
Qed.

(** The first short name is what follows the last delimiter before the last
    character. *)
Lemma short_name_init x c : short_name (x ++ [c]) 0 = after_last_pipe x ++ [c].
Proof. by apply short_name_app. Qed.

(** A proper short name grows strictly when it is extended. *)
Lemma short_name_grows p n :
  name_ok p n -> n <> p -> length n < length (short_name p (length n)).
Proof.
  intros [->|[pre ->]] Hne; [done|].
  rewrite short_name_extend, length_app. simpl. lia.
Qed.

(** ** Maya paths *)

Lemma no_empty_segment_double x y : no_empty_segment (x ++ PIPE :: PIPE :: y) = false.
Proof.
  induction x as [|a x IH]; [reflexivity|].
  change ((a :: x) ++ PIPE :: PIPE :: y) with (a :: (x ++ PIPE :: PIPE :: y)).
  destruct (x ++ PIPE :: PIPE :: y) as [|b l] eqn:E; [destruct x; discriminate|].
  assert (Hstep : no_empty_segment (a :: b :: l)
    = negb (bool_decide (a = PIPE /\ b = PIPE)) && no_empty_segment (b :: l)) by done.
  rewrite Hstep, IH. apply andb_false_r.
Qed.


(** On Maya paths, a short name of [p] that is itself a whole Maya path is
    [p]: a proper short name never starts with the delimiter. *)
Lemma maya_name_ok_full p c :
  maya_path p = true -> maya_path c = true -> name_ok p c -> c = p.
Proof.
  intros Hp Hc [->|[pre ->]]; [done|]. exfalso.
  unfold maya_path in *. apply andb_prop in Hp as [_ Hp]. apply andb_prop in Hc as [Hc _].
  apply bool_decide_eq_true in Hc. destruct c as [|a c]; [done|]. simpl in Hc.
  injection Hc as ->. by rewrite no_empty_segment_double in Hp.
Qed.

(** ** [IndexedName] *)

Lemma init_ok p : name_ok (IndexedName.path (IndexedName.init p)) (IndexedName.name (IndexedName.init p)).
Proof. apply short_name_shape. Qed.

Lemma extend_ok it :
  name_ok (IndexedName.path (IndexedName.extend_short_name it))
          (IndexedName.name (IndexedName.extend_short_name it)).
Proof. apply short_name_shape. Qed.

Lemma extend_path it :
  IndexedName.path (IndexedName.extend_short_name it) = IndexedName.path it.
Proof. done. Qed.

#[export] Hint Resolve init_ok extend_ok : pyhints.
#[export] Hint Rewrite extend_path : pyrw.

(** Every short name is a whole-segment suffix of its path: the path
    itself, or what follows one of its ['|'] delimiters. *)
Theorem short_name_ok p m : name_ok p (short_name p m).
Proof. apply short_name_shape. Qed.

Lemma short_name_extend_segment_witness :
  (PIPE ∉ py "spine") /\
  short_name (py "|root" ++ PIPE :: py "spine" ++ PIPE :: py "arm") (length (py "arm"))
    = py "spine" ++ PIPE :: py "arm".
Proof.
  assert (H : PIPE ∉ py "spine") by decide_vm.
  exact (conj H (short_name_extend_segment (py "|root") (py "spine") (py "arm") H)).
Defined.
