(* ===== verification/UniqueNames.v ===== *)
(** * [extend_unique_names] and [unique_names] of [api/influence_names.py]

    [unique_names] wraps each path in an [IndexedName], sorts the objects by
    reversed path and, for each position [i] of the sorted list, runs the
    [while] loop of [extend_unique_names] that extends the name at [i] and
    every later name equal to it until no later name equals it.  The list
    [indexed_names] and the sorted list share the objects: the model keeps
    one arena [store] indexed by input position, and the sorted list is a
    list of indices into it ([sorted_by_reversed_name]).  The [while] loop
    takes fuel and answers [None] when the fuel runs out. *)

From S2P Require Import Prelude ShortName.

(** ** The shared objects *)

Abbreviation store := (list IndexedName.t).

#[export] Instance IndexedName_inhabited : Inhabited IndexedName.t :=
  populate (IndexedName.mk [] []).

Definition name_at (st : store) (k : nat) : pystr := IndexedName.name (st !!! k).
Definition path_at (st : store) (k : nat) : pystr := IndexedName.path (st !!! k).

(** [sorted(indexed_names, key=lambda x: x.path[::-1])], as indices. *)
Definition rev_path_le (st : store) (i j : nat) : Prop :=
  py_str_leb (reverse (path_at st i)) (reverse (path_at st j)) = true.

#[export] Instance rev_path_le_dec st i j : Decision (rev_path_le st i j).
Proof. unfold rev_path_le. apply _. Defined.

Definition sorted_by_reversed_name (st : store) : list nat :=
  merge_sort (rev_path_le st) (seq 0 (length st)).

(** ** [extend_unique_names] *)

(** One pass of the [for item in items[from_item + 1:]] loop: [curr_name]
    is the name of [curr] read before the pass; [needs] is
    [needs_more_iterations]. *)
Fixpoint scan_items (st : store) (curr : nat) (curr_name : pystr) (needs : bool)
    (rest : list nat) : store * bool :=
  match rest with
  | [] => (st, needs)
  | k :: rest' =>
      if bool_decide (name_at st k = curr_name) then
        let st1 := if needs then st else alter IndexedName.extend_short_name curr st in
        scan_items (alter IndexedName.extend_short_name k st1) curr curr_name true rest'
      else scan_items st curr curr_name needs rest'
  end.

(** [while needs_more_iterations: ...] with fuel. *)
Fixpoint while_needs (fuel : nat) (st : store) (curr : nat) (rest : list nat) : option store :=
  match fuel with
  | 0 => None
  | S fuel' =>
      let '(st', needs) := scan_items st curr (name_at st curr) false rest in
      if needs then while_needs fuel' st' curr rest else Some st'
  end.

(** [def extend_unique_names(items, from_item)] *)
Definition extend_unique_names (fuel : nat) (items : list nat) (from_item : nat)
    (st : store) : option store :=
  if decide (length items - 1 <= from_item) then Some st
  else while_needs fuel st (items !!! from_item) (drop (S from_item) items).

(** ** [unique_names] *)

(** [for i in idxs: f(i)] where [f] may not return. *)
Fixpoint for_each (f : nat -> store -> option store) (idxs : list nat) (st : store) : option store :=
  match idxs with
  | [] => Some st
  | i :: idxs' => match f i st with Some st' => for_each f idxs' st' | None => None end
  end.

Definition unique_names_fuel (fuel : nat) (name_list : list pystr) : option (list pystr) :=
  let indexed_names := map IndexedName.init name_list in
  let sorted := sorted_by_reversed_name indexed_names in
  match for_each (extend_unique_names fuel sorted) (seq 0 (length sorted)) indexed_names with
  | Some st => Some (map IndexedName.name st)
  | None => None
  end.

(** Fuel of each [while] loop: one more pass than the longest path. *)
Definition loop_fuel (name_list : list pystr) : nat := S (max_list (map length name_list)).

(** [def unique_names(name_list)]; [None] when a [while] loop does not end. *)
Definition unique_names (name_list : list pystr) : option (list pystr) :=
  unique_names_fuel (loop_fuel name_list) name_list.

Definition pys (l : list string) : list pystr := map py l.

(** ** One pass, described pointwise *)

(** Does a later item carry the name [cn]? *)
Definition any_match (st : store) (cn : pystr) (rest : list nat) : bool :=
  existsb (fun k => bool_decide (name_at st k = cn)) rest.

(** Which objects a pass extends: the later items named [cn], and [curr]
    when some later item is named [cn] and [curr] was not extended yet. *)
Definition pass_hits (st : store) (curr : nat) (cn : pystr) (needs : bool)
    (rest : list nat) (j : nat) : bool :=
  bool_decide (j ∈ rest /\ name_at st j = cn)
  || (bool_decide (j = curr) && negb needs && any_match st cn rest).

(** The reference pass: all the extensions of the [for] loop at once. *)
Definition pass_ref (st : store) (curr : nat) (rest : list nat) : store * bool :=
  let cn := name_at st curr in
  (imap (fun j it => if pass_hits st curr cn false rest j
                     then IndexedName.extend_short_name it else it) st,
   any_match st cn rest).

(** ** Stores that evolve by extensions *)

(** Every object's name is a whole-segment suffix of its path. *)
Definition store_ok (st : store) : Prop :=
  forall k it, st !! k = Some it -> name_ok (IndexedName.path it) (IndexedName.name it).

(** [st'] has the objects of [st] with the same paths, and keeps [store_ok]. *)
Definition descends (st st' : store) : Prop :=
  (forall k, IndexedName.path <$> st' !! k = IndexedName.path <$> st !! k)
  /\ (store_ok st -> store_ok st').

(** ** Invariants that only depend on the paths *)

Definition maya_store (st : store) : Prop :=
  forall k it, st !! k = Some it -> maya_path (IndexedName.path it) = true.

Definition distinct_paths (st : store) : Prop :=
  forall i j, i < length st -> j < length st -> path_at st i = path_at st j -> i = j.

(** Everything [unique_names] needs of a store to finish a loop. *)
Definition runnable (st0 st : store) : Prop :=
  descends st0 st /\ store_ok st0 /\ maya_store st0 /\ distinct_paths st0.

Example ex_doc : unique_names (pys ["|a|b"; "|a|b|c"; "b|b"]) = Some (pys ["a|b"; "c"; "b|b"]).
Proof. vm_compute. reflexivity. Qed.
Example ex_single : unique_names (pys ["|only|node"]) = Some (pys ["node"]).
Proof. vm_compute. reflexivity. Qed.
Example ex_dup : unique_names (pys ["a|b"; "X|a|b"; "Z|X|a|b"]) = Some (pys ["b"; "b"; "Z|X|a|b"]).
Proof. vm_compute. reflexivity. Qed.
Example ex_same : unique_names (pys ["|a"; "|a"]) = None.
Proof. vm_compute. reflexivity. Qed.

Lemma any_match_true st cn rest :
  any_match st cn rest = true <-> exists k, k ∈ rest /\ name_at st k = cn.
Proof.
  unfold any_match. rewrite existsb_exists.
  split; intros [k [Hk Hn]]; exists k; rewrite list_elem_of_In in *;
    [by apply bool_decide_eq_true in Hn|by rewrite bool_decide_eq_true].
Qed.

Lemma name_at_alter_ne st f k j : k <> j -> name_at (alter f k st) j = name_at st j.
Proof. intros Hne. unfold name_at. by rewrite list_lookup_total_alter_ne. Qed.

Lemma scan_items_snd st curr cn needs rest :
  NoDup rest -> curr ∉ rest ->
  (scan_items st curr cn needs rest).2 = needs || any_match st cn rest.
Proof.
  revert st needs. induction rest as [|k rest IH]; intros st needs Hnd Hc; simpl.
  - by rewrite orb_false_r.
  - apply NoDup_cons in Hnd as [Hk Hnd]. rewrite elem_of_cons in Hc.
    case_bool_decide as Hm; simpl.
    + rewrite IH by set_solver. by rewrite orb_true_r.
    + rewrite IH by set_solver. done.
Qed.
Lemma scan_items_lookup st curr cn needs rest j :
  NoDup rest -> curr ∉ rest ->
  (scan_items st curr cn needs rest).1 !! j =
    if pass_hits st curr cn needs rest j then IndexedName.extend_short_name <$> st !! j
    else st !! j.
Proof.
  revert st needs. induction rest as [|k rest IH]; intros st needs Hnd Hc.
  - unfold pass_hits, any_match; simpl. by rewrite andb_false_r.
  - apply NoDup_cons in Hnd as [Hk Hnd].
    assert (curr <> k /\ curr ∉ rest) as [Hck Hc'] by set_solver.
    simpl. case_bool_decide as Hm; rewrite (IH _ _ Hnd Hc'); unfold pass_hits, any_match; simpl.
    + rewrite andb_false_r, orb_false_r, (bool_decide_eq_true_2 _ Hm), orb_true_l, andb_true_r.
      destruct (decide (j = k)) as [->|Hjk].
      * rewrite (bool_decide_eq_false_2 (k ∈ rest ∧ _)) by tauto.
        rewrite (bool_decide_eq_true_2 (k ∈ k :: rest ∧ _)) by set_solver.
        simpl. rewrite list_lookup_alter_eq. destruct needs; [done|].
        by rewrite list_lookup_alter_ne.
      * destruct (decide (j = curr)) as [->|Hjc].
        -- rewrite (bool_decide_eq_false_2 (curr ∈ rest ∧ _)) by tauto.
           rewrite (bool_decide_eq_false_2 (curr ∈ k :: rest ∧ _)) by set_solver.
           rewrite (bool_decide_eq_true_2 (curr = curr)) by done. simpl.
           rewrite list_lookup_alter_ne by done. destruct needs; simpl; [done|].
           by rewrite list_lookup_alter_eq.
        -- rewrite (bool_decide_eq_false_2 (j = curr)) by done. rewrite !orb_false_r.
           assert (Hst : alter IndexedName.extend_short_name k
               (if needs then st else alter IndexedName.extend_short_name curr st) !! j = st !! j
             /\ name_at (alter IndexedName.extend_short_name k
               (if needs then st else alter IndexedName.extend_short_name curr st)) j = name_at st j).
           { destruct needs; rewrite ?list_lookup_alter_ne, ?name_at_alter_ne by congruence; done. }
           destruct Hst as [-> ->].
           by rewrite (bool_decide_ext (j ∈ k :: rest ∧ name_at st j = cn)
                                       (j ∈ rest ∧ name_at st j = cn)) by set_solver.
    + rewrite (bool_decide_eq_false_2 _ Hm), orb_false_l.
      rewrite (bool_decide_ext (j ∈ k :: rest ∧ name_at st j = cn)
                               (j ∈ rest ∧ name_at st j = cn)); [done|].
      split; [intros [[->|Hin]%elem_of_cons Hn]; [done|by split]|set_solver].
Qed.

Lemma descends_refl st : descends st st.
Proof. split; auto. Qed.

Lemma descends_trans st1 st2 st3 : descends st1 st2 -> descends st2 st3 -> descends st1 st3.
Proof. intros [P1 O1] [P2 O2]. split; [intros k; by rewrite P2, P1|auto]. Qed.

Lemma descends_pointwise (st st' : store) :
  (forall j, st' !! j = st !! j \/ st' !! j = IndexedName.extend_short_name <$> st !! j) ->
  descends st st'.
Proof.
  intros Hpt. split.
  - intros k. destruct (Hpt k) as [->| ->]; [done|]. by destruct (st !! k).
  - intros Hok k it Hk. destruct (Hpt k) as [E|E]; rewrite E in Hk; [by eapply Hok|].
    destruct (st !! k) as [it0|]; [|done]. injection Hk as <-. apply extend_ok.
Qed.

#[export] Hint Resolve descends_refl descends_trans : pyhints.

Lemma descends_length st st' : descends st st' -> length st' = length st.
Proof.
  intros [Hp _]. assert (Hk : forall k, k < length st' <-> k < length st).
  { intros k. rewrite <- !lookup_lt_is_Some, <- (fmap_is_Some IndexedName.path (st' !! k)), Hp.
    apply fmap_is_Some. }
  pose proof (Hk (length st)). pose proof (Hk (length st')). lia.
Qed.

Lemma descends_path_at st st' k : descends st st' -> path_at st' k = path_at st k.
Proof.
  intros Hd. pose proof (descends_length _ _ Hd) as Hl. destruct Hd as [Hp _].
  specialize (Hp k). unfold path_at.
  destruct (st !! k) as [it|] eqn:E.
  - destruct (st' !! k) as [it'|] eqn:E'; [|discriminate].
    rewrite (list_lookup_total_correct _ _ _ E), (list_lookup_total_correct _ _ _ E').
    by injection Hp.
  - rewrite !list_lookup_total_alt, E. apply lookup_ge_None_1 in E.
    by rewrite lookup_ge_None_2 by lia.
Qed.

Lemma scan_items_descends st curr cn needs rest :
  NoDup rest -> curr ∉ rest -> descends st (scan_items st curr cn needs rest).1.
Proof.
  intros Hnd Hc. apply descends_pointwise. intros j.
  rewrite scan_items_lookup by done. destruct (pass_hits _ _ _ _ _ _); auto.
Qed.

Lemma while_needs_descends fuel st curr rest st' :
  NoDup rest -> curr ∉ rest -> while_needs fuel st curr rest = Some st' -> descends st st'.
Proof.
  revert st. induction fuel as [|fuel IH]; intros st Hnd Hc H; simpl in H; [discriminate|].
  pose proof (scan_items_descends st curr (name_at st curr) false rest Hnd Hc) as Hd.
  destruct (scan_items _ _ _ _ _) as [st1 b]. simpl in Hd.
  destruct b; [eauto using descends_trans|by injection H as <-].
Qed.

Lemma extend_unique_names_descends fuel items from st st' :
  NoDup items -> extend_unique_names fuel items from st = Some st' -> descends st st'.
Proof.
  unfold extend_unique_names. intros Hnd H. case_decide; [injection H as <-; apply descends_refl|].
  eapply while_needs_descends; [by apply NoDup_drop_any| |exact H].
  apply NoDup_not_elem_drop; [done|]. apply list_lookup_lookup_total_lt. lia.
Qed.

Lemma for_each_descends (f : nat -> store -> option store) idxs st st' :
  (forall i st1 st2, f i st1 = Some st2 -> descends st1 st2) ->
  for_each f idxs st = Some st' -> descends st st'.
Proof.
  intros Hf. revert st. induction idxs as [|i idxs IH]; intros st H; simpl in H.
  - injection H as <-. apply descends_refl.
  - destruct (f i st) as [st1|] eqn:E; [|discriminate]. eauto using descends_trans.
Qed.

(** ** The sorted view *)

Lemma sorted_perm st : sorted_by_reversed_name st ≡ₚ seq 0 (length st).
Proof. apply merge_sort_Permutation. Qed.

Lemma sorted_NoDup st : NoDup (sorted_by_reversed_name st).
Proof. rewrite sorted_perm. apply NoDup_seq. Qed.

Lemma sorted_length st : length (sorted_by_reversed_name st) = length st.
Proof. by rewrite sorted_perm, length_seq. Qed.

Lemma sorted_elem st k : k ∈ sorted_by_reversed_name st <-> k < length st.
Proof. rewrite sorted_perm, elem_of_seq. lia. Qed.

Lemma init_store_ok l : store_ok (map IndexedName.init l).
Proof.
  intros k it Hk. apply list_lookup_fmap_Some in Hk as (p & -> & _). apply init_ok.
Qed.

(** The objects [unique_names] ends with descend from the initial ones. *)
Lemma unique_names_run fuel l r :
  unique_names_fuel fuel l = Some r ->
  exists st, descends (map IndexedName.init l) st /\ r = map IndexedName.name st.
Proof.
  unfold unique_names_fuel.
  destruct (for_each _ _ _) as [st|] eqn:E; [|discriminate]. intros [= <-].
  exists st. split; [|done]. eapply for_each_descends; [|exact E].
  intros i st1 st2. apply extend_unique_names_descends, sorted_NoDup.
Qed.

Lemma descends_maya st st' : descends st st' -> maya_store st -> maya_store st'.
Proof.
  intros [Hp _] Hm k it Hk. specialize (Hp k). rewrite Hk in Hp.
  destruct (st !! k) as [it0|] eqn:E; [|discriminate]. injection Hp as ->. by eapply Hm.
Qed.

Lemma descends_distinct st st' : descends st st' -> distinct_paths st -> distinct_paths st'.
Proof.
  intros Hd Hdist i j Hi Hj. rewrite !(descends_path_at _ _ _ Hd).
  rewrite (descends_length _ _ Hd) in Hi, Hj. by apply Hdist.
Qed.

Lemma store_ok_at st k : store_ok st -> k < length st -> name_ok (path_at st k) (name_at st k).
Proof.
  intros Hok Hk. apply (Hok k). by apply list_lookup_lookup_total_lt.
Qed.

Lemma maya_at st k : maya_store st -> k < length st -> maya_path (path_at st k) = true.
Proof. intros Hm Hk. apply (Hm k). by apply list_lookup_lookup_total_lt. Qed.

Lemma scan_items_curr st curr cn rest :
  NoDup rest -> curr ∉ rest ->
  (scan_items st curr cn false rest).1 !! curr =
    if any_match st cn rest then IndexedName.extend_short_name <$> st !! curr else st !! curr.
Proof.
  intros Hnd Hc. rewrite scan_items_lookup by done. unfold pass_hits.
  rewrite bool_decide_eq_false_2 by tauto. rewrite bool_decide_eq_true_2 by done. done.
Qed.

(** On distinct Maya paths, a name that is the whole path matches no later
    name: the [while] loop only repeats while the current name grows. *)
Lemma whole_name_no_match st curr rest :
  store_ok st -> maya_store st -> distinct_paths st -> curr < length st ->
  (forall k, k ∈ rest -> k < length st) -> curr ∉ rest ->
  name_at st curr = path_at st curr -> any_match st (name_at st curr) rest = false.
Proof.
  intros Hok Hm Hd Hc Hr Hcr Hfull. apply not_true_is_false. rewrite any_match_true.
  intros (k & Hk & Hn). rewrite Hfull in Hn.
  pose proof (store_ok_at st k Hok (Hr k Hk)) as Hkok. rewrite Hn in Hkok.
  apply maya_name_ok_full in Hkok; [|by apply maya_at, Hr|by apply maya_at].
  assert (curr = k) as <- by (apply Hd; auto). done.
Qed.

Lemma while_needs_total fuel st curr rest :
  NoDup rest -> curr ∉ rest -> curr < length st -> (forall k, k ∈ rest -> k < length st) ->
  store_ok st -> maya_store st -> distinct_paths st ->
  length (path_at st curr) - length (name_at st curr) < fuel ->
  is_Some (while_needs fuel st curr rest).
Proof.
  revert st. induction fuel as [|fuel IH]; intros st Hnd Hc Hcl Hr Hok Hm Hd Hf; [lia|].
  simpl. pose proof (scan_items_snd st curr (name_at st curr) false rest Hnd Hc) as Hb.
  pose proof (scan_items_descends st curr (name_at st curr) false rest Hnd Hc) as Hdesc.
  pose proof (scan_items_curr st curr (name_at st curr) rest Hnd Hc) as Hcurr.
  destruct (scan_items _ _ _ _ _) as [st1 b]. simpl in Hb, Hdesc, Hcurr. subst b.
  destruct (any_match st (name_at st curr) rest) eqn:Em; [|simpl; by eexists].
  assert (Hne : name_at st curr <> path_at st curr).
  { intros Hfull. by rewrite whole_name_no_match in Em. }
  pose proof (descends_length _ _ Hdesc) as Hlen.
  apply IH; rewrite ?Hlen; eauto using descends_maya, descends_distinct.
  - by apply Hdesc.
  - rewrite (descends_path_at _ _ _ Hdesc).
    rewrite (list_lookup_lookup_total_lt st) in Hcurr by done.
    unfold name_at at 1. rewrite (list_lookup_total_correct _ _ _ Hcurr). simpl.
    pose proof (short_name_grows _ _ (store_ok_at st curr Hok Hcl) Hne).
    pose proof (name_ok_length_lt _ _ (store_ok_at st curr Hok Hcl) Hne).
    unfold path_at, name_at in *. lia.
Qed.

Lemma runnable_facts st0 st :
  runnable st0 st ->
  store_ok st /\ maya_store st /\ distinct_paths st /\ length st = length st0
  /\ (forall k, path_at st k = path_at st0 k).
Proof.
  intros (Hd & Hok & Hm & Hdist). pose proof Hd as [_ Hok'].
  repeat split; eauto using descends_maya, descends_distinct, descends_length.
  intros k. by apply descends_path_at.
Qed.

Lemma extend_unique_names_total fuel items from st0 st :
  NoDup items -> (forall k, k ∈ items -> k < length st0) ->
  (forall k, k < length st0 -> length (path_at st0 k) < fuel) ->
  runnable st0 st -> exists st', extend_unique_names fuel items from st = Some st' /\ runnable st0 st'.
Proof.
  intros Hnd Hitems Hfuel Hrun.
  pose proof (runnable_facts _ _ Hrun) as (Hok & Hm & Hd & Hlen & Hpath).
  unfold extend_unique_names. case_decide; [by exists st|].
  assert (Hcurr : items !! from = Some (items !!! from)) by (apply list_lookup_lookup_total_lt; lia).
  assert (Hcl : items !!! from < length st).
  { rewrite Hlen. apply Hitems. apply list_elem_of_lookup. eauto. }
  assert (Hrest : NoDup (drop (S from) items)) by auto with pyhints.
  assert (Hnot : items !!! from ∉ drop (S from) items) by auto with pyhints.
  destruct (while_needs_total fuel st (items !!! from) (drop (S from) items)) as [st' Hw];
    auto.
  - intros k Hk. rewrite Hlen. apply Hitems. by apply elem_of_drop_any in Hk.
  - rewrite Hpath. specialize (Hfuel (items !!! from)). lia.
  - exists st'. split; [done|]. destruct Hrun as (Hd0 & Hrest0).
    split; [|done]. eapply descends_trans; [exact Hd0|].
    by eapply while_needs_descends; [| |exact Hw].
Qed.

Lemma for_each_total (f : nat -> store -> option store) (P : store -> Prop) idxs st :
  (forall i st1, P st1 -> exists st2, f i st1 = Some st2 /\ P st2) ->
  P st -> exists st', for_each f idxs st = Some st' /\ P st'.
Proof.
  intros Hf. revert st. induction idxs as [|i idxs IH]; intros st Hst; simpl; [by exists st|].
  destruct (Hf i st Hst) as (st2 & -> & H2). by apply IH.
Qed.

Lemma distinct_paths_init l : NoDup l -> distinct_paths (map IndexedName.init l).
Proof.
  intros Hnd i j Hi Hj Hp. rewrite length_map in Hi, Hj.
  unfold path_at in Hp.
  rewrite !list_lookup_total_alt, !list_lookup_fmap in Hp.
  destruct (lookup_lt_is_Some_2 l i Hi) as [pi Hpi], (lookup_lt_is_Some_2 l j Hj) as [pj Hpj].
  rewrite Hpi, Hpj in Hp. simpl in Hp. subst. by eapply NoDup_lookup.
Qed.

Lemma maya_store_init l : Forall (fun p => maya_path p = true) l -> maya_store (map IndexedName.init l).
Proof.
  intros Hl k it Hk. apply list_lookup_fmap_Some in Hk as (p & -> & Hp).
  rewrite Forall_lookup in Hl. by apply (Hl k).
Qed.

Lemma path_at_init l k : k < length l -> length (path_at (map IndexedName.init l) k) <= max_list (map length l).
Proof.
  intros Hk. destruct (lookup_lt_is_Some_2 l k Hk) as [p Hp].
  unfold path_at. rewrite list_lookup_total_alt, list_lookup_fmap, Hp. simpl.
  apply max_list_elem_of_le, list_elem_of_lookup. exists k. by rewrite list_lookup_fmap, Hp.
Qed.

(** ** Fuel *)

Lemma while_needs_mono fuel fuel' st curr rest st' :
  fuel <= fuel' -> while_needs fuel st curr rest = Some st' ->
  while_needs fuel' st curr rest = Some st'.
Proof.
  revert fuel' st. induction fuel as [|fuel IH]; intros fuel' st Hle H; [discriminate|].
  destruct fuel' as [|fuel']; [lia|]. simpl in *.
  destruct (scan_items _ _ _ _ _) as [st1 []]; [|done]. apply IH; [lia|done].
Qed.

Lemma for_each_mono (f g : nat -> store -> option store) idxs st st' :
  (forall i st1 st2, f i st1 = Some st2 -> g i st1 = Some st2) ->
  for_each f idxs st = Some st' -> for_each g idxs st = Some st'.
Proof.
  intros Hfg. revert st. induction idxs as [|i idxs IH]; intros st H; simpl in *; [done|].
  destruct (f i st) as [st1|] eqn:E; [|discriminate]. rewrite (Hfg _ _ _ E). auto.
Qed.

Lemma unique_names_fuel_mono fuel fuel' l r :
  fuel <= fuel' -> unique_names_fuel fuel l = Some r -> unique_names_fuel fuel' l = Some r.
Proof.
  intros Hle. unfold unique_names_fuel.
  destruct (for_each _ _ _) as [st|] eqn:E; [|discriminate]. intros H.
  erewrite for_each_mono; [exact H| |exact E].
  intros i st1 st2. unfold extend_unique_names. case_decide; [done|].
  by apply while_needs_mono.
Qed.

(** ** Identical paths *)

Lemma name_at_same st i j : st !! i = st !! j -> name_at st i = name_at st j.
Proof. intros H. unfold name_at. by rewrite !list_lookup_total_alt, H. Qed.

(** Two later objects equal before a pass are equal after it. *)
Lemma scan_items_twins st curr cn rest i j :
  NoDup rest -> curr ∉ rest -> i ∈ rest -> j ∈ rest -> st !! i = st !! j ->
  (scan_items st curr cn false rest).1 !! i = (scan_items st curr cn false rest).1 !! j.
Proof.
  intros Hnd Hc Hi Hj Hij. rewrite !scan_items_lookup by done. unfold pass_hits.
  rewrite (bool_decide_eq_false_2 (i = curr)), (bool_decide_eq_false_2 (j = curr)) by set_solver.
  rewrite (name_at_same st i j Hij), Hij. simpl.
  by rewrite (bool_decide_ext (i ∈ rest ∧ _) (j ∈ rest ∧ name_at st j = cn)) by tauto.
Qed.

Lemma while_needs_twins fuel st curr rest i j st' :
  NoDup rest -> curr ∉ rest -> i ∈ rest -> j ∈ rest -> st !! i = st !! j ->
  while_needs fuel st curr rest = Some st' -> st' !! i = st' !! j.
Proof.
  revert st. induction fuel as [|fuel IH]; intros st Hnd Hc Hi Hj Hij H; [discriminate|].
  simpl in H. pose proof (scan_items_twins st curr (name_at st curr) rest i j Hnd Hc Hi Hj Hij) as Ht.
  destruct (scan_items _ _ _ _ _) as [st1 []]; simpl in Ht; [by eapply IH|by injection H as <-].
Qed.

(** A later object equal to the current one makes every pass match: the
    [while] loop never ends. *)
Lemma while_needs_diverges fuel st curr rest j :
  NoDup rest -> curr ∉ rest -> j ∈ rest -> st !! j = st !! curr -> is_Some (st !! curr) ->
  while_needs fuel st curr rest = None.
Proof.
  revert st. induction fuel as [|fuel IH]; intros st Hnd Hc Hj Hjc Hs; [done|]. simpl.
  assert (Hm : any_match st (name_at st curr) rest = true).
  { apply any_match_true. exists j. split; [done|]. by apply name_at_same. }
  pose proof (scan_items_curr st curr (name_at st curr) rest Hnd Hc) as Hcurr.
  pose proof (scan_items_lookup st curr (name_at st curr) false rest j Hnd Hc) as Hjl.
  pose proof (scan_items_snd st curr (name_at st curr) false rest Hnd Hc) as Hb.
  rewrite Hm in Hcurr, Hb. unfold pass_hits in Hjl.
  rewrite (bool_decide_eq_true_2 (j ∈ rest ∧ _)) in Hjl by (split; [done|by apply name_at_same]).
  destruct (scan_items _ _ _ _ _) as [st1 b]. simpl in *. subst b.
  apply IH; try done.
  - by rewrite Hjl, Hcurr, Hjc.
  - rewrite Hcurr. by destruct Hs as [? ->].
Qed.

Lemma for_each_diverges fuel view st i j pi m q :
  NoDup view -> view !! pi = Some i -> j ∈ drop (S pi) view ->
  q <= pi < q + m -> st !! i = st !! j -> is_Some (st !! i) ->
  for_each (extend_unique_names fuel view) (seq q m) st = None.
Proof.
  intros Hnd Hpi Hj. revert q st. induction m as [|m IH]; intros q st Hq Hij Hs; [lia|].
  simpl. unfold extend_unique_names at 1.
  assert (Hlen : S pi < length view).
  { apply list_elem_of_lookup in Hj as [k Hk]. rewrite lookup_drop in Hk.
    apply lookup_lt_Some in Hk. lia. }
  case_decide; [lia|].
  assert (Hrest : NoDup (drop (S q) view)) by auto with pyhints.
  assert (Hq' : view !! q = Some (view !!! q)) by (apply list_lookup_lookup_total_lt; lia).
  assert (Hnot : view !!! q ∉ drop (S q) view) by auto with pyhints.
  destruct (decide (q = pi)) as [->|Hne].
  - rewrite (list_lookup_total_correct _ _ _ Hpi) in *.
    by rewrite (while_needs_diverges fuel st i (drop (S pi) view) j).
  - assert (Hir : i ∈ drop (S q) view) by (apply (lookup_elem_drop _ _ pi); [lia|done]).
    assert (Hjr : j ∈ drop (S q) view).
    { apply (elem_of_drop_any (pi - q)). rewrite drop_drop.
      by replace (S q + (pi - q)) with (S pi) by lia. }
    destruct (while_needs fuel st (view !!! q) (drop (S q) view)) as [st'|] eqn:Ew; [|done].
    apply IH; [lia| |].
    + by eapply while_needs_twins; [| | | |exact Hij|exact Ew].
    + pose proof (while_needs_descends _ _ _ _ _ Hrest Hnot Ew) as [Hp _].
      specialize (Hp i). destruct Hs as [it Hit]. rewrite Hit in Hp.
      destruct (st' !! i); [by eexists|discriminate].
Qed.

Lemma unique_names_total (l : list pystr) :
  Forall (fun p => maya_path p = true) l -> NoDup l ->
  exists r, unique_names l = Some r /\
    forall fuel, loop_fuel l <= fuel -> unique_names_fuel fuel l = Some r.
Proof.
  intros Hmaya Hnd. set (st0 := map IndexedName.init l).
  assert (Hrun0 : runnable st0 st0).
  { split; [apply descends_refl|]. split; [apply init_store_ok|].
    split; [by apply maya_store_init|by apply distinct_paths_init]. }
  destruct (for_each_total (extend_unique_names (loop_fuel l) (sorted_by_reversed_name st0))
              (runnable st0) (seq 0 (length (sorted_by_reversed_name st0))) st0)
    as (st & E & _); [|done|].
  - intros i st1 Hst1. apply extend_unique_names_total; auto using sorted_NoDup.
    + intros k. by rewrite sorted_elem.
    + intros k Hk. unfold loop_fuel. subst st0. rewrite length_map in Hk.
      pose proof (path_at_init l k Hk). lia.
  - exists (map IndexedName.name st).
    assert (Hr : unique_names l = Some (map IndexedName.name st)).
    { unfold unique_names, unique_names_fuel. fold st0. by rewrite E. }
    split; [done|]. intros fuel Hf. by apply (unique_names_fuel_mono (loop_fuel l)).
Qed.

Lemma unique_names_names_ok (l r : list pystr) :
  unique_names l = Some r ->
  length r = length l /\
  forall i p n, l !! i = Some p -> r !! i = Some n -> name_ok p n.
Proof.
  intros H. destruct (unique_names_run _ _ _ H) as (st & Hd & ->).
  pose proof (descends_length _ _ Hd) as Hlen. rewrite length_map in Hlen.
  split; [by rewrite length_map|].
  intros i p n Hp Hn. apply list_lookup_fmap_Some in Hn as (it & -> & Hit).
  destruct Hd as [Hpaths Hok]. specialize (Hpaths i).
  assert (H0 : map IndexedName.init l !! i = Some (IndexedName.init p))
    by (apply list_lookup_fmap_Some; eauto).
  rewrite Hit, H0 in Hpaths. injection Hpaths as <-.
  by apply (Hok (init_store_ok l) i).
Qed.

(** ** Theorems *)

(** C1. On pairwise distinct Maya paths, [unique_names] returns: every
    [while] loop ends within [loop_fuel] passes, and any larger fuel gives
    the same names. *)
Theorem unique_names_terminates (l : list pystr) :
  Forall (fun p => maya_path p = true) l -> NoDup l ->
  exists r, unique_names l = Some r /\
    forall fuel, loop_fuel l <= fuel -> unique_names_fuel fuel l = Some r.
Proof. apply unique_names_total. Qed.

(** C2. When [unique_names] returns, it returns one name per input, in the
    input's order, and each name is a whole-segment suffix of its path: the
    path itself or what follows one of its delimiters. *)
Theorem unique_names_shape (l r : list pystr) :
  unique_names l = Some r ->
  length r = length l /\
  forall i p n, l !! i = Some p -> r !! i = Some n -> name_ok p n.
Proof. apply unique_names_names_ok. Qed.

(** C3. As soon as two inputs are the same path, [unique_names] does not
    return, whatever the fuel: the two objects stay equal, so every pass of
    the first one's [while] loop finds the second. *)
Theorem unique_names_diverges (l : list pystr) i j p :
  i <> j -> l !! i = Some p -> l !! j = Some p ->
  forall fuel, unique_names_fuel fuel l = None.
Proof.
  intros Hij Hi Hj fuel. unfold unique_names_fuel.
  set (st0 := map IndexedName.init l). set (view := sorted_by_reversed_name st0).
  assert (Hs : forall k, k < length l -> exists pk, view !! pk = Some k).
  { intros k Hk. apply list_elem_of_lookup. subst view. rewrite sorted_elem. subst st0.
    by rewrite length_map. }
  destruct (Hs i) as [pi Hpi]; [by eapply lookup_lt_Some|].
  destruct (Hs j) as [pj Hpj]; [by eapply lookup_lt_Some|].
  assert (Htw : st0 !! i = st0 !! j) by (subst st0; by rewrite !list_lookup_fmap, Hi, Hj).
  assert (Hsome : is_Some (st0 !! i)) by (subst st0; by rewrite list_lookup_fmap, Hi).
  assert (Hnd : NoDup view) by apply sorted_NoDup.
  assert (pi <> pj) by (intros ->; congruence).
  destruct (Nat.lt_total pi pj) as [Hlt|[Heq|Hlt]]; [|congruence|].
  - rewrite (for_each_diverges fuel view st0 i j pi _ 0); try done.
    + by apply (lookup_elem_drop _ _ pj).
    + apply lookup_lt_Some in Hpi. lia.
  - rewrite (for_each_diverges fuel view st0 j i pj _ 0); try done.
    + by apply (lookup_elem_drop _ _ pi).
    + apply lookup_lt_Some in Hpj. lia.
    + by rewrite Htw in Hsome.
Qed.

(** Pairwise distinct paths do not always get pairwise distinct names:
    a name that is already a whole path wraps back to its last segment (the
    slice bound [-1]), and [a|b], [X|a|b], [Z|X|a|b] end up as [b], [b],
    [Z|X|a|b].  The path [a|b] has no leading ['|']: on Maya paths, which
    have one, the names are distinct ([Uniqueness.v]). *)
Theorem unique_names_not_injective :
  ~ (forall l r, NoDup l -> unique_names l = Some r -> NoDup r).
Proof.
  intros H. assert (Hnd : NoDup (pys ["b"; "b"; "Z|X|a|b"])).
  { apply (H (pys ["a|b"; "X|a|b"; "Z|X|a|b"])); [vm_compute; repeat constructor; set_solver|].
    vm_compute. reflexivity. }
  vm_compute in Hnd. apply NoDup_cons in Hnd as [Hb _]. apply Hb. set_solver.
Qed.

(** C5. The [for] loop that mutates the shared objects one by one does what
    the reference pass [pass_ref] does at once: it extends exactly the later
    objects named like [curr] before the pass, and [curr] once if there is
    one, and reports whether there was one. *)
Theorem scan_items_pass_ref st curr rest :
  NoDup rest -> curr ∉ rest ->
  scan_items st curr (name_at st curr) false rest = pass_ref st curr rest.
Proof.
  intros Hnd Hc. unfold pass_ref. rewrite (surjective_pairing (scan_items _ _ _ _ _)).
  f_equal; [|by rewrite scan_items_snd].
  apply list_eq. intros j. rewrite scan_items_lookup, list_lookup_imap by done.
  destruct (st !! j); simpl; by destruct (pass_hits _ _ _ _ _ _).
Qed.

(** ** Witnesses *)

Lemma unique_names_terminates_witness :
  Forall (fun p => maya_path p = true) (pys ["|root|spine|arm"; "|root|leg|arm"; "|root"]) /\
  NoDup (pys ["|root|spine|arm"; "|root|leg|arm"; "|root"]) /\
  exists r, unique_names (pys ["|root|spine|arm"; "|root|leg|arm"; "|root"]) = Some r /\
    forall fuel, loop_fuel (pys ["|root|spine|arm"; "|root|leg|arm"; "|root"]) <= fuel ->
      unique_names_fuel fuel (pys ["|root|spine|arm"; "|root|leg|arm"; "|root"]) = Some r.
Proof.
  assert (H1 : Forall (fun p => maya_path p = true) (pys ["|root|spine|arm"; "|root|leg|arm"; "|root"]))
    by decide_vm.
  assert (H2 : NoDup (pys ["|root|spine|arm"; "|root|leg|arm"; "|root"])) by decide_vm.
  exact (conj H1 (conj H2 (unique_names_terminates _ H1 H2))).
Defined.

Lemma unique_names_shape_witness :
  unique_names (pys ["|a|b"; "|a|b|c"; "b|b"]) = Some (pys ["a|b"; "c"; "b|b"]) /\
  length (pys ["a|b"; "c"; "b|b"]) = length (pys ["|a|b"; "|a|b|c"; "b|b"]) /\
  forall i p n, pys ["|a|b"; "|a|b|c"; "b|b"] !! i = Some p ->
    pys ["a|b"; "c"; "b|b"] !! i = Some n -> name_ok p n.
Proof.
  assert (H : unique_names (pys ["|a|b"; "|a|b|c"; "b|b"]) = Some (pys ["a|b"; "c"; "b|b"]))
    by (vm_compute; reflexivity).
  exact (conj H (unique_names_shape _ _ H)).
Defined.

Lemma unique_names_diverges_witness :
  0 <> 1 /\ pys ["|a"; "|a"] !! 0 = Some (py "|a") /\ pys ["|a"; "|a"] !! 1 = Some (py "|a") /\
  forall fuel, unique_names_fuel fuel (pys ["|a"; "|a"]) = None.
Proof.
  assert (H0 : 0 <> 1) by lia.
  assert (H1 : pys ["|a"; "|a"] !! 0 = Some (py "|a")) by reflexivity.
  assert (H2 : pys ["|a"; "|a"] !! 1 = Some (py "|a")) by reflexivity.
  exact (conj H0 (conj H1 (conj H2 (unique_names_diverges _ _ _ _ H0 H1 H2)))).
Defined.

Lemma scan_items_pass_ref_witness :
  NoDup [1] /\ 0 ∉ [1] /\
  scan_items (map IndexedName.init (pys ["|a|b"; "|c|b"])) 0
    (name_at (map IndexedName.init (pys ["|a|b"; "|c|b"])) 0) false [1]
  = pass_ref (map IndexedName.init (pys ["|a|b"; "|c|b"])) 0 [1].
Proof.
  assert (H1 : NoDup [1]) by decide_vm.
  assert (H2 : 0 ∉ [1]) by decide_vm.
  exact (conj H1 (conj H2 (scan_items_pass_ref _ _ _ H1 H2))).
Defined.
