(* ===== verification/Uniqueness.v ===== *)
(** * What [unique_names] computes on Maya paths

    A Maya DAG path is ["|s1|s2|...|sk"] with non-empty segments that hold
    no ['|'] ([seg_path]).  Its whole-segment suffixes are named by their
    number of segments [m]: the last [m] segments for [1 <= m <= k]
    ([seg_name]), and the whole path, leading ['|'] included, for [m = k + 1].

    On pairwise distinct Maya paths [unique_names] gives each path the
    suffix with [1 + c] segments, where [c] is the largest number of trailing
    segments it shares with another input ([ideal_count]): its shortest
    whole-segment suffix that no other input ends with.  These names are
    pairwise distinct.  The proof follows the sorted view: paths sharing
    trailing segments are neighbours in reversed-path order, so the number
    of segments the item at position [r] shares with the one at [j > i > r]
    is the smaller of what it shares with [i] and what [i] shares with [j];
    before the pass at position [i] every later item carries the suffix of
    [1 + ] (what it shares with the earlier items) segments, and the pass
    raises the current item and the later ones in lock step.  Since a
    name depends only on its path and the set of inputs, any reordering of
    the inputs gives each path the same name. *)

From S2P Require Import Prelude ShortName UniqueNames.

(** ** Paths as lists of segments *)

Definition seg_ok (s : pystr) : Prop := s <> [] /\ PIPE ∉ s.

(** ["|s1|s2|...|sk"] *)
Fixpoint seg_path (ss : list pystr) : pystr :=
  match ss with [] => [] | s :: ss' => PIPE :: s ++ seg_path ss' end.

(** The suffix of [m] segments: the last [m] segments joined by ['|'] for
    [m <= k], the whole path beyond. *)
Definition seg_name (ss : list pystr) (m : nat) : pystr :=
  if decide (m <= length ss) then tail (seg_path (drop (length ss - m) ss)) else seg_path ss.

(** The number of leading elements two lists share. *)
Fixpoint common_prefix_len (xs ys : list pystr) : nat :=
  match xs, ys with
  | x :: xs', y :: ys' => if decide (x = y) then S (common_prefix_len xs' ys') else 0
  | _, _ => 0
  end.

(** The number of trailing segments two paths share. *)
Definition common_segs (ss tt : list pystr) : nat := common_prefix_len (reverse ss) (reverse tt).

(** The reversed path, segment by segment. *)
Definition rev_segs (xs : list pystr) : pystr := concat (map (fun s => reverse s ++ [PIPE]) xs).

(** ** The names the spec asks for *)

Section Ideal.

Variable L : list (list pystr).

(** One more segment than the most any other input shares with input [a]. *)
Definition ideal_count (a : nat) : nat :=
  S (max_list (map (fun b => common_segs (L !!! a) (L !!! b)) (filter (fun b => b <> a) (seq 0 (length L))))).

Definition ideal_names : list pystr := imap (fun a ss => seg_name ss (ideal_count a)) L.

End Ideal.

(** ** Segments *)

Lemma seg_path_app xs ys : seg_path (xs ++ ys) = seg_path xs ++ seg_path ys.
Proof. induction xs as [|x xs IH]; [done|]. cbn. by rewrite IH, <- app_assoc. Qed.

Lemma seg_path_pipe_head ss : ss <> [] -> exists r, seg_path ss = PIPE :: r.
Proof. destruct ss as [|s ss]; [done|]. by eexists. Qed.

(** A segment followed by a path is cut at the segment's end. *)
Lemma app_pipe_inj (x y r r' : pystr) :
  PIPE ∉ x -> PIPE ∉ y -> (r = [] \/ head r = Some PIPE) -> (r' = [] \/ head r' = Some PIPE) ->
  x ++ r = y ++ r' -> x = y /\ r = r'.
Proof.
  revert y. induction x as [|a x IH]; intros [|b y] Hx Hy Hr Hr' E; cbn in E.
  - done.
  - exfalso. subst r. destruct Hr as [Hr|Hr]; [done|]. cbn in Hr. injection Hr as ->. set_solver.
  - exfalso. subst r'. destruct Hr' as [Hr'|Hr']; [done|]. cbn in Hr'. injection Hr' as ->. set_solver.
  - injection E as <- E. destruct (IH y) as [-> ->]; [set_solver|set_solver|done|done|done|done].
Qed.

Lemma seg_path_head ss : seg_path ss = [] \/ head (seg_path ss) = Some PIPE.
Proof. destruct ss; [by left|by right]. Qed.

Lemma seg_path_inj ss tt : Forall seg_ok ss -> Forall seg_ok tt -> seg_path ss = seg_path tt -> ss = tt.
Proof.
  revert tt. induction ss as [|s ss IH]; intros [|t tt] Hs Ht E; cbn in E; try done.
  injection E as E. apply Forall_cons in Hs as [[_ Hs] Hss]. apply Forall_cons in Ht as [[_ Ht] Htt].
  destruct (app_pipe_inj s t _ _ Hs Ht (seg_path_head ss) (seg_path_head tt) E) as [-> E'].
  f_equal. by apply IH.
Qed.

(** The pipes of a name: one fewer than its segments. *)
Definition pipes (s : pystr) : nat := length (filter (fun c => c = PIPE) s).

Lemma pipes_app x y : pipes (x ++ y) = pipes x + pipes y.
Proof. unfold pipes. by rewrite filter_app, length_app. Qed.

Lemma pipes_pipe : pipes [PIPE] = 1.
Proof. reflexivity. Qed.

Lemma pipes_seg s : PIPE ∉ s -> pipes s = 0.
Proof.
  unfold pipes. induction s as [|c s IH]; intros Hs; [done|].
  rewrite filter_cons. case_decide; [set_solver|]. apply IH. set_solver.
Qed.

Lemma pipes_seg_path ss : Forall seg_ok ss -> pipes (seg_path ss) = length ss.
Proof.
  induction 1 as [|s ss [_ Hs] _ IH]; [done|].
  change (seg_path (s :: ss)) with ([PIPE] ++ (s ++ seg_path ss)).
  rewrite !pipes_app, pipes_pipe, (pipes_seg s), IH by done. cbn [length]. lia.
Qed.

Lemma pipes_seg_name ss m : Forall seg_ok ss -> 1 <= m <= S (length ss) -> pipes (seg_name ss m) = m - 1.
Proof.
  intros Hss Hm. unfold seg_name. case_decide as Hle; [|rewrite pipes_seg_path; [lia|done]].
  assert (Hd : Forall seg_ok (drop (length ss - m) ss)) by by apply Forall_drop.
  pose proof (length_drop ss (length ss - m)) as Hl.
  destruct (drop (length ss - m) ss) as [|s r] eqn:E; [cbn in Hl; lia|].
  apply Forall_cons in Hd as [[_ Hs] Hr]. cbn [seg_path tail].
  rewrite pipes_app, pipes_seg_path, pipes_seg by done. cbn in Hl. lia.
Qed.

(** ** [short_name] on segment paths *)

Lemma seg_name_split pre suf : seg_name (pre ++ suf) (length suf) = tail (seg_path suf).
Proof.
  unfold seg_name. rewrite length_app, decide_True by lia.
  by replace (length pre + length suf - length suf) with (length pre) by lia; rewrite drop_app_length.
Qed.

Lemma seg_name_whole ss : seg_name ss (S (length ss)) = seg_path ss.
Proof. unfold seg_name. by rewrite decide_False by lia. Qed.

(** The first short name of a path is its last segment. *)
Lemma short_name_seg_first ss : ss <> [] -> Forall seg_ok ss -> short_name (seg_path ss) 0 = seg_name ss 1.
Proof.
  intros Hne Hss. destruct (exists_last Hne) as (ss' & s & ->).
  apply Forall_app in Hss as [_ [[Hs Hp] _]%Forall_cons].
  destruct (exists_last Hs) as (s0 & c & ->).
  change (seg_name (ss' ++ [s0 ++ [c]]) 1) with (seg_name (ss' ++ [s0 ++ [c]]) (length [s0 ++ [c]])).
  rewrite (seg_name_split ss' [s0 ++ [c]]), seg_path_app. cbn.
  replace (seg_path ss' ++ PIPE :: (s0 ++ [c]) ++ []) with ((seg_path ss' ++ PIPE :: s0) ++ [c])
    by (by rewrite app_nil_r, <- app_assoc).
  rewrite short_name_init, after_last_pipe_no_pipe by set_solver. by rewrite app_nil_r.
Qed.

(** Extending the suffix of [m] segments gives the suffix of [m + 1]. *)
Lemma short_name_seg_extend ss m : Forall seg_ok ss -> 1 <= m <= length ss ->
  short_name (seg_path ss) (length (seg_name ss m)) = seg_name ss (S m).
Proof.
  intros Hss Hm.
  assert (E : ss = take (length ss - m) ss ++ drop (length ss - m) ss) by by rewrite take_drop.
  assert (Hl : length (drop (length ss - m) ss) = m) by (rewrite length_drop; lia).
  remember (take (length ss - m) ss) as pre eqn:Epre.
  remember (drop (length ss - m) ss) as suf eqn:Esuf.
  destruct suf as [|t suf']; [cbn in Hl; lia|].
  rewrite E, <- Hl, seg_name_split. cbn [seg_path tail]. rewrite seg_path_app. cbn [seg_path].
  rewrite short_name_extend. rewrite <- E.
  destruct (decide (m = length ss)) as [Hk|Hk].
  - assert (pre = []) as -> by (apply length_zero_iff_nil; rewrite Epre, length_take; lia).
    cbn in E. subst ss. rewrite seg_name_whole. cbn [seg_path].
    by rewrite after_last_pipe_id by set_solver.
  - assert (Hpre : pre <> []) by (intros ->; apply (f_equal length) in E; cbn in E, Hl; lia).
    destruct (exists_last Hpre) as (pre' & u & Epu). rewrite Epu, seg_path_app. cbn [seg_path].
    assert (Hu : PIPE ∉ u).
    { rewrite E, Epu in Hss. apply Forall_app in Hss as [Hss _]. apply Forall_app in Hss as [_ Hu].
      by apply Forall_inv in Hu as [_ Hu]. }
    rewrite app_nil_r, after_last_pipe_no_pipe by done.
    rewrite E, Epu, <- app_assoc. cbn [app].
    replace (S m) with (length (u :: t :: suf')) by (cbn in Hl |- *; lia).
    rewrite seg_name_split. done.
Qed.

(** ** Shared trailing segments *)

Lemma common_prefix_len_spec xs ys m :
  m <= common_prefix_len xs ys <-> m <= length xs /\ m <= length ys /\ take m xs = take m ys.
Proof.
  revert ys m. induction xs as [|x xs IH]; intros ys m.
  - cbn. split; [intros Hm; assert (m = 0) as -> by lia; cbn; split_and!; first [lia|done]|lia].
  - destruct ys as [|y ys]; cbn.
    + split; [intros Hm; assert (m = 0) as -> by lia; cbn; split_and!; first [lia|done]|lia].
    + destruct m as [|m]; [split; [intros _; cbn; split_and!; first [lia|done]|lia]|].
      case_decide as Hxy.
      * subst. rewrite <- Nat.succ_le_mono, IH. cbn.
        split; [intros (? & ? & ->); split_and!; [lia|lia|done]|].
        intros (? & ? & [= ?]). split_and!; [lia|lia|done].
      * split; [lia|]. cbn. intros (_ & _ & [= ? _]). done.
Qed.

Lemma common_prefix_len_sym xs ys : common_prefix_len xs ys = common_prefix_len ys xs.
Proof.
  revert ys. induction xs as [|x xs IH]; intros [|y ys]; cbn; [done..|].
  do 2 case_decide; subst; [by rewrite IH|congruence..|done].
Qed.

Lemma common_segs_sym ss tt : common_segs ss tt = common_segs tt ss.
Proof. apply common_prefix_len_sym. Qed.

Lemma common_segs_spec ss tt m :
  m <= common_segs ss tt <->
  m <= length ss /\ m <= length tt /\ drop (length ss - m) ss = drop (length tt - m) tt.
Proof.
  unfold common_segs. rewrite common_prefix_len_spec, !length_reverse, !take_reverse.
  split; intros (? & ? & E); split_and!; try done; [by apply (inj reverse)|by rewrite E].
Qed.

Lemma common_segs_le ss tt : common_segs ss tt <= length ss.
Proof. by apply (common_segs_spec ss tt (common_segs ss tt)). Qed.

(** Two names of distinct paths are equal exactly when they have the same
    number of segments and the paths share that many trailing segments. *)
Lemma seg_name_eq ss tt m m' :
  Forall seg_ok ss -> Forall seg_ok tt -> ss <> tt ->
  1 <= m <= S (length ss) -> 1 <= m' <= S (length tt) ->
  seg_name ss m = seg_name tt m' <-> m = m' /\ m <= common_segs ss tt.
Proof.
  intros Hs Ht Hne Hm Hm'. split.
  - intros E. assert (m = m') as <-.
    { pose proof (pipes_seg_name ss m Hs Hm). pose proof (pipes_seg_name tt m' Ht Hm').
      rewrite E in *. lia. }
    split; [done|]. apply common_segs_spec. unfold seg_name in E.
    assert (Hdrop : forall uu, Forall seg_ok uu -> m <= length uu ->
              exists x r, drop (length uu - m) uu = x :: r /\ seg_ok x /\ Forall seg_ok r).
    { intros uu Hu Hmu. pose proof (length_drop uu (length uu - m)) as Hl.
      pose proof (Forall_drop _ (length uu - m) _ Hu) as Hd.
      destruct (drop (length uu - m) uu) as [|x r]; [cbn in Hl; lia|].
      apply Forall_cons in Hd as [? ?]. by exists x, r. }
    assert (Hnp : forall x r u, seg_ok x -> tail (seg_path (x :: r)) <> seg_path u).
    { intros x r u [Hx Hxp] Eu. cbn in Eu. destruct x as [|c x]; [done|].
      destruct u as [|v u]; [done|]. cbn in Eu. injection Eu as -> _. apply Hxp, list_elem_of_here. }
    do 2 case_decide.
    + destruct (Hdrop ss Hs) as (x & r & Ex & Hx & Hr); [done|].
      destruct (Hdrop tt Ht) as (y & r' & Ey & Hy & Hr'); [done|].
      rewrite Ex, Ey in E |- *. cbn in E.
      destruct (app_pipe_inj x y _ _ (proj2 Hx) (proj2 Hy) (seg_path_head r) (seg_path_head r') E) as [-> Er].
      split_and!; [done|done|]. by rewrite (seg_path_inj r r') by done.
    + destruct (Hdrop ss Hs) as (x & r & Ex & Hx & _); [done|]. rewrite Ex in E. by apply Hnp in E.
    + destruct (Hdrop tt Ht) as (x & r & Ex & Hx & _); [done|]. rewrite Ex in E. symmetry in E.
      by apply Hnp in E.
    + exfalso. apply Hne. by apply seg_path_inj.
  - intros [<- (? & ? & E)%common_segs_spec]. unfold seg_name. rewrite !decide_True by lia. by rewrite E.
Qed.

(** ** The reversed-path order *)

Lemma rev_segs_app xs ys : rev_segs (xs ++ ys) = rev_segs xs ++ rev_segs ys.
Proof. unfold rev_segs. by rewrite map_app, concat_app. Qed.

Lemma reverse_seg_path ss : reverse (seg_path ss) = rev_segs (reverse ss).
Proof.
  induction ss as [|s ss IH]; [done|]. cbn [seg_path].
  rewrite reverse_cons, reverse_app, IH, reverse_cons, rev_segs_app. unfold rev_segs at 3. cbn.
  by rewrite !app_nil_r, <- app_assoc.
Qed.

(** Between two strings with a common prefix, in lexicographic order, every
    string has that prefix. *)
Lemma py_str_leb_prefix w x y z :
  py_str_leb x y = true -> py_str_leb y z = true -> w `prefix_of` x -> w `prefix_of` z -> w `prefix_of` y.
Proof.
  revert x y z. induction w as [|a w IH]; intros x y z Hxy Hyz [x' ->] [z' ->]; [apply prefix_nil|].
  destruct y as [|b y]; [done|]. cbn in Hxy, Hyz. rewrite ascii_compare_N in Hxy, Hyz.
  destruct (N.compare_spec (N_of_ascii a) (N_of_ascii b)) as [Hab|Hab|Hab];
  destruct (N.compare_spec (N_of_ascii b) (N_of_ascii a)) as [Hba|Hba|Hba]; try discriminate; try lia.
  assert (a = b) as <- by (rewrite <- (ascii_N_embedding a), <- (ascii_N_embedding b); by f_equal).
  apply prefix_cons. eapply IH; [exact Hxy|exact Hyz|by eexists|by eexists].
Qed.

Lemma rev_segs_take_prefix xs m : rev_segs (take m xs) `prefix_of` rev_segs xs.
Proof. rewrite <- (take_drop m xs) at 2. rewrite rev_segs_app. by eexists. Qed.

(** The reversed path determines its leading segments. *)
Lemma rev_segs_prefix_take xs ys m :
  Forall (fun s => PIPE ∉ s) xs -> Forall (fun s => PIPE ∉ s) ys -> m <= length xs ->
  rev_segs (take m xs) `prefix_of` rev_segs ys -> m <= length ys /\ take m ys = take m xs.
Proof.
  revert xs ys. induction m as [|m IH]; intros xs ys Hx Hy Hm Hp; [split; [lia|done]|].
  destruct xs as [|x xs]; [cbn in Hm; lia|]. apply Forall_cons in Hx as [Hx Hxs].
  destruct ys as [|y ys].
  - exfalso. destruct Hp as [k Hk]. cbn in Hk. unfold rev_segs in Hk. cbn in Hk.
    destruct (reverse x); discriminate.
  - apply Forall_cons in Hy as [Hy Hys]. destruct Hp as [k Hk].
    unfold rev_segs in Hk. cbn in Hk. rewrite <- !app_assoc in Hk. cbn in Hk. fold (rev_segs ys) (rev_segs (take m xs)) in Hk.
    assert (Hy' : PIPE ∉ reverse y) by by rewrite elem_of_reverse.
    assert (Hx' : PIPE ∉ reverse x) by by rewrite elem_of_reverse.
    destruct (app_pipe_inj (reverse y) (reverse x) (PIPE :: rev_segs ys) (PIPE :: rev_segs (take m xs) ++ k)
      Hy' Hx' ltac:(by right) ltac:(by right) Hk) as [Exy Er].
    apply (inj reverse) in Exy as ->. injection Er as Er.
    destruct (IH xs ys) as [? E]; [done|done|cbn in Hm; lia|by exists k|]. cbn. rewrite E. split; [lia|done].
Qed.

(** In reversed-path order, what the first of three paths shares with the
    third is the smaller of what it shares with the second and what the
    second shares with the third. *)
Lemma common_segs_between xs ys zs :
  Forall seg_ok xs -> Forall seg_ok ys -> Forall seg_ok zs ->
  py_str_leb (reverse (seg_path xs)) (reverse (seg_path ys)) = true ->
  py_str_leb (reverse (seg_path ys)) (reverse (seg_path zs)) = true ->
  common_segs xs zs = min (common_segs xs ys) (common_segs ys zs).
Proof.
  intros Hx Hy Hz Hxy Hyz. unfold common_segs.
  assert (Hp : forall us, Forall seg_ok us -> Forall (fun s => PIPE ∉ s) (reverse us)).
  { intros us Hu. apply Forall_reverse. eapply Forall_impl; [exact Hu|]. by intros s [_ ?]. }
  rewrite !reverse_seg_path in Hxy, Hyz.
  set (m := common_prefix_len (reverse xs) (reverse zs)).
  pose proof (proj1 (common_prefix_len_spec (reverse xs) (reverse zs) m) (Nat.le_refl m)) as (Hmx & Hmz & Et).
  destruct (rev_segs_prefix_take (reverse xs) (reverse ys) m) as [Hmy Ety]; [by apply Hp|by apply Hp|done| |].
  { eapply py_str_leb_prefix; [exact Hxy|exact Hyz|apply rev_segs_take_prefix|].
    rewrite Et. apply rev_segs_take_prefix. }
  assert (m <= common_prefix_len (reverse xs) (reverse ys)) by (apply common_prefix_len_spec; auto).
  assert (m <= common_prefix_len (reverse ys) (reverse zs)) by (apply common_prefix_len_spec; rewrite Ety; auto).
  set (k := min _ _).
  assert (k <= m); [|lia].
  assert (Hk1 : k <= common_prefix_len (reverse xs) (reverse ys)) by lia.
  assert (Hk2 : k <= common_prefix_len (reverse ys) (reverse zs)) by lia.
  apply common_prefix_len_spec in Hk1 as (? & ? & E1), Hk2 as (? & ? & E2).
  apply common_prefix_len_spec. split_and!; [done|done|by rewrite E1].
Qed.

(** ** Helpers on sorted lists and maxima *)

Lemma StronglySorted_lookup {A} (R : relation A) l i j x y :
  StronglySorted R l -> l !! i = Some x -> l !! j = Some y -> i < j -> R x y.
Proof.
  intros Hs. revert i j. induction Hs as [|z l Hs IH Hz]; intros i j Hi Hj Hij; [done|].
  destruct j as [|j]; [lia|]. destruct i as [|i]; cbn in Hi, Hj.
  - injection Hi as <-. rewrite Forall_lookup in Hz. by eapply Hz.
  - eapply IH; [exact Hi|exact Hj|lia].
Qed.

Lemma max_list_le_iff l m : max_list l <= m <-> Forall (fun x => x <= m) l.
Proof.
  induction l as [|x l IH]; cbn; [split; [constructor|lia]|].
  rewrite Forall_cons, <- IH. lia.
Qed.

Lemma le_ext x y : (forall m, x <= m <-> y <= m) -> x = y.
Proof. intros H. pose proof (proj1 (H x) (Nat.le_refl x)). pose proof (proj2 (H y) (Nat.le_refl y)). lia. Qed.

Lemma le_max_list_exists m l : 1 <= m -> m <= max_list l <-> exists x, x ∈ l /\ m <= x.
Proof.
  intros Hm. induction l as [|x l IH]; cbn; [split; [lia|intros (? & ?%elem_of_nil & _); done]|].
  setoid_rewrite elem_of_cons. split.
  - intros H. destruct (decide (m <= x)); [eauto|]. destruct (proj1 IH) as (y & ? & ?); [lia|eauto].
  - intros (y & [->|Hy] & Hle); [lia|]. assert (m <= max_list l) by (apply IH; eauto). lia.
Qed.

(** ** The store as a function of counts *)

Section Counts.

Variable L : list (list pystr).
Hypothesis HL : Forall (fun ss => ss <> [] /\ Forall seg_ok ss) L.
Hypothesis HLnd : NoDup L.

(** Every object holds its path and the suffix of [c k] segments. *)
Definition stc (c : nat -> nat) : store :=
  imap (fun k ss => IndexedName.mk (seg_path ss) (seg_name ss (c k))) L.

Lemma L_ok k : k < length L -> L !!! k <> [] /\ Forall seg_ok (L !!! k).
Proof.
  intros Hk. rewrite Forall_lookup in HL. apply (HL k). by apply list_lookup_lookup_total_lt.
Qed.

Lemma L_distinct k j : k < length L -> j < length L -> k <> j -> L !!! k <> L !!! j.
Proof.
  intros Hk Hj Hkj E. apply Hkj. apply (NoDup_lookup L k j (L !!! k) HLnd).
  - by apply list_lookup_lookup_total_lt.
  - rewrite E. by apply list_lookup_lookup_total_lt.
Qed.

Lemma stc_lookup c k : stc c !! k =
  (fun ss => IndexedName.mk (seg_path ss) (seg_name ss (c k))) <$> L !! k.
Proof. apply list_lookup_imap. Qed.

Lemma name_at_stc c k : k < length L -> name_at (stc c) k = seg_name (L !!! k) (c k).
Proof.
  intros Hk. unfold name_at. rewrite list_lookup_total_alt, stc_lookup.
  by rewrite (list_lookup_lookup_total_lt L k Hk).
Qed.

Lemma stc_ext c c' : (forall k, k < length L -> c k = c' k) -> stc c = stc c'.
Proof.
  intros H. apply imap_ext. intros k ss Hk. rewrite H; [done|]. by eapply lookup_lt_Some.
Qed.

Lemma length_stc c : length (stc c) = length L.
Proof. apply length_imap. Qed.

Lemma extend_seg ss m : Forall seg_ok ss -> 1 <= m <= length ss ->
  IndexedName.extend_short_name (IndexedName.mk (seg_path ss) (seg_name ss m))
  = IndexedName.mk (seg_path ss) (seg_name ss (S m)).
Proof. intros Hss Hm. unfold IndexedName.extend_short_name. cbn. by rewrite short_name_seg_extend. Qed.

(** The objects [unique_names] starts with carry the last segment. *)
Lemma init_stc : map IndexedName.init (map seg_path L) = stc (fun _ => 1).
Proof.
  rewrite map_map, <- imap_const. apply imap_ext. intros k ss Hk. cbn.
  unfold IndexedName.init. rewrite Forall_lookup in HL. destruct (HL k ss Hk).
  by rewrite short_name_seg_first.
Qed.

(** *** One [while] loop *)

Section Loop.

Variable curr : nat.
Variable rest : list nat.
Hypothesis Hrnd : NoDup rest.
Hypothesis Hcr : curr ∉ rest.
Hypothesis Hcl : curr < length L.
Hypothesis Hrl : forall j, j ∈ rest -> j < length L.

(** What the current path shares with a later one, and the most it shares. *)
Definition shared (j : nat) : nat := common_segs (L !!! curr) (L !!! j).
Definition most_shared : nat := max_list (map shared rest).

(** Before each pass the current object has [c curr] segments and a later
    one the smaller of [c curr] and one more than it shares. *)
Definition loop_inv (c : nat -> nat) : Prop :=
  1 <= c curr <= S (length (L !!! curr)) /\ forall j, j ∈ rest -> c j = min (c curr) (S (shared j)).

Definition step_counts (c : nat -> nat) (k : nat) : nat :=
  if decide (k = curr /\ c curr <= most_shared \/ k ∈ rest /\ c curr <= shared k) then S (c k) else c k.

Definition final_counts (c : nat -> nat) (k : nat) : nat :=
  if decide (k = curr) then max (c curr) (S most_shared)
  else if decide (k ∈ rest) then S (shared k) else c k.

Lemma shared_le j : j ∈ rest -> shared j <= length (L !!! curr) /\ shared j <= length (L !!! j).
Proof.
  intros Hj. unfold shared. split; [apply common_segs_le|rewrite common_segs_sym; apply common_segs_le].
Qed.

Lemma most_shared_le : most_shared <= length (L !!! curr).
Proof.
  apply max_list_le_iff, Forall_forall. intros x (j & -> & Hj)%list_elem_of_fmap. by apply shared_le.
Qed.

Lemma most_shared_spec m : 1 <= m -> m <= most_shared <-> exists j, j ∈ rest /\ m <= shared j.
Proof.
  intros Hm. unfold most_shared. rewrite le_max_list_exists by done.
  split; [intros (x & (j & -> & Hj)%list_elem_of_fmap & ?); eauto|].
  intros (j & ? & ?). exists (shared j). split; [by apply list_elem_of_fmap_2|done].
Qed.

(** A later object carries the current name exactly when its path shares
    at least [c curr] segments with the current one. *)
Lemma loop_match c j : loop_inv c -> j ∈ rest ->
  name_at (stc c) j = name_at (stc c) curr <-> c curr <= shared j.
Proof.
  intros [Hc Hr] Hj. pose proof (Hrl j Hj) as Hjl.
  assert (j <> curr) by (intros ->; done).
  rewrite !name_at_stc by done.
  destruct (L_ok j Hjl), (L_ok curr Hcl). pose proof (shared_le j Hj) as [? ?].
  specialize (Hr j Hj). rewrite seg_name_eq by (try apply L_distinct; try done; lia).
  unfold shared in *. rewrite common_segs_sym. lia.
Qed.

Lemma loop_any_match c : loop_inv c ->
  any_match (stc c) (name_at (stc c) curr) rest = bool_decide (c curr <= most_shared).
Proof.
  intros Hinv.
  assert (H : any_match (stc c) (name_at (stc c) curr) rest = true <-> c curr <= most_shared).
  { rewrite any_match_true, most_shared_spec by apply Hinv.
    split; intros (j & ? & ?); exists j; split; try done; by apply loop_match. }
  destruct (any_match _ _ _); symmetry;
    [apply bool_decide_eq_true; by apply H|apply bool_decide_eq_false; intros ?%H; done].
Qed.

Lemma shared_le_most j : j ∈ rest -> shared j <= most_shared.
Proof. intros Hj. apply max_list_elem_of_le, list_elem_of_fmap. eauto. Qed.

Lemma step_counts_curr c : c curr <= most_shared -> step_counts c curr = S (c curr).
Proof. intros Hle. unfold step_counts. by rewrite decide_True by tauto. Qed.

Lemma loop_inv_step c : loop_inv c -> c curr <= most_shared -> loop_inv (step_counts c).
Proof.
  intros [Hc Hr] Hle. pose proof most_shared_le. split; rewrite step_counts_curr by done; [lia|].
  intros j Hj. unfold step_counts. specialize (Hr j Hj).
  assert (j <> curr) by (intros ->; done).
  case_decide as Hd; [assert (c curr <= shared j) by tauto; lia|].
  assert (shared j < c curr) by (destruct (decide (c curr <= shared j)); [tauto|lia]). lia.
Qed.

(** One pass of the loop on the counted store. *)
Lemma scan_stc c : loop_inv c ->
  scan_items (stc c) curr (name_at (stc c) curr) false rest
  = (stc (step_counts c), bool_decide (c curr <= most_shared)).
Proof.
  intros Hinv. rewrite (surjective_pairing (scan_items _ _ _ _ _)).
  f_equal; [|rewrite scan_items_snd by done; apply loop_any_match, Hinv].
  apply list_eq. intros j. rewrite scan_items_lookup by done. rewrite !stc_lookup.
  destruct (L !! j) as [ss|] eqn:Ej; cbn; [|by destruct (pass_hits _ _ _ _ _ _)].
  assert (Hjl : j < length L) by (eapply lookup_lt_Some; eauto).
  assert (ss = L !!! j) as -> by (symmetry; by apply list_lookup_total_correct).
  pose proof (L_ok j Hjl) as [_ Hok]. pose proof most_shared_le.
  destruct Hinv as [Hc Hr] eqn:Hinv'. clear Hinv'.
  unfold pass_hits, step_counts. rewrite (loop_any_match c) by done.
  destruct (decide (j = curr)) as [->|Hjc].
  - rewrite (bool_decide_eq_false_2 (curr ∈ rest ∧ _)) by tauto.
    rewrite (bool_decide_eq_true_2 (curr = curr)) by done. cbn.
    destruct (decide (c curr <= most_shared)) as [Hle|Hle].
    + rewrite bool_decide_eq_true_2, decide_True by tauto. cbn. f_equal. apply extend_seg; [done|lia].
    + rewrite bool_decide_eq_false_2, decide_False by tauto. done.
  - rewrite (bool_decide_eq_false_2 (j = curr)) by done. rewrite andb_false_l, orb_false_r.
    destruct (decide (j ∈ rest /\ c curr <= shared j)) as [[Hj Hs]|Hn].
    + rewrite bool_decide_eq_true_2 by (split; [done|by apply loop_match]).
      rewrite decide_True by tauto. cbn. f_equal. specialize (Hr j Hj).
      pose proof (shared_le j Hj). apply extend_seg; [done|lia].
    + rewrite bool_decide_eq_false_2 by (intros [Hj Hm%loop_match]; tauto).
      rewrite decide_False by tauto. done.
Qed.

(** The loop ends with the current object one segment beyond what it shares
    with any later object (or where it was) and every later object one
    segment beyond what it shares with the current one. *)
Lemma while_stc fuel c : loop_inv c -> S most_shared - c curr < fuel ->
  while_needs fuel (stc c) curr rest = Some (stc (final_counts c)).
Proof.
  revert c. induction fuel as [|fuel IH]; intros c Hinv Hf; [lia|]. cbn [while_needs].
  rewrite scan_stc by done. case_bool_decide as Hle.
  - rewrite IH; [|by apply loop_inv_step|rewrite step_counts_curr; lia].
    f_equal. apply stc_ext. intros k _. unfold final_counts.
    rewrite step_counts_curr by done. case_decide; [lia|]. case_decide; [done|].
    unfold step_counts. by rewrite decide_False by tauto.
  - f_equal. apply stc_ext. intros k _. destruct Hinv as [Hc Hr]. unfold final_counts, step_counts.
    rewrite decide_False by (intros [[_ ?]|[Hj ?]]; [lia|pose proof (shared_le_most k Hj); lia]).
    case_decide as Hk; [subst; lia|]. case_decide as Hj; [|done].
    rewrite (Hr k Hj). pose proof (shared_le_most k Hj). lia.
Qed.

End Loop.

(** *** The sorted view *)

Definition st_init : store := map IndexedName.init (map seg_path L).
Definition view : list nat := sorted_by_reversed_name st_init.

Lemma length_st_init : length st_init = length L.
Proof. unfold st_init. by rewrite !length_map. Qed.

Lemma view_NoDup : NoDup view.
Proof. apply sorted_NoDup. Qed.

Lemma view_length : length view = length L.
Proof. unfold view. by rewrite sorted_length, length_st_init. Qed.

Lemma view_elem k : k ∈ view <-> k < length L.
Proof. unfold view. by rewrite sorted_elem, length_st_init. Qed.

Lemma path_at_init_seg k : k < length L -> path_at st_init k = seg_path (L !!! k).
Proof.
  intros Hk. unfold path_at, st_init. rewrite list_lookup_total_alt, !list_lookup_fmap.
  by rewrite (list_lookup_lookup_total_lt L k Hk).
Qed.

#[local] Instance rev_path_le_total st : Total (rev_path_le st).
Proof. intros i j. apply py_str_leb_total. Qed.

#[local] Instance rev_path_le_trans st : Transitive (rev_path_le st).
Proof. intros i j k. apply py_str_leb_trans. Qed.

Lemma view_sorted : StronglySorted (rev_path_le st_init) view.
Proof. unfold view, sorted_by_reversed_name. apply StronglySorted_merge_sort; [apply _|apply _]. Qed.

Lemma view_position k : k < length L -> exists p, view !! p = Some k.
Proof. intros Hk. apply list_elem_of_lookup, view_elem, Hk. Qed.

Lemma take_view_iff i p b : view !! p = Some b -> b ∈ take i view <-> p < i.
Proof.
  intros Hp. split.
  - intros (p' & Hp')%list_elem_of_lookup. rewrite lookup_take_Some in Hp'. destruct Hp' as [Hp' ?].
    by rewrite (NoDup_lookup view p' p b view_NoDup Hp' Hp) in *.
  - intros Hi. apply list_elem_of_lookup. exists p. by rewrite lookup_take_lt.
Qed.

Lemma drop_view_iff i p b : view !! p = Some b -> b ∈ drop (S i) view <-> i < p.
Proof.
  intros Hp. split.
  - intros (p' & Hp')%list_elem_of_lookup. rewrite lookup_drop in Hp'.
    pose proof (NoDup_lookup view _ p b view_NoDup Hp' Hp). lia.
  - intros Hi. apply list_elem_of_lookup. exists (p - S i). rewrite lookup_drop.
    by replace (S i + (p - S i)) with p by lia.
Qed.

(** What an earlier path shares with a later one goes through any path
    sorted between them. *)
Lemma lcp_view i b j : i < length L -> b ∈ take i view -> j ∈ drop (S i) view ->
  common_segs (L !!! b) (L !!! j)
  = min (common_segs (L !!! b) (L !!! (view !!! i))) (common_segs (L !!! (view !!! i)) (L !!! j)).
Proof.
  intros Hi Hb Hj.
  assert (Hbl : b < length L).
  { apply view_elem. apply elem_of_take in Hb as (p & ? & _). by eapply list_elem_of_lookup_2. }
  assert (Hjl : j < length L) by (apply view_elem; by eapply elem_of_drop_any).
  destruct (view_position b Hbl) as [pb Hpb], (view_position j Hjl) as [pj Hpj].
  assert (Hpi : view !! i = Some (view !!! i)) by (apply list_lookup_lookup_total_lt; by rewrite view_length).
  assert (Hcl : view !!! i < length L) by (apply view_elem; by eapply list_elem_of_lookup_2).
  rewrite (take_view_iff i pb b Hpb) in Hb. rewrite (drop_view_iff i pj j Hpj) in Hj.
  pose proof (StronglySorted_lookup _ _ _ _ _ _ view_sorted Hpb Hpi Hb) as H1.
  pose proof (StronglySorted_lookup _ _ _ _ _ _ view_sorted Hpi Hpj Hj) as H2.
  unfold rev_path_le in H1, H2. rewrite !path_at_init_seg in H1, H2 by done.
  apply common_segs_between; [apply L_ok..|done|done]; done.
Qed.

Lemma view_lookup_curr i : i < length L -> view !! i = Some (view !!! i).
Proof. intros Hi. apply list_lookup_lookup_total_lt. by rewrite view_length. Qed.

Lemma view_curr_lt i : i < length L -> view !!! i < length L.
Proof. intros Hi. apply view_elem. eapply list_elem_of_lookup_2, view_lookup_curr, Hi. Qed.

Lemma view_rest_lt i j : j ∈ drop (S i) view -> j < length L.
Proof. intros Hj. apply view_elem. by apply elem_of_drop_any in Hj. Qed.

Lemma view_curr_eq_iff i p b : i < length L -> view !! p = Some b -> b = view !!! i <-> p = i.
Proof.
  intros Hi Hp. pose proof (view_lookup_curr i Hi) as Hc. split.
  - intros ->. exact (NoDup_lookup view p i _ view_NoDup Hp Hc).
  - intros ->. congruence.
Qed.

(** *** The counts before each pass *)

Lemma max_map_filter_le (f : nat -> nat) (P : nat -> Prop) `{forall x, Decision (P x)} n m :
  max_list (map f (filter P (seq 0 n))) <= m <-> forall b, b < n -> P b -> f b <= m.
Proof.
  rewrite max_list_le_iff, Forall_forall. setoid_rewrite list_elem_of_fmap. split.
  - intros Hf b Hb Pb. apply Hf. exists b. split; [done|]. apply list_elem_of_filter.
    split; [done|]. apply elem_of_seq. lia.
  - intros Hf x (b & -> & (Pb & Hb%elem_of_seq)%list_elem_of_filter). apply Hf; [lia|done].
Qed.

(** Before the pass at position [i], the object at a position [p] carries
    one more segment than it shares with the paths at positions before [i]
    (at every position if [p < i]). *)
Definition pass_count (i k : nat) : nat :=
  S (max_list (map (fun b => common_segs (L !!! k) (L !!! b))
       (filter (fun b => b <> k /\ (b ∈ take i view \/ k ∈ take i view)) (seq 0 (length L))))).

Lemma pass_count_le i k m : pass_count i k <= m <->
  1 <= m /\ forall b, b < length L -> b <> k -> (b ∈ take i view \/ k ∈ take i view) ->
    S (common_segs (L !!! k) (L !!! b)) <= m.
Proof.
  unfold pass_count. destruct m as [|m]; [split; [lia|intros [? _]; lia]|].
  rewrite <- Nat.succ_le_mono, max_map_filter_le.
  split; [intros H; split; [lia|]; intros b ? ? ?; apply le_n_S, H; auto|].
  intros [_ H] b ? [? ?]. apply le_S_n, H; auto.
Qed.

Lemma pass_count_init k : pass_count 0 k = 1.
Proof.
  apply Nat.le_antisymm; [|unfold pass_count; lia].
  apply pass_count_le. split; [lia|]. intros b _ _ [Hb|Hb]; by apply elem_of_nil in Hb.
Qed.

Lemma most_shared_le_iff curr rest m :
  S (most_shared curr rest) <= m <-> 1 <= m /\ forall j, j ∈ rest -> S (shared curr j) <= m.
Proof.
  destruct m as [|m]; [split; [lia|intros [? _]; lia]|].
  rewrite <- Nat.succ_le_mono. unfold most_shared. rewrite max_list_le_iff, Forall_forall.
  setoid_rewrite list_elem_of_fmap. split.
  - intros H. split; [lia|]. intros j Hj. apply le_n_S, H. eauto.
  - intros [_ H] x (j & -> & Hj). apply le_S_n, H, Hj.
Qed.

(** Where an item sits relative to the position [i] of the current pass. *)
Lemma position_cases i b : i < length L -> b < length L ->
  exists p, view !! p = Some b /\ (b ∈ take i view <-> p < i) /\ (b ∈ take (S i) view <-> p <= i)
    /\ (b ∈ drop (S i) view <-> i < p) /\ (b = view !!! i <-> p = i).
Proof.
  intros Hi Hb. destruct (view_position b Hb) as [p Hp]. exists p.
  rewrite !(take_view_iff _ p b Hp), (drop_view_iff i p b Hp), (view_curr_eq_iff i p b Hi Hp).
  split_and!; first [done|lia].
Qed.

Lemma pass_inv i : i < length L -> loop_inv (view !!! i) (drop (S i) view) (pass_count i).
Proof.
  intros Hi. pose proof (view_curr_lt i Hi) as Hcl. set (c := view !!! i) in *.
  destruct (position_cases i c Hi Hcl) as (pc & _ & Ht & _ & _ & Hc).
  assert (Hct : c ∉ take i view) by (rewrite Ht; enough (pc = i) by lia; by apply Hc).
  split.
  - split; [unfold pass_count; lia|]. apply pass_count_le. split; [lia|]. intros b _ _ _.
    pose proof (common_segs_le (L !!! c) (L !!! b)). lia.
  - intros j Hj. pose proof (view_rest_lt i j Hj) as Hjl.
    destruct (position_cases i j Hi Hjl) as (pj & _ & Htj & _ & Hdj & _).
    assert (Hjt : j ∉ take i view) by (rewrite Htj; apply Hdj in Hj; lia).
    assert (Hsym : forall b, b ∈ take i view -> common_segs (L !!! j) (L !!! b)
              = min (common_segs (L !!! c) (L !!! b)) (shared c j)).
    { intros b Hb. rewrite common_segs_sym, (lcp_view i b j Hi Hb Hj). unfold shared.
      by rewrite (common_segs_sym (L !!! b)). }
    apply le_ext. intros m. rewrite Nat.min_le_iff, !pass_count_le. split.
    + intros [Hm H]. destruct (decide (S (shared c j) <= m)); [by right|left; split; [done|]].
      intros b Hb Hbc [Hbt|?]; [|done]. assert (b <> j) by (intros ->; done).
      specialize (H b Hb ltac:(done) (or_introl Hbt)). rewrite Hsym in H by done. lia.
    + intros [[Hm H]|Hs]; (split; [lia|]); intros b Hb Hbj [Hbt|?]; try done; rewrite Hsym by done; [|lia].
      assert (b <> c) by (intros ->; done). specialize (H b Hb ltac:(done) (or_introl Hbt)). lia.
Qed.

Lemma pass_final i k : i < length L -> k < length L ->
  final_counts (view !!! i) (drop (S i) view) (pass_count i) k = pass_count (S i) k.
Proof.
  intros Hi Hk. pose proof (view_curr_lt i Hi) as Hcl. set (c := view !!! i) in *.
  destruct (position_cases i k Hi Hk) as (p & _ & Ht & HtS & Hd & Hc).
  unfold final_counts. apply le_ext. intros m. case_decide as Hkc; [|case_decide as Hkr].
  - subst k. assert (p = i) as Hpi by by apply Hc.
    rewrite Nat.max_lub_iff, most_shared_le_iff, !pass_count_le. split.
    + intros [[Hm H1] [_ H2]]. split; [done|]. intros b Hb Hbc _.
      destruct (position_cases i b Hi Hb) as (pb & _ & Htb & _ & Hdb & Hcb).
      assert (pb <> i) by (intros ?; by apply Hbc, Hcb).
      destruct (decide (pb < i)); [apply H1; [done|done|left; by apply Htb]|].
      apply H2, Hdb. lia.
    + intros [Hm Hall]. split; split; [done| |done|].
      * intros b Hb Hbc _. apply Hall; [done|done|right; apply HtS; lia].
      * intros j Hj. pose proof (view_rest_lt i j Hj) as Hjl.
        destruct (position_cases i j Hi Hjl) as (pj & _ & _ & _ & Hdj & Hcj).
        apply Hall; [done| |right; apply HtS; lia]. intros Hjc. apply Hcj in Hjc. apply Hdj in Hj. lia.
  - assert (Hkt : k ∉ take (S i) view) by (rewrite HtS; apply Hd in Hkr; lia).
    rewrite pass_count_le. split.
    + intros Hs. split; [lia|]. intros b Hb Hbk [HbS|?]; [|done].
      destruct (position_cases i b Hi Hb) as (pb & _ & Htb & HtSb & _ & Hcb).
      apply HtSb in HbS. destruct (decide (pb = i)) as [->|Hne].
      * rewrite (proj2 Hcb eq_refl). unfold shared in Hs. by rewrite common_segs_sym.
      * assert (Hbt : b ∈ take i view) by (apply Htb; lia).
        rewrite common_segs_sym, (lcp_view i b k Hi Hbt Hkr). unfold shared in Hs.
        change (view !!! i) with c. lia.
    + intros [_ H]. unfold shared. rewrite common_segs_sym.
      apply H; [done|congruence|left].
      destruct (position_cases i c Hi Hcl) as (pc & _ & _ & HtSc & _ & Hcc). apply HtSc.
      enough (pc = i) by lia. by apply Hcc.
  - assert (p < i) as Hpi by (destruct (decide (p = i)); [exfalso; by apply Hkc, Hc|]; destruct (decide (i < p)); [exfalso; by apply Hkr, Hd|lia]).
    rewrite !pass_count_le. split; intros [Hm H]; split; try done; intros b Hb Hbk _;
      apply H; try done; right; [apply Ht|apply HtS]; lia.
Qed.

(** *** The passes *)

Lemma seg_path_length ss : length ss <= length (seg_path ss).
Proof. induction ss as [|s ss IH]; cbn; [lia|]. rewrite length_app. lia. Qed.

Lemma most_shared_fuel i fuel : i < length L -> loop_fuel (map seg_path L) <= fuel ->
  S (most_shared (view !!! i) (drop (S i) view)) - pass_count i (view !!! i) < fuel.
Proof.
  intros Hi Hf. pose proof (most_shared_le (view !!! i) (drop (S i) view)).
  pose proof (seg_path_length (L !!! (view !!! i))).
  assert (length (seg_path (L !!! (view !!! i))) <= max_list (map length (map seg_path L))).
  { apply max_list_elem_of_le. apply list_elem_of_fmap_2, list_elem_of_fmap_2.
    apply list_elem_of_lookup_2 with (view !!! i). by apply list_lookup_lookup_total_lt, view_curr_lt. }
  unfold loop_fuel in Hf. unfold pass_count at 1. lia.
Qed.

(** The pass at position [i] moves the counts to those before [i + 1]. *)
Lemma pass_step fuel i : loop_fuel (map seg_path L) <= fuel -> i < length L ->
  extend_unique_names fuel view i (stc (pass_count i)) = Some (stc (pass_count (S i))).
Proof.
  intros Hf Hi. pose proof (view_curr_lt i Hi) as Hcl.
  assert (Hfin : stc (final_counts (view !!! i) (drop (S i) view) (pass_count i)) = stc (pass_count (S i)))
    by (apply stc_ext; intros k Hk; by apply pass_final).
  unfold extend_unique_names. case_decide as Hlast.
  - rewrite <- Hfin. f_equal. apply stc_ext. intros k _. unfold final_counts.
    rewrite drop_ge by (rewrite view_length in *; lia). cbn.
    case_decide as Hk; [subst; unfold pass_count; lia|]. by case_decide as Hn; [apply elem_of_nil in Hn|].
  - rewrite while_stc; [by rewrite Hfin|by apply NoDup_drop_any, view_NoDup| |done|apply (view_rest_lt i)
      |by apply pass_inv|by apply (most_shared_fuel i fuel)].
    apply NoDup_not_elem_drop; [apply view_NoDup|by apply view_lookup_curr].
Qed.

Lemma passes fuel d i : loop_fuel (map seg_path L) <= fuel -> i + d = length L ->
  for_each (extend_unique_names fuel view) (seq i d) (stc (pass_count i)) = Some (stc (pass_count (length L))).
Proof.
  intros Hf. revert i. induction d as [|d IH]; intros i Hd; cbn; [by rewrite <- Hd, Nat.add_0_r|].
  rewrite pass_step by (done || lia). apply IH. lia.
Qed.

Lemma pass_count_ideal k : k < length L -> pass_count (length L) k = ideal_count L k.
Proof.
  intros Hk. apply le_ext. intros m. rewrite pass_count_le. unfold ideal_count.
  rewrite take_ge by (rewrite view_length; lia).
  destruct m as [|m]; [split; [intros [? _]; lia|lia]|].
  split.
  - intros [_ H]. apply le_n_S, max_map_filter_le. intros b Hb Hbk.
    apply le_S_n, H; [done|done|right; by apply view_elem].
  - intros H%le_S_n. rewrite max_map_filter_le in H. split; [lia|].
    intros b Hb Hbk _. apply le_n_S, H; done.
Qed.

(** [unique_names] computes the names of [ideal_names]. *)
Lemma unique_names_ideal : unique_names (map seg_path L) = Some (ideal_names L).
Proof.
  unfold unique_names, unique_names_fuel. cbn zeta. fold st_init. fold view.
  rewrite view_length. unfold st_init. rewrite init_stc.
  rewrite (stc_ext (fun _ => 1) (pass_count 0)) by (intros k _; by rewrite pass_count_init).
  rewrite (passes _ (length L) 0) by (done || lia). f_equal.
  unfold stc, ideal_names. rewrite fmap_imap. apply imap_ext. intros k ss Hk. cbn.
  by rewrite pass_count_ideal by (by eapply lookup_lt_Some).
Qed.

(** *** The names of [ideal_names] *)

Lemma ideal_count_bounds a : 1 <= ideal_count L a <= S (length (L !!! a)).
Proof.
  unfold ideal_count. split; [lia|]. apply le_n_S, max_map_filter_le. intros b _ _. apply common_segs_le.
Qed.

Lemma ideal_count_gt a b : b < length L -> b <> a -> common_segs (L !!! a) (L !!! b) < ideal_count L a.
Proof.
  intros Hb Hba. unfold ideal_count. apply le_n_S, max_list_elem_of_le, list_elem_of_fmap.
  exists b. split; [done|]. apply list_elem_of_filter. split; [done|]. apply elem_of_seq. lia.
Qed.

(** No whole-segment suffix of another path is the name of [a]. *)
Lemma ideal_name_fresh a b m : a < length L -> b < length L -> b <> a ->
  1 <= m <= S (length (L !!! b)) -> seg_name (L !!! b) m <> seg_name (L !!! a) (ideal_count L a).
Proof.
  intros Ha Hb Hba Hm E. destruct (L_ok a Ha), (L_ok b Hb).
  pose proof (ideal_count_bounds a). pose proof (ideal_count_gt a b Hb Hba).
  apply seg_name_eq in E as [-> Hle]; [|done|done|by apply L_distinct|done|done].
  rewrite common_segs_sym in Hle. lia.
Qed.

(** Every shorter suffix of [a] is a suffix of another path. *)
Lemma ideal_count_least a m : a < length L -> 1 <= m < ideal_count L a ->
  exists b, b < length L /\ b <> a /\ seg_name (L !!! b) m = seg_name (L !!! a) m.
Proof.
  intros Ha [Hm Hlt].
  assert (Hlt' : m <= max_list (map (fun b => common_segs (L !!! a) (L !!! b))
                                  (filter (fun b => b <> a) (seq 0 (length L)))))
    by (unfold ideal_count in Hlt; lia).
  apply le_max_list_exists in Hlt' as (x & (b & -> & (Hba & Hb%elem_of_seq)%list_elem_of_filter)%list_elem_of_fmap & Hle);
    [|done].
  exists b. split_and!; [lia|done|]. destruct (L_ok a Ha), (L_ok b ltac:(lia)).
  pose proof (common_segs_le (L !!! a) (L !!! b)). pose proof (common_segs_le (L !!! b) (L !!! a)).
  pose proof Hle as Hle'. rewrite common_segs_sym in Hle'.
  apply seg_name_eq; [done|done|apply L_distinct; lia|lia|lia|]. split; [done|lia].
Qed.

Lemma ideal_names_NoDup : NoDup (ideal_names L).
Proof.
  apply NoDup_alt. intros a b x Ha Hb. unfold ideal_names in Ha, Hb. rewrite list_lookup_imap in Ha, Hb.
  destruct (L !! a) as [ssa|] eqn:Ea; [|done]. destruct (L !! b) as [ssb|] eqn:Eb; [|done].
  cbn in Ha, Hb. injection Ha as <-. injection Hb as Hb.
  rewrite <- (list_lookup_total_correct _ _ _ Ea), <- (list_lookup_total_correct _ _ _ Eb) in Hb.
  apply lookup_lt_Some in Ea, Eb. destruct (decide (a = b)) as [|Hab]; [done|exfalso].
  by apply (ideal_name_fresh a b (ideal_count L b)); [done|done|congruence|apply ideal_count_bounds|].
Qed.

End Counts.

(** ** The names do not depend on the order of the inputs *)

(** The count of [a] depends on its path and on the set of the other
    paths only. *)
Lemma ideal_count_elems L a :
  NoDup L -> a < length L ->
  ideal_count L a = S (max_list (map (common_segs (L !!! a)) (filter (fun tt => tt <> L !!! a) L))).
Proof.
  intros Hnd Ha. unfold ideal_count. f_equal. apply le_ext. intros m.
  rewrite max_map_filter_le, max_list_le_iff, Forall_forall. split.
  - intros H x (tt & -> & [Hne Htt]%list_elem_of_filter)%list_elem_of_fmap.
    apply list_elem_of_lookup in Htt as [b Hb]. rewrite <- (list_lookup_total_correct _ _ _ Hb) in Hne |- *.
    apply H; [by eapply lookup_lt_Some|]. by intros ->.
  - intros H b Hb Hba. apply H, list_elem_of_fmap. exists (L !!! b). split; [done|].
    apply list_elem_of_filter. split; [|by apply list_elem_of_lookup_total_2].
    intros E. apply Hba. eapply NoDup_lookup; [exact Hnd| |].
    + by apply list_lookup_lookup_total_lt.
    + rewrite E. by apply list_lookup_lookup_total_lt.
Qed.

Lemma max_map_filter_perm (f : list pystr -> nat) (P : list pystr -> Prop) `{forall x, Decision (P x)} L L' :
  L ≡ₚ L' -> max_list (map f (filter P L)) = max_list (map f (filter P L')).
Proof. intros HP. by rewrite HP. Qed.

(** The name [ideal_names] gives a path, from its path and the set of all. *)
Lemma ideal_names_lookup L a ss :
  NoDup L -> L !! a = Some ss ->
  ideal_names L !! a = Some (seg_name ss (S (max_list (map (common_segs ss) (filter (fun tt => tt <> ss) L))))).
Proof.
  intros Hnd Ha. unfold ideal_names. rewrite list_lookup_imap, Ha. cbn. do 2 f_equal.
  rewrite ideal_count_elems by (done || by eapply lookup_lt_Some).
  by rewrite (list_lookup_total_correct _ _ _ Ha).
Qed.

(** ** Theorems *)

(** C4. On pairwise distinct Maya paths (a ['|'] before each non-empty
    segment without ['|']), [unique_names] returns the names of
    [ideal_names]: each path's suffix of one more segment than it shares
    with any other input.  These names are pairwise distinct. *)
Theorem unique_names_maya_unique (L : list (list pystr)) :
  Forall (fun ss => ss <> [] /\ Forall seg_ok ss) L -> NoDup L ->
  unique_names (map seg_path L) = Some (ideal_names L) /\ NoDup (ideal_names L).
Proof. intros HL Hnd. split; [by apply unique_names_ideal|by apply ideal_names_NoDup]. Qed.

(** C7. On pairwise distinct Maya paths, [unique_names] gives each path, in
    input order, the shortest of its whole-segment suffixes that is no
    whole-segment suffix of another input: every shorter one is. *)
Theorem unique_names_shortest_suffix (L : list (list pystr)) :
  Forall (fun ss => ss <> [] /\ Forall seg_ok ss) L -> NoDup L ->
  exists r, unique_names (map seg_path L) = Some r /\ length r = length L /\
    forall a ss, L !! a = Some ss ->
      exists m, 1 <= m <= S (length ss) /\ r !! a = Some (seg_name ss m) /\
        (forall b tt m', b <> a -> L !! b = Some tt -> 1 <= m' <= S (length tt) ->
           seg_name tt m' <> seg_name ss m) /\
        (forall m', 1 <= m' < m ->
           exists b tt, b <> a /\ L !! b = Some tt /\ seg_name tt m' = seg_name ss m').
Proof.
  intros HL Hnd. exists (ideal_names L). split; [by apply unique_names_ideal|].
  split; [apply length_imap|]. intros a ss Ha. pose proof (lookup_lt_Some _ _ _ Ha) as Hal.
  assert (ss = L !!! a) as -> by (symmetry; by apply list_lookup_total_correct).
  exists (ideal_count L a). split; [apply ideal_count_bounds|]. split_and!.
  - unfold ideal_names. by rewrite list_lookup_imap, Ha.
  - intros b tt m' Hba Hb Hm'. pose proof (lookup_lt_Some _ _ _ Hb).
    assert (tt = L !!! b) as -> by (symmetry; by apply list_lookup_total_correct).
    by apply ideal_name_fresh.
  - intros m' Hm'. destruct (ideal_count_least L HL Hnd a m' Hal Hm') as (b & Hb & Hba & E).
    exists b, (L !!! b). split_and!; [done|by apply list_lookup_lookup_total_lt|done].
Qed.

(** C33. The order of the inputs does not change the names: on pairwise
    distinct Maya paths, [unique_names] of any reordering of the inputs
    returns, and every path gets the same name in both calls.  The sort by
    reversed path, and the order in which the loop visits the paths, play
    no part in the result. *)
Theorem unique_names_order_independent (L L' : list (list pystr)) :
  Forall (fun ss => ss <> [] /\ Forall seg_ok ss) L -> NoDup L -> L ≡ₚ L' ->
  exists r r', unique_names (map seg_path L) = Some r /\ unique_names (map seg_path L') = Some r' /\
    forall a b ss, L !! a = Some ss -> L' !! b = Some ss -> r !! a = r' !! b.
Proof.
  intros HL Hnd HP.
  assert (HL' : Forall (fun ss => ss <> [] /\ Forall seg_ok ss) L') by by rewrite <- HP.
  assert (Hnd' : NoDup L') by by rewrite <- HP.
  exists (ideal_names L), (ideal_names L'). split_and!; [by apply unique_names_ideal|by apply unique_names_ideal|].
  intros a b ss Ha Hb. rewrite (ideal_names_lookup L a ss), (ideal_names_lookup L' b ss) by done.
  by rewrite (max_map_filter_perm _ _ L L' HP).
Qed.

(** ** Witnesses *)

Definition ex_skeleton : list (list pystr) :=
  [[py "root"; py "spine"; py "arm"]; [py "root"; py "leg"; py "arm"]; [py "root"]].

Example ex_skeleton_names :
  unique_names (map seg_path ex_skeleton) = Some (pys ["spine|arm"; "leg|arm"; "root"]).
Proof. vm_compute. reflexivity. Qed.

Lemma unique_names_maya_unique_witness :
  Forall (fun ss => ss <> [] /\ Forall seg_ok ss) ex_skeleton /\ NoDup ex_skeleton /\
  unique_names (map seg_path ex_skeleton) = Some (ideal_names ex_skeleton) /\ NoDup (ideal_names ex_skeleton).
Proof.
  assert (H1 : Forall (fun ss => ss <> [] /\ Forall seg_ok ss) ex_skeleton) by decide_vm.
  assert (H2 : NoDup ex_skeleton) by decide_vm.
  exact (conj H1 (conj H2 (unique_names_maya_unique _ H1 H2))).
Defined.

Lemma unique_names_shortest_suffix_witness :
  Forall (fun ss => ss <> [] /\ Forall seg_ok ss) ex_skeleton /\ NoDup ex_skeleton /\
  exists r, unique_names (map seg_path ex_skeleton) = Some r /\ length r = length ex_skeleton /\
    forall a ss, ex_skeleton !! a = Some ss ->
      exists m, 1 <= m <= S (length ss) /\ r !! a = Some (seg_name ss m) /\
        (forall b tt m', b <> a -> ex_skeleton !! b = Some tt -> 1 <= m' <= S (length tt) ->
           seg_name tt m' <> seg_name ss m) /\
        (forall m', 1 <= m' < m ->
           exists b tt, b <> a /\ ex_skeleton !! b = Some tt /\ seg_name tt m' = seg_name ss m').
Proof.
  assert (H1 : Forall (fun ss => ss <> [] /\ Forall seg_ok ss) ex_skeleton) by decide_vm.
  assert (H2 : NoDup ex_skeleton) by decide_vm.
  exact (conj H1 (conj H2 (unique_names_shortest_suffix _ H1 H2))).
Defined.

Lemma unique_names_order_independent_witness :
  Forall (fun ss => ss <> [] /\ Forall seg_ok ss) ex_skeleton /\ NoDup ex_skeleton /\
  ex_skeleton ≡ₚ reverse ex_skeleton /\
  exists r r', unique_names (map seg_path ex_skeleton) = Some r /\
    unique_names (map seg_path (reverse ex_skeleton)) = Some r' /\
    forall a b ss, ex_skeleton !! a = Some ss -> reverse ex_skeleton !! b = Some ss -> r !! a = r' !! b.
Proof.
  assert (H1 : Forall (fun ss => ss <> [] /\ Forall seg_ok ss) ex_skeleton) by decide_vm.
  assert (H2 : NoDup ex_skeleton) by decide_vm.
  assert (H3 : ex_skeleton ≡ₚ reverse ex_skeleton) by (symmetry; apply reverse_Permutation).
  exact (conj H1 (conj H2 (conj H3 (unique_names_order_independent _ _ H1 H2 H3)))).
Defined.

(** The reversed skeleton gets the same names, reversed. *)
Example ex_skeleton_reversed_names :
  unique_names (map seg_path (reverse ex_skeleton)) = Some (pys ["root"; "leg|arm"; "spine|arm"]).
Proof. vm_compute. reflexivity. Qed.
