(* ===== verification/NameFilter.v ===== *)
(** * [InfluenceNameFilter] of [api/influence_names.py]

    The filter keeps the last filter string and one compiled pattern per
    whitespace-separated token.  A token is sanitised to the characters whose
    lower case is in ["abcdefghijklmnopqrstuvwxyz0123456789_*"], each ['*']
    becomes [".*"] and the result is compiled with [re.I]; [is_match] lowers
    the value, keeps what follows its last ['|'] and accepts it when some
    pattern's [search] finds a match in it, or when there is no pattern.

    [re.compile] is modelled on the fragment [create_pattern] produces
    (characters [A-Za-z0-9_] and [.*]): [re_compile] parses that fragment
    into a [pattern] and answers [None] outside it, and the theorems show
    [create_pattern] never leaves it.  [re.search] is [re_search]; its
    meaning is the language [re_lang] ([.*] matches any run of characters
    other than a newline, a literal matches its letter in either case). The
    [changed] signal is counted. *)

From S2P Require Import Prelude ShortName.

(** ** The regular expressions of the filter *)

Inductive re_item := RLit (c : ascii) | RAny.
Abbreviation pattern := (list re_item).

#[export] Instance re_item_eq_dec : EqDecision re_item.
Proof. solve_decision. Defined.

Definition NEWLINE : ascii := "010"%char.

Definition is_word_char (c : ascii) : bool :=
  let n := nat_of_ascii c in
  ((48 <=? n) && (n <=? 57)) || ((65 <=? n) && (n <=? 90))
  || ((97 <=? n) && (n <=? 122)) || (n =? 95).

(** [re.compile(src, re.I)] on literal word characters and [.*]. *)
Fixpoint re_compile (src : pystr) : option pattern :=
  match src with
  | [] => Some []
  | c :: src' =>
      if decide (c = "."%char) then
        match src' with
        | c' :: src'' => if decide (c' = "*"%char) then (RAny ::.) <$> re_compile src'' else None
        | [] => None
        end
      else if is_word_char c then (RLit c ::.) <$> re_compile src'
      else None
  end.

(** [re.match] at the start of [v]: does a prefix of [v] match? *)
Fixpoint match_here (p : pattern) (v : pystr) : bool :=
  match p with
  | [] => true
  | RLit c :: p' =>
      match v with
      | d :: v' => bool_decide (char_lower c = char_lower d) && match_here p' v'
      | [] => false
      end
  | RAny :: p' =>
      (fix star (v : pystr) : bool :=
         match_here p' v
         || match v with
            | d :: v' => negb (bool_decide (d = NEWLINE)) && star v'
            | [] => false
            end) v
  end.

(** [pattern.search(v) is not None]: a match starting at some position. *)
Fixpoint re_search (p : pattern) (v : pystr) : bool :=
  match_here p v || match v with _ :: v' => re_search p v' | [] => false end.

(** The strings a pattern matches in full. *)
Inductive re_lang : pattern -> pystr -> Prop :=
  | re_lang_nil : re_lang [] []
  | re_lang_lit c d p w :
      char_lower c = char_lower d -> re_lang p w -> re_lang (RLit c :: p) (d :: w)
  | re_lang_any u p w : NEWLINE ∉ u -> re_lang p w -> re_lang (RAny :: p) (u ++ w).

(** ** The filter object *)

(** [Signal("filter changed")]: its emissions, counted. *)
Module Signal.
Record t := mk { emitted : nat }.
Definition emit (s : t) : t := mk (S (emitted s)).
End Signal.

Record InfluenceNameFilter := mkFilter {
  matchers : list pattern;
  changed : Signal.t;
  currentFilterString : pystr
}.

(** [InfluenceNameFilter.__init__] *)
Definition new_filter : InfluenceNameFilter := mkFilter [] (Signal.mk 0) [].

Definition ALLOWED : pystr := py "abcdefghijklmnopqrstuvwxyz0123456789_*".

(** The list comprehension of [create_pattern]. *)
Definition sanitize (expression : pystr) : pystr :=
  filter (fun c => py_in [char_lower c] ALLOWED = true) expression.

(** [create_pattern(expression)] inside [set_filter_string]. *)
Definition create_pattern (expression : pystr) : option pattern :=
  re_compile (py_replace_char (sanitize expression) "*"%char (py ".*")).

(** The tokens [filter_string.split()] kept by [if i.strip() != ''], stripped. *)
Definition filter_tokens (filter_string : pystr) : list pystr :=
  py_strip <$> filter (fun i => py_strip i <> []) (py_split filter_string).

(** An exception [set_filter_string] lets escape. *)
Inductive py_exn := ReCompileError.

(** [InfluenceNameFilter.set_filter_string]: the state after the call, and
    the exception it raises if any ([currentFilterString] is assigned before
    the patterns are compiled). *)
Definition set_filter_string (f : InfluenceNameFilter) (filter_string : pystr)
    : InfluenceNameFilter * option py_exn :=
  if decide (currentFilterString f = filter_string) then (f, None)
  else
    let f1 := mkFilter (matchers f) (changed f) filter_string in
    match mapM create_pattern (filter_tokens filter_string) with
    | None => (f1, Some ReCompileError)
    | Some ms => (mkFilter ms (Signal.emit (changed f1)) filter_string, None)
    end.

(** [InfluenceNameFilter.short_name]: [name.rindex("|")] raises when there
    is no ['|'], and the handler returns [name]. *)
Definition filter_short_name (name : pystr) : pystr :=
  match last_index PIPE name with
  | Some i => drop (S i) name
  | None => name
  end.

(** [InfluenceNameFilter.is_match] *)
Definition is_match (f : InfluenceNameFilter) (value : pystr) : bool :=
  match matchers f with
  | [] => true
  | ms => let v := filter_short_name (py_lower value) in existsb (fun p => re_search p v) ms
  end.

Definition set_filter (f : InfluenceNameFilter) (s : string) : InfluenceNameFilter :=
  (set_filter_string f (py s)).1.

(** ** What [create_pattern] compiles *)

(** A sanitised character as a pattern item: ['*'] is [.*]. *)
Definition glob_item (c : ascii) : re_item := if decide (c = "*"%char) then RAny else RLit c.

(** The patterns of a filter string: one per token. *)
Definition compile_filter (s : pystr) : list pattern :=
  (fun t => glob_item <$> sanitize t) <$> filter_tokens s.

(** ** The state machine of the filter *)

(** The filters a UI session can hold: the new one, and any filter after a
    call of [set_filter_string]. *)
Inductive reachable : InfluenceNameFilter -> Prop :=
  | reachable_new : reachable new_filter
  | reachable_set f s : reachable f -> reachable (set_filter_string f s).1.

Example ex_doc_leg : is_match (set_filter new_filter "leg arm spines") (py "|root|left_leg") = true.
Proof. vm_compute. reflexivity. Qed.
Example ex_doc_spine : is_match (set_filter new_filter "leg arm spines") (py "spine") = false.
Proof. vm_compute. reflexivity. Qed.
Example ex_star : is_match (set_filter new_filter "sp*ne") (py "|a|SPxxNE_L") = true.
Proof. vm_compute. reflexivity. Qed.
Example ex_dash : is_match (set_filter new_filter "- leg") (py "spine") = true.
Proof. vm_compute. reflexivity. Qed.

(** ** The executable matcher against the language *)

Lemma match_here_any p v :
  match_here (RAny :: p) v =
    match_here p v || match v with
                      | d :: v' => negb (bool_decide (d = NEWLINE)) && match_here (RAny :: p) v'
                      | [] => false
                      end.
Proof. by destruct v. Qed.

Lemma match_here_lang p v :
  match_here p v = true <-> exists w rest, v = w ++ rest /\ re_lang p w.
Proof.
  revert v. induction p as [|[c|] p IH]; intros v.
  - split; [intros _; exists [], v; split; [done|constructor]|done].
  - destruct v as [|d v]; simpl.
    + split; [discriminate|]. intros (w & rest & Hv & Hl). inversion Hl; subst. discriminate.
    + rewrite andb_true_iff, bool_decide_eq_true, IH. split.
      * intros [Hc (w & rest & -> & Hl)]. exists (d :: w), rest. split; [done|by constructor].
      * intros (w & rest & Hv & Hl). inversion Hl as [|c' d' p' w' Hc Hl'|]; subst.
        injection Hv as -> ->. eauto.
  - induction v as [|d v IHv]; rewrite match_here_any.
    + rewrite orb_false_r, IH. split.
      * intros (w & rest & Hv & Hl). exists w, rest. split; [done|].
        by apply (re_lang_any [] p w); [apply not_elem_of_nil|].
      * intros (w & rest & Hv & Hl). inversion Hl as [| |u p' w' Hu Hl']; subst.
        symmetry in Hv. apply app_eq_nil in Hv as [Hw ->]. apply app_eq_nil in Hw as [-> ->].
        by exists [], [].
    + rewrite orb_true_iff, andb_true_iff, negb_true_iff, bool_decide_eq_false, IHv, IH. split.
      * intros [(w & rest & Hv & Hl)|[Hd (w & rest & Hv & Hl)]].
        -- exists w, rest. split; [done|]. by apply (re_lang_any [] p w); [apply not_elem_of_nil|].
        -- inversion Hl as [| |u p' w' Hu Hl']; subst.
           exists ((d :: u) ++ w'), rest. split; [done|].
           constructor; [set_solver|done].
      * intros (w & rest & Hv & Hl). inversion Hl as [| |u p' w' Hu Hl']; subst.
        destruct u as [|a u].
        -- left. exists w', rest. split; [done|done].
        -- right. injection Hv as -> Hv. split; [set_solver|].
           exists (u ++ w'), rest. split; [by rewrite Hv|].
           constructor; [set_solver|done].
Qed.

Lemma re_search_spec p v :
  re_search p v = true <-> exists pre w post, v = pre ++ w ++ post /\ re_lang p w.
Proof.
  induction v as [|d v IH]; simpl.
  - rewrite orb_false_r, match_here_lang. split.
    + intros (w & rest & Hv & Hl). by exists [], w, rest.
    + intros (pre & w & post & Hv & Hl). symmetry in Hv.
      apply app_eq_nil in Hv as [-> Hv]. exists w, post. by rewrite Hv.
  - rewrite orb_true_iff, match_here_lang, IH. split.
    + intros [(w & rest & Hv & Hl)|(pre & w & post & -> & Hl)].
      * by exists [], w, rest.
      * by exists (d :: pre), w, post.
    + intros (pre & w & post & Hv & Hl). destruct pre as [|a pre].
      * left. by exists w, post.
      * right. injection Hv as -> ->. by exists pre, w, post.
Qed.

(** Sanitisation keeps word characters and ['*'] only: checked on all 256
    characters, since [str.lower] of a non-ASCII character is never ASCII. *)
Lemma sanitize_char c :
  py_in [char_lower c] ALLOWED = true -> is_word_char c = true \/ c = "*"%char.
Proof.
  revert c. apply (ascii_forall (fun c => py_in [char_lower c] ALLOWED = true ->
                                         is_word_char c = true \/ c = "*"%char)).
  vm_compute. reflexivity.
Qed.

Lemma sanitize_chars e : Forall (fun c => is_word_char c = true \/ c = "*"%char) (sanitize e).
Proof.
  apply Forall_forall. intros c Hc.
  apply list_elem_of_filter in Hc as [Hc _].
  by apply sanitize_char.
Qed.

Lemma re_compile_any rest : re_compile ("."%char :: "*"%char :: rest) = (RAny ::.) <$> re_compile rest.
Proof. reflexivity. Qed.

Lemma re_compile_word c rest :
  is_word_char c = true -> re_compile (c :: rest) = (RLit c ::.) <$> re_compile rest.
Proof.
  intros Hw. cbn [re_compile]. destruct (decide (c = "."%char)) as [->|]; [discriminate|].
  by rewrite Hw.
Qed.

Lemma re_compile_replace s :
  Forall (fun c => is_word_char c = true \/ c = "*"%char) s ->
  re_compile (py_replace_char s "*"%char (py ".*")) = Some (glob_item <$> s).
Proof.
  induction s as [|c s IH]; intros Hs; [done|]. apply Forall_cons in Hs as [Hc Hs].
  rewrite py_replace_char_cons, fmap_cons. unfold glob_item at 1.
  destruct (decide (c = "*"%char)) as [->|Hne].
  - change (py ".*" ++ ?x) with ("."%char :: "*"%char :: x). by rewrite re_compile_any, IH.
  - destruct Hc as [Hw|]; [|done]. change ([c] ++ ?x) with (c :: x).
    by rewrite re_compile_word, IH.
Qed.

Lemma create_pattern_compiles e : create_pattern e = Some (glob_item <$> sanitize e).
Proof. unfold create_pattern. apply re_compile_replace, sanitize_chars. Qed.

Lemma mapM_create_pattern ts :
  mapM create_pattern ts = Some ((fun t => glob_item <$> sanitize t) <$> ts).
Proof. induction ts as [|t ts IH]; [done|]. simpl. by rewrite create_pattern_compiles, IH. Qed.

Lemma compile_filter_nil : compile_filter [] = [].
Proof. reflexivity. Qed.

Lemma existsb_fmap_search (ts : list pystr) v :
  existsb (fun p => re_search p v) ((fun t => glob_item <$> sanitize t) <$> ts) = true <->
  exists t, t ∈ ts /\ exists pre w post, v = pre ++ w ++ post /\ re_lang (glob_item <$> sanitize t) w.
Proof.
  induction ts as [|t ts IH]; simpl.
  - split; [discriminate|]. intros (t & Ht & _). by apply not_elem_of_nil in Ht.
  - rewrite orb_true_iff, re_search_spec, IH. setoid_rewrite elem_of_cons. naive_solver.
Qed.

Lemma is_match_cons f v p ps :
  matchers f = p :: ps ->
  is_match f v = existsb (fun p => re_search p (filter_short_name (py_lower v))) (p :: ps).
Proof. intros H. unfold is_match. by rewrite H. Qed.

(** ** Theorems *)

Lemma set_filter_string_eq f s :
  set_filter_string f s =
    (if decide (currentFilterString f = s) then f
     else mkFilter (compile_filter s) (Signal.emit (changed f)) s, None).
Proof.
  unfold set_filter_string. case_decide; [done|].
  by rewrite mapM_create_pattern.
Qed.

Lemma reachable_compiled f :
  reachable f -> matchers f = compile_filter (currentFilterString f).
Proof.
  induction 1 as [|f s _ IH]; [done|].
  rewrite set_filter_string_eq. by case_decide.
Qed.

(** Setting a filter string emits [changed] once when the string is new
    and not at all otherwise, and setting the same string again is a no-op:
    two calls with the same text emit at most one notification. *)
Theorem set_filter_string_twice f s :
  set_filter_string (set_filter_string f s).1 s = ((set_filter_string f s).1, None) /\
  Signal.emitted (changed (set_filter_string f s).1)
    = Signal.emitted (changed f) + (if decide (currentFilterString f = s) then 0 else 1).
Proof.
  rewrite !set_filter_string_eq.
  repeat case_decide; simpl in *; split; solve [done|lia|congruence].
Qed.

(** After setting an empty (or all-whitespace) filter string, every
    value matches. *)
Theorem empty_filter_matches_all f s v :
  reachable f -> py_split s = [] -> is_match (set_filter_string f s).1 v = true.
Proof.
  intros Hr Hs. unfold is_match.
  rewrite (reachable_compiled _ (reachable_set f s Hr)).
  assert (Hc : currentFilterString (set_filter_string f s).1 = s).
  { rewrite set_filter_string_eq. by case_decide. }
  rewrite Hc. unfold compile_filter, filter_tokens. by rewrite Hs.
Qed.

Lemma is_match_iff f v :
  reachable f -> filter_tokens (currentFilterString f) <> [] ->
  is_match f v = true <->
  exists t, t ∈ filter_tokens (currentFilterString f) /\
    exists pre w post, filter_short_name (py_lower v) = pre ++ w ++ post /\
      re_lang (glob_item <$> sanitize t) w.
Proof.
  intros Hr Hne. pose proof (reachable_compiled _ Hr) as Hm. unfold compile_filter in Hm.
  destruct (filter_tokens (currentFilterString f)) as [|t ts] eqn:E; [done|].
  rewrite fmap_cons in Hm. rewrite (is_match_cons _ _ _ _ Hm).
  exact (existsb_fmap_search (t :: ts) _).
Qed.

(** C11. A token with no letter, digit, underscore or star compiles to the
    empty pattern, which matches every value: the token is not dropped, it
    turns the filter off. *)
Theorem sanitized_empty_token_matches_all f t v :
  reachable f -> t ∈ filter_tokens (currentFilterString f) -> sanitize t = [] ->
  is_match f v = true.
Proof.
  intros Hr Ht Hs.
  destruct (filter_tokens (currentFilterString f)) eqn:E; [by apply not_elem_of_nil in Ht|].
  apply is_match_iff; [done|by rewrite E|].
  exists t. split; [by rewrite E|]. rewrite Hs. exists [], [], (filter_short_name (py_lower v)).
  split; [done|constructor].
Qed.

(** The example of the class docstring: the filter "leg arm spines"
    matches "leg", "left_leg" and "R_arm" but not "spine". *)
Theorem docstring_example :
  let f := (set_filter_string new_filter (py "leg arm spines")).1 in
  is_match f (py "leg") = true /\ is_match f (py "left_leg") = true /\
  is_match f (py "R_arm") = true /\ is_match f (py "spine") = false.
Proof. vm_compute. repeat split. Qed.

(** C6. [set_filter_string] never raises: with a new filter string it
    stores the string, compiles one pattern per token and emits [changed]
    once; with the current string it does nothing. *)
Theorem set_filter_string_spec f s :
  set_filter_string f s =
    (if decide (currentFilterString f = s) then f
     else mkFilter (compile_filter s) (Signal.emit (changed f)) s, None).
Proof. apply set_filter_string_eq. Qed.

(** In every reachable state the patterns are those of the stored filter
    string. *)
Theorem reachable_matchers f :
  reachable f -> matchers f = compile_filter (currentFilterString f).
Proof. apply reachable_compiled. Qed.

(** C10. A filter with tokens accepts a value exactly when, for some token,
    the token's pattern matches a substring of the value's last segment in
    lower case: the tokens are alternatives. *)
Theorem is_match_tokens f v :
  reachable f -> filter_tokens (currentFilterString f) <> [] ->
  is_match f v = true <->
  exists t, t ∈ filter_tokens (currentFilterString f) /\
    exists pre w post, filter_short_name (py_lower v) = pre ++ w ++ post /\
      re_lang (glob_item <$> sanitize t) w.
Proof. apply is_match_iff. Qed.

(** [re_search] finds a match exactly when some substring of the value
    is in the pattern's language. *)
Theorem re_search_lang p v :
  re_search p v = true <-> exists pre w post, v = pre ++ w ++ post /\ re_lang p w.
Proof. apply re_search_spec. Qed.

(** [create_pattern] always compiles: sanitisation leaves only word
    characters and ['*'], so the regular expression is the literal
    characters of the token with [.*] for each star. *)
Theorem create_pattern_ok e : create_pattern e = Some (glob_item <$> sanitize e).
Proof. apply create_pattern_compiles. Qed.

(** ** Witnesses *)

Lemma reachable_matchers_witness :
  reachable (set_filter_string new_filter (py "leg arm")).1 /\
  matchers (set_filter_string new_filter (py "leg arm")).1
    = compile_filter (currentFilterString (set_filter_string new_filter (py "leg arm")).1).
Proof.
  assert (H : reachable (set_filter_string new_filter (py "leg arm")).1)
    by (apply reachable_set, reachable_new).
  exact (conj H (reachable_matchers _ H)).
Defined.

Lemma empty_filter_matches_all_witness :
  reachable new_filter /\ py_split (py "  ") = [] /\
  is_match (set_filter_string new_filter (py "  ")).1 (py "|root|spine") = true.
Proof.
  assert (H1 : reachable new_filter) by apply reachable_new.
  assert (H2 : py_split (py "  ") = []) by reflexivity.
  exact (conj H1 (conj H2 (empty_filter_matches_all _ _ _ H1 H2))).
Defined.

Lemma is_match_tokens_witness :
  reachable (set_filter_string new_filter (py "leg arm")).1 /\
  filter_tokens (currentFilterString (set_filter_string new_filter (py "leg arm")).1) <> [] /\
  (is_match (set_filter_string new_filter (py "leg arm")).1 (py "|root|R_arm") = true <->
   exists t, t ∈ filter_tokens (currentFilterString (set_filter_string new_filter (py "leg arm")).1) /\
     exists pre w post, filter_short_name (py_lower (py "|root|R_arm")) = pre ++ w ++ post /\
       re_lang (glob_item <$> sanitize t) w).
Proof.
  assert (H1 : reachable (set_filter_string new_filter (py "leg arm")).1)
    by (apply reachable_set, reachable_new).
  assert (H2 : filter_tokens (currentFilterString (set_filter_string new_filter (py "leg arm")).1) <> [])
    by (vm_compute; discriminate).
  exact (conj H1 (conj H2 (is_match_tokens _ _ H1 H2))).
Defined.

Lemma sanitized_empty_token_matches_all_witness :
  reachable (set_filter_string new_filter (py "- leg")).1 /\
  py "-" ∈ filter_tokens (currentFilterString (set_filter_string new_filter (py "- leg")).1) /\
  sanitize (py "-") = [] /\
  is_match (set_filter_string new_filter (py "- leg")).1 (py "|root|spine") = true.
Proof.
  assert (H1 : reachable (set_filter_string new_filter (py "- leg")).1)
    by (apply reachable_set, reachable_new).
  assert (H2 : py "-" ∈ filter_tokens (currentFilterString (set_filter_string new_filter (py "- leg")).1))
    by decide_vm.
  assert (H3 : sanitize (py "-") = []) by reflexivity.
  exact (conj H1 (conj H2 (conj H3 (sanitized_empty_token_matches_all _ _ _ H1 H2 H3)))).
Defined.
