(* ===== verification/Layers.v ===== *)
(** * The layer operations of [operations/layers.py]

    The operations act on the session ([LayersSession]: the state the
    operations read, the layers API's state, the signals emitted and the
    dialogs shown) through the [LayersApi] interface of [Host.v]; every
    theorem is proved for any implementation satisfying [LayersApiLaws].
    [generate_layer_name] ([ngSkinTools2.api.layers]) is not under [src/]
    and is a parameter of the section.  Layer names are stored and never
    inspected, so a name with characters outside Latin-1 is held by its
    UTF-8 bytes. *)

From S2P Require Import Prelude Host.

(** [session.state], [session.context] and [session.events] as the layer
    operations use them. *)
Record LayersSession (S : Type) := mkLayersSession {
  session_active : bool;
  layersAvailable : bool;
  selectedSkinCluster : option pystr;
  (** [session.context.selected_layers(default=[])], by id *)
  selected_layers : list nat;
  layers_state : S;
  events : list Event;
  (** callbacks queued with [cmds.evalDeferred] *)
  deferred : list Event;
  dialogs : list Dialog
}.

Arguments mkLayersSession {S}.
Arguments session_active {S}. Arguments layersAvailable {S}. Arguments selectedSkinCluster {S}.
Arguments selected_layers {S}. Arguments layers_state {S}. Arguments events {S}.
Arguments deferred {S}. Arguments dialogs {S}.

(** The exception [ToggleEnabledAction.run] lets through: [layer.enabled]
    on an id that is no longer a layer. *)
Inductive LayerError := InvalidLayerId (id : nat).

Definition BASE_LAYER_NAME : pystr := py "基础权重".
Definition NEW_LAYER_NAME : pystr := py "新图层".
Definition SLOW_MODE_MESSAGE : pystr :=
  py "ngSkinTools切换到慢maya API设置皮肤集群权重为这个skinCluster，以解决玛雅bug时skinCluster使用dg节点作为输入.".
Definition IMPORT_QUESTION : pystr :=
  py "这个网格上有以前版本的ngSkinTools的皮肤层,这个操作将初始化.从头开始蒙皮层，丢弃之前的层信息。你想继续吗?".

Section Operations.

Context {S : Type} `{LayersApiLaws S}.

(** [generate_layer_name(all_layers, base)] *)
Variable generate_layer_name : list pystr -> pystr -> pystr.

(** [is_slow_mode_skin_cluster(target)] *)
Variable is_slow_mode_skin_cluster : option pystr -> bool.

Implicit Types s : LayersSession S.

Definition with_state s (st : S) : LayersSession S :=
  mkLayersSession (session_active s) (layersAvailable s) (selectedSkinCluster s) (selected_layers s)
    st (events s) (deferred s) (dialogs s).

Definition emit s (e : Event) : LayersSession S :=
  mkLayersSession (session_active s) (layersAvailable s) (selectedSkinCluster s) (selected_layers s)
    (layers_state s) (events s ++ [e]) (deferred s) (dialogs s).

Definition show_dialog s (d : Dialog) : LayersSession S :=
  mkLayersSession (session_active s) (layersAvailable s) (selectedSkinCluster s) (selected_layers s)
    (layers_state s) (events s) (deferred s) (dialogs s ++ [d]).

(** [session.state.all_layers]: the names of the layers. *)
Definition all_layer_names (st : S) : list pystr := omap (layer_name st) (layer_ids st).

(** [initializeLayers(createFirstLayer)].  [targetChanged.emitIfChanged()]
    is where the session reads the target again ([api/session.py], not
    under [src/]): the target now has layers, so [layersAvailable] is true
    from that emission on, which is when the handlers of [targetChanged]
    read it. *)
Definition initializeLayers (createFirstLayer : bool) s : LayersSession S :=
  if layersAvailable s then s
  else
    let st := layers_init in
    let st := if createFirstLayer
              then let '(st', layer) := layers_add st BASE_LAYER_NAME in layer_set_current st' layer
              else st in
    let s1 := mkLayersSession (session_active s) true (selectedSkinCluster s) (selected_layers s)
                st (events s ++ [TargetChanged]) (deferred s) (dialogs s) in
    if is_slow_mode_skin_cluster (selectedSkinCluster s) then show_dialog s1 (DialogInfo SLOW_MODE_MESSAGE)
    else s1.

(** [guessParent()] of [addLayer], on the state it reads. *)
Definition guessParent (st : S) : option nat :=
  match current_layer_id st with
  | None => None
  | Some c => if decide (0 < layer_num_children st c) then Some c else layer_parent st c
  end.

(** [setCurrentLayer(layer)]: both checks only log. *)
Definition setCurrentLayer (layer : nat) s : LayersSession S :=
  emit (with_state s (layer_set_current (layers_state s) layer)) CurrentLayerChanged.

(** [getCurrentLayer()]: the current layer of the target's stack. *)
Definition getCurrentLayer s : option nat := current_layer_id (layers_state s).

(** The body of [addLayer()] up to [layerListChanged]: the layer is added
    and parented, and [layerListChanged] is emitted before the new layer is
    made current. *)
Definition addLayer_list s : LayersSession S * nat :=
  let st := layers_state s in
  let '(st1, new_layer) := layers_add st (generate_layer_name (all_layer_names st) NEW_LAYER_NAME) in
  let st2 := layer_set_parent st1 new_layer (guessParent st1) in
  (emit (with_state s st2) LayerListChanged, new_layer).

(** [addLayer()]: the new session and the new layer. *)
Definition addLayer s : LayersSession S * nat :=
  let '(s2, new_layer) := addLayer_list s in
  (setCurrentLayer new_layer s2, new_layer).

(** [renameLayer(layer, newName)] *)
Definition renameLayer (layer : nat) (newName : pystr) s : LayersSession S :=
  let s1 := with_state s (layer_set_name (layers_state s) layer newName) in
  mkLayersSession (session_active s1) (layersAvailable s1) (selectedSkinCluster s1) (selected_layers s1)
    (layers_state s1) (events s1) (deferred s1 ++ [LayerListChanged]) (dialogs s1).

(** [deleteSelectedLayers()] *)
Definition deleteSelectedLayers s : LayersSession S :=
  let st := foldl layers_delete (layers_state s) (selected_layers s) in
  emit (emit (with_state s st) LayerListChanged) CurrentLayerChanged.

(** The balance of [ToggleEnabledAction.checked()]; an id that is no
    longer a layer raises, which the [except] swallows. *)
Definition enabled_disabled_balance (st : S) (layers : list nat) : Z :=
  foldl (fun acc layer => match layer_enabled st layer with
                          | Some true => (acc + 1)%Z | Some false => (acc - 1)%Z | None => acc end)
        0%Z layers.

(** [ToggleEnabledAction.checked()]: most selected layers are enabled. *)
Definition checked s : bool :=
  match selected_layers s with
  | [] => true
  | layers => bool_decide (0 <= enabled_disabled_balance (layers_state s) layers)%Z
  end.

(** [for i in selected_layers: i.enabled = enabled]; stops at the first id
    that is no longer a layer, with the layers before it already set. *)
Fixpoint set_enabled_all (st : S) (layers : list nat) (enabled : bool) : S * option LayerError :=
  match layers with
  | [] => (st, None)
  | i :: layers' =>
      match layer_set_enabled st i enabled with
      | Some st' => set_enabled_all st' layers' enabled
      | None => (st, Some (InvalidLayerId i))
      end
  end.

(** [ToggleEnabledAction.run()]: the session, and the exception it raises. *)
Definition run s : LayersSession S * option LayerError :=
  let enabled := negb (checked s) in
  match selected_layers s with
  | [] => (s, None)
  | selected =>
      let '(st, err) := set_enabled_all (layers_state s) selected enabled in
      match err with
      | Some e => (with_state s st, Some e)
      | None => (emit (with_state s st) LayerListChanged, None)
      end
  end.

(** [ToggleEnabledAction.enabled()], also the [update_to_target] of
    [buildAction_deleteLayer]. *)
Definition toggle_enabled_action_enabled s : bool :=
  layersAvailable s && bool_decide (selected_layers s <> []).

(** [update()] of [build_action_initialize_layers]. *)
Definition initialize_action_enabled s : bool := bool_decide (selectedSkinCluster s <> None).

(** [update_to_target()] of [buildAction_createLayer]. *)
Definition create_layer_action_enabled s : bool := layersAvailable s.

(** [do_initialize()]: [can_import] is [import_v1_actions.can_import],
    [answer] the user's answer to the question. *)
Definition do_initialize (can_import answer : bool) s : LayersSession S :=
  if can_import then
    let s1 := show_dialog s (DialogYesNo IMPORT_QUESTION) in
    if answer then initializeLayers true s1 else s1
  else initializeLayers true s.

(** The operations, and the changes of selection the UI makes between
    them.  [addLayer] is two steps, cut where it emits: its body up to
    [layerListChanged] ([step_add_list]), then its [setCurrentLayer]
    ([step_set_current]), so that a step's signals are emitted on the
    session the step ends with.  [setCurrentLayer] is given a layer of the
    stack: its callers pass the new layer of [addLayer] or a row of the
    layers tree. *)
Inductive layer_step : LayersSession S -> LayersSession S -> Prop :=
  | step_initialize b s : layer_step s (initializeLayers b s)
  | step_do_initialize c a s : layer_step s (do_initialize c a s)
  | step_add_list s : layer_step s (addLayer_list s).1
  | step_set_current s layer : layer ∈ layer_ids (layers_state s) -> layer_step s (setCurrentLayer layer s)
  | step_rename s layer n : layer_step s (renameLayer layer n s)
  | step_delete s : layer_step s (deleteSelectedLayers s)
  | step_toggle s : layer_step s (run s).1
  | step_select s layers : layer_step s
      (mkLayersSession (session_active s) (layersAvailable s) (selectedSkinCluster s) layers
         (layers_state s) (events s) (deferred s) (dialogs s)).

(** ** Lemmas *)

(** [getCurrentLayer()] reads back what [setCurrentLayer] set, checks or
    no checks. *)
Lemma setCurrentLayer_get layer s : getCurrentLayer (setCurrentLayer layer s) = Some layer.
Proof. apply set_current_get. Qed.


Lemma set_enabled_all_ok enabled : forall layers st,
  layers_wf st -> Forall (fun i => i ∈ layer_ids st) layers ->
  exists st', set_enabled_all st layers enabled = (st', None) /\ layers_wf st'
    /\ layer_ids st' = layer_ids st /\ current_layer_id st' = current_layer_id st
    /\ forall j, layer_enabled st' j = if decide (j ∈ layers) then Some enabled else layer_enabled st j.
Proof.
  induction layers as [|i layers IH]; intros st Hwf Hall.
  - exists st. split_and!; try done; intros j; by rewrite decide_False by set_solver.
  - apply Forall_cons in Hall as [Hi Hall]. simpl.
    destruct (proj2 (set_enabled_some st i enabled) Hi) as [st1 Hst1]. rewrite Hst1.
    destruct (set_enabled_spec _ _ _ _ Hwf Hst1) as (Hwf1 & Hids1 & Hcur1 & Hen1).
    destruct (IH st1) as (st' & Hrun & Hwf' & Hids' & Hcur' & Hen'); [done|by rewrite Hids1|].
    exists st'. split_and!; try congruence. intros j. rewrite Hen', Hen1.
    repeat case_decide; set_solver.
Qed.

Lemma set_enabled_all_wf enabled : forall layers st,
  layers_wf st -> layers_wf (set_enabled_all st layers enabled).1.
Proof.
  induction layers as [|i layers IH]; intros st Hwf; simpl; [done|].
  destruct (layer_set_enabled st i enabled) as [st1|] eqn:Hst1; [|done].
  apply IH. by destruct (set_enabled_spec _ _ _ _ Hwf Hst1).
Qed.

Lemma set_enabled_all_error enabled : forall layers st,
  layers_wf st ->
  (set_enabled_all st layers enabled).2 = None <-> Forall (fun i => i ∈ layer_ids st) layers.
Proof.
  induction layers as [|i layers IH]; intros st Hwf; simpl; [split; auto|].
  rewrite Forall_cons. destruct (layer_set_enabled st i enabled) as [st1|] eqn:Hst1.
  - destruct (set_enabled_spec _ _ _ _ Hwf Hst1) as (Hwf1 & Hids1 & _).
    rewrite IH, Hids1 by done. assert (i ∈ layer_ids st) by (apply (set_enabled_some st i enabled); eauto). tauto.
  - split; [done|]. intros [Hi _]. apply (set_enabled_some st i enabled) in Hi as [? Hi]. congruence.
Qed.

Lemma balance_const st layers b acc :
  (forall i, i ∈ layers -> layer_enabled st i = Some b) ->
  foldl (fun acc layer => match layer_enabled st layer with
                          | Some true => (acc + 1)%Z | Some false => (acc - 1)%Z | None => acc end)
        acc layers
  = (if b then acc + Z.of_nat (length layers) else acc - Z.of_nat (length layers))%Z.
Proof.
  revert acc. induction layers as [|i layers IH]; intros acc Hall; simpl; [destruct b; lia|].
  rewrite Hall by set_solver. rewrite IH by set_solver. destruct b; lia.
Qed.

Lemma addLayer_skin s : selectedSkinCluster (addLayer s).1 = selectedSkinCluster s.
Proof. unfold addLayer, addLayer_list. by destruct (layers_add _ _). Qed.

Lemma guessParent_add st n : layers_wf st -> guessParent (layers_add st n).1 = guessParent st.
Proof.
  intros Hwf. unfold guessParent. rewrite add_current.
  destruct (current_layer_id st) as [c|] eqn:Hc; [|done].
  pose proof (current_valid _ _ Hwf Hc). by rewrite add_num_children, add_parent.
Qed.

Lemma delete_all_ids : forall layers st,
  layer_ids (foldl layers_delete st layers) = filter (fun j => j ∉ layers) (layer_ids st).
Proof.
  induction layers as [|i layers IH]; intros st; simpl.
  - symmetry. apply filter_all. set_solver.
  - rewrite IH, delete_ids, list_filter_filter. apply list_filter_iff. set_solver.
Qed.

Lemma delete_all_wf : forall layers st, layers_wf st -> layers_wf (foldl layers_delete st layers).
Proof. induction layers as [|i layers IH]; intros st Hwf; simpl; [done|]. by apply IH, delete_wf. Qed.

Lemma initializeLayers_wf b s : layers_wf (layers_state s) -> layers_wf (layers_state (initializeLayers b s)).
Proof.
  intros Hwf. unfold initializeLayers. destruct (layersAvailable s); [done|].
  assert (Hst : layers_wf (if b then let '(st', layer) := layers_add layers_init BASE_LAYER_NAME in
                                     layer_set_current st' layer else layers_init)).
  { destruct b; [|apply init_wf]. destruct (layers_add layers_init BASE_LAYER_NAME) as [st' l] eqn:E.
    pose proof (add_wf layers_init BASE_LAYER_NAME init_wf) as Hw.
    destruct (add_ids layers_init BASE_LAYER_NAME init_wf) as [Hids _].
    rewrite E in Hw, Hids. simpl in *. apply set_current_wf; [done|]. rewrite Hids. set_solver. }
  by destruct (is_slow_mode_skin_cluster _).
Qed.

Lemma layer_step_wf s s' : layer_step s s' -> layers_wf (layers_state s) -> layers_wf (layers_state s').
Proof.
  intros [b s0|c a s0|s0|s0 l Hl|s0 l n|s0|s0|s0 ls] Hwf; simpl.
  - by apply initializeLayers_wf.
  - unfold do_initialize. destruct c; [destruct a|]; [by apply initializeLayers_wf|done|by apply initializeLayers_wf].
  - unfold addLayer_list. destruct (layers_add _ _) as [st1 l] eqn:E. simpl.
    pose proof (add_wf (layers_state s0) (generate_layer_name (all_layer_names (layers_state s0)) NEW_LAYER_NAME) Hwf) as Hw.
    rewrite E in Hw. by apply set_parent_wf.
  - by apply set_current_wf.
  - by apply set_name_wf.
  - by apply delete_all_wf.
  - unfold run. destruct (selected_layers s0) as [|i ls]; [done|].
    pose proof (set_enabled_all_wf (negb (checked s0)) (i :: ls) _ Hwf) as Hw.
    destruct (set_enabled_all _ _ _) as [st [e|]]; done.
  - done.
Qed.

Lemma addLayer_list_new s : layers_wf (layers_state s) ->
  (addLayer_list s).2 ∈ layer_ids (layers_state (addLayer_list s).1).
Proof.
  intros Hwf. unfold addLayer_list.
  destruct (add_ids (layers_state s) (generate_layer_name (all_layer_names (layers_state s)) NEW_LAYER_NAME) Hwf)
    as [Hids _].
  destruct (layers_add _ _) as [st1 l]. cbn in *. rewrite set_parent_ids, Hids. set_solver.
Qed.

(** What [addLayer] does to the stack and the signals, for the clients
    of [Layers.v]. *)
Lemma addLayer_effects s s' new_layer :
  layers_wf (layers_state s) -> addLayer s = (s', new_layer) ->
  (new_layer ∉ layer_ids (layers_state s))
  /\ layer_ids (layers_state s') = layer_ids (layers_state s) ++ [new_layer]
  /\ layer_name (layers_state s') new_layer
       = Some (generate_layer_name (all_layer_names (layers_state s)) NEW_LAYER_NAME)
  /\ layer_parent (layers_state s') new_layer = guessParent (layers_state s)
  /\ current_layer_id (layers_state s') = Some new_layer
  /\ events s' = events s ++ [LayerListChanged; CurrentLayerChanged]
  /\ layers_wf (layers_state s').
Proof.
  intros Hwf Hadd. unfold addLayer, addLayer_list in Hadd.
  set (n := generate_layer_name (all_layer_names (layers_state s)) NEW_LAYER_NAME) in Hadd |- *.
  pose proof (guessParent_add _ n Hwf) as Hg. pose proof (add_wf _ n Hwf) as Hw.
  pose proof (add_name (layers_state s) n Hwf) as Hn. destruct (add_ids _ n Hwf) as [Hids Hfresh].
  destruct (layers_add (layers_state s) n) as [st1 l]. simpl in *. injection Hadd as <- <-.
  assert (Hl : l ∈ layer_ids st1) by (rewrite Hids; set_solver).
  split_and!; simpl; try done.
  - by rewrite set_current_ids, set_parent_ids.
  - by rewrite set_current_name, set_parent_name.
  - rewrite set_current_parent, set_parent_get by done. by rewrite decide_True.
  - apply set_current_get.
  - by rewrite <- app_assoc.
  - apply set_current_wf; [by apply set_parent_wf|by rewrite set_parent_ids].
Qed.

(** C26. [addLayer] adds one layer with a fresh id at the end of the stack,
    named by [generate_layer_name], whose parent is the current layer when
    that is a group and the current layer's parent otherwise (computed on
    the stack before the new layer was added), makes it current and emits
    [layerListChanged] then [currentLayerChanged]. *)
Theorem addLayer_spec s s' new_layer :
  layers_wf (layers_state s) -> addLayer s = (s', new_layer) ->
  (new_layer ∉ layer_ids (layers_state s))
  /\ layer_ids (layers_state s') = layer_ids (layers_state s) ++ [new_layer]
  /\ layer_name (layers_state s') new_layer
       = Some (generate_layer_name (all_layer_names (layers_state s)) NEW_LAYER_NAME)
  /\ layer_parent (layers_state s') new_layer = guessParent (layers_state s)
  /\ current_layer_id (layers_state s') = Some new_layer
  /\ events s' = events s ++ [LayerListChanged; CurrentLayerChanged]
  /\ layers_wf (layers_state s').
Proof. apply addLayer_effects. Qed.

(** The new layer is a layer of the stack once [addLayer] emitted
    [layerListChanged], so the rest of [addLayer] is a [setCurrentLayer]
    step: [addLayer] is a [step_add_list] followed by a [step_set_current]. *)
Lemma addLayer_steps s : layers_wf (layers_state s) ->
  layer_step s (addLayer_list s).1 /\ layer_step (addLayer_list s).1 (addLayer s).1.
Proof.
  intros Hwf. split; [constructor|]. unfold addLayer.
  pose proof (addLayer_list_new s Hwf) as Hn. destruct (addLayer_list s) as [s2 l]. by constructor.
Qed.

(** C27. [ToggleEnabledAction.run] on selected layers that all exist sets
    every one of them to [not checked()], emits [layerListChanged], and
    flips [checked()]. *)
Theorem toggle_run_flips s :
  layers_wf (layers_state s) -> selected_layers s <> [] ->
  Forall (fun i => i ∈ layer_ids (layers_state s)) (selected_layers s) ->
  (run s).2 = None
  /\ (forall i, i ∈ selected_layers s -> layer_enabled (layers_state (run s).1) i = Some (negb (checked s)))
  /\ events (run s).1 = events s ++ [LayerListChanged]
  /\ checked (run s).1 = negb (checked s).
Proof.
  intros Hwf Hne Hall. unfold run. set (b := negb (checked s)) in *.
  destruct (set_enabled_all_ok b _ _ Hwf Hall) as (st' & Hrun & _ & _ & _ & Hen).
  destruct (selected_layers s) as [|i ls] eqn:Hsel; [done|]. rewrite Hrun.
  assert (Hall' : forall j, j ∈ i :: ls -> layer_enabled st' j = Some b).
  { intros j Hj. rewrite Hen. by rewrite decide_True. }
  split_and!; [done|done|done|].
  unfold checked. cbn [fst selected_layers layers_state emit with_state]. rewrite Hsel.
  unfold enabled_disabled_balance. rewrite (balance_const _ _ _ _ Hall').
  cbn [length]. destruct b; [apply bool_decide_eq_true|apply bool_decide_eq_false]; lia.
Qed.

(** C28. [ToggleEnabledAction.run] raises exactly when a selected layer no
    longer exists; it then emits nothing. *)
Theorem toggle_run_raises s :
  layers_wf (layers_state s) ->
  ((run s).2 <> None <-> exists i, i ∈ selected_layers s /\ i ∉ layer_ids (layers_state s))
  /\ ((run s).2 <> None -> events (run s).1 = events s).
Proof.
  intros Hwf. unfold run.
  pose proof (set_enabled_all_error (negb (checked s)) (selected_layers s) _ Hwf) as He.
  destruct (selected_layers s) as [|i ls].
  - split; [|by intros Hc; contradict Hc]. split; [done|]. intros (j & Hj & _). set_solver.
  - destruct (set_enabled_all (layers_state s) (i :: ls) (negb (checked s))) as [st [e|]]; cbn [fst snd] in *.
    + split; [|intros _; reflexivity]. split; [|done]. intros _.
      destruct (decide (Forall (fun j => j ∈ layer_ids (layers_state s)) (i :: ls))) as [Hf|Hf].
      * by apply He in Hf.
      * apply neg_Forall_Exists_neg in Hf; [|intros j; exact (decide _)]. apply Exists_exists in Hf. done.
    + split; [|by intros Hc; contradict Hc]. split; [done|]. intros (j & Hj & Hn) _. apply Hn.
      assert (Hf : Forall (fun j => j ∈ layer_ids (layers_state s)) (i :: ls)) by (by apply He).
      by eapply Forall_forall in Hf.
Qed.

(** C29. [initializeLayers(True)] on a target without layers leaves one
    layer, named ["基础权重"] and current, makes the layers available and
    emits [targetChanged]; on a target with layers it does nothing. *)
Theorem initializeLayers_first_layer s :
  (layersAvailable s = true -> initializeLayers true s = s)
  /\ (layersAvailable s = false ->
      exists layer, layer_ids (layers_state (initializeLayers true s)) = [layer]
        /\ layer_name (layers_state (initializeLayers true s)) layer = Some BASE_LAYER_NAME
        /\ current_layer_id (layers_state (initializeLayers true s)) = Some layer
        /\ layersAvailable (initializeLayers true s) = true
        /\ events (initializeLayers true s) = events s ++ [TargetChanged]).
Proof.
  unfold initializeLayers. split; intros Ha; rewrite Ha; [done|].
  pose proof (add_name layers_init BASE_LAYER_NAME init_wf) as Hn.
  destruct (add_ids layers_init BASE_LAYER_NAME init_wf) as [Hids _].
  destruct (layers_add layers_init BASE_LAYER_NAME) as [st l]. simpl in *.
  rewrite init_ids in Hids. exists l.
  destruct (is_slow_mode_skin_cluster _); simpl;
    (split_and!; [by rewrite set_current_ids|by rewrite set_current_name|apply set_current_get|done|done]).
Qed.

(** C31. [deleteSelectedLayers] removes every selected layer and no other,
    and emits [layerListChanged] then [currentLayerChanged]. *)
Theorem deleteSelectedLayers_spec s :
  layer_ids (layers_state (deleteSelectedLayers s))
    = filter (fun j => j ∉ selected_layers s) (layer_ids (layers_state s))
  /\ events (deleteSelectedLayers s) = events s ++ [LayerListChanged; CurrentLayerChanged].
Proof. split; [apply delete_all_ids|simpl; by rewrite <- app_assoc]. Qed.

(** Every sequence of layer operations and selection changes keeps
    the layers API's state well formed, so the current layer, when there
    is one, is a layer of the stack. *)
Theorem layer_steps_wf s s' :
  rtc layer_step s s' -> layers_wf (layers_state s) ->
  layers_wf (layers_state s') /\ forall c, current_layer_id (layers_state s') = Some c -> c ∈ layer_ids (layers_state s').
Proof.
  intros Hsteps Hwf. assert (Hwf' : layers_wf (layers_state s')).
  { induction Hsteps as [|x y z Hxy _ IH]; [done|]. apply IH. by eapply layer_step_wf. }
  split; [done|]. intros c. by apply current_valid.
Qed.

End Operations.

(** ** Runs on the list-based stack of [Host.v] *)

(** [generate_layer_name] keeping the base name, and no slow-mode target. *)
Definition ex_generate_layer_name (all_layers : list pystr) (base : pystr) : pystr := base.
Definition ex_slow_mode (target : option pystr) : bool := false.

(** Layers available, [child] (disabled) selected and current. *)
Definition ex_layers_session : LayersSession ListLayers.store :=
  mkLayersSession true true (Some (py "skinCluster1")) [2] ListLayers.ex_store [] [] [].

Definition ex_add : LayersSession ListLayers.store * nat := addLayer ex_generate_layer_name ex_layers_session.

(** Both checks of [setCurrentLayer] only log: with no active session and
    no layers the layer is still made current. *)
Example setCurrentLayer_unguarded :
  current_layer_id (layers_state (setCurrentLayer 0
    (mkLayersSession false false None [] ListLayers.ex_store [] [] []))) = Some 0.
Proof. reflexivity. Qed.

(** The new layer's parent is the parent [grp] of the current layer [child]. *)
Example ex_add_parent : layer_parent (layers_state ex_add.1) ex_add.2 = Some 1.
Proof. vm_compute. reflexivity. Qed.

Lemma addLayer_spec_witness :
  (ex_add.2 ∉ layer_ids (layers_state ex_layers_session))
  /\ layer_ids (layers_state ex_add.1) = layer_ids (layers_state ex_layers_session) ++ [ex_add.2]
  /\ layer_name (layers_state ex_add.1) ex_add.2
       = Some (ex_generate_layer_name (all_layer_names (layers_state ex_layers_session)) NEW_LAYER_NAME)
  /\ layer_parent (layers_state ex_add.1) ex_add.2 = guessParent (layers_state ex_layers_session)
  /\ current_layer_id (layers_state ex_add.1) = Some ex_add.2
  /\ events ex_add.1 = events ex_layers_session ++ [LayerListChanged; CurrentLayerChanged]
  /\ layers_wf (layers_state ex_add.1).
Proof.
  apply (addLayer_spec ex_generate_layer_name ex_layers_session ex_add.1 ex_add.2).
  - exact ListLayers.ex_store_wf.
  - reflexivity.
Defined.

Lemma toggle_run_flips_witness :
  (run ex_layers_session).2 = None
  /\ (forall i, i ∈ selected_layers ex_layers_session ->
        layer_enabled (layers_state (run ex_layers_session).1) i = Some (negb (checked ex_layers_session)))
  /\ events (run ex_layers_session).1 = events ex_layers_session ++ [LayerListChanged]
  /\ checked (run ex_layers_session).1 = negb (checked ex_layers_session).
Proof.
  apply toggle_run_flips.
  - exact ListLayers.ex_store_wf.
  - discriminate.
  - decide_vm.
Defined.

Definition ex_stale_session : LayersSession ListLayers.store :=
  mkLayersSession true true (Some (py "skinCluster1")) [0; 5] ListLayers.ex_store [] [] [].

Lemma toggle_run_raises_witness :
  ((run ex_stale_session).2 <> None <->
     exists i, i ∈ selected_layers ex_stale_session /\ i ∉ layer_ids (layers_state ex_stale_session))
  /\ ((run ex_stale_session).2 <> None -> events (run ex_stale_session).1 = events ex_stale_session).
Proof. apply toggle_run_raises. exact ListLayers.ex_store_wf. Defined.

Lemma initializeLayers_first_layer_witness :
  let s := mkLayersSession true false (Some (py "skinCluster1")) [] ListLayers.ex_store [] [] [] in
  (layersAvailable s = true -> initializeLayers ex_slow_mode true s = s)
  /\ (layersAvailable s = false ->
      exists layer, layer_ids (layers_state (initializeLayers ex_slow_mode true s)) = [layer]
        /\ layer_name (layers_state (initializeLayers ex_slow_mode true s)) layer = Some BASE_LAYER_NAME
        /\ current_layer_id (layers_state (initializeLayers ex_slow_mode true s)) = Some layer
        /\ layersAvailable (initializeLayers ex_slow_mode true s) = true
        /\ events (initializeLayers ex_slow_mode true s) = events s ++ [TargetChanged]).
Proof. intros s. apply initializeLayers_first_layer. Defined.

Lemma deleteSelectedLayers_spec_witness :
  layer_ids (layers_state (deleteSelectedLayers ex_layers_session))
    = filter (fun j => j ∉ selected_layers ex_layers_session) (layer_ids (layers_state ex_layers_session))
  /\ events (deleteSelectedLayers ex_layers_session) = events ex_layers_session ++ [LayerListChanged; CurrentLayerChanged].
Proof. apply deleteSelectedLayers_spec. Defined.
