(* ===== verification/Tools.v ===== *)
(** * The tool actions of [operations/tools.py]

    Every tool action is built by [__create_tool_action__]: [execute] runs
    the action's [exec_handler] when the session is active, [update_state]
    enables the action when layers are available, there is a current layer
    and the action's [enabled_handler] (if any) accepts it.  The handlers
    call the plugin's API; the model records these calls, in order, in a log
    ([ApiCall]) next to the session of [Layers.v], and uses [Layers.addLayer]
    for the "create new layer" option of [from_closest_joint].  The API's
    effect on weights is the plugin's and is not modelled; what the handlers
    read back (a layer's paint targets, used influences and weights) is given
    by the section's parameters.  Weights are values of an abstract type
    with Python's [+], the [0] that [sum] starts from, and the [> 0.00001]
    test. *)

From Stdlib Require Import QArith.
From stdpp Require Import pretty.
From S2P Require Import Prelude Host Layers.

(** The API calls the handlers make, with their arguments. *)
Inductive ApiCall :=
  | CallAssignFromClosestJoint (skin_cluster : option pystr) (layer : option nat) (influences : option (list nat))
  | CallUnifyWeights (skin_cluster : option pystr) (layer : option nat) (overall_effect : Q) (single_cluster_mode : bool)
  | CallMergeLayers (layers : list nat)
  | CallDuplicateLayer (layer : nat)
  | CallFillTransparency (layer : nat)
  | CallCopyComponentWeights (layer : nat)
  | CallPasteAverageComponentWeights (layer : nat)
  | CallAddInfluences (influences : list pystr) (target : pystr)
  | CallSelect (items : list pystr).

(** [AttributeError] of [layer.paint_targets] / [layer.paint_target] on
    [None]. *)
Inductive ToolError := NoCurrentLayer.

(** The session of the operations, the log of API calls and Maya's
    selection: [cmds.ls(sl=True, l=True)] and [cmds.ls(sl=True, o=True, l=True)]. *)
Record ToolsSession (S : Type) := mkToolsSession {
  tbase : LayersSession S;
  calls : list ApiCall;
  maya_selection : list pystr;
  selected_objects : list pystr
}.

Arguments mkToolsSession {S}. Arguments tbase {S}. Arguments calls {S}.
Arguments maya_selection {S}. Arguments selected_objects {S}.

Record ClosestJointOptions := mkClosestJointOptions { create_new_layer : bool; all_influences : bool }.

(** [ClosestJointOptions()] *)
Definition default_closest_joint_options : ClosestJointOptions := mkClosestJointOptions false true.

Record UnifyWeightsOptions := mkUnifyWeightsOptions { overall_effect : Q; single_cluster_mode : bool }.

Definition default_unify_weights_options : UnifyWeightsOptions := mkUnifyWeightsOptions 1 false.

Definition SELECT_INFLUENCES_MESSAGE : pystr := py "在影响物列表中选择一个或多个影响影响物".

(** [selection[-1]] of a non-empty list. *)
Definition last_default (l : list pystr) : pystr := default [] (last l).

(** Python's [min] of a non-empty list. *)
Definition list_min (l : list nat) : nat :=
  match l with [] => 0 | x :: l' => foldl Nat.min x l' end.

Section Tools.

Context {S : Type} `{LayersApiLaws S}.
Variable generate_layer_name : list pystr -> pystr -> pystr.

(** [layer.paint_targets], [layer.get_used_influences()] (an empty list for
    [None]) and [layer.paint_target = t]; [layer.paint_target] is the first
    paint target. *)
Variable layer_paint_targets : S -> nat -> list nat.
Variable layer_used_influences : S -> nat -> list nat.
Variable layer_set_paint_target : S -> nat -> nat -> S.
(** [layer.index] *)
Variable layer_index : S -> nat -> nat.
(** The effect of [api.assign_from_closest_joint] on the layers' state. *)
Variable assign_from_closest_joint : S -> nat -> option (list nat) -> S.

Implicit Types s : ToolsSession S.

Definition with_base s (b : LayersSession S) : ToolsSession S :=
  mkToolsSession b (calls s) (maya_selection s) (selected_objects s).

Definition log_call s (c : ApiCall) : ToolsSession S :=
  mkToolsSession (tbase s) (calls s ++ [c]) (maya_selection s) (selected_objects s).

Definition current_layer s : option nat := current_layer_id (layers_state (tbase s)).

(** [execute()] of [__create_tool_action__] *)
Definition execute (exec_handler : ToolsSession S -> ToolsSession S * option ToolError) s
    : ToolsSession S * option ToolError :=
  if session_active (tbase s) then exec_handler s else (s, None).

(** [update_state()] of [__create_tool_action__] *)
Definition tool_action_enabled (enabled_handler : option (option nat -> bool)) s : bool :=
  let enabled := layersAvailable (tbase s) && bool_decide (current_layer s <> None) in
  match enabled_handler with
  | Some h => if enabled then h (current_layer s) else enabled
  | None => enabled
  end.

(** The part of [from_closest_joint]'s [exec_handler] after the influence
    check: [layer] and [influences] as computed before it. *)
Definition closest_joint_assign (options : ClosestJointOptions) (layer : option nat)
    (influences : option (list nat)) s : ToolsSession S * option ToolError :=
  let '(s1, layer) :=
    if create_new_layer options
    then let '(b, new_layer) := addLayer generate_layer_name (tbase s) in (with_base s b, Some new_layer)
    else (s, layer) in
  let st := match layer with
            | Some l => assign_from_closest_joint (layers_state (tbase s1)) l influences
            | None => layers_state (tbase s1) end in
  let s2 := log_call (with_base s1 (with_state (tbase s1) st))
              (CallAssignFromClosestJoint (selectedSkinCluster (tbase s1)) layer influences) in
  let s3 := with_base s2 (emit (emit (tbase s2) CurrentLayerChanged) InfluencesListUpdated) in
  match layer with
  | None => (s3, Some NoCurrentLayer)
  | Some l =>
      let st3 := layers_state (tbase s3) in
      match layer_paint_targets st3 l with
      | [] => let used_influences := layer_used_influences st3 l in
              match used_influences with
              | [] => (s3, None)
              | _ => (with_base s3 (with_state (tbase s3) (layer_set_paint_target st3 l (list_min used_influences))), None)
              end
      | _ => (s3, None)
      end
  end.

(** [exec_handler()] of [create_action__from_closest_joint] *)
Definition closest_joint_exec (options : ClosestJointOptions) s : ToolsSession S * option ToolError :=
  let layer := current_layer s in
  if all_influences options then closest_joint_assign options layer None s
  else match layer with
       | None => (s, Some NoCurrentLayer)
       | Some l =>
           let influences := layer_paint_targets (layers_state (tbase s)) l in
           match influences with
           | [] => (with_base s (show_dialog (tbase s) (DialogInfo SELECT_INFLUENCES_MESSAGE)), None)
           | _ => closest_joint_assign options layer (Some influences) s
           end
       end.

(** [exec_handler()] of [create_action__unify_weights] *)
Definition unify_weights_exec (options : UnifyWeightsOptions) s : ToolsSession S * option ToolError :=
  (log_call s (CallUnifyWeights (selectedSkinCluster (tbase s)) (current_layer s)
                 (overall_effect options) (single_cluster_mode options)), None).

(** [exec_handler()] of [create_action__merge_layers] *)
Definition merge_layers_exec s : ToolsSession S * option ToolError :=
  let s1 := log_call s (CallMergeLayers (selected_layers (tbase s))) in
  (with_base s1 (emit (emit (tbase s1) LayerListChanged) CurrentLayerChanged), None).

(** [enabled_handler(layer)] of [create_action__merge_layers] *)
Definition merge_layers_enabled (st : S) (layer : option nat) : bool :=
  match layer with Some l => bool_decide (0 < layer_index st l) | None => false end.

(** A loop [for source in selected_layers: api.<call>(layer=source)]. *)
Definition for_each_selected (call : nat -> ApiCall) s : ToolsSession S :=
  foldl log_call s (call <$> selected_layers (tbase s)).

(** [exec_handler()] of [create_action__duplicate_layer] *)
Definition duplicate_layer_exec s : ToolsSession S * option ToolError :=
  let s1 := for_each_selected CallDuplicateLayer s in
  (with_base s1 (emit (emit (tbase s1) LayerListChanged) CurrentLayerChanged), None).

(** [exec_handler()] of [create_action__fill_transparency] *)
Definition fill_transparency_exec s : ToolsSession S * option ToolError :=
  (for_each_selected CallFillTransparency s, None).

(** [exec_handler()] of [create_action__copy_component_weights] *)
Definition copy_component_weights_exec s : ToolsSession S * option ToolError :=
  (for_each_selected CallCopyComponentWeights s, None).

(** [exec_handler()] of [create_action__paste_average_component_weight] *)
Definition paste_average_component_weight_exec s : ToolsSession S * option ToolError :=
  (for_each_selected CallPasteAverageComponentWeights s, None).

(** [exec_handler()] of [create_action__add_influences] *)
Definition add_influences_exec s : ToolsSession S * option ToolError :=
  let selection := maya_selection s in
  if decide (length selection < 2) then (s, None)
  else
    let target := last_default selection in
    let s1 := log_call (log_call s (CallAddInfluences (take (length selection - 1) selection) target))
                       (CallSelect [target]) in
    (with_base s1 (emit (tbase s1) InfluencesListUpdated), None).

(** What the handlers rely on of the API calls whose effect is not
    modelled: they keep the stack's layers, and setting a paint target
    makes it the first one. *)
Hypothesis assign_ids : forall st l i, layer_ids (assign_from_closest_joint st l i) = layer_ids st.
Hypothesis set_paint_target_ids : forall st l t, layer_ids (layer_set_paint_target st l t) = layer_ids st.
Hypothesis set_paint_target_get : forall st l t,
  l ∈ layer_ids st -> head (layer_paint_targets (layer_set_paint_target st l t) l) = Some t.

(** ** Lemmas *)

Lemma log_calls_foldl : forall cs s,
  foldl log_call s cs = mkToolsSession (tbase s) (calls s ++ cs) (maya_selection s) (selected_objects s).
Proof.
  induction cs as [|c cs IH]; intros s; simpl; [rewrite app_nil_r; by destruct s|].
  rewrite IH. simpl. by rewrite <- app_assoc.
Qed.

Lemma list_min_spec l : l <> [] -> list_min l ∈ l /\ forall x, x ∈ l -> list_min l <= x.
Proof.
  destruct l as [|x l]; [done|intros _]. simpl.
  assert (Hgen : forall acc, (foldl Nat.min acc l = acc \/ foldl Nat.min acc l ∈ l)
                             /\ foldl Nat.min acc l <= acc /\ forall y, y ∈ l -> foldl Nat.min acc l <= y).
  { induction l as [|y l IH]; intros acc; simpl; [split_and!; [by left|lia|set_solver]|].
    destruct (IH (Nat.min acc y)) as (Hin & Hle & Hall). split_and!.
    - destruct Hin as [->|Hin]; [|set_solver]. destruct (Nat.min_spec acc y) as [[_ ->]|[_ ->]]; [by left|set_solver].
    - lia.
    - intros z [->|Hz]%elem_of_cons; [lia|auto]. }
  destruct (Hgen x) as (Hin & Hle & Hall). split.
  - destruct Hin as [->|Hin]; set_solver.
  - intros y [->|Hy]%elem_of_cons; auto.
Qed.

(** C32. [from_closest_joint] checks the paint targets before it creates a
    layer: when only the selected influences are to be used and there are
    none, it shows a dialog and creates no layer and calls nothing, even
    with [create_new_layer] set. *)
Theorem closest_joint_checks_first options s l :
  all_influences options = false -> current_layer s = Some l ->
  layer_paint_targets (layers_state (tbase s)) l = [] ->
  closest_joint_exec options s = (with_base s (show_dialog (tbase s) (DialogInfo SELECT_INFLUENCES_MESSAGE)), None)
  /\ layer_ids (layers_state (tbase (closest_joint_exec options s).1)) = layer_ids (layers_state (tbase s))
  /\ calls (closest_joint_exec options s).1 = calls s.
Proof.
  intros Ha Hl Hp. assert (E : closest_joint_exec options s =
    (with_base s (show_dialog (tbase s) (DialogInfo SELECT_INFLUENCES_MESSAGE)), None)).
  { unfold closest_joint_exec. by rewrite Ha, Hl, Hp. }
  rewrite E. done.
Qed.

Lemma closest_joint_assign_new options layer influences s :
  create_new_layer options = true ->
  closest_joint_assign options layer influences s =
  closest_joint_assign (mkClosestJointOptions false (all_influences options))
    (Some (addLayer generate_layer_name (tbase s)).2) influences
    (with_base s (addLayer generate_layer_name (tbase s)).1).
Proof. intros Hc. unfold closest_joint_assign. rewrite Hc. simpl. by destruct (addLayer _ _). Qed.

Lemma closest_joint_assign_some options l influences s :
  create_new_layer options = false ->
  (closest_joint_assign options (Some l) influences s).2 = None
  /\ calls (closest_joint_assign options (Some l) influences s).1
       = calls s ++ [CallAssignFromClosestJoint (selectedSkinCluster (tbase s)) (Some l) influences]
  /\ events (tbase (closest_joint_assign options (Some l) influences s).1)
       = events (tbase s) ++ [CurrentLayerChanged; InfluencesListUpdated]
  /\ layer_ids (layers_state (tbase (closest_joint_assign options (Some l) influences s).1))
       = layer_ids (layers_state (tbase s)).
Proof.
  intros Hc. unfold closest_joint_assign. rewrite Hc. cbn.
  destruct (layer_paint_targets _ l); [destruct (layer_used_influences _ l)|]; cbn;
    rewrite ?set_paint_target_ids, ?assign_ids; (split_and!; [done|done| |done]); by rewrite <- app_assoc.
Qed.

(** C14. With [create_new_layer], [from_closest_joint] adds a layer with
    [addLayer] and assigns the weights on it, with the paint targets of the
    layer that was current before (or all influences); the signals are
    those of [addLayer] followed by [currentLayerChanged] and
    [influencesListUpdated]. *)
Theorem closest_joint_new_layer options s l :
  create_new_layer options = true -> layers_wf (layers_state (tbase s)) -> current_layer s = Some l ->
  (all_influences options = true \/ layer_paint_targets (layers_state (tbase s)) l <> []) ->
  let influences := if all_influences options then None
                    else Some (layer_paint_targets (layers_state (tbase s)) l) in
  (closest_joint_exec options s).2 = None
  /\ exists new_layer, (new_layer ∉ layer_ids (layers_state (tbase s)))
    /\ layer_ids (layers_state (tbase (closest_joint_exec options s).1))
         = layer_ids (layers_state (tbase s)) ++ [new_layer]
    /\ calls (closest_joint_exec options s).1
         = calls s ++ [CallAssignFromClosestJoint (selectedSkinCluster (tbase s)) (Some new_layer) influences]
    /\ events (tbase (closest_joint_exec options s).1)
         = events (tbase s) ++ [LayerListChanged; CurrentLayerChanged; CurrentLayerChanged; InfluencesListUpdated].
Proof.
  intros Hc Hwf Hl Hinf influences.
  assert (E : closest_joint_exec options s = closest_joint_assign options (Some l) influences s).
  { unfold closest_joint_exec, influences. rewrite Hl.
    destruct (all_influences options); [done|].
    destruct (layer_paint_targets _ l) eqn:Hp; [by destruct Hinf|done]. }
  rewrite E, closest_joint_assign_new by done. pose proof (addLayer_skin generate_layer_name (tbase s)) as Hsk.
  destruct (addLayer generate_layer_name (tbase s)) as [b new_layer] eqn:Hadd. simpl in *.
  destruct (addLayer_effects generate_layer_name (tbase s) b new_layer Hwf Hadd) as (Hfresh & Hids & _ & _ & _ & Hev & _).
  destruct (closest_joint_assign_some (mkClosestJointOptions false (all_influences options)) new_layer influences
              (with_base s b)) as (Hn & Hcalls & Hevents & Hlids); [done|].
  split; [done|]. exists new_layer. split_and!; [done|by rewrite Hlids|rewrite Hcalls; simpl; by rewrite Hsk|].
  rewrite Hevents. simpl. rewrite Hev. by rewrite <- app_assoc.
Qed.

(** When the layer the weights were assigned to has no paint target
    afterwards, [from_closest_joint] makes the smallest of its used
    influences its paint target. *)
Theorem closest_joint_paint_target options s l :
  layers_wf (layers_state (tbase s)) -> create_new_layer options = false -> current_layer s = Some l ->
  (all_influences options = true \/ layer_paint_targets (layers_state (tbase s)) l <> []) ->
  let st1 := assign_from_closest_joint (layers_state (tbase s)) l
               (if all_influences options then None else Some (layer_paint_targets (layers_state (tbase s)) l)) in
  layer_paint_targets st1 l = [] -> layer_used_influences st1 l <> [] ->
  (closest_joint_exec options s).2 = None
  /\ exists m, head (layer_paint_targets (layers_state (tbase (closest_joint_exec options s).1)) l) = Some m
    /\ m ∈ layer_used_influences st1 l /\ forall x, x ∈ layer_used_influences st1 l -> m <= x.
Proof.
  intros Hwf Hc Hl Hinf st1 Hp Hu.
  assert (E : closest_joint_exec options s = closest_joint_assign options (Some l)
     (if all_influences options then None else Some (layer_paint_targets (layers_state (tbase s)) l)) s).
  { unfold closest_joint_exec. rewrite Hl.
    destruct (all_influences options); [done|].
    destruct (layer_paint_targets _ l) eqn:Hp0; [by destruct Hinf|done]. }
  rewrite E. unfold closest_joint_assign. rewrite Hc. cbn. fold st1. rewrite Hp.
  destruct (layer_used_influences st1 l) as [|u us] eqn:Hus; [done|]. split; [done|].
  exists (list_min (u :: us)). split; [|by apply list_min_spec].
  apply set_paint_target_get. unfold st1. rewrite assign_ids. by eapply current_valid.
Qed.

(** C35. [add_influences] with fewer than two selected objects does
    nothing; otherwise it adds all but the last selected object to the last
    one, selects the last one and emits [influencesListUpdated]. *)
Theorem add_influences_spec s :
  (length (maya_selection s) < 2 -> add_influences_exec s = (s, None))
  /\ (2 <= length (maya_selection s) ->
      exists influences target, maya_selection s = influences ++ [target]
        /\ calls (add_influences_exec s).1 = calls s ++ [CallAddInfluences influences target; CallSelect [target]]
        /\ events (tbase (add_influences_exec s).1) = events (tbase s) ++ [InfluencesListUpdated]
        /\ (add_influences_exec s).2 = None).
Proof.
  unfold add_influences_exec. split; intros Hlen; [by rewrite decide_True|].
  rewrite decide_False by lia.
  destruct (maya_selection s) as [|x sel] eqn:Hsel using rev_ind; [simpl in Hlen; lia|].
  exists sel, x. unfold last_default. rewrite last_app, length_app, take_app_length' by (simpl; lia).
  simpl. split_and!; [done| |done|done]. by rewrite <- app_assoc.
Qed.

(** [duplicate_layer] calls [api.duplicate_layer] once per selected
    layer, in order, then emits [layerListChanged] and
    [currentLayerChanged]. *)
Theorem duplicate_layer_spec s :
  calls (duplicate_layer_exec s).1 = calls s ++ (CallDuplicateLayer <$> selected_layers (tbase s))
  /\ events (tbase (duplicate_layer_exec s).1) = events (tbase s) ++ [LayerListChanged; CurrentLayerChanged]
  /\ layers_state (tbase (duplicate_layer_exec s).1) = layers_state (tbase s).
Proof.
  unfold duplicate_layer_exec, for_each_selected. rewrite log_calls_foldl. cbn.
  split_and!; [done|by rewrite <- app_assoc|done].
Qed.

End Tools.

Section Weights.

(** *** [select_affected_vertices] *)

Context {S : Type} `{LayersApi S}.
(** [layer.paint_targets] *)
Variable layer_paint_targets : S -> nat -> list nat.

Context {W : Type}.
(** Python's [+] on weights, the [0] that [sum] starts from, [i > 0.00001]. *)
Variable wadd : W -> W -> W.
Variable wzero : W.
Variable significant : W -> bool.
(** [layer.get_weights(i)] (an empty list for [None]). *)
Variable layer_get_weights : S -> nat -> nat -> list W.

(** [zip] of the unpacked [lists]: the columns, as many as the shortest list is long. *)
Fixpoint zip_star (lists : list (list W)) : list (list W) :=
  match lists with
  | [] => []
  | [l] => (fun x => [x]) <$> l
  | l :: lists' => zip_with cons l (zip_star lists')
  end.

(** [sum(i)] *)
Definition py_sum (xs : list W) : W := foldl wadd wzero xs.

(** [mesh + ".vtx[%d]" % index] *)
Definition vertex_name (mesh : pystr) (index : nat) : pystr := mesh ++ py ".vtx[" ++ py (pretty index) ++ py "]".

(** [non_zero_weights] *)
Definition non_zero_weights (st : S) (selected_layers influences : list nat) : list (list W) :=
  filter (fun w => w <> []) (selected_layers ≫= fun layer => layer_get_weights st layer <$> influences).

(** [indexes]: the vertices whose combined weight is significant. *)
Definition affected_indexes (mesh : pystr) (weights : list (list W)) : list pystr :=
  (fun '(index, _) => vertex_name mesh index) <$>
    filter (fun '(_, w) => significant w = true) (py_enumerate (py_sum <$> zip_star weights)).

(** [exec_handler()] of [create_action__select_affected_vertices] *)
Definition select_affected_vertices_exec s : ToolsSession S * option ToolError :=
  let st := layers_state (tbase s) in
  match selected_layers (tbase s), current_layer s with
  | [], _ | _, None => (s, None)
  | selected, Some current =>
      match layer_paint_targets st current with
      | [] => (s, None)
      | influences =>
          match non_zero_weights st selected influences, selected_objects s with
          | [], _ => (s, None)
          | weights, [mesh] => (log_call s (CallSelect (affected_indexes mesh weights)), None)
          | _, _ => (s, None)
          end
      end
  end.

(** ** Lemmas *)

Lemma zip_star_lookup : forall lists k col, lists <> [] ->
  zip_star lists !! k = Some col <-> Forall2 (fun l x => l !! k = Some x) lists col.
Proof.
  induction lists as [|l lists IH]; intros k col Hne; [done|].
  destruct lists as [|l' lists].
  - simpl. rewrite list_lookup_fmap. split.
    + destruct (l !! k) eqn:E; intros [= <-]. by constructor.
    + intros Hf. inversion Hf as [|? x ? ? Hx Hrest]; subst. inversion Hrest; subst. by rewrite Hx.
  - change (zip_with cons l (zip_star (l' :: lists)) !! k = Some col <->
            Forall2 (fun l x => l !! k = Some x) (l :: l' :: lists) col).
    rewrite lookup_zip_with. split.
    + destruct (l !! k) as [x|] eqn:Ex; [|done].
      destruct (zip_star (l' :: lists) !! k) as [c|] eqn:Ec; [|done]. intros [= <-].
      constructor; [done|]. by apply IH.
    + intros Hf. inversion Hf as [|? x ? c Hx Hrest]; subst. rewrite Hx.
      apply IH in Hrest; [|done]. by rewrite Hrest.
Qed.

Lemma vertex_name_inj mesh i j : vertex_name mesh i = vertex_name mesh j -> i = j.
Proof.
  unfold vertex_name. intros E. apply app_inv_head in E. apply app_inv_head in E.
  apply app_inv_tail in E. by apply py_inj, (inj pretty) in E.
Qed.

Lemma affected_indexes_elem mesh weights k :
  vertex_name mesh k ∈ affected_indexes mesh weights <->
  exists col, zip_star weights !! k = Some col /\ significant (py_sum col) = true.
Proof.
  unfold affected_indexes. rewrite list_elem_of_fmap. split.
  - intros ([k' w] & Hn & Hin). apply vertex_name_inj in Hn as <-.
    apply list_elem_of_filter in Hin as [Hs Hin]. apply elem_of_py_enumerate in Hin.
    rewrite list_lookup_fmap in Hin. destruct (zip_star weights !! k) as [col|]; [|done].
    injection Hin as <-. eauto.
  - intros (col & Hc & Hs). exists (k, py_sum col). split; [done|].
    apply list_elem_of_filter. split; [done|]. apply elem_of_py_enumerate.
    by rewrite list_lookup_fmap, Hc.
Qed.

(** C36. When every guard of [select_affected_vertices] passes, it selects
    exactly the vertices whose weights, summed over the selected layers and
    paint targets that have weights, are significant, and no vertex beyond
    the shortest of those weight lists. *)
Theorem select_affected_vertices_spec s current mesh :
  selected_layers (tbase s) <> [] -> current_layer s = Some current ->
  layer_paint_targets (layers_state (tbase s)) current <> [] ->
  non_zero_weights (layers_state (tbase s)) (selected_layers (tbase s))
    (layer_paint_targets (layers_state (tbase s)) current) <> [] ->
  selected_objects s = [mesh] ->
  exists indexes, select_affected_vertices_exec s = (log_call s (CallSelect indexes), None)
    /\ forall k, vertex_name mesh k ∈ indexes <->
         exists col, Forall2 (fun w x => w !! k = Some x)
                       (non_zero_weights (layers_state (tbase s)) (selected_layers (tbase s))
                          (layer_paint_targets (layers_state (tbase s)) current)) col
                     /\ significant (py_sum col) = true.
Proof.
  intros Hsel Hcur Hp Hw Hobj. unfold select_affected_vertices_exec. rewrite Hcur, Hobj.
  destruct (selected_layers (tbase s)) as [|l ls]; [done|].
  destruct (layer_paint_targets _ current) as [|p ps]; [done|].
  destruct (non_zero_weights _ _ _) as [|w ws] eqn:Hnz; [done|].
  eexists; split; [reflexivity|]. intros k. rewrite affected_indexes_elem.
  by setoid_rewrite zip_star_lookup.
Qed.

End Weights.

(** ** Runs on the list-based stack of [Host.v] *)

(** The stack of [ListLayers.ex_store]; Maya's selection is two joints and
    a mesh. *)
Definition ex_tools_session : ToolsSession ListLayers.store :=
  mkToolsSession ex_layers_session [] [py "|joint1"; py "|joint2"; py "|mesh1"] [py "|mesh1"].

(** The same with [child]'s paint target set to the influence [0]. *)
Definition ex_painting_session : ToolsSession ListLayers.store :=
  mkToolsSession (with_state ex_layers_session (ListLayers.set_paint_target ListLayers.ex_store 2 0))
    [] [] [py "|mesh1"].

(** [child]'s weights: influence [0] weighs on vertices 0 and 2 of three. *)
Definition ex_weights (st : ListLayers.store) (layer influence : nat) : list nat :=
  if decide (influence = 0) then [1; 0; 2] else [].

Definition ex_closest_joint := closest_joint_exec ex_generate_layer_name ListLayers.paint_targets
  ListLayers.used_influences ListLayers.set_paint_target ListLayers.assign_used.

Example ex_select_affected :
  calls (select_affected_vertices_exec ListLayers.paint_targets Nat.add 0 (fun w => bool_decide (0 < w))
           ex_weights ex_painting_session).1
  = [CallSelect [py "|mesh1.vtx[0]"; py "|mesh1.vtx[2]"]].
Proof. vm_compute. reflexivity. Qed.

Lemma closest_joint_checks_first_witness :
  let options := mkClosestJointOptions true false in
  ex_closest_joint options ex_tools_session
    = (with_base ex_tools_session (show_dialog (tbase ex_tools_session) (DialogInfo SELECT_INFLUENCES_MESSAGE)), None)
  /\ layer_ids (layers_state (tbase (ex_closest_joint options ex_tools_session).1))
     = layer_ids (layers_state (tbase ex_tools_session))
  /\ calls (ex_closest_joint options ex_tools_session).1 = calls ex_tools_session.
Proof.
  intros options. apply (closest_joint_checks_first _ _ _ _ _ options ex_tools_session 2); reflexivity.
Defined.

Lemma closest_joint_new_layer_witness :
  let options := mkClosestJointOptions true true in
  (ex_closest_joint options ex_tools_session).2 = None
  /\ exists new_layer, (new_layer ∉ layer_ids (layers_state (tbase ex_tools_session)))
    /\ layer_ids (layers_state (tbase (ex_closest_joint options ex_tools_session).1))
         = layer_ids (layers_state (tbase ex_tools_session)) ++ [new_layer]
    /\ calls (ex_closest_joint options ex_tools_session).1
         = calls ex_tools_session ++ [CallAssignFromClosestJoint (selectedSkinCluster (tbase ex_tools_session))
                                        (Some new_layer) None]
    /\ events (tbase (ex_closest_joint options ex_tools_session).1)
         = events (tbase ex_tools_session) ++ [LayerListChanged; CurrentLayerChanged; CurrentLayerChanged; InfluencesListUpdated].
Proof.
  intros options.
  apply (@closest_joint_new_layer ListLayers.store ListLayers.api ListLayers.laws ex_generate_layer_name ListLayers.paint_targets ListLayers.used_influences
           ListLayers.set_paint_target ListLayers.assign_used ListLayers.assign_used_ids ListLayers.set_paint_target_ids
           options ex_tools_session 2).
  - reflexivity.
  - exact ListLayers.ex_store_wf.
  - reflexivity.
  - by left.
Defined.

Lemma closest_joint_paint_target_witness :
  let options := mkClosestJointOptions false true in
  let st1 := ListLayers.assign_used (layers_state (tbase ex_tools_session)) 2 None in
  (ex_closest_joint options ex_tools_session).2 = None
  /\ exists m, head (ListLayers.paint_targets (layers_state (tbase (ex_closest_joint options ex_tools_session).1)) 2) = Some m
    /\ m ∈ ListLayers.used_influences st1 2 /\ forall x, x ∈ ListLayers.used_influences st1 2 -> m <= x.
Proof.
  intros options st1.
  apply (@closest_joint_paint_target ListLayers.store ListLayers.api ListLayers.laws ex_generate_layer_name ListLayers.paint_targets ListLayers.used_influences
           ListLayers.set_paint_target ListLayers.assign_used ListLayers.assign_used_ids ListLayers.set_paint_target_ids
           ListLayers.set_paint_target_get options ex_tools_session 2).
  - exact ListLayers.ex_store_wf.
  - reflexivity.
  - reflexivity.
  - by left.
  - vm_compute. reflexivity.
  - vm_compute. discriminate.
Defined.

Lemma add_influences_spec_witness :
  (length (maya_selection ex_tools_session) < 2 -> add_influences_exec ex_tools_session = (ex_tools_session, None))
  /\ (2 <= length (maya_selection ex_tools_session) ->
      exists influences target, maya_selection ex_tools_session = influences ++ [target]
        /\ calls (add_influences_exec ex_tools_session).1
           = calls ex_tools_session ++ [CallAddInfluences influences target; CallSelect [target]]
        /\ events (tbase (add_influences_exec ex_tools_session).1) = events (tbase ex_tools_session) ++ [InfluencesListUpdated]
        /\ (add_influences_exec ex_tools_session).2 = None).
Proof. apply add_influences_spec. Defined.

Lemma select_affected_vertices_spec_witness :
  exists indexes,
    select_affected_vertices_exec ListLayers.paint_targets Nat.add 0 (fun w => bool_decide (0 < w)) ex_weights
      ex_painting_session = (log_call ex_painting_session (CallSelect indexes), None)
    /\ forall k, vertex_name (py "|mesh1") k ∈ indexes <->
         exists col, Forall2 (fun w x => w !! k = Some x)
                       (non_zero_weights ex_weights (layers_state (tbase ex_painting_session))
                          (selected_layers (tbase ex_painting_session))
                          (ListLayers.paint_targets (layers_state (tbase ex_painting_session)) 2)) col
                     /\ bool_decide (0 < foldl Nat.add 0 col) = true.
Proof.
  apply (select_affected_vertices_spec ListLayers.paint_targets Nat.add 0 (fun w => bool_decide (0 < w))
           ex_weights ex_painting_session 2 (py "|mesh1")); vm_compute; congruence.
Defined.

Lemma duplicate_layer_spec_witness :
  calls (duplicate_layer_exec ex_tools_session).1 = calls ex_tools_session ++ [CallDuplicateLayer 2]
  /\ events (tbase (duplicate_layer_exec ex_tools_session).1) = events (tbase ex_tools_session) ++ [LayerListChanged; CurrentLayerChanged]
  /\ layers_state (tbase (duplicate_layer_exec ex_tools_session).1) = layers_state (tbase ex_tools_session).
Proof. apply duplicate_layer_spec. Defined.
