(* ===== verification/RemoveLayerData.v ===== *)
(** * Removing the plugin's nodes: [operations/removeLayerData.py]

    [remove_custom_nodes] finds the plugin's custom nodes (scene-wide, or
    in the history of the skin clusters of the given meshes), asks for
    confirmation when interactive, deletes them, leaves the paint tool and
    notifies the session.  The Maya queries it makes ([cmds.ls],
    [cmds.listHistory], [cmds.nodeType], [get_related_skin_cluster],
    [PaintTool.is_painting]) are parameters of the section; its effects
    (dialogs, [cmds.delete], [cmds.setToolTo], the signal) are the list of
    [Effect]s it performs, in order. *)

From S2P Require Import Prelude Host.

(** The effects of [remove_custom_nodes], in the order it performs them. *)
Inductive Effect :=
  | ShowDialog (d : Dialog)
  | DeleteNodes (nodes : list pystr)
  | SetToolTo (tool : pystr)
  | Emit (e : Event).

#[export] Instance Effect_eq_dec : EqDecision Effect.
Proof.
  intros x y. unfold Decision.
  assert (EqDecision Dialog) by solve_decision. solve_decision.
Defined.

(** [as_list(arg)] *)
Definition as_list (arg : option (list pystr)) : list pystr := match arg with None => [] | Some l => l end.

(** [customNodeTypes] *)
Definition customNodeTypes : list pystr := [py "ngst2MeshDisplay"; py "ngst2SkinLayerData"].

Definition message_scene_noCustomNodes : pystr := py "当前场景中不包含任何Ng节点.".
Definition message_selection_noCustomNodes : pystr := py "当前选择不包含任何的Ng节点.".
Definition message_scene_warning : pystr := py "这将会删除所有Ng节点.权重会保留，Ng图层会消失，确认删除么？".
Definition message_selection_warning : pystr := py "这将会删除选中项的Ng节点.权重会保留，Ng图层会消失 确认删除么？".

Section Remove.

(** [cmds.ls(type=t)] *)
Variable ls_type : pystr -> option (list pystr).
(** [target_info.get_related_skin_cluster(mesh)] *)
Variable get_related_skin_cluster : pystr -> option pystr.
(** [cmds.listHistory(skin_cluster, future=True, levels=1)] *)
Variable list_history_future : pystr -> option (list pystr).
(** [cmds.nodeType(node)] *)
Variable node_type : pystr -> pystr.
(** [PaintTool.is_painting()] *)
Variable is_painting : bool.

(** [list_custom_nodes()] *)
Definition list_custom_nodes : list pystr := customNodeTypes ≫= fun t => as_list (ls_type t).

(** [list_custom_nodes_for_mesh(mesh)] *)
Definition list_custom_nodes_for_mesh (mesh : pystr) : list pystr :=
  match get_related_skin_cluster mesh with
  | None => []
  | Some skin_cluster =>
      filter (fun i => node_type i ∈ customNodeTypes) (as_list (list_history_future skin_cluster))
  end.

(** [list_custom_nodes_for_meshes(meshes)] *)
Definition list_custom_nodes_for_meshes (meshes : list pystr) : list pystr :=
  meshes ≫= list_custom_nodes_for_mesh.

(** [remove_custom_nodes(interactive, session, meshes)]: [has_session] is
    [session is not None], [answer] the answer to [dialogs.yesNo]. *)
Definition remove_custom_nodes (interactive has_session : bool) (meshes : option (list pystr)) (answer : bool)
    : list Effect :=
  let meshes := as_list meshes in
  let is_selection_mode := bool_decide (0 < length meshes) in
  let custom_nodes := if is_selection_mode then list_custom_nodes_for_meshes meshes else list_custom_nodes in
  match custom_nodes with
  | [] => if interactive
          then [ShowDialog (DialogInfo (if is_selection_mode then message_selection_noCustomNodes
                                        else message_scene_noCustomNodes))]
          else []
  | _ =>
      let ask := if interactive
                 then [ShowDialog (DialogYesNo (if is_selection_mode then message_selection_warning
                                                else message_scene_warning))]
                 else [] in
      let delete_confirmed := if interactive then answer else true in
      ask ++ (if delete_confirmed then [DeleteNodes custom_nodes] else [])
          ++ (if is_painting then [SetToolTo (py "Move")] else [])
          ++ (if has_session then [Emit TargetChanged] else [])
  end.

(** [remove_custom_nodes_from_selection(interactive, session)]: [selection]
    is [cmds.ls(sl=True)]. *)
Definition remove_custom_nodes_from_selection (interactive has_session : bool) (selection : option (list pystr))
    (answer : bool) : list Effect :=
  remove_custom_nodes interactive has_session (Some (as_list selection)) answer.

(** The nodes [remove_custom_nodes] looks for: in the one-level future
    history of the skin cluster of one of the [meshes] and of a custom type,
    or, scene-wide, of a custom type. *)
Definition found_node (meshes : list pystr) (n : pystr) : Prop :=
  if bool_decide (0 < length meshes)
  then exists mesh skin_cluster, mesh ∈ meshes /\ get_related_skin_cluster mesh = Some skin_cluster
         /\ n ∈ as_list (list_history_future skin_cluster) /\ node_type n ∈ customNodeTypes
  else exists t, t ∈ customNodeTypes /\ n ∈ as_list (ls_type t).

(** ** Lemmas *)

Lemma list_custom_nodes_for_meshes_elem meshes n :
  n ∈ list_custom_nodes_for_meshes meshes <->
  exists mesh skin_cluster, mesh ∈ meshes /\ get_related_skin_cluster mesh = Some skin_cluster
    /\ n ∈ as_list (list_history_future skin_cluster) /\ node_type n ∈ customNodeTypes.
Proof.
  unfold list_custom_nodes_for_meshes. rewrite list_elem_of_bind. split.
  - intros (mesh & Hn & Hm). unfold list_custom_nodes_for_mesh in Hn.
    destruct (get_related_skin_cluster mesh) as [sc|] eqn:E; [|set_solver].
    apply list_elem_of_filter in Hn as [Ht Hn]. eauto 10.
  - intros (mesh & sc & Hm & E & Hn & Ht). exists mesh. split; [|done].
    unfold list_custom_nodes_for_mesh. rewrite E. by apply list_elem_of_filter.
Qed.

Lemma list_custom_nodes_elem n :
  n ∈ list_custom_nodes <-> exists t, t ∈ customNodeTypes /\ n ∈ as_list (ls_type t).
Proof. unfold list_custom_nodes. rewrite list_elem_of_bind. naive_solver. Qed.

Lemma custom_nodes_elem meshes n :
  n ∈ (if bool_decide (0 < length meshes) then list_custom_nodes_for_meshes meshes else list_custom_nodes)
  <-> found_node meshes n.
Proof.
  unfold found_node. case_bool_decide; [apply list_custom_nodes_for_meshes_elem|apply list_custom_nodes_elem].
Qed.

(** C38. Declining the confirmation deletes nothing, but
    [remove_custom_nodes] still leaves the paint tool and emits
    [targetChanged]: the code after the [if delete_confirmed] runs on both
    answers. *)
Theorem remove_custom_nodes_declined has_session meshes :
  (if bool_decide (0 < length (as_list meshes)) then list_custom_nodes_for_meshes (as_list meshes)
   else list_custom_nodes) <> [] ->
  (forall nodes, DeleteNodes nodes ∉ remove_custom_nodes true has_session meshes false)
  /\ (is_painting = true -> SetToolTo (py "Move") ∈ remove_custom_nodes true has_session meshes false)
  /\ (has_session = true -> Emit TargetChanged ∈ remove_custom_nodes true has_session meshes false).
Proof.
  unfold remove_custom_nodes. destruct (if bool_decide _ then _ else _) as [|n ns]; [done|intros _].
  destruct is_painting, has_session; split_and!; intros; try discriminate; set_solver.
Qed.

(** C16. [remove_custom_nodes] deletes, in one [cmds.delete], the nodes it
    finds, exactly when it finds some and the deletion is not declined. *)
Theorem remove_custom_nodes_deletes interactive has_session meshes answer :
  ((exists nodes, DeleteNodes nodes ∈ remove_custom_nodes interactive has_session meshes answer) <->
   (interactive = false \/ answer = true) /\ exists n, found_node (as_list meshes) n)
  /\ forall nodes, DeleteNodes nodes ∈ remove_custom_nodes interactive has_session meshes answer ->
       forall n, n ∈ nodes <-> found_node (as_list meshes) n.
Proof.
  setoid_rewrite <- custom_nodes_elem. unfold remove_custom_nodes.
  destruct (if bool_decide _ then _ else _) as [|m ms].
  - split; [split; [intros [nodes Hd]; destruct interactive; set_solver|intros (_ & n & Hn); set_solver]|].
    intros nodes Hd. destruct interactive; set_solver.
  - split; [split|].
    + intros [nodes Hd]. split; [|exists m; set_solver].
      destruct interactive, answer; first [by right | by left | exfalso; destruct is_painting, has_session; set_solver].
    + intros [Hc _]. exists (m :: ms).
      destruct interactive, answer, is_painting, has_session; destruct Hc; try discriminate; set_solver.
    + intros nodes Hd n.
      destruct interactive, answer, is_painting, has_session; simpl in Hd;
        rewrite ?elem_of_app, ?elem_of_cons, ?elem_of_nil in Hd; naive_solver.
Qed.

End Remove.

(** ** A scene with one layer-data node *)

Definition ex_ls_type (t : pystr) : option (list pystr) :=
  if decide (t = py "ngst2SkinLayerData") then Some [py "ngSkinToolsData_skinCluster1"] else None.
Definition ex_no_skin_cluster (mesh : pystr) : option pystr := None.
Definition ex_no_history (node : pystr) : option (list pystr) := None.
Definition ex_node_type (node : pystr) : pystr := py "ngst2SkinLayerData".

Lemma remove_custom_nodes_declined_witness :
  (forall nodes, DeleteNodes nodes ∉ remove_custom_nodes ex_ls_type ex_no_skin_cluster ex_no_history ex_node_type
                                       true true true None false)
  /\ (true = true -> SetToolTo (py "Move") ∈ remove_custom_nodes ex_ls_type ex_no_skin_cluster ex_no_history
                                               ex_node_type true true true None false)
  /\ (true = true -> Emit TargetChanged ∈ remove_custom_nodes ex_ls_type ex_no_skin_cluster ex_no_history
                                           ex_node_type true true true None false).
Proof.
  apply (remove_custom_nodes_declined ex_ls_type ex_no_skin_cluster ex_no_history ex_node_type true true None).
  vm_compute. discriminate.
Defined.
