(* ===== verification/TargetUI.v ===== *)
(** * The target panel of [ui/targetui.py]

    [build_target_ui] shows one of two pages: the "no layers" page, whose
    labels [handle_target_changed] updates from the session, and the layers
    page, whose influence filter box drives the [InfluenceNameFilter] of
    [NameFilter.v]: every edit of the box's text calls [filter_edited],
    which sets the filter string and shows the clear button when there is
    text.  [FilterBox] is the box's state (the filter, the text, the
    visibility of the clear button); [box_reachable] are the states the box
    can reach from its construction by edits and clicks on the clear
    button. *)

From S2P Require Import Prelude NameFilter.

Record FilterBox := mkBox { box_filter : InfluenceNameFilter; box_text : pystr; clear_visible : bool }.

(** [filter_edited()]: an exception of [set_filter_string] leaves the clear
    button as it was. *)
Definition filter_edited (b : FilterBox) : FilterBox * option py_exn :=
  let '(f, e) := set_filter_string (box_filter b) (box_text b) in
  match e with
  | Some _ => (mkBox f (box_text b) (clear_visible b), e)
  | None => (mkBox f (box_text b) (negb (bool_decide (length (box_text b) = 0))), None)
  end.

(** The user sets the box's text to [t]: [editTextChanged] fires when the
    text changes. *)
Definition edit_text (b : FilterBox) (t : pystr) : FilterBox * option py_exn :=
  if decide (t = box_text b) then (b, None) else filter_edited (mkBox (box_filter b) t (clear_visible b)).

(** [clear_clicked()]: [filter.clearEditText()]. *)
Definition clear_clicked (b : FilterBox) : FilterBox * option py_exn := edit_text b [].

(** [build_infl_filter()]: a new filter, an empty box, and the call of
    [filter_edited()] at its end. *)
Definition build_infl_filter : FilterBox := (filter_edited (mkBox new_filter [] true)).1.

Inductive box_reachable : FilterBox -> Prop :=
  | box_built : box_reachable build_infl_filter
  | box_edited b t : box_reachable b -> box_reachable (edit_text b t).1.

(** [handle_target_changed()] of [build_target_ui]: the page shown. *)
Definition target_page (layersAvailable : bool) : nat := if layersAvailable then 1 else 0.

Definition NOTE_SELECT_MESH : pystr := py "选择附着蒙皮节点的网格.".
Definition NOTE_NOT_INITIALIZED : pystr := py "尚未为此网格初始化蒙皮层.".
Definition NOTE_V1_LAYERS : pystr := py "ngSkinTools的旧版本的蒙皮层在此网格上初始化.".

(** [handle_target_changed()] of [build_no_layers_ui]: the text and
    visibility of [selection_display] and the text of [selection_note],
    or [None] when the layers are available ("no need to update");
    [can_import] is [import_v1_actions.can_import(session)]. *)
Definition no_layers_labels (layersAvailable : bool) (selectedSkinCluster : option pystr) (can_import : bool)
    : option (option pystr * bool * pystr) :=
  if layersAvailable then None
  else
    let is_skinned := bool_decide (selectedSkinCluster <> None) in
    let note := if is_skinned then (if can_import then NOTE_V1_LAYERS else NOTE_NOT_INITIALIZED)
                else NOTE_SELECT_MESH in
    Some (selectedSkinCluster, is_skinned, note).

(** The box is consistent: its filter is a reachable filter state holding
    the box's text, and the clear button shows exactly when there is text. *)
Definition box_ok (b : FilterBox) : Prop :=
  reachable (box_filter b) /\ currentFilterString (box_filter b) = box_text b
  /\ clear_visible b = negb (bool_decide (box_text b = [])).

Lemma filter_edited_ok b : reachable (box_filter b) ->
  (filter_edited b).2 = None /\ box_ok (filter_edited b).1.
Proof.
  intros Hr. unfold filter_edited. rewrite set_filter_string_eq. simpl.
  split; [done|]. split_and!.
  - pose proof (reachable_set _ (box_text b) Hr) as H. by rewrite set_filter_string_eq in H.
  - by case_decide.
  - simpl. f_equal. apply bool_decide_ext. by rewrite length_zero_iff_nil.
Qed.

Lemma box_reachable_ok b : box_reachable b -> box_ok b.
Proof.
  induction 1 as [|b t _ IH].
  - apply filter_edited_ok, reachable_new.
  - unfold edit_text. case_decide; [done|]. apply filter_edited_ok. apply IH.
Qed.

Lemma box_ok_is_match b v : box_ok b -> box_text b = [] -> is_match (box_filter b) v = true.
Proof.
  intros (Hr & Hs & _) Ht. unfold is_match.
  rewrite (reachable_compiled _ Hr), Hs, Ht, compile_filter_nil. done.
Qed.

(** From every state the filter box can reach, a click on the clear
    button hides it and leaves a filter that accepts every influence, and no
    exception escapes. *)
Lemma clear_clicked_spec b v :
  box_reachable b ->
  (clear_clicked b).2 = None /\ clear_visible (clear_clicked b).1 = false
  /\ is_match (box_filter (clear_clicked b).1) v = true.
Proof.
  intros Hb. pose proof (box_reachable_ok _ (box_edited b [] Hb)) as Hok.
  assert (Htext : box_text (clear_clicked b).1 = []).
  { unfold clear_clicked, edit_text. case_decide; [done|]. unfold filter_edited.
    rewrite set_filter_string_eq. done. }
  split_and!.
  - unfold clear_clicked, edit_text. case_decide; [done|].
    apply filter_edited_ok. by destruct (box_reachable_ok _ Hb).
  - destruct Hok as (_ & _ & Hv). unfold clear_clicked. rewrite Hv. fold (clear_clicked b). by rewrite Htext.
  - by apply box_ok_is_match.
Qed.
