(* ===== verification/InfluencesView.v ===== *)
(** * The influences view of [ui/influencesview.py]

    [wanted_tree_items] is a generator: it yields the [mask] row (and the
    [dq] row), then computes the unique names of the shown influences with
    [unique_names] and yields one row per influence whose path the filter
    accepts.  The model returns the rows yielded and whether the generator
    finished ([false] when [unique_names] does not return).  [build_items]
    rewrites the rows of the tree widget in place, reusing the existing
    children by index; the lock/unlock buttons, the selection handlers and
    [current_influence_changed] act on the current layer.

    [InfluenceInfo], [Layer] and the configuration values are modelled by the
    attributes the view reads and writes; [InfluenceInfo.path_name] is not
    under [src/] and is modelled from its contract (the path, or the name of
    an influence without a path).  Qt is modelled by the rows of the tree
    (text, id, icon, selection, buttons), its current row and the
    [tree_items] dictionary; [selectedItems()] is taken in row order. *)

From S2P Require Import Prelude Host ShortName UniqueNames NameFilter.

(** ** Data *)

(** The ids of the rows: ["mask"], ["dq"] and the logical indices. *)
Inductive ItemId := IdMask | IdDq | IdInfluence (logicalIndex : nat).

#[export] Instance ItemId_eq_dec : EqDecision ItemId.
Proof. solve_decision. Defined.

Inductive Icon :=
  | icon_mask | icon_dq | icon_joint | icon_joint_disabled | icon_transform | icon_transform_disabled.

Inductive Button := BtnLocked | BtnUnlocked.

#[export] Instance Button_eq_dec : EqDecision Button.
Proof. solve_decision. Defined.

(** The tuples [wanted_tree_items] yields. *)
Record Row := mkRow { row_id : ItemId; row_text : pystr; row_icon : Icon; row_buttons : list Button }.

(** The attributes of [InfluenceInfo] the view uses. *)
Record InfluenceInfo := mkInfluence {
  logicalIndex : nat;
  infl_path : option pystr;
  infl_name : pystr;
  used : bool;
  locked : bool;
  unique_name : pystr
}.

(** The attributes of [Layer] the view uses; [used_influences] is what
    [get_used_influences()] returns. *)
Record Layer := mkLayer {
  num_children : nat;
  paint_targets : list ItemId;
  locked_influences : list ItemId;
  used_influences : option (list nat)
}.

Inductive SortMode := InfluencesSortUnsorted | InfluencesSortDescending.

#[export] Instance SortMode_eq_dec : EqDecision SortMode.
Proof. solve_decision. Defined.

Record Config := mkConfig { influences_show_used_influences_only : bool; influences_sort : SortMode }.

(** [InfluenceInfo.path_name()] *)
Definition path_name (i : InfluenceInfo) : pystr :=
  match infl_path i with Some p => p | None => infl_name i end.

(** [get_icon(influence, is_joint)] *)
Definition get_icon (i : InfluenceInfo) (is_joint : bool) : Icon :=
  if used i then (if is_joint then icon_joint else icon_transform)
  else (if is_joint then icon_joint_disabled else icon_transform_disabled).

(** The row of an influence: [(i.logicalIndex, i.unique_name, get_icon(i, is_joint), [...])]. *)
Definition influence_row (i : InfluenceInfo) : Row :=
  let is_joint := bool_decide (infl_path i <> None) in
  mkRow (IdInfluence (logicalIndex i)) (unique_name i) (get_icon i is_joint)
        [if locked i then BtnLocked else BtnUnlocked].

Definition mask_row : Row := mkRow IdMask (py "[Mask]") icon_mask [].
Definition dq_row : Row := mkRow IdDq (py "[DQ Weights]") icon_dq [].

(** [i.used = ...; i.locked = ...] *)
Definition mark_influence (used_set locked_set : list ItemId) (i : InfluenceInfo) : InfluenceInfo :=
  mkInfluence (logicalIndex i) (infl_path i) (infl_name i)
    (bool_decide (IdInfluence (logicalIndex i) ∈ used_set))
    (bool_decide (IdInfluence (logicalIndex i) ∈ locked_set)) (unique_name i).

Definition set_unique_name (i : InfluenceInfo) (n : pystr) : InfluenceInfo :=
  mkInfluence (logicalIndex i) (infl_path i) (infl_name i) (used i) (locked i) n.

Definition unique_name_le (a b : InfluenceInfo) : Prop := py_str_leb (unique_name a) (unique_name b) = true.

#[export] Instance unique_name_le_dec a b : Decision (unique_name_le a b).
Proof. unfold unique_name_le. apply _. Defined.

(** The first part of [wanted_tree_items]: mark [used] and [locked], keep
    the used influences if the configuration says so, none on a group layer. *)
Definition shown_items (l : Layer) (config : Config) (is_group_layer : bool)
    (items : list InfluenceInfo) : list InfluenceInfo :=
  let used_set := IdInfluence <$> default [] (used_influences l) in
  let items1 := mark_influence used_set (locked_influences l) <$> items in
  let items2 := if influences_show_used_influences_only config
                then filter (fun i => used i = true) items1 else items1 in
  if is_group_layer then [] else items2.

(** [wanted_tree_items(layer, config, is_group_layer, include_dq_item,
    filter, items)]: the rows yielded, and whether the generator finished. *)
Definition wanted_tree_items (layer : option Layer) (config : Config) (is_group_layer include_dq_item : bool)
    (name_filter : InfluenceNameFilter) (items : list InfluenceInfo) : list Row * bool :=
  match layer with
  | None => ([], true)
  | Some l =>
      let items3 := shown_items l config is_group_layer items in
      let head := mask_row :: (if negb is_group_layer && include_dq_item then [dq_row] else []) in
      match unique_names (path_name <$> items3) with
      | None => (head, false)
      | Some names =>
          let items4 := zip_with set_unique_name items3 names in
          let items5 := if decide (influences_sort config = InfluencesSortDescending)
                        then merge_sort unique_name_le items4 else items4 in
          (head ++ (influence_row <$> filter (fun i => is_match name_filter (path_name i) = true) items5), true)
      end
  end.

(** What a row of an influence shows of the influence [i] of [items] it
    comes from: its id, a short name of its path, its lock button, and that
    the filter accepts its path and, in "used only" mode, that it is used. *)
Definition row_shows (l : Layer) (config : Config) (name_filter : InfluenceNameFilter)
    (items : list InfluenceInfo) (r : Row) : Prop :=
  exists i, i ∈ items /\ row_id r = IdInfluence (logicalIndex i)
    /\ is_match name_filter (path_name i) = true
    /\ name_ok (path_name i) (row_text r)
    /\ row_buttons r = [if bool_decide (IdInfluence (logicalIndex i) ∈ locked_influences l)
                        then BtnLocked else BtnUnlocked]
    /\ (influences_show_used_influences_only config = true ->
        logicalIndex i ∈ default [] (used_influences l)).

(** ** The tree widget and the session *)

(** A child of the tree's invisible root: its text, id ([id_role] data),
    icon, selection and the buttons of its toolbar. *)
Record TreeItem := mkItem {
  item_text : pystr; item_id : ItemId; item_icon : Icon; item_selected : bool; item_buttons : list Button
}.

(** The view: the root's children, the index of the current item, and the
    [tree_items] dictionary (id to child index, in insertion order). *)
Record View := mkView { children : list TreeItem; current : option nat; tree_items : list (ItemId * nat) }.

(** What [session.state] and [session.events] hold for the view. *)
Record Session := mkSession {
  selectedSkinCluster : option pystr;
  current_layer : option Layer;
  skin_cluster_dq_channel_used : bool;
  events : list Event
}.

(** [is_group_layer = layer is not None and layer.num_children != 0] *)
Definition is_group_layer (layer : option Layer) : bool :=
  match layer with Some l => negb (bool_decide (num_children l = 0)) | None => false end.

(** [selected_ids] of [build_items]: the paint targets of the current layer. *)
Definition selected_ids_of (s : Session) : list ItemId :=
  match current_layer s with Some l => paint_targets l | None => [] end.

(** The child [build_items] makes of a row. *)
Definition item_of (selected_ids : list ItemId) (r : Row) : TreeItem :=
  mkItem (row_text r) (row_id r) (row_icon r) (bool_decide (row_id r ∈ selected_ids)) (row_buttons r).

(** [d[k] = v] on a Python dict: an existing key keeps its place. *)
Fixpoint dict_set {K V} `{EqDecision K} (d : list (K * V)) (k : K) (v : V) : list (K * V) :=
  match d with
  | [] => [(k, v)]
  | (k', v') :: d' => if decide (k = k') then (k, v) :: d' else (k', v') :: dict_set d' k v
  end.

(** The loop body of [build_items] for the row at [item_index]. *)
Definition place_row (selected_ids : list ItemId) (current_id : option ItemId)
    (v : View) (item_index : nat) (r : Row) : View :=
  let it := item_of selected_ids r in
  let ch := if decide (length (children v) <= item_index) then children v ++ [it]
            else <[item_index := it]> (children v) in
  let cur := if decide (Some (row_id r) = current_id) then Some item_index else current v in
  mkView ch cur (dict_set (tree_items v) (row_id r) item_index).

Fixpoint place_rows (selected_ids : list ItemId) (current_id : option ItemId)
    (v : View) (item_index : nat) (rows : list Row) : View :=
  match rows with
  | [] => v
  | r :: rows' => place_rows selected_ids current_id (place_row selected_ids current_id v item_index r)
                    (S item_index) rows'
  end.

(** [while item_index < tree_root.childCount(): removeChild(...)]: each
    pass removes row [item_index].  When the current row is removed, Qt's
    selection model makes the row above it current if there is one, else
    the row below, else none; a current row below [item_index] moves up
    with each removal until it is removed itself, so it ends on the last
    row kept, or on none when no row is kept.  The view's signals are
    blocked, so no handler sees the move. *)
Definition remove_rest (v : View) (item_index : nat) : View :=
  mkView (take item_index (children v))
         (match current v with
          | Some k => if decide (k < item_index) then Some k
                      else match item_index with 0 => None | S i => Some i end
          | None => None
          end)
         (tree_items v).

(** [build_items(view, items, layer)]; [None] when [wanted_tree_items] does
    not finish. *)
Definition build_items (s : Session) (config : Config) (name_filter : InfluenceNameFilter)
    (v : View) (items : list InfluenceInfo) (layer : option Layer) : option View :=
  let current_id := head (selected_ids_of s) in
  let '(rows, finished) := wanted_tree_items layer config (is_group_layer layer)
                             (skin_cluster_dq_channel_used s) name_filter items in
  if finished then
    Some (remove_rest (place_rows (selected_ids_of s) current_id (mkView (children v) (current v) []) 0 rows)
                      (length rows))
  else None.

(** [add_or_remove(input_list, items, should_add)] *)
Definition add_or_remove (input_list items : list ItemId) (should_add : bool) : list ItemId :=
  if should_add then input_list ++ items else filter (fun i => i ∉ items) input_list.

(** [lock_unlock_handler(lock)] of the row [item_id]. *)
Definition lock_unlock_handler (lock : bool) (item_id : ItemId) (s : Session) : Session :=
  match current_layer s with
  | None => s
  | Some l =>
      let targets := if decide (item_id ∈ paint_targets l) then paint_targets l else [item_id] in
      let l' := mkLayer (num_children l) (paint_targets l)
                        (add_or_remove (locked_influences l) targets lock) (used_influences l) in
      mkSession (selectedSkinCluster s) (Some l') (skin_cluster_dq_channel_used s)
                (events s ++ [InfluencesListUpdated])
  end.

(** [selected_ids.remove(item_id)]: the first occurrence. *)
Fixpoint remove_first (x : ItemId) (l : list ItemId) : list ItemId :=
  match l with
  | [] => []
  | y :: l' => if decide (x = y) then l' else y :: remove_first x l'
  end.

(** [sync_paint_targets_to_selection()] *)
Definition sync_paint_targets_to_selection (s : Session) (v : View) : Session :=
  let selected_ids := item_id <$> filter (fun it => item_selected it = true) (children v) in
  let selected_ids :=
    match current v ≫= fun k => children v !! k with
    | Some it => if item_selected it then item_id it :: remove_first (item_id it) selected_ids
                 else selected_ids
    | None => selected_ids
    end in
  match current_layer s with
  | Some l => mkSession (selectedSkinCluster s)
                (Some (mkLayer (num_children l) selected_ids (locked_influences l) (used_influences l)))
                (skin_cluster_dq_channel_used s) (events s)
  | None => s
  end.

(** [current_item_changed(curr, prev)] *)
Definition current_item_changed (s : Session) (v : View) (curr : option nat) : Session :=
  match curr, selectedSkinCluster s, current_layer s with
  | Some _, Some _, Some _ => sync_paint_targets_to_selection s v
  | _, _, _ => s
  end.

(** [tree_item.setSelected(get_item_id(tree_item) in targets)] *)
Definition select_item (targets : list ItemId) (it : TreeItem) : TreeItem :=
  mkItem (item_text it) (item_id it) (item_icon it) (bool_decide (item_id it ∈ targets)) (item_buttons it).

(** The loop of [current_influence_changed] over [tree_items.values()]. *)
Fixpoint select_targets (targets : list ItemId) (first : bool) (v : View) (entries : list (ItemId * nat)) : View :=
  match entries with
  | [] => v
  | (_, k) :: entries' =>
      let selected := match children v !! k with
                      | Some it => bool_decide (item_id it ∈ targets) | None => false end in
      let cur := if selected && first then Some k else current v in
      select_targets targets false (mkView (alter (select_item targets) k (children v)) cur (tree_items v)) entries'
  end.

(** [current_influence_changed()] *)
Definition current_influence_changed (s : Session) (v : View) : View :=
  match current_layer s with
  | None => v
  | Some l => select_targets (paint_targets l) true v (tree_items v)
  end.

(** The [toggle] of [build_used_influences_action]. *)
Definition toggle_used_only (c : Config) : Config :=
  mkConfig (negb (influences_show_used_influences_only c)) (influences_sort c).

(** The [toggle] of [build_set_influences_sorted_action]. *)
Definition toggle_sorted (c : Config) : Config :=
  let new_value := if decide (influences_sort c = InfluencesSortDescending)
                   then InfluencesSortUnsorted else InfluencesSortDescending in
  mkConfig (influences_show_used_influences_only c) new_value.

(** [refresh_items()]: [items] is what [list_influences] returns for the
    selected skin cluster. *)
Definition refresh_items (s : Session) (config : Config) (name_filter : InfluenceNameFilter)
    (v : View) (items : list InfluenceInfo) : option View :=
  build_items s config name_filter v items (current_layer s).

(** [current_layer_changed()] *)
Definition current_layer_changed (s : Session) (config : Config) (name_filter : InfluenceNameFilter)
    (v : View) (items : list InfluenceInfo) : option View :=
  match current_layer s with
  | None => build_items s config name_filter v [] None
  | Some _ => current_influence_changed s <$> refresh_items s config name_filter v items
  end.

(** ** A concrete layer *)

(** A layer with two joints, [|root|b] and [|root|a]; [|root|b] is the
    paint target and locked, both are used. *)
Definition ex_layer : Layer := mkLayer 0 [IdInfluence 1] [IdInfluence 1] (Some [1; 2]).

Definition ex_influences : list InfluenceInfo :=
  [mkInfluence 1 (Some (py "|root|b")) (py "b") false false [];
   mkInfluence 2 (Some (py "|root|a")) (py "a") false false []].

Definition ex_config : Config := mkConfig false InfluencesSortDescending.

Definition ex_rows : list Row :=
  (wanted_tree_items (Some ex_layer) ex_config false true new_filter ex_influences).1.

Definition ex_session : Session := mkSession (Some (py "skinCluster1")) (Some ex_layer) true [].

Definition ex_view0 : View := mkView [] None [].

(** The view after [build_items] on [ex_influences]. *)
Definition ex_view1 : View :=
  default ex_view0 (build_items ex_session ex_config new_filter ex_view0 ex_influences (Some ex_layer)).

(** The same rows without a current item. *)
Definition ex_view2 : View := mkView (children ex_view1) None (tree_items ex_view1).

(** ** [build_items] *)

Lemma place_row_prefix sel cid v k r :
  k <= length (children v) ->
  take (S k) (children (place_row sel cid v k r)) = take k (children v) ++ [item_of sel r]
  /\ S k <= length (children (place_row sel cid v k r)).
Proof.
  intros Hk. unfold place_row. simpl. case_decide.
  - assert (length (children v) = k) as <- by lia.
    rewrite take_ge by (rewrite length_app; simpl; lia). rewrite take_ge by lia.
    rewrite length_app. simpl. split; [done|lia].
  - rewrite length_insert. split; [|lia].
    rewrite (take_S_r _ _ (item_of sel r)); [|apply list_lookup_insert_eq; lia].
    by rewrite take_insert_ge by lia.
Qed.

Lemma place_rows_prefix sel cid rows : forall v k,
  k <= length (children v) ->
  take (k + length rows) (children (place_rows sel cid v k rows)) = take k (children v) ++ (item_of sel <$> rows)
  /\ k + length rows <= length (children (place_rows sel cid v k rows)).
Proof.
  induction rows as [|r rows IH]; intros v k Hk; simpl.
  - rewrite Nat.add_0_r, app_nil_r. split; [done|lia].
  - destruct (place_row_prefix sel cid v k r Hk) as [H1 H2].
    destruct (IH (place_row sel cid v k r) (S k) H2) as [H3 H4].
    replace (k + S (length rows)) with (S k + length rows) by lia.
    rewrite H3, H1, <- app_assoc. split; [done|lia].
Qed.

(** The rows [build_items] leaves in the tree. *)
Lemma build_items_rows s config name_filter v items layer v' :
  build_items s config name_filter v items layer = Some v' ->
  (wanted_tree_items layer config (is_group_layer layer) (skin_cluster_dq_channel_used s) name_filter items).2 = true
  /\ children v' = item_of (selected_ids_of s) <$>
       (wanted_tree_items layer config (is_group_layer layer) (skin_cluster_dq_channel_used s) name_filter items).1.
Proof.
  unfold build_items.
  destruct (wanted_tree_items _ _ _ _ _ _) as [rows []]; intros H; [|discriminate].
  injection H as <-. split; [done|]. simpl.
  destruct (place_rows_prefix (selected_ids_of s) (head (selected_ids_of s)) rows
              (mkView (children v) (current v) []) 0) as [H _]; [lia|].
  exact H.
Qed.

(** [build_items] returns only when [wanted_tree_items] finishes, and
    then the children of the tree are exactly the rows yielded, in order,
    each selected when its id is a paint target of the current layer,
    whatever rows the tree held before. *)
Theorem build_items_children s config name_filter v items layer v' :
  build_items s config name_filter v items layer = Some v' ->
  (wanted_tree_items layer config (is_group_layer layer) (skin_cluster_dq_channel_used s) name_filter items).2 = true
  /\ children v' = item_of (selected_ids_of s) <$>
       (wanted_tree_items layer config (is_group_layer layer) (skin_cluster_dq_channel_used s) name_filter items).1.
Proof. apply build_items_rows. Qed.

(** ** [wanted_tree_items] *)

#[export] Instance IdInfluence_inj : Inj (=) (=) IdInfluence.
Proof. by intros ?? [=]. Qed.

Lemma shown_items_elem l c g items x :
  x ∈ shown_items l c g items ->
  exists i, i ∈ items
    /\ x = mark_influence (IdInfluence <$> default [] (used_influences l)) (locked_influences l) i
    /\ (influences_show_used_influences_only c = true -> used x = true).
Proof.
  unfold shown_items. destruct g; [set_solver|].
  destruct (influences_show_used_influences_only c).
  - intros [Hu Hx]%list_elem_of_filter. apply list_elem_of_fmap in Hx as (i & -> & Hi).
    exists i. by split_and!.
  - intros (i & -> & Hi)%list_elem_of_fmap. exists i. by split_and!.
Qed.

Lemma fmap_path_name_mark u k (items : list InfluenceInfo) :
  path_name <$> (mark_influence u k <$> items) = path_name <$> items.
Proof. rewrite <- list_fmap_compose. by apply list_fmap_ext. Qed.

Lemma shown_items_sublist l c g items :
  path_name <$> shown_items l c g items `sublist_of` path_name <$> items.
Proof.
  unfold shown_items. destruct g; [apply sublist_nil_l|].
  rewrite <- (fmap_path_name_mark (IdInfluence <$> default [] (used_influences l)) (locked_influences l) items).
  destruct (influences_show_used_influences_only c); [|reflexivity].
  apply fmap_sublist, sublist_filter.
Qed.

(** [wanted_tree_items] finishes when the influences have distinct Maya
    paths: the names come from [unique_names], which then returns. *)
Lemma wanted_tree_items_total l c g dq flt items :
  Forall (fun p => maya_path p = true) (path_name <$> items) -> NoDup (path_name <$> items) ->
  (wanted_tree_items (Some l) c g dq flt items).2 = true.
Proof.
  intros Hm Hd.
  destruct (unique_names_total (path_name <$> shown_items l c g items)) as (r & Hr & _).
  - apply Forall_forall; intros p Hp. rewrite Forall_forall in Hm. apply Hm.
    eapply elem_of_sublist; [exact Hp|apply shown_items_sublist].
  - eapply sublist_NoDup; [exact Hd|apply shown_items_sublist].
  - simpl. by rewrite Hr.
Qed.

(** The rows of a finished [wanted_tree_items] on a layer. *)
Lemma wanted_tree_items_inv l c g dq flt items rows :
  wanted_tree_items (Some l) c g dq flt items = (rows, true) ->
  exists names, unique_names (path_name <$> shown_items l c g items) = Some names /\
    rows = mask_row :: (if negb g && dq then [dq_row] else []) ++
      (influence_row <$> filter (fun i => is_match flt (path_name i) = true)
        (if decide (influences_sort c = InfluencesSortDescending)
         then merge_sort unique_name_le (zip_with set_unique_name (shown_items l c g items) names)
         else zip_with set_unique_name (shown_items l c g items) names)).
Proof.
  simpl. destruct (unique_names _) as [names|]; [|discriminate].
  intros [= <-]. by exists names.
Qed.

Lemma sort_if_elem P `{Decision P} (xs : list InfluenceInfo) x :
  x ∈ (if decide P then merge_sort unique_name_le xs else xs) <-> x ∈ xs.
Proof. case_decide; [by rewrite merge_sort_Permutation|done]. Qed.

Lemma zip_names_elem xs names x :
  unique_names (path_name <$> xs) = Some names ->
  x ∈ zip_with set_unique_name xs names ->
  exists y, y ∈ xs /\ x = set_unique_name y (unique_name x) /\ name_ok (path_name y) (unique_name x).
Proof.
  intros Hn (j & y & n & -> & Hy & Hj)%elem_of_lookup_zip_with.
  exists y. split_and!; [by eapply list_elem_of_lookup_2|done|].
  eapply (unique_names_names_ok _ _ Hn); [|exact Hj].
  by rewrite list_lookup_fmap, Hy.
Qed.

Lemma zip_names_complete xs names y :
  unique_names (path_name <$> xs) = Some names -> y ∈ xs ->
  exists n, set_unique_name y n ∈ zip_with set_unique_name xs names.
Proof.
  intros Hn (j & Hy)%list_elem_of_lookup.
  destruct (unique_names_names_ok _ _ Hn) as [Hlen _].
  rewrite length_fmap in Hlen.
  destruct (lookup_lt_is_Some_2 names j) as [n Hj].
  { rewrite Hlen. by eapply lookup_lt_Some. }
  exists n. by eapply elem_of_lookup_zip_with_2.
Qed.

Lemma filter_StronglySorted {A} (R : relation A) (P : A -> Prop) `{forall x, Decision (P x)} xs :
  StronglySorted R xs -> StronglySorted R (filter P xs).
Proof.
  induction 1 as [|x xs _ IH Hx]; [constructor|]. rewrite filter_cons.
  case_decide; [|done]. constructor; [done|].
  apply Forall_forall. intros y [_ Hy]%list_elem_of_filter. by eapply Forall_forall.
Qed.

#[export] Instance unique_name_le_trans : Transitive unique_name_le.
Proof. intros a b c. apply py_str_leb_trans. Qed.

#[export] Instance unique_name_le_total : Total unique_name_le.
Proof. intros a b. apply py_str_leb_total. Qed.

Lemma shown_items_complete l c items i :
  i ∈ items ->
  (influences_show_used_influences_only c = true -> logicalIndex i ∈ default [] (used_influences l)) ->
  mark_influence (IdInfluence <$> default [] (used_influences l)) (locked_influences l) i
    ∈ shown_items l c false items.
Proof.
  intros Hi Hu. unfold shown_items. simpl.
  destruct (influences_show_used_influences_only c).
  - apply list_elem_of_filter. split; [|by apply list_elem_of_fmap_2].
    apply bool_decide_eq_true. apply list_elem_of_fmap_2. auto.
  - by apply list_elem_of_fmap_2.
Qed.

(** C18. The rows of a finished [wanted_tree_items] on a layer: the mask row,
    the dq row when asked for on a layer that is not a group, then on a
    group layer nothing, and otherwise rows of influences of [items], each
    with its id, a whole-segment short name of its path, its lock button,
    a path the filter accepts and, in "used only" mode, a used influence. *)
Theorem wanted_tree_items_rows l c g dq flt items rows :
  wanted_tree_items (Some l) c g dq flt items = (rows, true) ->
  exists tail, rows = mask_row :: (if negb g && dq then [dq_row] else []) ++ tail
    /\ (g = true -> tail = [])
    /\ Forall (row_shows l c flt items) tail.
Proof.
  intros (names & Hn & ->)%wanted_tree_items_inv. eexists; split_and!; [reflexivity| |].
  - intros ->. simpl. by case_decide.
  - apply Forall_forall. intros r (x & -> & Hx)%list_elem_of_fmap.
    apply list_elem_of_filter in Hx as [Hm Hx]. apply sort_if_elem in Hx.
    destruct (zip_names_elem _ _ _ Hn Hx) as (y & Hy & Hxy & Hok).
    destruct (shown_items_elem _ _ _ _ _ Hy) as (i & Hi & -> & Hu).
    remember (unique_name x) as n eqn:En. subst x.
    exists i. split_and!; try done.
    intros Hc. specialize (Hu Hc).
    apply bool_decide_eq_true, list_elem_of_fmap_inj in Hu; [exact Hu|apply _].
Qed.

(** The rows of the influences a finished [wanted_tree_items] keeps. *)
Lemma wanted_tree_items_has_row l c dq flt items rows i :
  wanted_tree_items (Some l) c false dq flt items = (rows, true) ->
  i ∈ items -> is_match flt (path_name i) = true ->
  (influences_show_used_influences_only c = true -> logicalIndex i ∈ default [] (used_influences l)) ->
  IdInfluence (logicalIndex i) ∈ row_id <$> rows.
Proof.
  intros (names & Hn & ->)%wanted_tree_items_inv Hi Hm Hu.
  destruct (zip_names_complete _ _ _ Hn (shown_items_complete l c items i Hi Hu)) as [n Hz].
  apply list_elem_of_fmap. eexists; split;
    [|apply elem_of_cons; right; apply elem_of_app; right;
      apply list_elem_of_fmap_2, list_elem_of_filter; split; [|apply sort_if_elem; exact Hz]].
  all: done.
Qed.

(** C19. Every influence of [items] on a layer that is not a group, whose
    path the filter accepts and that "used only" mode does not hide, has a
    row in a finished [wanted_tree_items]. *)
Theorem wanted_tree_items_complete l c dq flt items rows i :
  wanted_tree_items (Some l) c false dq flt items = (rows, true) ->
  i ∈ items -> is_match flt (path_name i) = true ->
  (influences_show_used_influences_only c = true -> logicalIndex i ∈ default [] (used_influences l)) ->
  IdInfluence (logicalIndex i) ∈ row_id <$> rows.
Proof. apply wanted_tree_items_has_row. Qed.

(** C20. In the mode [InfluencesSortDescending] the influence rows are in
    ascending order of their names: [sorted(items, key=...)] without
    [reverse=True]. *)
Theorem wanted_tree_items_sorted l c g dq flt items rows :
  influences_sort c = InfluencesSortDescending ->
  wanted_tree_items (Some l) c g dq flt items = (rows, true) ->
  exists tail, rows = mask_row :: (if negb g && dq then [dq_row] else []) ++ tail
    /\ StronglySorted (fun a b => py_str_leb (row_text a) (row_text b) = true) tail.
Proof.
  intros Hc (names & Hn & ->)%wanted_tree_items_inv. eexists; split; [reflexivity|].
  rewrite decide_True by done.
  apply (StronglySorted_fmap _ unique_name_le); [done|].
  apply filter_StronglySorted, StronglySorted_merge_sort; apply _.
Qed.

Example ex_rows_texts :
  row_text <$> ex_rows = [py "[Mask]"; py "[DQ Weights]"; py "a"; py "b"].
Proof. vm_compute. reflexivity. Qed.

Lemma wanted_tree_items_rows_witness :
  exists tail, ex_rows = mask_row :: [dq_row] ++ tail /\ (false = true -> tail = [])
    /\ Forall (row_shows ex_layer ex_config new_filter ex_influences) tail.
Proof. apply (wanted_tree_items_rows ex_layer ex_config false true new_filter ex_influences). vm_compute. reflexivity. Defined.

Lemma wanted_tree_items_complete_witness : IdInfluence 2 ∈ row_id <$> ex_rows.
Proof.
  apply (wanted_tree_items_complete ex_layer ex_config true new_filter ex_influences ex_rows
           (mkInfluence 2 (Some (py "|root|a")) (py "a") false false [])).
  - vm_compute. reflexivity.
  - apply elem_of_cons. right. apply elem_of_cons. left. reflexivity.
  - reflexivity.
  - intros H. discriminate H.
Defined.

Lemma wanted_tree_items_sorted_witness :
  exists tail, ex_rows = mask_row :: [dq_row] ++ tail
    /\ StronglySorted (fun a b => py_str_leb (row_text a) (row_text b) = true) tail.
Proof. apply (wanted_tree_items_sorted ex_layer ex_config false true new_filter ex_influences); vm_compute; reflexivity. Defined.

(** ** [current_influence_changed] *)

Lemma select_item_idem t it : select_item t (select_item t it) = select_item t it.
Proof. done. Qed.

Lemma select_targets_children t : forall entries first v k,
  children (select_targets t first v entries) !! k =
    if decide (k ∈ snd <$> entries) then select_item t <$> children v !! k else children v !! k.
Proof.
  induction entries as [|[x k0] entries IH]; intros first v k.
  { rewrite decide_False; [done|]. apply not_elem_of_nil. }
  cbn [select_targets]. rewrite IH. simpl. destruct (decide (k = k0)) as [->|Hne].
  - rewrite list_lookup_alter. destruct (children v !! k0); simpl;
      repeat case_decide; first [done | set_solver].
  - rewrite list_lookup_alter_ne by done. repeat case_decide; first [done | set_solver].
Qed.

Lemma select_targets_length t : forall entries first v,
  length (children (select_targets t first v entries)) = length (children v).
Proof.
  induction entries as [|[x k0] entries IH]; intros first v; [done|].
  cbn [select_targets]. rewrite IH. cbn [children]. apply length_alter.
Qed.

Lemma select_targets_current_later t : forall entries v,
  current (select_targets t false v entries) = current v.
Proof.
  induction entries as [|[x k0] entries IH]; intros v; [done|].
  cbn [select_targets]. rewrite IH. simpl. by rewrite andb_false_r.
Qed.

(** ** [sync_paint_targets_to_selection] *)

Lemma remove_first_perm x l : x ∈ l -> x :: remove_first x l ≡ₚ l.
Proof.
  induction l as [|y l IH]; intros Hx; [set_solver|]. simpl. case_decide as Hxy; [by subst|].
  rewrite Permutation_swap. f_equiv. apply IH. set_solver.
Qed.

(** [item_id] of the current item is among the selected ids when the
    current item is selected. *)
Lemma current_selected_elem (v : View) k it :
  children v !! k = Some it -> item_selected it = true ->
  item_id it ∈ item_id <$> filter (fun it => item_selected it = true) (children v).
Proof.
  intros Hk Hs. apply list_elem_of_fmap_2, list_elem_of_filter. split; [done|].
  by eapply list_elem_of_lookup_2.
Qed.

(** C21. [current_influence_changed] sets the selection of every row of
    [tree_items] to whether its id is a paint target, but moves the current
    item only when the first entry of [tree_items] (the mask row) is a
    target: [first] is reset after every row, not after the first target. *)
Theorem current_influence_changed_spec s v l :
  current_layer s = Some l ->
  length (children (current_influence_changed s v)) = length (children v)
  /\ (forall k, children (current_influence_changed s v) !! k =
        if decide (k ∈ snd <$> tree_items v) then select_item (paint_targets l) <$> children v !! k
        else children v !! k)
  /\ current (current_influence_changed s v) =
       match tree_items v with
       | (_, k0) :: _ =>
           match children v !! k0 with
           | Some it => if bool_decide (item_id it ∈ paint_targets l) then Some k0 else current v
           | None => current v
           end
       | [] => current v
       end.
Proof.
  intros Hl. unfold current_influence_changed. rewrite Hl.
  split_and!; [apply select_targets_length|intros; apply select_targets_children|].
  destruct (tree_items v) as [|[x k0] es]; [done|].
  cbn [select_targets]. rewrite select_targets_current_later. cbn [current].
  destruct (children v !! k0); [|done]. by rewrite andb_true_r.
Qed.

(** C22. [sync_paint_targets_to_selection] makes the paint targets the ids of
    the selected rows, with the id of the current item first when it is
    selected; the rest of the layer and the session's events are kept. *)
Theorem sync_paint_targets_spec s v l :
  current_layer s = Some l ->
  exists l', current_layer (sync_paint_targets_to_selection s v) = Some l'
    /\ num_children l' = num_children l /\ locked_influences l' = locked_influences l
    /\ used_influences l' = used_influences l
    /\ events (sync_paint_targets_to_selection s v) = events s
    /\ paint_targets l' ≡ₚ item_id <$> filter (fun it => item_selected it = true) (children v)
    /\ (forall k it, current v = Some k -> children v !! k = Some it -> item_selected it = true ->
          head (paint_targets l') = Some (item_id it)).
Proof.
  intros Hl. unfold sync_paint_targets_to_selection. rewrite Hl.
  eexists; split_and!; try reflexivity.
  - destruct (current v) as [k|]; [|done]. simpl.
    destruct (children v !! k) as [it|] eqn:Hk; [|done].
    destruct (item_selected it) eqn:Hs; [|done].
    by apply remove_first_perm, (current_selected_elem v k).
  - intros k it -> Hk Hs. simpl. by rewrite Hk, Hs.
Qed.

(** C15. The lock/unlock button of the row [item_id] locks (unlocks) the
    paint targets when [item_id] is one of them and [item_id] alone
    otherwise, keeps the paint targets and emits [influencesListUpdated]. *)
Theorem lock_unlock_handler_spec lock item_id s l :
  current_layer s = Some l ->
  let targets := if decide (item_id ∈ paint_targets l) then paint_targets l else [item_id] in
  exists l', current_layer (lock_unlock_handler lock item_id s) = Some l'
    /\ paint_targets l' = paint_targets l /\ used_influences l' = used_influences l
    /\ events (lock_unlock_handler lock item_id s) = events s ++ [InfluencesListUpdated]
    /\ forall x, x ∈ locked_influences l' <->
         if lock then x ∈ locked_influences l \/ x ∈ targets
         else x ∈ locked_influences l /\ x ∉ targets.
Proof.
  intros Hl targets. unfold lock_unlock_handler. rewrite Hl.
  eexists; split_and!; try reflexivity. intros x. simpl. unfold add_or_remove.
  destruct lock; [apply elem_of_app|rewrite list_elem_of_filter; tauto].
Qed.

Lemma build_items_children_witness :
  (wanted_tree_items (Some ex_layer) ex_config (is_group_layer (Some ex_layer))
     (skin_cluster_dq_channel_used ex_session) new_filter ex_influences).2 = true
  /\ children ex_view1 = item_of (selected_ids_of ex_session) <$>
       (wanted_tree_items (Some ex_layer) ex_config (is_group_layer (Some ex_layer))
          (skin_cluster_dq_channel_used ex_session) new_filter ex_influences).1.
Proof.
  apply (build_items_children ex_session ex_config new_filter ex_view0 ex_influences (Some ex_layer) ex_view1).
  vm_compute. reflexivity.
Defined.

(** The paint target [|root|b] is the last row, but a view without a current
    item keeps none: the mask row is not a target. *)
Example ex_current_not_moved :
  current (current_influence_changed ex_session ex_view2) = None
  /\ (item_selected <$> children (current_influence_changed ex_session ex_view2)) = [false; false; false; true].
Proof. vm_compute. split; reflexivity. Qed.

Lemma current_influence_changed_spec_witness :
  current (current_influence_changed ex_session ex_view2) =
    match tree_items ex_view2 with
    | (_, k0) :: _ =>
        match children ex_view2 !! k0 with
        | Some it => if bool_decide (item_id it ∈ paint_targets ex_layer) then Some k0 else current ex_view2
        | None => current ex_view2
        end
    | [] => current ex_view2
    end.
Proof. apply (current_influence_changed_spec ex_session ex_view2 ex_layer). reflexivity. Defined.

Lemma sync_paint_targets_spec_witness :
  exists l', current_layer (sync_paint_targets_to_selection ex_session ex_view1) = Some l'
    /\ num_children l' = num_children ex_layer /\ locked_influences l' = locked_influences ex_layer
    /\ used_influences l' = used_influences ex_layer
    /\ events (sync_paint_targets_to_selection ex_session ex_view1) = events ex_session
    /\ paint_targets l' ≡ₚ item_id <$> filter (fun it => item_selected it = true) (children ex_view1)
    /\ (forall k it, current ex_view1 = Some k -> children ex_view1 !! k = Some it -> item_selected it = true ->
          head (paint_targets l') = Some (item_id it)).
Proof. apply (sync_paint_targets_spec ex_session ex_view1 ex_layer). reflexivity. Defined.

Lemma lock_unlock_handler_spec_witness :
  exists l', current_layer (lock_unlock_handler false (IdInfluence 1) ex_session) = Some l'
    /\ paint_targets l' = paint_targets ex_layer /\ used_influences l' = used_influences ex_layer
    /\ events (lock_unlock_handler false (IdInfluence 1) ex_session) = events ex_session ++ [InfluencesListUpdated]
    /\ forall x, x ∈ locked_influences l' <->
         x ∈ locked_influences ex_layer
         /\ x ∉ (if decide (IdInfluence 1 ∈ paint_targets ex_layer) then paint_targets ex_layer else [IdInfluence 1]).
Proof. apply (lock_unlock_handler_spec false (IdInfluence 1) ex_session ex_layer). reflexivity. Defined.

(** Without a current layer, [current_layer_changed] empties the tree:
    no rows, no current item, an empty [tree_items]. *)
Theorem current_layer_changed_no_layer s config name_filter v items :
  current_layer s = None ->
  current_layer_changed s config name_filter v items = Some (mkView [] None []).
Proof.
  intros Hl. unfold current_layer_changed, build_items. rewrite Hl. simpl.
  by destruct (current v).
Qed.

Lemma current_layer_changed_no_layer_witness :
  current_layer_changed (mkSession None None false []) ex_config new_filter ex_view1 ex_influences
    = Some (mkView [] None []).
Proof. apply current_layer_changed_no_layer. reflexivity. Defined.
