(* ===== verification/LayersPanel.v ===== *)
(** * The target panel as a whole: [build_target_ui] and its signal wiring

    [ui/targetui.py] stacks two pages: the "no layers" page of
    [build_no_layers_ui] and the layers page of [build_layers_ui], which
    holds the influences tree of [ui/influencesview.py] ([build_view]) and
    the filter box whose [InfluenceNameFilter] the tree reads.  The parts
    talk through signals, and a signal runs its handlers in the order they
    subscribed:
    - [filter.changed] (emitted by [set_filter_string] when the string
      changes), [config.influences_show_used_influences_only.changed],
      [config.influences_sort.changed] and [influencesListUpdated] run the
      tree's [filter_changed], which rebuilds the rows ([refresh_items]);
    - [currentLayerChanged] runs [current_layer_changed];
    - [targetChanged] runs the "no layers" page's [handle_target_changed],
      then the one of [build_target_ui] that picks the page;
    - the [update] of the "show used influences only" action and, by the
      subscription of [build_set_influences_sorted_action], the [update] of
      the "sort" action run on [influences_show_used_influences_only.changed],
      before the tree's handler (the actions are built before the panel).
    The handlers of a signal are the list [subscribe] of [Host.v] builds in
    registration order ([used_only_subscribers], [sort_subscribers],
    [target_subscribers]), and an emission is their [deliver].

    [Panel] holds the state the handlers read and write: the session (the
    influences tree's [Session] of [InfluencesView.v], with the target's
    [layersAvailable] and [can_import]), the influences [list_influences]
    returns, the configuration, the filter box of [TargetUI.v], the tree
    ([None] once a rebuild did not return, as the Python loop would not),
    the two actions' check marks and the "no layers" page.  [panel_handle]
    runs one event with the handlers of the signals it emits; the theorems
    are about the states [panel_reachable] from [build_target_ui]. *)

From S2P Require Import Prelude Host UniqueNames NameFilter TargetUI InfluencesView.

(** The check marks of the actions of [build_used_influences_action] and
    [build_set_influences_sorted_action]. *)
Record ViewActions := mkViewActions { used_only_checked : bool; sorted_checked : bool }.

(** The "no layers" page and the stacked widget: the page shown, the text
    and visibility of [selection_display], the text of [selection_note]. *)
Record TargetPage := mkTargetPage {
  page : nat;
  display_text : option pystr;
  display_visible : bool;
  note_text : pystr
}.

(** What [session.state] holds for the target panel besides the tree's
    session: [layersAvailable] and [import_v1_actions.can_import(session)]. *)
Record TargetState := mkTargetState { t_layers_available : bool; t_can_import : bool }.

Record Panel := mkPanel {
  p_session : Session;
  p_target : TargetState;
  p_items : list InfluenceInfo;
  p_config : Config;
  p_box : FilterBox;
  p_view : option View;
  p_actions : ViewActions;
  p_page : TargetPage
}.

Implicit Types p : Panel.

Definition with_view p (v : option View) : Panel :=
  mkPanel (p_session p) (p_target p) (p_items p) (p_config p) (p_box p) v (p_actions p) (p_page p).

Definition with_session p (s : Session) : Panel :=
  mkPanel s (p_target p) (p_items p) (p_config p) (p_box p) (p_view p) (p_actions p) (p_page p).

Definition with_items p (items : list InfluenceInfo) : Panel :=
  mkPanel (p_session p) (p_target p) items (p_config p) (p_box p) (p_view p) (p_actions p) (p_page p).

Definition with_config p (c : Config) : Panel :=
  mkPanel (p_session p) (p_target p) (p_items p) c (p_box p) (p_view p) (p_actions p) (p_page p).

Definition with_box p (b : FilterBox) : Panel :=
  mkPanel (p_session p) (p_target p) (p_items p) (p_config p) b (p_view p) (p_actions p) (p_page p).

Definition with_actions p (a : ViewActions) : Panel :=
  mkPanel (p_session p) (p_target p) (p_items p) (p_config p) (p_box p) (p_view p) a (p_page p).

Definition with_target p (t : TargetState) (pg : TargetPage) : Panel :=
  mkPanel (p_session p) t (p_items p) (p_config p) (p_box p) (p_view p) (p_actions p) pg.

(** ** The handlers *)

(** [filter_changed()] of [build_view]: [refresh_items()] on the tree. *)
Definition filter_changed p : Panel :=
  with_view p (v ← p_view p; refresh_items (p_session p) (p_config p) (box_filter (p_box p)) v (p_items p)).

(** [current_layer_changed()] of [build_view]. *)
Definition view_layer_changed p : Panel :=
  with_view p (v ← p_view p; current_layer_changed (p_session p) (p_config p) (box_filter (p_box p)) v (p_items p)).

(** [update()] of [build_used_influences_action]. *)
Definition used_only_update (c : Config) (a : ViewActions) : ViewActions :=
  mkViewActions (influences_show_used_influences_only c) (sorted_checked a).

(** [update()] of [build_set_influences_sorted_action]. *)
Definition sorted_update (c : Config) (a : ViewActions) : ViewActions :=
  mkViewActions (used_only_checked a) (bool_decide (influences_sort c = InfluencesSortDescending)).

(** The handlers registered on [config.influences_show_used_influences_only.changed],
    in order: the used-only action's [update], the sort action's [update]
    (registered on this signal, not on the sort setting's) and the tree's
    [filter_changed]. *)
Definition used_only_subscribers : list (Panel -> Panel) :=
  subscribe (subscribe (subscribe [] (fun p => with_actions p (used_only_update (p_config p) (p_actions p))))
                       (fun p => with_actions p (sorted_update (p_config p) (p_actions p))))
            filter_changed.

(** The handlers registered on [config.influences_sort.changed]: the
    tree's [filter_changed] alone. *)
Definition sort_subscribers : list (Panel -> Panel) := subscribe [] filter_changed.

Definition used_only_changed p : Panel := deliver used_only_subscribers p.

Definition sort_changed p : Panel := deliver sort_subscribers p.

(** The filter box after an edit: [filter.changed] fired when the filter's
    signal counted one more emission. *)
Definition box_changed p (b : FilterBox) : Panel :=
  let p1 := with_box p b in
  if decide (Signal.emitted (changed (box_filter b)) = Signal.emitted (changed (box_filter (p_box p))))
  then p1 else filter_changed p1.

(** [handle_target_changed()] of [build_no_layers_ui]: [no_layers_labels]
    of [TargetUI.v], or nothing when layers are available. *)
Definition no_layers_target_changed (s : Session) (t : TargetState) (pg : TargetPage) : TargetPage :=
  match no_layers_labels (t_layers_available t) (selectedSkinCluster s) (t_can_import t) with
  | Some (text, visible, note) => mkTargetPage (page pg) text visible note
  | None => pg
  end.

(** [handle_target_changed()] of [build_target_ui]. *)
Definition target_ui_target_changed (t : TargetState) (pg : TargetPage) : TargetPage :=
  mkTargetPage (target_page (t_layers_available t)) (display_text pg) (display_visible pg) (note_text pg).

(** The handlers of the page registered on [targetChanged], in order:
    [build_no_layers_ui]'s, then [build_target_ui]'s. *)
Definition target_subscribers (s : Session) (t : TargetState) : list (TargetPage -> TargetPage) :=
  subscribe (subscribe [] (no_layers_target_changed s t)) (target_ui_target_changed t).

Definition target_changed (s : Session) (t : TargetState) (pg : TargetPage) : TargetPage :=
  deliver (target_subscribers s t) pg.

(** Did the handler emit a signal on the session? *)
Definition emitted_since (s s' : Session) : bool := bool_decide (length (events s) < length (events s')).

(** ** Events *)

Inductive PanelEvent :=
  (** the user types [t] into the filter box *)
  | PanelEditFilter (t : pystr)
  (** the clear button of the filter box *)
  | PanelClearFilter
  (** the callbacks [toggle()] of the two actions *)
  | PanelToggleUsedOnly
  | PanelToggleSorted
  (** the skin cluster's influences became [items]; [influencesListUpdated] *)
  | PanelInfluencesUpdated (items : list InfluenceInfo)
  (** the current layer became [layer]; [currentLayerChanged] *)
  | PanelLayerChanged (layer : option Layer)
  (** the lock or unlock button of the row [item_id] *)
  | PanelLock (lock : bool) (item_id : ItemId)
  (** the target became [skin] with [t]; [targetChanged] *)
  | PanelTargetChanged (t : TargetState) (skin : option pystr).

Definition session_event (s : Session) (e : Event) : Session :=
  mkSession (selectedSkinCluster s) (current_layer s) (skin_cluster_dq_channel_used s) (events s ++ [e]).

Definition panel_handle (e : PanelEvent) p : Panel :=
  match e with
  | PanelEditFilter t => box_changed p (edit_text (p_box p) t).1
  | PanelClearFilter => box_changed p (clear_clicked (p_box p)).1
  | PanelToggleUsedOnly => used_only_changed (with_config p (toggle_used_only (p_config p)))
  | PanelToggleSorted => sort_changed (with_config p (toggle_sorted (p_config p)))
  | PanelInfluencesUpdated items =>
      filter_changed (with_session (with_items p items) (session_event (p_session p) InfluencesListUpdated))
  | PanelLayerChanged layer =>
      let s := p_session p in
      view_layer_changed (with_session p (mkSession (selectedSkinCluster s) layer (skin_cluster_dq_channel_used s)
                                            (events s ++ [CurrentLayerChanged])))
  | PanelLock lock item_id =>
      let s' := lock_unlock_handler lock item_id (p_session p) in
      if emitted_since (p_session p) s' then filter_changed (with_session p s') else with_session p s'
  | PanelTargetChanged t skin =>
      let s := p_session p in
      let s' := mkSession skin (current_layer s) (skin_cluster_dq_channel_used s) (events s ++ [TargetChanged]) in
      with_target (with_session p s') t (target_changed s' t (p_page p))
  end.

(** The two actions of the view, built (with their [update()]) before the
    panel: [build_used_influences_action], [build_set_influences_sorted_action]. *)
Definition build_view_actions (c : Config) : ViewActions :=
  sorted_update c (used_only_update c (mkViewActions false false)).

(** [build_no_layers_ui]: the labels' initial texts, and
    [handle_target_changed()] on an [active] session; the page index is the
    stacked widget's, [0] until [build_target_ui] sets it. *)
Definition build_no_layers_ui (active : bool) (s : Session) (t : TargetState) : TargetPage :=
  let pg := mkTargetPage 0 (Some (py "pPlane1")) true (py "蒙皮层无法附加到此对象") in
  if active then no_layers_target_changed s t pg else pg.

(** [build_layers_ui]: a new filter, the tree of [build_view] (which ends
    with [current_layer_changed()]) and the filter box of
    [build_infl_filter]. *)
Definition build_layers_ui (s : Session) (t : TargetState) (items : list InfluenceInfo) (config : Config)
    (a : ViewActions) (pg : TargetPage) : Panel :=
  view_layer_changed (mkPanel s t items config build_infl_filter (Some (mkView [] None [])) a pg).

(** [build_target_ui(parent, actions, session)]: both pages, then
    [handle_target_changed()] on an [active] session. *)
Definition build_target_ui (active : bool) (s : Session) (t : TargetState)
    (items : list InfluenceInfo) (config : Config) : Panel :=
  let p := build_layers_ui s t items config (build_view_actions config) (build_no_layers_ui active s t) in
  if active then with_target p t (target_ui_target_changed t (p_page p)) else p.

Inductive panel_reachable : Panel -> Prop :=
  | panel_built s t items config : panel_reachable (build_target_ui true s t items config)
  | panel_step e p : panel_reachable p -> panel_reachable (panel_handle e p).

(** ** What the panel shows *)

(** The children the tree should have: the rows [wanted_tree_items] yields
    for the current layer, configuration, filter and influences, selected
    when they are paint targets. *)
Definition wanted_rows p : list Row * bool :=
  let s := p_session p in
  wanted_tree_items (current_layer s) (p_config p) (is_group_layer (current_layer s))
    (skin_cluster_dq_channel_used s) (box_filter (p_box p)) (p_items p).

Definition expected_children p : list TreeItem :=
  item_of (selected_ids_of (p_session p)) <$> (wanted_rows p).1.

Definition view_ok p : Prop :=
  forall v, p_view p = Some v -> (wanted_rows p).2 = true /\ children v = expected_children p.

Definition page_ok p : Prop :=
  page (p_page p) = target_page (t_layers_available (p_target p))
  /\ (t_layers_available (p_target p) = false ->
      no_layers_labels false (selectedSkinCluster (p_session p)) (t_can_import (p_target p))
      = Some (display_text (p_page p), display_visible (p_page p), note_text (p_page p))).

Record panel_ok p : Prop := {
  panel_box : box_reachable (p_box p);
  panel_view_ok : view_ok p;
  panel_used_only : used_only_checked (p_actions p) = influences_show_used_influences_only (p_config p);
  panel_page_ok : page_ok p
}.

(** ** Lemmas *)

(** A call of [set_filter_string] that emits nothing keeps the patterns. *)
Lemma set_filter_string_quiet f t :
  Signal.emitted (changed (set_filter_string f t).1) = Signal.emitted (changed f) ->
  matchers (set_filter_string f t).1 = matchers f.
Proof.
  unfold set_filter_string. case_decide; [done|].
  destruct (mapM create_pattern _); cbn; [lia|done].
Qed.

Lemma filter_edited_filter b : box_filter (filter_edited b).1 = (set_filter_string (box_filter b) (box_text b)).1.
Proof. unfold filter_edited. by destruct (set_filter_string _ _) as [f []]. Qed.

Lemma edit_text_quiet b t :
  Signal.emitted (changed (box_filter (edit_text b t).1)) = Signal.emitted (changed (box_filter b)) ->
  matchers (box_filter (edit_text b t).1) = matchers (box_filter b).
Proof.
  unfold edit_text. case_decide; [done|]. rewrite filter_edited_filter. cbn. apply set_filter_string_quiet.
Qed.

(** [wanted_tree_items] reads the filter through its patterns only. *)
Lemma wanted_tree_items_matchers layer c g dq f f' items :
  matchers f = matchers f' ->
  wanted_tree_items layer c g dq f items = wanted_tree_items layer c g dq f' items.
Proof.
  intros Hm. unfold wanted_tree_items. destruct layer as [l|]; [|done].
  destruct (unique_names _); [|done]. do 3 f_equal. apply list_filter_iff.
  intros i. unfold is_match. by rewrite Hm.
Qed.

(** [current_influence_changed] keeps children whose selection already
    follows the paint targets. *)
Lemma current_influence_changed_children s v l :
  current_layer s = Some l ->
  (forall it, it ∈ children v -> item_selected it = bool_decide (item_id it ∈ paint_targets l)) ->
  children (current_influence_changed s v) = children v.
Proof.
  intros Hl Hsel. apply list_eq. intros k. unfold current_influence_changed. rewrite Hl, select_targets_children.
  case_decide; [|done]. destruct (children v !! k) as [it|] eqn:E; [|done]. cbn. f_equal.
  unfold select_item. rewrite <- (Hsel it) by (by eapply list_elem_of_lookup_2). by destruct it.
Qed.

Lemma filter_changed_ok p : view_ok (filter_changed p).
Proof.
  intros v. unfold filter_changed. cbn. destruct (p_view p) as [v0|]; cbn; [|discriminate].
  unfold refresh_items. intros H. by apply build_items_rows in H.
Qed.

Lemma view_layer_changed_ok p : view_ok (view_layer_changed p).
Proof.
  intros v. unfold view_layer_changed, current_layer_changed, expected_children, wanted_rows. cbn.
  destruct (p_view p) as [v0|]; cbn; [|discriminate].
  destruct (current_layer (p_session p)) as [l|] eqn:El.
  - unfold refresh_items. rewrite El.
    destruct (build_items _ _ _ _ _ _) as [v1|] eqn:Eb; cbn; [|discriminate]. intros [= <-].
    apply build_items_rows in Eb as [Hfin Ech]. split; [done|].
    rewrite current_influence_changed_children with (l := l); [done|done|].
    rewrite Ech. intros it (r & -> & _)%list_elem_of_fmap. unfold selected_ids_of. by rewrite El.
  - intros [= <-]. split; reflexivity.
Qed.

(** A lock button on no current layer changes nothing. *)
Lemma lock_unlock_quiet lock item_id s :
  emitted_since s (lock_unlock_handler lock item_id s) = false -> lock_unlock_handler lock item_id s = s.
Proof.
  unfold emitted_since, lock_unlock_handler. destruct (current_layer s); [|done]. cbn.
  rewrite length_app. cbn. rewrite bool_decide_eq_false. lia.
Qed.

Lemma lock_unlock_skin lock item_id s :
  selectedSkinCluster (lock_unlock_handler lock item_id s) = selectedSkinCluster s.
Proof. unfold lock_unlock_handler. by destruct (current_layer s). Qed.

Lemma view_ok_same p p' :
  p_view p' = p_view p -> selected_ids_of (p_session p') = selected_ids_of (p_session p) ->
  wanted_rows p' = wanted_rows p -> view_ok p -> view_ok p'.
Proof. intros Hv Hs He Hok v. unfold expected_children. rewrite Hv, Hs, He. apply Hok. Qed.

Lemma box_changed_ok p t :
  panel_ok p -> panel_ok (box_changed p (edit_text (p_box p) t).1).
Proof.
  intros [Hb Hv Hu Hp]. pose proof (box_edited _ t Hb) as Hb'. unfold box_changed. case_decide as Hq.
  - split; [done| |done|done]. apply (view_ok_same p); [done|done| |done].
    unfold wanted_rows. cbn. by rewrite (wanted_tree_items_matchers _ _ _ _ _ (box_filter (p_box p)))
      by by apply edit_text_quiet.
  - split; [done|apply filter_changed_ok|done|done].
Qed.

Lemma panel_handle_ok e p : panel_ok p -> panel_ok (panel_handle e p).
Proof.
  intros Hok. pose proof Hok as [Hb Hv Hu [Hpg Hlab]].
  destruct e as [t| | | |items|layer|lock item_id|t skin]; cbn [panel_handle].
  - by apply box_changed_ok.
  - by apply box_changed_ok.
  - split; [done|apply filter_changed_ok|done|done].
  - split; [done|apply filter_changed_ok|done|done].
  - split; [done|apply filter_changed_ok|done|done].
  - split; [done|apply view_layer_changed_ok|done|done].
  - destruct (emitted_since _ _) eqn:E; [|rewrite (lock_unlock_quiet _ _ _ E); by destruct p].
    split; [done|apply filter_changed_ok|done|]. unfold page_ok. cbn. by rewrite lock_unlock_skin.
  - split; [done| |done|].
    + apply (view_ok_same p); [done|reflexivity|reflexivity|done].
    + split; [done|]. cbn. intros Hla. unfold no_layers_target_changed. cbn. by rewrite Hla.
Qed.

Lemma build_target_ui_ok s t items config : panel_ok (build_target_ui true s t items config).
Proof.
  split.
  - apply box_built.
  - apply (view_ok_same (build_layers_ui s t items config (build_view_actions config)
      (build_no_layers_ui true s t))); [done|reflexivity|reflexivity|apply view_layer_changed_ok].
  - done.
  - split; [done|]. cbn. intros Hla. unfold no_layers_target_changed. by rewrite Hla.
Qed.

Lemma panel_reachable_ok p : panel_reachable p -> panel_ok p.
Proof. induction 1; [apply build_target_ui_ok|by apply panel_handle_ok]. Qed.

(** ** Theorems *)

(** C12. In every state of the target panel built on an active session,
    whatever the user and the session did since: the influences tree, when
    its last rebuild returned, has exactly the rows [wanted_tree_items]
    yields for the current layer, configuration, filter and influences,
    selected when they are paint targets; the "show used influences only"
    action is checked exactly when the configuration says so; the page shown
    is the layers page exactly when layers are available; and without layers
    the "no layers" page describes the current target. *)
Theorem panel_shows_state p : panel_reachable p ->
  (forall v, p_view p = Some v ->
     children v = item_of (selected_ids_of (p_session p)) <$>
       (wanted_tree_items (current_layer (p_session p)) (p_config p) (is_group_layer (current_layer (p_session p)))
          (skin_cluster_dq_channel_used (p_session p)) (box_filter (p_box p)) (p_items p)).1)
  /\ used_only_checked (p_actions p) = influences_show_used_influences_only (p_config p)
  /\ page (p_page p) = target_page (t_layers_available (p_target p))
  /\ (t_layers_available (p_target p) = false ->
      no_layers_labels false (selectedSkinCluster (p_session p)) (t_can_import (p_target p))
      = Some (display_text (p_page p), display_visible (p_page p), note_text (p_page p))).
Proof.
  intros Hr. destruct (panel_reachable_ok p Hr) as [_ Hv Hu [Hp Hl]]. split_and!; [|done..].
  intros v Hpv. apply Hv, Hpv.
Qed.

(** C9. A click on the clear button of the filter box, from any state of
    the panel: the button hides and, when the tree's rebuild returns, the
    tree lists every influence of a current layer that is not a group,
    except those "show used influences only" hides. *)
Theorem panel_clear_lists_all p : panel_reachable p ->
  let p' := panel_handle PanelClearFilter p in
  clear_visible (p_box p') = false /\
  forall v l i, p_view p' = Some v -> current_layer (p_session p') = Some l -> num_children l = 0 ->
    i ∈ p_items p' ->
    (influences_show_used_influences_only (p_config p') = true -> logicalIndex i ∈ default [] (used_influences l)) ->
    IdInfluence (logicalIndex i) ∈ item_id <$> children v.
Proof.
  intros Hr p'. pose proof (panel_reachable_ok p Hr) as [Hb _ _ _].
  pose proof (panel_reachable_ok p' (panel_step PanelClearFilter p Hr)) as [_ Hv _ _].
  destruct (clear_clicked_spec (p_box p) (py "")) as (_ & Hhid & _); [done|].
  assert (Hbox : p_box p' = (clear_clicked (p_box p)).1).
  { subst p'. cbn. unfold box_changed. by case_decide. }
  split; [by rewrite Hbox|]. intros v l i Hpv Hl Hg Hi Hu.
  destruct (Hv v Hpv) as [Hfin ->]. unfold expected_children, wanted_rows in *.
  rewrite Hl in Hfin |- *. unfold is_group_layer in Hfin |- *. rewrite (bool_decide_eq_true_2 _ Hg) in Hfin |- *.
  cbn [negb] in Hfin |- *.
  destruct (wanted_tree_items _ _ _ _ _ _) as [rows fin] eqn:Ew. cbn in Hfin |- *. subst fin.
  rewrite <- list_fmap_compose. apply (wanted_tree_items_has_row l _ _ _ _ _ _ Ew Hi); [|done].
  rewrite Hbox. apply clear_clicked_spec, Hb.
Qed.

(** ** Examples *)

Definition ex_unsorted : Config := mkConfig false InfluencesSortUnsorted.

Definition ex_panel : Panel :=
  build_target_ui true ex_session (mkTargetState true false) ex_influences ex_unsorted.

(** The sort action's check mark does not follow a change of the sort
    order: its [update] listens to the "used influences only" setting. *)
Example sorted_action_stale :
  let p := panel_handle PanelToggleSorted ex_panel in
  influences_sort (p_config p) = InfluencesSortDescending /\ sorted_checked (p_actions p) = false.
Proof. split; reflexivity. Qed.

(** Typing "a" keeps the mask and DQ rows and the influences whose last
    segment holds an "a": [|root|a]. *)
Example ex_panel_filter :
  option_map (fmap item_text ∘ children) (p_view (panel_handle (PanelEditFilter (py "a")) ex_panel))
  = Some [py "[Mask]"; py "[DQ Weights]"; py "a"].
Proof. vm_compute. reflexivity. Qed.

(** A filter that matches nothing leaves the mask and DQ rows; the clear
    button brings the influences back. *)
Example ex_panel_clear :
  let p := panel_handle (PanelEditFilter (py "zz")) ex_panel in
  option_map (fmap item_text ∘ children) (p_view p) = Some [py "[Mask]"; py "[DQ Weights]"]
  /\ option_map (fmap item_text ∘ children) (p_view (panel_handle PanelClearFilter p))
     = Some [py "[Mask]"; py "[DQ Weights]"; py "b"; py "a"].
Proof. split; vm_compute; reflexivity. Qed.

Lemma panel_shows_state_witness :
  let p := panel_handle (PanelEditFilter (py "a")) (panel_handle PanelToggleSorted ex_panel) in
  (forall v, p_view p = Some v ->
     children v = item_of (selected_ids_of (p_session p)) <$>
       (wanted_tree_items (current_layer (p_session p)) (p_config p) (is_group_layer (current_layer (p_session p)))
          (skin_cluster_dq_channel_used (p_session p)) (box_filter (p_box p)) (p_items p)).1)
  /\ used_only_checked (p_actions p) = influences_show_used_influences_only (p_config p)
  /\ page (p_page p) = target_page (t_layers_available (p_target p))
  /\ (t_layers_available (p_target p) = false ->
      no_layers_labels false (selectedSkinCluster (p_session p)) (t_can_import (p_target p))
      = Some (display_text (p_page p), display_visible (p_page p), note_text (p_page p))).
Proof. apply panel_shows_state, panel_step, panel_step, panel_built. Defined.

Lemma panel_clear_lists_all_witness :
  let p := panel_handle (PanelEditFilter (py "zz")) ex_panel in
  let p' := panel_handle PanelClearFilter p in
  clear_visible (p_box p') = false /\
  forall v l i, p_view p' = Some v -> current_layer (p_session p') = Some l -> num_children l = 0 ->
    i ∈ p_items p' ->
    (influences_show_used_influences_only (p_config p') = true -> logicalIndex i ∈ default [] (used_influences l)) ->
    IdInfluence (logicalIndex i) ∈ item_id <$> children v.
Proof. apply panel_clear_lists_all, panel_step, panel_built. Defined.
