(* ===== verification/SetWeights.v ===== *)
(** * The set-weights tab of [ui/tabSetWeights.py]

    [Model] holds one [PaintModeSettings] object per paint mode in the dict
    [presets] ([make_presets]) and a reference [current_settings] to one of
    them ([set_mode]).  The handlers of the tab write through that reference
    (intensity, iterations, the smoothing check boxes) or into every preset
    (influences limit, mirror, redistribution), and [update_ui] copies the
    current settings back into the widgets under the [UiLock], whose
    [skip_if_updating] turns the handlers that this fires into no-ops.
    [apply] passes the current settings to [flood_weights].

    The dict is never re-bound and never gets keys, so a reference to one of
    its values is its key: [presets] is a total map from [PaintMode], and
    [current_settings] is the mode whose object it aliases.  A write through
    [current_settings] is a write to [presets] at that key; the aliasing is
    what makes a mode remember its edits.  The widgets are the values the
    code reads and writes: the slider values (which a [setValue] clamps to
    the slider's range), the check boxes' states and their enabled flags.
    Float settings are rationals. *)

From Stdlib Require Import QArith.
From S2P Require Import Prelude.

(** ** The plugin's paint settings ([ngSkinTools2.api.paint]) *)

(** [PaintMode] *)
Inductive PaintMode := replace | add | scale | smooth | sharpen.

#[export] Instance PaintMode_eq_dec : EqDecision PaintMode.
Proof. solve_decision. Defined.

(** [PaintMode.all()] *)
Definition paint_mode_all : list PaintMode := [replace; add; scale; smooth; sharpen].

(** The fields of [PaintModeSettings] the tab reads or writes. *)
Record PaintModeSettings := mkSettings {
  mode : PaintMode;
  intensity : Q;
  iterations : Z;
  influences_limit : Z;
  mirror : bool;
  distribute_to_other_influences : bool;
  fixed_influences_per_vertex : bool;
  limit_to_component_selection : bool;
  use_volume_neighbours : bool
}.

(** [PaintModeSettings()] *)
Definition default_settings : PaintModeSettings :=
  mkSettings replace 1 10 0 false false false false false.

(** Assignments to one attribute of a settings object. *)
Definition set_mode_attr (m : PaintMode) (s : PaintModeSettings) : PaintModeSettings :=
  mkSettings m (intensity s) (iterations s) (influences_limit s) (mirror s)
    (distribute_to_other_influences s) (fixed_influences_per_vertex s)
    (limit_to_component_selection s) (use_volume_neighbours s).
Definition set_intensity (v : Q) (s : PaintModeSettings) : PaintModeSettings :=
  mkSettings (mode s) v (iterations s) (influences_limit s) (mirror s)
    (distribute_to_other_influences s) (fixed_influences_per_vertex s)
    (limit_to_component_selection s) (use_volume_neighbours s).
Definition set_iterations (v : Z) (s : PaintModeSettings) : PaintModeSettings :=
  mkSettings (mode s) (intensity s) v (influences_limit s) (mirror s)
    (distribute_to_other_influences s) (fixed_influences_per_vertex s)
    (limit_to_component_selection s) (use_volume_neighbours s).
Definition set_influences_limit (v : Z) (s : PaintModeSettings) : PaintModeSettings :=
  mkSettings (mode s) (intensity s) (iterations s) v (mirror s)
    (distribute_to_other_influences s) (fixed_influences_per_vertex s)
    (limit_to_component_selection s) (use_volume_neighbours s).
Definition set_mirror (b : bool) (s : PaintModeSettings) : PaintModeSettings :=
  mkSettings (mode s) (intensity s) (iterations s) (influences_limit s) b
    (distribute_to_other_influences s) (fixed_influences_per_vertex s)
    (limit_to_component_selection s) (use_volume_neighbours s).
Definition set_distribute (b : bool) (s : PaintModeSettings) : PaintModeSettings :=
  mkSettings (mode s) (intensity s) (iterations s) (influences_limit s) (mirror s)
    b (fixed_influences_per_vertex s) (limit_to_component_selection s) (use_volume_neighbours s).
Definition set_fixed_influences (b : bool) (s : PaintModeSettings) : PaintModeSettings :=
  mkSettings (mode s) (intensity s) (iterations s) (influences_limit s) (mirror s)
    (distribute_to_other_influences s) b (limit_to_component_selection s) (use_volume_neighbours s).
Definition set_limit_to_component (b : bool) (s : PaintModeSettings) : PaintModeSettings :=
  mkSettings (mode s) (intensity s) (iterations s) (influences_limit s) (mirror s)
    (distribute_to_other_influences s) (fixed_influences_per_vertex s) b (use_volume_neighbours s).

(** ** The presets dict *)

Definition Presets := PaintMode -> PaintModeSettings.

(** [presets[m].attr = v]: the object at key [m] is updated in place. *)
Definition update_preset (p : Presets) (m : PaintMode) (f : PaintModeSettings -> PaintModeSettings) : Presets :=
  fun k => if decide (k = m) then f (p k) else p k.

(** [for _, v in presets.items(): v.attr = x] *)
Definition update_all (p : Presets) (f : PaintModeSettings -> PaintModeSettings) : Presets :=
  fun k => f (p k).

(** [make_presets()]: one fresh object per mode, its [mode] set to its key,
    then four intensity assignments in the code's order (the second
    assignment to [scale] overwrites the first). *)
Definition make_presets : Presets :=
  let presets := foldl (fun p m => update_preset p m (set_mode_attr m)) (fun _ => default_settings) paint_mode_all in
  let presets := update_preset presets smooth (set_intensity 0.3) in
  let presets := update_preset presets scale (set_intensity 0.3) in
  let presets := update_preset presets add (set_intensity 0.1) in
  update_preset presets scale (set_intensity 0.95).

(** ** The tab's widgets and state *)

(** [NumberSliderGroup.set_value] clamps to the slider's range. *)
Definition clampQ (lo hi v : Q) : Q := if Qle_bool v lo then lo else if Qle_bool hi v then hi else v.
Definition clampZ (lo hi v : Z) : Z := Z.max lo (Z.min hi v).

(** [widgets.NumberSliderGroup()] ranges: [intensity] has the default
    float range, [iterations] and [influences_limit] the code's. *)
Definition INTENSITY_MIN : Q := 0.
Definition INTENSITY_MAX : Q := 1.
Definition ITERATIONS_MIN : Z := 1.
Definition ITERATIONS_MAX : Z := 100.
Definition INFLUENCES_LIMIT_MIN : Z := 0.
Definition INFLUENCES_LIMIT_MAX : Z := 10.

(** The widgets of the mode settings group that [update_ui] writes. *)
Record ModeWidgets := mkModeWidgets {
  intensity_value : Q;
  iterations_value : Z;
  iterations_enabled : bool;
  influences_limit_value : Z;
  fixed_influences_checked : bool;
  fixed_influences_enabled : bool;
  limit_checked : bool;
  limit_enabled : bool;
  volume_checked : bool;
  volume_enabled : bool
}.

(** A call [flood_weights(layer, influences=..., settings=...)]. *)
Record FloodCall := mkFlood { flood_layer : nat; flood_influences : list nat; flood_settings : PaintModeSettings }.

(** The model ([presets], [current_settings] as the key it aliases, the
    number of [mode_changed] emissions), the [UiLock]'s [updating] flag, the
    checked mode action ([None] before [mode_row] checks one), the widgets,
    whether the tab is enabled, and the [flood_weights] calls made. *)
Record Tab := mkTab {
  presets : Presets;
  current_settings : PaintMode;
  mode_changed_emits : nat;
  updating : bool;
  checked_mode : option PaintMode;
  mw : ModeWidgets;
  mirror_checked : bool;
  redistribute_checked : bool;
  tab_enabled : bool;
  floods : list FloodCall
}.

Implicit Types t : Tab.

Definition with_presets t (p : Presets) : Tab :=
  mkTab p (current_settings t) (mode_changed_emits t) (updating t) (checked_mode t) (mw t)
    (mirror_checked t) (redistribute_checked t) (tab_enabled t) (floods t).
Definition with_mw t (w : ModeWidgets) : Tab :=
  mkTab (presets t) (current_settings t) (mode_changed_emits t) (updating t) (checked_mode t) w
    (mirror_checked t) (redistribute_checked t) (tab_enabled t) (floods t).
Definition with_updating t (b : bool) : Tab :=
  mkTab (presets t) (current_settings t) (mode_changed_emits t) b (checked_mode t) (mw t)
    (mirror_checked t) (redistribute_checked t) (tab_enabled t) (floods t).
Definition with_checked_mode t (m : option PaintMode) : Tab :=
  mkTab (presets t) (current_settings t) (mode_changed_emits t) (updating t) m (mw t)
    (mirror_checked t) (redistribute_checked t) (tab_enabled t) (floods t).
Definition with_mirror_checked t (b : bool) : Tab :=
  mkTab (presets t) (current_settings t) (mode_changed_emits t) (updating t) (checked_mode t) (mw t)
    b (redistribute_checked t) (tab_enabled t) (floods t).
Definition with_redistribute_checked t (b : bool) : Tab :=
  mkTab (presets t) (current_settings t) (mode_changed_emits t) (updating t) (checked_mode t) (mw t)
    (mirror_checked t) b (tab_enabled t) (floods t).
Definition with_tab_enabled t (b : bool) : Tab :=
  mkTab (presets t) (current_settings t) (mode_changed_emits t) (updating t) (checked_mode t) (mw t)
    (mirror_checked t) (redistribute_checked t) b (floods t).
Definition log_flood t (c : FloodCall) : Tab :=
  mkTab (presets t) (current_settings t) (mode_changed_emits t) (updating t) (checked_mode t) (mw t)
    (mirror_checked t) (redistribute_checked t) (tab_enabled t) (floods t ++ [c]).

(** [model.current_settings] *)
Definition current t : PaintModeSettings := presets t (current_settings t).

(** [model.current_settings.attr = v] writes the aliased preset. *)
Definition update_current t (f : PaintModeSettings -> PaintModeSettings) : Tab :=
  with_presets t (update_preset (presets t) (current_settings t) f).

(** ** The handlers *)

(** [UiLock.skip_if_updating] *)
Definition skip_if_updating (h : Tab -> Tab) t : Tab := if updating t then t else h t.

(** [with ui_lock:]: [__enter__] sets [updating], [__exit__] clears it. *)
Definition with_ui_lock (body : Tab -> Tab) t : Tab := with_updating (body (with_updating t true)) false.

(** [update_ui()] of [build_mode_settings_group]: every widget write fires
    a handler wrapped in [skip_if_updating], which the lock skips; what
    remains is the widgets' new state.  [fixed_influences.isEnabled()] is
    false also when the tab is disabled. *)
Definition mode_widgets_of (s : PaintModeSettings) (tab_on : bool) : ModeWidgets :=
  let fixed_on := bool_decide (mode s ∈ [smooth]) in
  mkModeWidgets
    (clampQ INTENSITY_MIN INTENSITY_MAX (intensity s))
    (clampZ ITERATIONS_MIN ITERATIONS_MAX (iterations s))
    (bool_decide (mode s ∈ [smooth; sharpen]))
    (clampZ INFLUENCES_LIMIT_MIN INFLUENCES_LIMIT_MAX (influences_limit s))
    (fixed_influences_per_vertex s) fixed_on
    (limit_to_component_selection s) (fixed_on && tab_on)
    (use_volume_neighbours s) (bool_decide (mode s = smooth)).

Definition update_ui t : Tab :=
  with_ui_lock (fun t => with_mw t (mode_widgets_of (current t) (tab_enabled t))) t.

(** [mirror_changed()] and [redistribute_removed_weight_changed()] (the
    latter without [skip_if_updating]). *)
Definition mirror_changed t : Tab :=
  with_presets t (update_all (presets t) (set_mirror (mirror_checked t))).
Definition redistribute_removed_weight_changed t : Tab :=
  with_presets t (update_all (presets t) (set_distribute (redistribute_checked t))).

(** [update_ui()] of [common_settings], the slot of [mode_changed]: not
    under the lock; [setChecked] emits [stateChanged] only on a change. *)
Definition common_update_ui t : Tab :=
  let t := if bool_decide (mirror_checked t = mirror (current t)) then t
           else skip_if_updating mirror_changed (with_mirror_checked t (mirror (current t))) in
  if bool_decide (redistribute_checked t = distribute_to_other_influences (current t)) then t
  else redistribute_removed_weight_changed (with_redistribute_checked t (distribute_to_other_influences (current t))).

(** [Model.set_mode(mode)]; [connected] says whether [common_settings] has
    subscribed its [update_ui] to [mode_changed] yet. *)
Definition set_mode (connected : bool) (m : PaintMode) t : Tab :=
  let t := mkTab (presets t) m (S (mode_changed_emits t)) (updating t) (checked_mode t) (mw t)
             (mirror_checked t) (redistribute_checked t) (tab_enabled t) (floods t) in
  if connected then common_update_ui t else t.

(** [toggled(checked)] of the mode action of [m]. *)
Definition toggled (connected : bool) (m : PaintMode) (checked : bool) : Tab -> Tab :=
  skip_if_updating (fun t => if checked then update_ui (set_mode connected m t) else t).

(** [intensity_edited()], [iterations_edited()], [influences_limit_changed()],
    [fixed_influences_changed()], [limit_to_component_selection_changed()]. *)
Definition intensity_edited : Tab -> Tab :=
  skip_if_updating (fun t => update_ui (update_current t (set_intensity (intensity_value (mw t))))).
Definition iterations_edited : Tab -> Tab :=
  skip_if_updating (fun t => update_ui (update_current t (set_iterations (iterations_value (mw t))))).
Definition influences_limit_changed : Tab -> Tab :=
  skip_if_updating (fun t =>
    update_ui (with_presets t (update_all (presets t) (set_influences_limit (influences_limit_value (mw t)))))).
Definition fixed_influences_changed : Tab -> Tab :=
  skip_if_updating (fun t => update_current t (set_fixed_influences (fixed_influences_checked (mw t)))).
Definition limit_to_component_selection_changed : Tab -> Tab :=
  skip_if_updating (fun t => update_current t (set_limit_to_component (limit_checked (mw t)))).

(** [apply()] fails with [AttributeError] on [currentLayer.layer] [None]. *)
Inductive ApplyError := NoCurrentLayer.

(** [Model.apply()]: [layer] is [session.state.currentLayer.layer] with its
    paint targets. *)
Definition apply (layer : option (nat * list nat)) t : Tab * option ApplyError :=
  match layer with
  | None => (t, Some NoCurrentLayer)
  | Some (l, targets) => (log_flood t (mkFlood l targets (current t)), None)
  end.

(** [update_tab_enabled()] *)
Definition update_tab_enabled (layersAvailable : bool) t : Tab := with_tab_enabled t layersAvailable.

(** The mode buttons [mode_row()] creates with [create_mode_button], by
    toolbar: the mode and the label.  [actions] maps each mode to its
    button. *)
Definition mode_buttons : list (list (PaintMode * pystr)) :=
  [[(replace, py "替换"); (add, py "添加"); (scale, py "减少")];
   [(smooth, py "平滑"); (sharpen, py "锐化")]].

(** What the user and the session do to the tab.  A widget of a disabled
    tab, or a disabled widget, gets no input; [ClickMode m] is a click on
    the button of [m] in [mode_buttons]. *)
Inductive TabEvent :=
  | ClickMode (m : PaintMode)
  | SlideIntensity (v : Q)
  | SlideIterations (v : Z)
  | SlideInfluencesLimit (v : Z)
  | ClickFixedInfluences
  | ClickLimitToComponentSelection
  | ClickVolumeNeighbours
  | ClickMirror
  | ClickRedistribute
  | ClickApply (layer : option (nat * list nat))
  | TargetChanged (layersAvailable : bool).

(** The user moves a slider: its value becomes the clamped input, and
    [valueChanged] fires its handler when the value changed. *)
Definition set_intensity_value t (v : Q) : Tab :=
  let w := mw t in
  with_mw t (mkModeWidgets v (iterations_value w) (iterations_enabled w) (influences_limit_value w)
    (fixed_influences_checked w) (fixed_influences_enabled w) (limit_checked w) (limit_enabled w)
    (volume_checked w) (volume_enabled w)).
Definition set_iterations_value t (v : Z) : Tab :=
  let w := mw t in
  with_mw t (mkModeWidgets (intensity_value w) v (iterations_enabled w) (influences_limit_value w)
    (fixed_influences_checked w) (fixed_influences_enabled w) (limit_checked w) (limit_enabled w)
    (volume_checked w) (volume_enabled w)).
Definition set_influences_limit_value t (v : Z) : Tab :=
  let w := mw t in
  with_mw t (mkModeWidgets (intensity_value w) (iterations_value w) (iterations_enabled w) v
    (fixed_influences_checked w) (fixed_influences_enabled w) (limit_checked w) (limit_enabled w)
    (volume_checked w) (volume_enabled w)).
Definition flip_fixed t : Tab :=
  let w := mw t in
  with_mw t (mkModeWidgets (intensity_value w) (iterations_value w) (iterations_enabled w) (influences_limit_value w)
    (negb (fixed_influences_checked w)) (fixed_influences_enabled w) (limit_checked w) (limit_enabled w)
    (volume_checked w) (volume_enabled w)).
Definition flip_limit t : Tab :=
  let w := mw t in
  with_mw t (mkModeWidgets (intensity_value w) (iterations_value w) (iterations_enabled w) (influences_limit_value w)
    (fixed_influences_checked w) (fixed_influences_enabled w) (negb (limit_checked w)) (limit_enabled w)
    (volume_checked w) (volume_enabled w)).
Definition flip_volume t : Tab :=
  let w := mw t in
  with_mw t (mkModeWidgets (intensity_value w) (iterations_value w) (iterations_enabled w) (influences_limit_value w)
    (fixed_influences_checked w) (fixed_influences_enabled w) (limit_checked w) (limit_enabled w)
    (negb (volume_checked w)) (volume_enabled w)).

Definition handle (e : TabEvent) t : Tab * option ApplyError :=
  if negb (tab_enabled t) then
    match e with
    | TargetChanged la => (update_tab_enabled la t, None)
    | _ => (t, None)
    end
  else match e with
  | ClickMode m =>
      (* a click on the checked action of the exclusive group changes
         nothing; otherwise it is checked and toggles True (the action it
         unchecks toggles False, which does nothing) *)
      if decide (checked_mode t = Some m) then (t, None)
      else (toggled true m true (with_checked_mode t (Some m)), None)
  | SlideIntensity v =>
      let v := clampQ INTENSITY_MIN INTENSITY_MAX v in
      if Qeq_bool v (intensity_value (mw t)) then (t, None)
      else (intensity_edited (set_intensity_value t v), None)
  | SlideIterations v =>
      if negb (iterations_enabled (mw t)) then (t, None) else
      let v := clampZ ITERATIONS_MIN ITERATIONS_MAX v in
      if Z.eqb v (iterations_value (mw t)) then (t, None)
      else (iterations_edited (set_iterations_value t v), None)
  | SlideInfluencesLimit v =>
      let v := clampZ INFLUENCES_LIMIT_MIN INFLUENCES_LIMIT_MAX v in
      if Z.eqb v (influences_limit_value (mw t)) then (t, None)
      else (influences_limit_changed (set_influences_limit_value t v), None)
  | ClickFixedInfluences =>
      if fixed_influences_enabled (mw t) then (fixed_influences_changed (flip_fixed t), None) else (t, None)
  | ClickLimitToComponentSelection =>
      if limit_enabled (mw t) then (limit_to_component_selection_changed (flip_limit t), None) else (t, None)
  | ClickVolumeNeighbours =>
      (* volume_neighbours has no handler *)
      if volume_enabled (mw t) then (flip_volume t, None) else (t, None)
  | ClickMirror => (skip_if_updating mirror_changed (with_mirror_checked t (negb (mirror_checked t))), None)
  | ClickRedistribute =>
      (redistribute_removed_weight_changed (with_redistribute_checked t (negb (redistribute_checked t))), None)
  | ClickApply layer => apply layer t
  | TargetChanged la => (update_tab_enabled la t, None)
  end.

(** [Model()]: [make_presets()] and [set_mode(PaintMode.replace)] (no
    subscriber yet); the widgets as Qt creates them. *)
Definition new_model : Tab :=
  let t := mkTab make_presets replace 0 false None
             (mkModeWidgets INTENSITY_MIN ITERATIONS_MIN true INFLUENCES_LIMIT_MIN false true false true false true)
             false false true [] in
  set_mode false replace t.

(** [build_ui()]: [mode_row()] checks the current mode's action, whose
    [toggled] sets the mode again and updates the widgets (before
    [common_settings] subscribes); [update_ui()]; [common_settings()]'s
    [update_ui()]; [update_tab_enabled()]. *)
Definition build_ui (layersAvailable : bool) : Tab :=
  let t := new_model in
  let m := mode (current t) in
  let t := toggled false m true (with_checked_mode t (Some m)) in
  let t := update_ui t in
  let t := common_update_ui t in
  update_tab_enabled layersAvailable t.

(** The states of the tab: built, then any sequence of events. *)
Inductive tab_reachable : Tab -> Prop :=
  | tab_built la : tab_reachable (build_ui la)
  | tab_step t e : tab_reachable t -> tab_reachable (handle e t).1.

Fixpoint run_events (evs : list TabEvent) t : Tab * list ApplyError :=
  match evs with
  | [] => (t, [])
  | e :: evs => let '(t1, err) := handle e t in
                let '(t2, errs) := run_events evs t1 in (t2, option_list err ++ errs)
  end.

(** ** The tab's invariant *)

(** The numeric settings lie in their sliders' ranges. *)
Definition settings_in_bounds (s : PaintModeSettings) : Prop :=
  (INTENSITY_MIN <= intensity s <= INTENSITY_MAX)%Q
  /\ (ITERATIONS_MIN <= iterations s <= ITERATIONS_MAX)%Z
  /\ (INFLUENCES_LIMIT_MIN <= influences_limit s <= INFLUENCES_LIMIT_MAX)%Z.

(** A setting whose widget is disabled in mode [m] keeps the value
    [PaintModeSettings()] gave it; [use_volume_neighbours] is never set. *)
Definition settings_defaults (m : PaintMode) (s : PaintModeSettings) : Prop :=
  (m <> smooth -> fixed_influences_per_vertex s = false /\ limit_to_component_selection s = false)
  /\ (m ∉ [smooth; sharpen] -> iterations s = iterations default_settings)
  /\ use_volume_neighbours s = false.

(** The widgets show the current settings; the volume check box is free. *)
Definition with_volume (w : ModeWidgets) (b : bool) : ModeWidgets :=
  mkModeWidgets (intensity_value w) (iterations_value w) (iterations_enabled w) (influences_limit_value w)
    (fixed_influences_checked w) (fixed_influences_enabled w) (limit_checked w) (limit_enabled w)
    b (volume_enabled w).

(** What the model and its check boxes keep: every preset's [mode] is its
    key, the checked action is the current mode, the settings that the
    handlers write into every preset are equal across presets and shown by
    their widgets, and every preset is in bounds and keeps its defaults. *)
Record model_ok t : Prop := {
  inv_modes : forall m, mode (presets t m) = m;
  inv_checked : checked_mode t = Some (current_settings t);
  inv_common : forall m, influences_limit (presets t m) = influences_limit (current t)
                    /\ mirror (presets t m) = mirror_checked t
                    /\ distribute_to_other_influences (presets t m) = redistribute_checked t;
  inv_bounds : forall m, settings_in_bounds (presets t m);
  inv_defaults : forall m, settings_defaults m (presets t m)
}.

(** Between events the lock is free and the widgets show the current
    settings (the volume check box apart). *)
Definition tab_inv t : Prop :=
  model_ok t /\ updating t = false /\ exists b, mw t = with_volume (mode_widgets_of (current t) true) b.

(** ** Lemmas *)

(** Every mode has exactly one button, so [actions[mode]] in [mode_row()]
    never raises [KeyError] and a click can reach every mode. *)
Lemma mode_buttons_one m : length (filter (fun b => b.1 = m) (concat mode_buttons)) = 1.
Proof. by destruct m. Qed.

Lemma clampQ_bounds lo hi v : (lo <= hi)%Q -> (lo <= clampQ lo hi v <= hi)%Q.
Proof.
  intros Hlh. unfold clampQ.
  destruct (Qle_bool v lo) eqn:E1; [split; [apply Qle_refl|done]|].
  destruct (Qle_bool hi v) eqn:E2; [split; [done|apply Qle_refl]|].
  apply not_true_iff_false in E1, E2. rewrite Qle_bool_iff in E1, E2.
  split; apply Qlt_le_weak, Qnot_le_lt; auto.
Qed.

Lemma clampZ_bounds lo hi v : (lo <= hi)%Z -> (lo <= clampZ lo hi v <= hi)%Z.
Proof. unfold clampZ. lia. Qed.

Lemma update_preset_forall (P : PaintMode -> PaintModeSettings -> Prop) p m f :
  (forall k, P k (p k)) -> P m (f (p m)) -> forall k, P k (update_preset p m f k).
Proof. intros Hp Hm k. unfold update_preset. case_decide; subst; auto. Qed.

Lemma update_preset_eq p m f : update_preset p m f m = f (p m).
Proof. unfold update_preset. by case_decide. Qed.

Lemma update_preset_ne p m f k : k <> m -> update_preset p m f k = p k.
Proof. unfold update_preset. by case_decide. Qed.

#[export] Hint Rewrite update_preset_eq : pyrw.

(** The mode settings' [update_ui]: only the widgets and the lock change. *)
Lemma update_ui_fields t :
  presets (update_ui t) = presets t /\ current_settings (update_ui t) = current_settings t
  /\ checked_mode (update_ui t) = checked_mode t /\ updating (update_ui t) = false
  /\ mirror_checked (update_ui t) = mirror_checked t /\ redistribute_checked (update_ui t) = redistribute_checked t
  /\ tab_enabled (update_ui t) = tab_enabled t /\ floods (update_ui t) = floods t
  /\ mw (update_ui t) = mode_widgets_of (current t) (tab_enabled t).
Proof. done. Qed.

Lemma model_ok_ext t t' :
  presets t' = presets t -> current_settings t' = current_settings t -> checked_mode t' = checked_mode t ->
  mirror_checked t' = mirror_checked t -> redistribute_checked t' = redistribute_checked t ->
  model_ok t -> model_ok t'.
Proof.
  intros Hp Hc Hk Hm Hr [H1 H2 H3 H4 H5].
  split; unfold current in *; rewrite ?Hp, ?Hc, ?Hk, ?Hm, ?Hr; auto.
Qed.

Lemma update_ui_inv t : model_ok t -> tab_enabled t = true -> tab_inv (update_ui t).
Proof.
  intros Hok He. split_and!.
  - eapply model_ok_ext; [..|exact Hok]; done.
  - done.
  - exists (use_volume_neighbours (current t)). cbn. by rewrite He.
Qed.

(** The attributes a one-attribute assignment leaves alone. *)
Definition keeps_common (f : PaintModeSettings -> PaintModeSettings) : Prop :=
  forall s, mode (f s) = mode s /\ influences_limit (f s) = influences_limit s
            /\ mirror (f s) = mirror s /\ distribute_to_other_influences (f s) = distribute_to_other_influences s.

Lemma model_ok_update_current t f :
  model_ok t -> keeps_common f ->
  settings_in_bounds (f (current t)) -> settings_defaults (current_settings t) (f (current t)) ->
  model_ok (update_current t f).
Proof.
  intros [H1 H2 H3 H4 H5] Hf Hb Hd. unfold current in *.
  split; cbn; [| done | | |].
  - apply (update_preset_forall (fun k s => mode s = k)); [done|]. rewrite (proj1 (Hf _)). apply H1.
  - intros k. rewrite update_preset_eq. destruct (Hf (presets t (current_settings t))) as (_ & -> & _).
    destruct (decide (k = current_settings t)) as [->|Hne].
    + rewrite update_preset_eq. destruct (Hf (presets t (current_settings t))) as (_ & -> & -> & ->). apply H3.
    + rewrite update_preset_ne by done. apply H3.
  - by apply (update_preset_forall (fun _ => settings_in_bounds)).
  - by apply (update_preset_forall settings_defaults).
Qed.

Lemma model_ok_update_all t t' f :
  model_ok t -> presets t' = update_all (presets t) f ->
  current_settings t' = current_settings t -> checked_mode t' = checked_mode t ->
  (forall s, mode (f s) = mode s) ->
  (forall m, influences_limit (f (presets t m)) = influences_limit (f (current t))
             /\ mirror (f (presets t m)) = mirror_checked t'
             /\ distribute_to_other_influences (f (presets t m)) = redistribute_checked t') ->
  (forall s, settings_in_bounds s -> settings_in_bounds (f s)) ->
  (forall m s, settings_defaults m s -> settings_defaults m (f s)) ->
  model_ok t'.
Proof.
  intros [H1 H2 H3 H4 H5] Hp Hc Hk Hm Hcom Hb Hd.
  split; unfold current in *; rewrite ?Hp, ?Hc, ?Hk; unfold update_all; auto.
  intros m. by rewrite Hm.
Qed.

Lemma common_update_ui_noop t :
  mirror_checked t = mirror (current t) ->
  redistribute_checked t = distribute_to_other_influences (current t) -> common_update_ui t = t.
Proof.
  intros Hm Hr. unfold common_update_ui.
  rewrite (bool_decide_eq_true_2 _ Hm). cbv zeta. by rewrite (bool_decide_eq_true_2 _ Hr).
Qed.

(** A mode action toggled on: [set_mode] (whose [mode_changed] slot finds
    the common check boxes up to date), then [update_ui]. *)
Lemma toggled_inv t m :
  tab_inv t -> tab_enabled t = true -> tab_inv (toggled true m true (with_checked_mode t (Some m))).
Proof.
  intros (Hok & Hu & _) He. unfold toggled, skip_if_updating. cbn. rewrite Hu.
  destruct Hok as [H1 H2 H3 H4 H5].
  unfold set_mode. rewrite common_update_ui_noop by (cbn; symmetry; apply H3).
  apply update_ui_inv; [|done]. split; cbn; auto.
  intros k. unfold current in *. cbn. destruct (H3 k) as (-> & ? & ?), (H3 m) as (-> & _). done.
Qed.

Lemma tab_inv_mw t : tab_inv t -> exists b, mw t = with_volume (mode_widgets_of (current t) true) b.
Proof. by intros (_ & _ & Hw). Qed.

Lemma tab_inv_mode t : tab_inv t -> mode (current t) = current_settings t.
Proof. intros ([H1 _ _ _ _] & _). apply H1. Qed.

Lemma fixed_enabled_smooth t :
  tab_inv t -> fixed_influences_enabled (mw t) = true -> current_settings t = smooth.
Proof.
  intros Hi He. destruct (tab_inv_mw t Hi) as [b Hw]. rewrite Hw in He. cbn in He.
  rewrite (tab_inv_mode t Hi) in He. apply bool_decide_eq_true_1 in He. set_solver.
Qed.

Lemma limit_enabled_smooth t :
  tab_inv t -> limit_enabled (mw t) = true -> current_settings t = smooth.
Proof.
  intros Hi He. destruct (tab_inv_mw t Hi) as [b Hw]. rewrite Hw in He. cbn in He.
  rewrite (tab_inv_mode t Hi), andb_true_r in He. apply bool_decide_eq_true_1 in He. set_solver.
Qed.

Lemma iterations_enabled_mode t :
  tab_inv t -> iterations_enabled (mw t) = true -> current_settings t ∈ [smooth; sharpen].
Proof.
  intros Hi He. destruct (tab_inv_mw t Hi) as [b Hw]. rewrite Hw in He. cbn in He.
  rewrite (tab_inv_mode t Hi) in He. by apply bool_decide_eq_true_1 in He.
Qed.

(** An edit of the current settings through a slider: [update_current],
    then [update_ui]. *)
Lemma slider_edit_inv t t1 f :
  tab_inv t -> tab_enabled t = true -> model_ok t1 -> current t1 = current t ->
  current_settings t1 = current_settings t -> tab_enabled t1 = true -> keeps_common f ->
  settings_in_bounds (f (current t)) -> settings_defaults (current_settings t) (f (current t)) ->
  tab_inv (update_ui (update_current t1 f)).
Proof.
  intros _ _ Hok Hc Hcs He Hf Hb Hd. apply update_ui_inv; [|done].
  apply model_ok_update_current; [done|done|by rewrite Hc|by rewrite Hc, Hcs].
Qed.

Lemma mw_edit_ok t t1 : tab_inv t -> presets t1 = presets t -> current_settings t1 = current_settings t ->
  checked_mode t1 = checked_mode t -> mirror_checked t1 = mirror_checked t ->
  redistribute_checked t1 = redistribute_checked t -> model_ok t1.
Proof. intros (Hok & _) ?????. by eapply model_ok_ext. Qed.

Lemma tab_inv_ext t t' :
  presets t' = presets t -> current_settings t' = current_settings t -> checked_mode t' = checked_mode t ->
  mirror_checked t' = mirror_checked t -> redistribute_checked t' = redistribute_checked t ->
  updating t' = updating t -> mw t' = mw t -> tab_inv t -> tab_inv t'.
Proof.
  intros Hp Hc Hk Hm Hr Hu Hw (Hok & Hu0 & b & Hw0). split_and!.
  - by eapply model_ok_ext.
  - by rewrite Hu.
  - exists b. unfold current. by rewrite Hw, Hp, Hc.
Qed.

Lemma bounds_set_intensity v s : settings_in_bounds s -> (INTENSITY_MIN <= v <= INTENSITY_MAX)%Q ->
  settings_in_bounds (set_intensity v s).
Proof. unfold settings_in_bounds. cbn. tauto. Qed.

Lemma bounds_set_iterations v s : settings_in_bounds s -> (ITERATIONS_MIN <= v <= ITERATIONS_MAX)%Z ->
  settings_in_bounds (set_iterations v s).
Proof. unfold settings_in_bounds. cbn. tauto. Qed.

Lemma keeps_common_set_intensity v : keeps_common (set_intensity v).
Proof. done. Qed.
Lemma keeps_common_set_iterations v : keeps_common (set_iterations v).
Proof. done. Qed.
Lemma keeps_common_set_fixed b : keeps_common (set_fixed_influences b).
Proof. done. Qed.
Lemma keeps_common_set_limit b : keeps_common (set_limit_to_component b).
Proof. done. Qed.

#[export] Hint Resolve keeps_common_set_intensity keeps_common_set_iterations
  keeps_common_set_fixed keeps_common_set_limit : pyhints.

Lemma model_bounds t m : tab_inv t -> settings_in_bounds (presets t m).
Proof. intros ([_ _ _ H _] & _). apply H. Qed.

Lemma model_defaults t m : tab_inv t -> settings_defaults m (presets t m).
Proof. intros ([_ _ _ _ H] & _). apply H. Qed.

(** A smoothing check box clicked: [update_current] without [update_ui];
    the box already shows the new value. *)
Lemma checkbox_edit_inv t t1 f :
  tab_inv t -> current_settings t = smooth -> keeps_common f ->
  (forall s, settings_in_bounds s -> settings_in_bounds (f s)) ->
  (forall s, settings_defaults smooth s -> settings_defaults smooth (f s)) ->
  presets t1 = presets t -> current_settings t1 = current_settings t -> checked_mode t1 = checked_mode t ->
  mirror_checked t1 = mirror_checked t -> redistribute_checked t1 = redistribute_checked t ->
  updating t1 = false -> (exists b, mw t1 = with_volume (mode_widgets_of (f (current t)) true) b) ->
  tab_inv (update_current t1 f).
Proof.
  intros Hi Hs Hf Hb Hd Hp Hc Hk Hm Hr Hu [b Hw]. split_and!.
  - apply model_ok_update_current; [by eapply mw_edit_ok|done|..]; unfold current; rewrite Hp, Hc.
    + apply Hb, (model_bounds t _ Hi).
    + rewrite Hs in *. apply Hd, (model_defaults t smooth Hi).
  - done.
  - exists b. unfold current in *. cbn. by rewrite update_preset_eq, Hw, Hp, Hc.
Qed.

Lemma fixed_click_inv t :
  tab_inv t -> fixed_influences_enabled (mw t) = true -> tab_inv (fixed_influences_changed (flip_fixed t)).
Proof.
  intros Hi He. pose proof Hi as (_ & Hu & b & Hw).
  unfold fixed_influences_changed, skip_if_updating. cbn. rewrite Hu.
  apply checkbox_edit_inv with t; auto with pyhints.
  - exact (fixed_enabled_smooth t Hi He).
  - unfold settings_defaults. cbn. naive_solver.
  - exists b. unfold flip_fixed. cbn. by rewrite Hw.
Qed.

Lemma limit_click_inv t :
  tab_inv t -> limit_enabled (mw t) = true -> tab_inv (limit_to_component_selection_changed (flip_limit t)).
Proof.
  intros Hi He. pose proof Hi as (_ & Hu & b & Hw).
  unfold limit_to_component_selection_changed, skip_if_updating. cbn. rewrite Hu.
  apply checkbox_edit_inv with t; auto with pyhints.
  - exact (limit_enabled_smooth t Hi He).
  - unfold settings_defaults. cbn. naive_solver.
  - exists b. unfold flip_limit. cbn. by rewrite Hw.
Qed.

Lemma intensity_range : (INTENSITY_MIN <= INTENSITY_MAX)%Q.
Proof. by apply Qle_bool_iff. Qed.
Lemma iterations_range : (ITERATIONS_MIN <= ITERATIONS_MAX)%Z.
Proof. done. Qed.
Lemma influences_limit_range : (INFLUENCES_LIMIT_MIN <= INFLUENCES_LIMIT_MAX)%Z.
Proof. done. Qed.

Lemma defaults_set_iterations m v s : m ∈ [smooth; sharpen] -> settings_defaults m s ->
  settings_defaults m (set_iterations v s).
Proof. unfold settings_defaults. cbn. intros Hm (H1 & H2 & H3). split_and!; auto. by intros []. Qed.

Lemma defaults_keep m s f :
  (forall s, fixed_influences_per_vertex (f s) = fixed_influences_per_vertex s
             /\ limit_to_component_selection (f s) = limit_to_component_selection s
             /\ iterations (f s) = iterations s /\ use_volume_neighbours (f s) = use_volume_neighbours s) ->
  settings_defaults m s -> settings_defaults m (f s).
Proof. unfold settings_defaults. intros Hf. destruct (Hf s) as (-> & -> & -> & ->). done. Qed.

(** A change of a setting that every preset gets: [update_all]. *)
Lemma update_all_inv t t' f :
  tab_inv t -> presets t' = update_all (presets t) f ->
  current_settings t' = current_settings t -> checked_mode t' = checked_mode t -> updating t' = false ->
  (forall s, mode (f s) = mode s /\ fixed_influences_per_vertex (f s) = fixed_influences_per_vertex s
             /\ limit_to_component_selection (f s) = limit_to_component_selection s
             /\ iterations (f s) = iterations s /\ use_volume_neighbours (f s) = use_volume_neighbours s
             /\ intensity (f s) = intensity s) ->
  (forall m, influences_limit (f (presets t m)) = influences_limit (f (current t))
             /\ mirror (f (presets t m)) = mirror_checked t'
             /\ distribute_to_other_influences (f (presets t m)) = redistribute_checked t') ->
  (forall s, settings_in_bounds s -> settings_in_bounds (f s)) ->
  (exists b, mw t' = with_volume (mode_widgets_of (f (current t)) true) b) ->
  tab_inv t'.
Proof.
  intros Hi Hp Hc Hk Hu Hf Hcom Hb [b Hw]. split_and!.
  - apply (model_ok_update_all t t' f); try done.
    + apply Hi.
    + intros s. apply Hf.
    + intros m s. apply defaults_keep. intros s'. by destruct (Hf s') as (_ & ? & ? & ? & ? & _).
  - done.
  - exists b. unfold current in *. rewrite Hw, Hp, Hc. done.
Qed.

Lemma handle_inv e t : tab_inv t -> tab_inv (handle e t).1.
Proof.
  intros Hi. pose proof Hi as (Hok & Hu & b & Hw). unfold handle.
  destruct (tab_enabled t) eqn:He; cbn [negb].
  2:{ destruct e; try done. by apply (tab_inv_ext t). }
  destruct e as [m|v|v|v| | | | | |layer|la]; cbn zeta.
  - case_decide; [done|]. by apply toggled_inv.
  - destruct (Qeq_bool _ _); [done|]. unfold intensity_edited, skip_if_updating. cbn. rewrite Hu.
    apply slider_edit_inv with t; auto with pyhints.
    + by eapply mw_edit_ok.
    + apply bounds_set_intensity; [exact (model_bounds t _ Hi)|]. apply clampQ_bounds, intensity_range.
    + apply defaults_keep; [done|]. exact (model_defaults t _ Hi).
  - destruct (iterations_enabled (mw t)) eqn:Ee; [|done]. cbn. destruct (Z.eqb _ _); [done|].
    unfold iterations_edited, skip_if_updating. cbn. rewrite Hu.
    apply slider_edit_inv with t; auto with pyhints.
    + by eapply mw_edit_ok.
    + apply bounds_set_iterations; [exact (model_bounds t _ Hi)|]. apply clampZ_bounds, iterations_range.
    + apply defaults_set_iterations; [by apply iterations_enabled_mode|]. exact (model_defaults t _ Hi).
  - destruct (Z.eqb _ _); [done|]. unfold influences_limit_changed, skip_if_updating. cbn. rewrite Hu.
    apply update_ui_inv; [|done].
    eapply (model_ok_update_all t); [apply Hok|reflexivity|done|done|..].
    + done.
    + intros m. cbn. destruct (inv_common _ Hok m) as (? & ? & ?). by split_and!.
    + intros s (? & ? & _). unfold settings_in_bounds. cbn.
      split; [done|split; [done|]]. apply clampZ_bounds, influences_limit_range.
    + intros m s. apply defaults_keep. done.
  - destruct (fixed_influences_enabled (mw t)) eqn:Ee; [|done]. by apply fixed_click_inv.
  - destruct (limit_enabled (mw t)) eqn:Ee; [|done]. by apply limit_click_inv.
  - destruct (volume_enabled (mw t)); [|done]. split_and!; [|done|].
    + by eapply mw_edit_ok.
    + exists (negb b). unfold flip_volume. cbn. by rewrite Hw.
  - unfold skip_if_updating. cbn. rewrite Hu.
    eapply (update_all_inv t); [done|reflexivity|done|done|done|done|..].
    + intros m. cbn. destruct (inv_common _ Hok m) as (? & ? & ?). by split_and!.
    + done.
    + exists b. done.
  - eapply (update_all_inv t); [done|reflexivity|done|done|done|done|..].
    + intros m. cbn. destruct (inv_common _ Hok m) as (? & ? & ?). by split_and!.
    + done.
    + exists b. done.
  - destruct layer as [[l targets]|]; [|done]. by apply (tab_inv_ext t).
  - by apply (tab_inv_ext t).
Qed.

Lemma build_ui_inv la : tab_inv (build_ui la).
Proof.
  split_and!; [split| |]; try done.
  - by intros [].
  - intros []; vm_compute; done.
  - intros []; unfold settings_in_bounds; vm_compute; split_and!; try apply Qle_bool_iff; done.
  - intros []; unfold settings_defaults; vm_compute; split_and!; try done; set_solver.
  - exists false. done.
Qed.

Lemma tab_reachable_inv t : tab_reachable t -> tab_inv t.
Proof. induction 1; [apply build_ui_inv | by apply handle_inv]. Qed.

Lemma floods_skip h t x :
  (forall t, floods (h t) = floods t) -> floods t = x -> floods (skip_if_updating h t) = x.
Proof. unfold skip_if_updating. intros ? <-. by case_match. Qed.

Lemma floods_common_update_ui t : floods (common_update_ui t) = floods t.
Proof. unfold common_update_ui, skip_if_updating. by repeat case_match. Qed.

(** Only [apply] calls [flood_weights], with the current settings. *)
Lemma handle_floods e t :
  floods (handle e t).1 = floods t ++
    match e with
    | ClickApply (Some (l, targets)) => if tab_enabled t then [mkFlood l targets (current t)] else []
    | _ => []
    end.
Proof.
  unfold handle. destruct (tab_enabled t); destruct e as [| | | | | | | | |[[]|]|]; cbn;
    repeat (case_match; cbn); rewrite ?app_nil_r; try done;
    unfold toggled, intensity_edited, iterations_edited, influences_limit_changed, fixed_influences_changed,
      limit_to_component_selection_changed;
    (apply floods_skip; [intros t'; cbn; by rewrite ?floods_common_update_ui|done]).
Qed.

Lemma tab_reachable_floods t : tab_reachable t ->
  forall c, c ∈ floods t -> settings_in_bounds (flood_settings c)
                         /\ settings_defaults (mode (flood_settings c)) (flood_settings c).
Proof.
  induction 1 as [la|t e Hr IH]; [intros c Hc; by destruct la; apply elem_of_nil in Hc|].
  intros c. rewrite handle_floods, elem_of_app. intros [Hc|Hc]; [by apply IH|].
  destruct e as [| | | | | | | | |[[l ts]|]|]; try by apply elem_of_nil in Hc.
  destruct (tab_enabled t); [|by apply elem_of_nil in Hc]. apply list_elem_of_singleton in Hc as ->. cbn.
  pose proof (tab_reachable_inv t Hr) as Hi. rewrite (tab_inv_mode t Hi).
  split; [apply (model_bounds t _ Hi)|apply (model_defaults t _ Hi)].
Qed.

Lemma clampQ_in lo hi x : (lo <= x <= hi)%Q -> (clampQ lo hi x == x)%Q.
Proof.
  intros [H1 H2]. unfold clampQ.
  destruct (Qle_bool x lo) eqn:E1; [apply Qle_bool_iff in E1; by apply Qle_antisym|].
  destruct (Qle_bool hi x) eqn:E2; [apply Qle_bool_iff in E2; by apply Qle_antisym|reflexivity].
Qed.

Lemma clampZ_in lo hi x : (lo <= x <= hi)%Z -> clampZ lo hi x = x.
Proof. unfold clampZ. lia. Qed.

Lemma run_events_cons e evs t : (run_events (e :: evs) t).1 = (run_events evs (handle e t).1).1.
Proof. cbn. by destruct (handle e t), (run_events evs _). Qed.

(** A click on mode [m]'s action makes [m] current, leaves the presets as
    they are, and (when [m] was not checked) shows [m]'s settings. *)
Lemma click_mode_spec t m : tab_inv t -> tab_enabled t = true ->
  let t' := (handle (ClickMode m) t).1 in
  presets t' = presets t /\ current_settings t' = m /\ tab_enabled t' = true
  /\ (checked_mode t <> Some m -> mw t' = mode_widgets_of (presets t m) true).
Proof.
  intros Hi He. pose proof Hi as ([H1 H2 H3 H4 H5] & Hu & _). unfold handle. rewrite He. cbn.
  case_decide as Hc; [rewrite H2 in Hc; injection Hc as Hc; subst m; by split_and!|].
  unfold toggled, skip_if_updating. cbn. rewrite Hu. unfold set_mode.
  rewrite common_update_ui_noop by (cbn; symmetry; apply H3). cbn. by rewrite He.
Qed.

(** A move of the intensity slider writes the clamped value into the
    current preset only. *)
Lemma slide_intensity_spec t v : tab_inv t -> tab_enabled t = true ->
  let t' := (handle (SlideIntensity v) t).1 in
  current_settings t' = current_settings t /\ tab_enabled t' = true /\ checked_mode t' = checked_mode t
  /\ (intensity (presets t' (current_settings t)) == clampQ INTENSITY_MIN INTENSITY_MAX v)%Q
  /\ forall k, k <> current_settings t -> presets t' k = presets t k.
Proof.
  intros Hi He. pose proof Hi as (Hok & Hu & b & Hw). unfold handle. rewrite He. cbn.
  destruct (Qeq_bool _ _) eqn:E.
  - split_and!; try done. apply Qeq_bool_iff in E. rewrite Hw in E. cbn in E.
    cbn. rewrite E. symmetry. apply clampQ_in, (model_bounds t _ Hi).
  - unfold intensity_edited, skip_if_updating. cbn. rewrite Hu. cbn.
    split_and!; [done|done|done| |].
    + rewrite update_preset_eq. reflexivity.
    + intros k Hk. by rewrite update_preset_ne.
Qed.

Lemma click_apply_spec t l ts : tab_enabled t = true ->
  (handle (ClickApply (Some (l, ts))) t).1 = log_flood t (mkFlood l ts (current t)).
Proof. intros He. unfold handle. by rewrite He. Qed.

(** C8. In every state the tab reaches, the checked mode action is the
    mode whose preset [current_settings] aliases, every preset's [mode] is
    its key, and the influences limit, mirror and redistribution settings
    are the same in every preset and are what their widgets show. *)
Theorem tab_presets_consistent t : tab_reachable t ->
  checked_mode t = Some (current_settings t) /\ mode (current t) = current_settings t
  /\ forall m, mode (presets t m) = m /\ influences_limit (presets t m) = influences_limit_value (mw t)
               /\ mirror (presets t m) = mirror_checked t
               /\ distribute_to_other_influences (presets t m) = redistribute_checked t.
Proof.
  intros Hr. pose proof (tab_reachable_inv t Hr) as Hi. destruct Hi as ([H1 H2 H3 H4 H5] & Hu & b & Hw).
  split_and!; [done|apply H1|]. intros m. destruct (H3 m) as (-> & ? & ?).
  rewrite Hw. cbn. rewrite clampZ_in; [done|]. apply (H4 (current_settings t)).
Qed.

(** Every preset of every reachable state, and every settings object
    the tab has passed to [flood_weights], has its intensity in [0, 1], its
    iterations in [1, 100] and its influences limit in [0, 10]: the ranges of
    the sliders that set them.  The bounds are those of the clamp of
    [NumberSliderGroup.set_value] ([clampQ], [clampZ]); the tab itself
    never checks them. *)
Theorem tab_settings_bounds t : tab_reachable t ->
  forall s, (exists m, s = presets t m) \/ (exists c, c ∈ floods t /\ s = flood_settings c) ->
  (0 <= intensity s <= 1)%Q /\ (1 <= iterations s <= 100)%Z /\ (0 <= influences_limit s <= 10)%Z.
Proof.
  intros Hr s [[m ->]|[c [Hc ->]]].
  - exact (model_bounds t m (tab_reachable_inv t Hr)).
  - exact (proj1 (tab_reachable_floods t Hr c Hc)).
Qed.

(** C25. No reachable state changes a setting whose widget is disabled in
    that mode: outside [smooth] the fixed-influences and component-selection
    options stay off, outside [smooth] and [sharpen] the iterations stay 10;
    and no state sets [use_volume_neighbours], which the "volume smoothing"
    check box, having no handler, never writes: every [flood_weights] call
    gets it off. *)
Theorem tab_disabled_settings_kept t : tab_reachable t ->
  (forall m, (m <> smooth -> fixed_influences_per_vertex (presets t m) = false
                             /\ limit_to_component_selection (presets t m) = false)
             /\ (m ∉ [smooth; sharpen] -> iterations (presets t m) = 10%Z)
             /\ use_volume_neighbours (presets t m) = false)
  /\ forall c, c ∈ floods t -> use_volume_neighbours (flood_settings c) = false.
Proof.
  intros Hr. split.
  - intros m. exact (model_defaults t m (tab_reachable_inv t Hr)).
  - intros c Hc. apply (proj2 (tab_reachable_floods t Hr c Hc)).
Qed.

(** C17. A mode remembers its edits: from any reachable state of the enabled
    tab, selecting mode [m], moving the intensity slider to [v], selecting
    another mode and [m] again shows the clamped [v] on the slider, and
    [apply] then floods with [m]'s settings and that intensity; the other
    modes' presets are those of the start. *)
Theorem mode_intensity_roundtrip t m m' v l ts :
  tab_reachable t -> tab_enabled t = true -> m <> m' ->
  let t' := (run_events [ClickMode m; SlideIntensity v; ClickMode m'; ClickMode m; ClickApply (Some (l, ts))] t).1 in
  (intensity_value (mw t') == clampQ INTENSITY_MIN INTENSITY_MAX v)%Q
  /\ (exists c, last (floods t') = Some c /\ mode (flood_settings c) = m
               /\ (intensity (flood_settings c) == clampQ INTENSITY_MIN INTENSITY_MAX v)%Q)
  /\ forall k, k <> m -> presets t' k = presets t k.
Proof.
  intros Hr He Hm t'. subst t'. rewrite !run_events_cons. cbn [run_events fst].
  pose proof (tab_step _ (ClickMode m) Hr) as R1.
  destruct (click_mode_spec t m (tab_reachable_inv t Hr) He) as (P1 & C1 & E1 & _).
  pose proof (tab_step _ (SlideIntensity v) R1) as R2.
  destruct (slide_intensity_spec _ v (tab_reachable_inv _ R1) E1) as (C2 & E2 & _ & I2 & P2).
  rewrite C1 in C2, I2, P2.
  pose proof (tab_step _ (ClickMode m') R2) as R3. pose proof (tab_reachable_inv _ R3) as Hi3.
  destruct (click_mode_spec _ m' (tab_reachable_inv _ R2) E2) as (P3 & C3 & E3 & _).
  pose proof (tab_step _ (ClickMode m) R3) as R4. pose proof (tab_reachable_inv _ R4) as Hi4.
  destruct (click_mode_spec _ m Hi3 E3) as (P4 & C4 & E4 & W4).
  rewrite click_apply_spec by done.
  assert (Hc3 : checked_mode (handle (ClickMode m') (handle (SlideIntensity v) (handle (ClickMode m) t).1).1).1 <> Some m).
  { rewrite (inv_checked _ (proj1 Hi3)), C3. congruence. }
  assert (Hint : (intensity (presets (handle (ClickMode m) (handle (ClickMode m') (handle (SlideIntensity v)
                   (handle (ClickMode m) t).1).1).1).1 m) == clampQ INTENSITY_MIN INTENSITY_MAX v)%Q).
  { by rewrite P4, P3. }
  split_and!.
  - cbn. rewrite (W4 Hc3). cbn. rewrite <- P4, clampQ_in; [exact Hint|]. apply (model_bounds _ _ Hi4).
  - eexists. unfold log_flood. cbn [floods]. rewrite last_snoc. split; [done|]. cbn. unfold current. rewrite C4.
    split; [apply (inv_modes _ (proj1 Hi4))|exact Hint].
  - intros k Hk. cbn. rewrite P4, P3, P2, P1 by done. done.
Qed.

Lemma run_events_reachable evs t : tab_reachable t -> tab_reachable (run_events evs t).1.
Proof.
  revert t. induction evs as [|e evs IH]; intros t Hr; [done|].
  rewrite run_events_cons. apply IH, tab_step, Hr.
Qed.

(** [make_presets()]: the second assignment to [scale]'s intensity
    overwrites the first. *)
Example make_presets_intensities :
  map (fun m => intensity (make_presets m)) paint_mode_all = [1; 0.1; 0.95; 0.3; 1]%Q.
Proof. reflexivity. Qed.

(** [apply()] without a current layer raises and calls nothing. *)
Example apply_no_layer t : tab_enabled t = true -> handle (ClickApply None) t = (t, Some NoCurrentLayer).
Proof. intros He. unfold handle. by rewrite He. Qed.

(** The tab of a target with layers after the user selects [smooth],
    ticks "volume smoothing" and applies. *)
Definition ex_volume_tab : Tab :=
  (run_events [ClickMode smooth; ClickVolumeNeighbours; ClickApply (Some (0, [1]))] (build_ui true)).1.

Lemma tab_presets_consistent_witness :
  checked_mode ex_volume_tab = Some smooth /\ mode (current ex_volume_tab) = smooth
  /\ forall m, mode (presets ex_volume_tab m) = m
               /\ influences_limit (presets ex_volume_tab m) = influences_limit_value (mw ex_volume_tab)
               /\ mirror (presets ex_volume_tab m) = mirror_checked ex_volume_tab
               /\ distribute_to_other_influences (presets ex_volume_tab m) = redistribute_checked ex_volume_tab.
Proof.
  change smooth with (current_settings ex_volume_tab).
  apply tab_presets_consistent, run_events_reachable, tab_built.
Defined.

Lemma tab_settings_bounds_witness :
  (0 <= intensity (current ex_volume_tab) <= 1)%Q /\ (1 <= iterations (current ex_volume_tab) <= 100)%Z
  /\ (0 <= influences_limit (current ex_volume_tab) <= 10)%Z.
Proof.
  apply (tab_settings_bounds ex_volume_tab); [apply run_events_reachable, tab_built|].
  left. by eexists.
Defined.

Lemma tab_disabled_settings_kept_witness :
  volume_checked (mw ex_volume_tab) = true
  /\ map (fun c => use_volume_neighbours (flood_settings c)) (floods ex_volume_tab) = [false].
Proof.
  split; [vm_compute; reflexivity|].
  pose proof (proj2 (tab_disabled_settings_kept ex_volume_tab (run_events_reachable _ _ (tab_built true)))) as H.
  assert (Hf : exists c, floods ex_volume_tab = [c]) by (eexists; vm_compute; reflexivity).
  destruct Hf as [c Hc]. rewrite Hc. cbn. rewrite (H c); [done|]. rewrite Hc. apply list_elem_of_here.
Defined.

Lemma mode_intensity_roundtrip_witness :
  let t' := (run_events [ClickMode scale; SlideIntensity (1#2); ClickMode add; ClickMode scale;
                         ClickApply (Some (0, [1]))] (build_ui true)).1 in
  (intensity_value (mw t') == clampQ INTENSITY_MIN INTENSITY_MAX (1#2))%Q
  /\ (exists c, last (floods t') = Some c /\ mode (flood_settings c) = scale
               /\ (intensity (flood_settings c) == clampQ INTENSITY_MIN INTENSITY_MAX (1#2))%Q)
  /\ forall k, k <> scale -> presets t' k = presets (build_ui true) k.
Proof. apply mode_intensity_roundtrip; [apply tab_built|reflexivity|discriminate]. Defined.
