(* ===== verification/ImportExport.v ===== *)
(** * The import and export actions of [operations/import_export_actions.py]

    Both actions open a file dialog on the filter string
    [file_dialog_filters], the [";;"]-joined pair of filters, preselecting
    the filter remembered in the persistent value [default_filter]; the
    filter the user leaves selected is remembered again and mapped to a file
    format by [format_map].  Export then calls [api.export_json] when layers
    are available; import loads a [LayersTransfer] from the file and executes
    it on the selected skin cluster.

    Not under [src/]: [PersistentValue] ([ui/options.py]), modelled by its
    stored value and default; [api.FileFormat], an enumeration; Qt's
    [QFileDialog], modelled by what the code relies on: it offers the
    filters [qt_make_filter_list] cuts from the filter string, preselects the
    requested filter when it is one of them (the first one otherwise) and
    returns the chosen file name and the filter selected, or an empty name
    when cancelled. *)

From S2P Require Import Prelude.

(** [api.FileFormat] *)
Inductive FileFormat := JSON | CompressedJSON.

#[export] Instance FileFormat_eq_dec : EqDecision FileFormat.
Proof. solve_decision. Defined.

Definition filter_normal_json : pystr := py "JSON files(*.json)".
Definition filter_compressed : pystr := py "Compressed JSON(*.json.gz)".

(** [sep.join(l)] *)
Fixpoint py_join (sep : pystr) (l : list pystr) : pystr :=
  match l with
  | [] => []
  | [x] => x
  | x :: l' => x ++ sep ++ py_join sep l'
  end.

Definition SEMI : ascii := ";"%char.

Definition file_dialog_filters : pystr := py_join [SEMI; SEMI] [filter_normal_json; filter_compressed].

(** [format_map[f]]; [None] is the [KeyError]. *)
Definition format_map (f : pystr) : option FileFormat :=
  if decide (f = filter_normal_json) then Some JSON
  else if decide (f = filter_compressed) then Some CompressedJSON
  else None.

(** The value [default_filter.get()] returns: the default [FileFormat.JSON]
    until a filter has been [set]. *)
Inductive FilterValue := FormatValue (f : FileFormat) | FilterText (s : pystr).

Definition default_filter_get (stored : option FilterValue) : FilterValue :=
  default (FormatValue JSON) stored.

(** ** Qt's file dialog *)

(** [qt_make_filter_list]: the filter string cut at each [";;"]. *)
Fixpoint split_filters (cur : pystr) (s : pystr) : list pystr :=
  match s with
  | [] => [cur]
  | c :: s' =>
      match s' with
      | c' :: s'' => if bool_decide (c = SEMI /\ c' = SEMI) then cur :: split_filters [] s''
                     else split_filters (cur ++ [c]) s'
      | [] => [cur ++ [c]]
      end
  end.

Definition qt_make_filter_list (s : pystr) : list pystr := if decide (s = []) then [] else split_filters [] s.

(** The user's answer: cancel, or a file name with the filter left as
    preselected ([None]) or the [i]-th offered one. *)
Inductive DialogChoice := DialogCancel | DialogAccept (file_name : pystr) (filter : option nat).

Definition preselected (filters : pystr) (selected : FilterValue) : pystr :=
  let offered := qt_make_filter_list filters in
  match selected with
  | FilterText s => if decide (s ∈ offered) then s else default [] (head offered)
  | FormatValue _ => default [] (head offered)
  end.

(** [QFileDialog.getSaveFileName] / [getOpenFileName]: [(file_name, selected_filter)]. *)
Definition file_dialog (filters : pystr) (selected : FilterValue) (c : DialogChoice) : pystr * pystr :=
  let pre := preselected filters selected in
  match c with
  | DialogCancel => ([], pre)
  | DialogAccept n None => (n, pre)
  | DialogAccept n (Some i) => (n, default pre (qt_make_filter_list filters !! i))
  end.

(** ** The actions *)

(** What the actions read of [session.state]. *)
Record IOSession := mkIOSession { layersAvailable : bool; selectedSkinCluster : option pystr }.

(** The API calls: [api.export_json(...)] and a [LayersTransfer] loaded
    from [file_name] in [format] and executed on [target]. *)
Inductive IOCall :=
  | CallExportJson (skin_cluster : option pystr) (file_name : pystr) (format : FileFormat)
  | CallTransfer (file_name : pystr) (format : FileFormat) (target : pystr).

Inductive IOError := KeyError.

(** The persistent [default_filter] and the calls made. *)
Record IOState := mkIOState { stored_filter : option FilterValue; io_calls : list IOCall }.

Definition set_default_filter (st : IOState) (f : pystr) : IOState := mkIOState (Some (FilterText f)) (io_calls st).
Definition io_log (st : IOState) (c : IOCall) : IOState := mkIOState (stored_filter st) (io_calls st ++ [c]).

(** [export_callback()] *)
Definition export_callback (sess : IOSession) (c : DialogChoice) (st : IOState) : IOState * option IOError :=
  let '(file_name, selected_filter) := file_dialog file_dialog_filters (default_filter_get (stored_filter st)) c in
  if decide (file_name = []) then (st, None) else
  let st := set_default_filter st selected_filter in
  if layersAvailable sess then
    match format_map selected_filter with
    | Some f => (io_log st (CallExportJson (selectedSkinCluster sess) file_name f), None)
    | None => (st, Some KeyError)
    end
  else (st, None).

(** [update_to_target()] of the export action and [update()] of the import
    action: whether each is enabled. *)
Definition export_enabled (sess : IOSession) : bool := layersAvailable sess.
Definition import_enabled (sess : IOSession) : bool := bool_decide (selectedSkinCluster sess <> None).

(** [default_file_dialog_func()] *)
Definition default_file_dialog_func (c : DialogChoice) (st : IOState) : IOState * (pystr * pystr) :=
  let '(file_name, selected_filter) := file_dialog file_dialog_filters (default_filter_get (stored_filter st)) c in
  ((if decide (file_name = []) then st else set_default_filter st selected_filter), (file_name, selected_filter)).

(** [import_callback()], with the dialog function the action was built
    with. *)
Definition import_callback (file_dialog_func : IOState -> IOState * (pystr * pystr))
    (sess : IOSession) (st : IOState) : IOState * option IOError :=
  match selectedSkinCluster sess with
  | None => (st, None)
  | Some target =>
      let '(st, (file_name, selected_format)) := file_dialog_func st in
      if decide (file_name = []) then (st, None) else
      match format_map selected_format with
      | Some f => (io_log st (CallTransfer file_name f target), None)
      | None => (st, Some KeyError)
      end
  end.

(** ** Sequences of clicks on the two actions *)

(** Whether the user accepted a dialog: [if not file_name: return]. *)
Definition accepted (c : DialogChoice) : bool :=
  match c with DialogCancel => false | DialogAccept n _ => bool_decide (n <> []) end.

(** A click on the export action, or on the import action built with its
    default dialog, and the user's answer to the dialog. *)
Inductive IOEvent := ExportClicked (sess : IOSession) (c : DialogChoice) | ImportClicked (sess : IOSession) (c : DialogChoice).

Definition io_step (e : IOEvent) (st : IOState) : IOState * option IOError :=
  match e with
  | ExportClicked sess c => export_callback sess c st
  | ImportClicked sess c => import_callback (default_file_dialog_func c) sess st
  end.

(** Whether the click reaches a dialog the user accepts; the import action
    opens none without a target. *)
Definition io_accepted (e : IOEvent) : bool :=
  match e with
  | ExportClicked _ c => accepted c
  | ImportClicked sess c => bool_decide (selectedSkinCluster sess <> None) && accepted c
  end.

Fixpoint io_run (evs : list IOEvent) (st : IOState) : IOState * list IOError :=
  match evs with
  | [] => (st, [])
  | e :: evs' =>
      let '(st1, err) := io_step e st in
      let '(st2, errs) := io_run evs' st1 in (st2, option_list err ++ errs)
  end.

(** ** Lemmas *)

Lemma split_filters_sep cur x r : SEMI ∉ x ->
  split_filters cur (x ++ [SEMI; SEMI] ++ r) = (cur ++ x) :: split_filters [] r.
Proof.
  revert cur. induction x as [|c x IH]; intros cur Hx.
  - cbn. rewrite bool_decide_eq_true_2 by done. by rewrite app_nil_r.
  - apply not_elem_of_cons in Hx as [Hc Hx]. cbn.
    destruct (x ++ SEMI :: SEMI :: r) as [|c' s''] eqn:E; [by destruct x|].
    rewrite bool_decide_eq_false_2 by naive_solver. rewrite <- E.
    cbn in IH. rewrite IH by done. by rewrite <- app_assoc.
Qed.

Lemma split_filters_last cur x : SEMI ∉ x -> split_filters cur x = [cur ++ x].
Proof.
  revert cur. induction x as [|c x IH]; intros cur Hx; [by rewrite app_nil_r|].
  apply not_elem_of_cons in Hx as [Hc Hx]. cbn.
  destruct x as [|c' x]; [done|]. rewrite bool_decide_eq_false_2 by naive_solver.
  rewrite IH by done. by rewrite <- app_assoc.
Qed.

Lemma py_join_nil_iff (l : list pystr) : Forall (fun f => f <> []) l -> l <> [] -> py_join [SEMI; SEMI] l <> [].
Proof.
  intros Hl Hne. destruct l as [|x [|y l]]; [done| |]; inversion Hl; subst; cbn; [done|].
  by intros [? _]%app_eq_nil.
Qed.

Lemma split_filters_join (l : list pystr) : l <> [] -> Forall (fun f => SEMI ∉ f) l ->
  split_filters [] (py_join [SEMI; SEMI] l) = l.
Proof.
  induction l as [|x [|y l] IH]; intros Hne Hl; [done| |].
  - inversion Hl; subst. cbn. by rewrite split_filters_last.
  - inversion Hl; subst. change (py_join [SEMI; SEMI] (x :: y :: l)) with (x ++ [SEMI; SEMI] ++ py_join [SEMI; SEMI] (y :: l)).
    rewrite split_filters_sep by done. cbn [app]. by rewrite IH.
Qed.

(** The filters the dialogs offer. *)
Lemma offered_filters : qt_make_filter_list file_dialog_filters = [filter_normal_json; filter_compressed].
Proof. vm_compute. reflexivity. Qed.

(** Every filter a dialog of the actions returns is one it offers. *)
Lemma dialog_filter_offered sel c :
  (file_dialog file_dialog_filters sel c).2 ∈ [filter_normal_json; filter_compressed].
Proof.
  assert (Hpre : preselected file_dialog_filters sel ∈ [filter_normal_json; filter_compressed]).
  { unfold preselected. rewrite offered_filters. destruct sel; [set_solver|]. case_decide; set_solver. }
  unfold file_dialog. destruct c as [|n [i|]]; cbv zeta; cbn [snd]; [done| |done].
  rewrite offered_filters. destruct ([filter_normal_json; filter_compressed] !! i) eqn:E; cbn; [|done].
  by eapply list_elem_of_lookup_2.
Qed.

Lemma format_map_offered f : f ∈ [filter_normal_json; filter_compressed] -> exists fmt, format_map f = Some fmt.
Proof. intros Hf. apply elem_of_cons in Hf as [->|Hf]; [by eexists|]. apply list_elem_of_singleton in Hf as ->. by eexists. Qed.

(** A remembered filter that is offered is preselected next time. *)
Lemma preselected_remembered f : f ∈ [filter_normal_json; filter_compressed] ->
  preselected file_dialog_filters (FilterText f) = f.
Proof. intros Hf. unfold preselected. rewrite offered_filters. by rewrite decide_True. Qed.

Lemma file_dialog_name filters sel c :
  (file_dialog filters sel c).1 = match c with DialogCancel => [] | DialogAccept n _ => n end.
Proof. by destruct c as [|n [i|]]. Qed.

(** Cutting a [";;"]-joined list of filters as the file dialog does
    gives the list back, when no filter is empty or holds a [";"]: the
    dialogs offer exactly the two filters of [file_dialog_filters]. *)
Theorem filter_list_roundtrip (l : list pystr) :
  l <> [] -> Forall (fun f => f <> [] /\ SEMI ∉ f) l -> qt_make_filter_list (py_join [SEMI; SEMI] l) = l.
Proof.
  intros Hne Hl. unfold qt_make_filter_list.
  rewrite decide_False; [|apply py_join_nil_iff; [eapply Forall_impl; [exact Hl|naive_solver]|done]].
  apply split_filters_join; [done|]. eapply Forall_impl; [exact Hl|naive_solver].
Qed.

Lemma filter_list_roundtrip_witness :
  qt_make_filter_list file_dialog_filters = [filter_normal_json; filter_compressed].
Proof. apply filter_list_roundtrip; [discriminate|repeat constructor; first [discriminate|decide_vm]]. Defined.

(** C30. [export_callback] never raises: a cancelled dialog (or an empty
    name) changes nothing; otherwise the filter the dialog returns is one it
    offers, it is remembered in [default_filter] and preselected by the next
    dialog, and, when layers are available, [api.export_json] is called once
    with the format [format_map] gives it. *)
Theorem export_callback_spec sess st c :
  let '(st', err) := export_callback sess c st in
  err = None /\
  match c with
  | DialogCancel => st' = st
  | DialogAccept name _ =>
      (name = [] /\ st' = st)
      \/ (name <> [] /\ exists fmt,
            let f := (file_dialog file_dialog_filters (default_filter_get (stored_filter st)) c).2 in
            f ∈ [filter_normal_json; filter_compressed] /\ format_map f = Some fmt
            /\ st' = mkIOState (Some (FilterText f))
                       (io_calls st ++ if layersAvailable sess then [CallExportJson (selectedSkinCluster sess) name fmt] else [])
            /\ preselected file_dialog_filters (default_filter_get (stored_filter st')) = f)
  end.
Proof.
  unfold export_callback.
  pose proof (dialog_filter_offered (default_filter_get (stored_filter st)) c) as Hoff.
  pose proof (file_dialog_name file_dialog_filters (default_filter_get (stored_filter st)) c) as Hn.
  destruct (file_dialog _ _ c) as [fn sf] eqn:E. cbn [fst snd] in Hoff, Hn. cbv beta iota zeta. subst fn.
  destruct c as [|name i]; [by rewrite decide_True|].
  case_decide as Hname; [by split; [|left]|].
  destruct (format_map_offered sf Hoff) as [fmt Hfmt]. rewrite Hfmt.
  assert (Hpre : preselected file_dialog_filters (FilterText sf) = sf) by by apply preselected_remembered.
  destruct (layersAvailable sess); (split; [done|]); right; (split; [done|]); exists fmt;
    cbn [fst snd]; split_and!; by rewrite ?app_nil_r.
Qed.

(** What one click leaves in [default_filter]: an offered filter label
    after an accepted dialog, the old value otherwise; never an error. *)
Lemma io_step_stored e st :
  (io_step e st).2 = None /\
  if io_accepted e then exists f, stored_filter (io_step e st).1 = Some (FilterText f) /\ f ∈ [filter_normal_json; filter_compressed]
  else stored_filter (io_step e st).1 = stored_filter st.
Proof.
  pose proof (dialog_filter_offered (default_filter_get (stored_filter st))) as Hoff.
  pose proof (file_dialog_name file_dialog_filters (default_filter_get (stored_filter st))) as Hn.
  destruct e as [sess c|sess c]; cbn [io_step io_accepted].
  - unfold export_callback. specialize (Hoff c). specialize (Hn c).
    destruct (file_dialog _ _ c) as [fn sf]. cbn [fst snd] in Hoff, Hn. subst fn.
    destruct c as [|name i]; [by rewrite decide_True|]. cbn [accepted].
    case_decide as Hname; [by rewrite bool_decide_eq_false_2 by tauto|].
    rewrite bool_decide_eq_true_2 by done. destruct (format_map_offered sf Hoff) as [fmt ->].
    destruct (layersAvailable sess); cbn; eauto.
  - unfold import_callback. destruct (selectedSkinCluster sess) as [target|]; cbn [negb andb]; [|by rewrite bool_decide_eq_false_2 by tauto].
    rewrite bool_decide_eq_true_2 by done. unfold default_file_dialog_func. specialize (Hoff c). specialize (Hn c).
    destruct (file_dialog _ _ c) as [fn sf]. cbn [fst snd] in Hoff, Hn. subst fn.
    destruct c as [|name i]; [by rewrite decide_True|]. cbn [accepted andb].
    case_decide as Hname; [by rewrite bool_decide_eq_false_2 by tauto|].
    rewrite bool_decide_eq_true_2 by done. destruct (format_map_offered sf Hoff) as [fmt ->]. cbn. eauto.
Qed.

(** C23. [default_filter] holds a [FileFormat] only as its default: along
    any sequence of clicks on the export and import actions, whatever the
    value stored by an earlier session (even a filter label no dialog
    offers), no callback raises, the value is unchanged while no dialog has
    been accepted, and once one has it is a filter label the dialogs offer,
    so [format_map] always finds it. *)
Theorem default_filter_type evs st :
  (io_run evs st).2 = [] /\
  if existsb io_accepted evs
  then exists f, stored_filter (io_run evs st).1 = Some (FilterText f) /\ f ∈ [filter_normal_json; filter_compressed]
  else stored_filter (io_run evs st).1 = stored_filter st.
Proof.
  revert st. induction evs as [|e evs IH]; intros st; [done|]. cbn [io_run existsb].
  destruct (io_step_stored e st) as [Herr Hst]. destruct (io_step e st) as [st1 err]. cbn in Herr, Hst. subst err.
  destruct (IH st1) as [Herrs Hrest]. destruct (io_run evs st1) as [st2 errs]. cbn in *. split; [done|].
  destruct (existsb io_accepted evs), (io_accepted e); cbn in *; [done|done| |by rewrite Hrest].
  by rewrite Hrest.
Qed.

(** A stale label from an earlier version, a cancelled export, then an
    import with the second filter chosen. *)
Example default_filter_after_import :
  stored_filter (io_run [ExportClicked (mkIOSession true None) DialogCancel;
                         ImportClicked (mkIOSession true (Some (py "skinCluster1"))) (DialogAccept (py "w.json.gz") (Some 1))]
                        (mkIOState (Some (FilterText (py "Json (*.json)"))) [])).1
  = Some (FilterText filter_compressed).
Proof. vm_compute. reflexivity. Qed.
