(* ===== verification/CopyPaste.v ===== *)
(** * The clipboard actions of [operations/copy_paste_actions.py]

    [action_copy_cut] builds the "copy" or "cut weights" action and
    [action_paste] one paste action per [PasteOperation].  Their callbacks
    read the session's selected skin cluster and current layer and call
    [api.copy_weights], [api.cut_weights] or [api.paste_weights] with the
    layer's paint targets; their enabled state is recomputed by
    [on_selection_changed] on the signals each subscribes to, and only then:
    an action's state is as Qt created it (enabled) until its first signal.
    The calls made are recorded in order. *)

From S2P Require Import Prelude Host.

(** [api.PasteOperation] *)
Inductive PasteOperation := PasteAdd | PasteSubtract | PasteReplace.

(** What the callbacks read of [session.state]: the selected skin cluster
    and the current layer with its paint targets. *)
Record ClipSession := mkClipSession {
  clip_skin_cluster : option pystr;
  clip_layer : option (nat * list nat)
}.

Inductive ClipCall :=
  | CallCopyWeights (layer : nat) (influences : list nat)
  | CallCutWeights (layer : nat) (influences : list nat)
  | CallPasteWeights (layer : nat) (operation : PasteOperation) (influences : list nat).

(** [cut_copy_callback()]: the calls it makes. *)
Definition cut_copy_callback (cut : bool) (sess : ClipSession) : list ClipCall :=
  match clip_skin_cluster sess, clip_layer sess with
  | None, _ => []
  | _, None => []
  | Some _, Some (layer, influences) =>
      [if cut then CallCutWeights layer influences else CallCopyWeights layer influences]
  end.

(** [operation_name] and the action's label. *)
Definition operation_name (cut : bool) : pystr := if cut then py "剪切" else py "复制".
Definition copy_cut_label (cut : bool) : pystr := operation_name cut ++ py " 权重到剪贴板".

(** [on_selection_changed()] of [action_copy_cut]. *)
Definition copy_cut_enabled (sess : ClipSession) : bool :=
  match clip_layer sess with
  | Some (_, influences) => bool_decide (0 < length influences)
  | None => false
  end.

(** [paste_callback()] *)
Definition paste_callback (operation : PasteOperation) (sess : ClipSession) : list ClipCall :=
  match clip_layer sess with
  | None => []
  | Some (layer, influences) => [CallPasteWeights layer operation influences]
  end.

(** [labels[operation]] *)
Definition paste_label (operation : PasteOperation) : pystr :=
  match operation with
  | PasteAdd => py "粘贴权重(添加到现有权重)"
  | PasteSubtract => py "粘贴权重(现有权重中减去)"
  | PasteReplace => py "粘贴权重 (替换掉现有权重)"
  end.

(** [on_selection_changed()] of [action_paste]. *)
Definition paste_enabled (sess : ClipSession) : bool := bool_decide (clip_layer sess <> None).

(** The signals [on_selection_changed] subscribes to: [currentLayerChanged]
    and [currentInfluenceChanged] for copy and cut, [currentLayerChanged]
    for paste ([signal_enabled] of [Host.v] keeps the flag between them). *)
Definition copy_cut_signals : list Event := [CurrentLayerChanged; CurrentInfluenceChanged].
Definition paste_signals : list Event := [CurrentLayerChanged].

(** ** Lemmas *)

(** The callbacks call the API only on a current layer, with its paint
    targets, whatever the action's enabled flag says. *)
Lemma cut_copy_callback_calls cut sess :
  cut_copy_callback cut sess <> [] <->
  clip_skin_cluster sess <> None /\ clip_layer sess <> None.
Proof.
  unfold cut_copy_callback. destruct (clip_skin_cluster sess), (clip_layer sess) as [[]|]; naive_solver.
Qed.

(** A freshly built copy action is enabled with no current layer, until a
    signal arrives; its callback then calls nothing. *)
Example copy_enabled_before_signal :
  let sess := mkClipSession (Some (py "skinCluster1")) None in
  signal_enabled copy_cut_signals copy_cut_enabled true [(sess, None)] = true
  /\ cut_copy_callback false sess = [].
Proof. split; reflexivity. Qed.
