(* ===== verification/MiscActions.v ===== *)
(** * The paint actions of [operations/paint.py] and the documentation
    links of [operations/website_links.py]

    [FloodAction] floods the current layer with the current brush, on the
    layer's paint targets; it is enabled while the paint tool is active on a
    skin cluster with a current layer.  [PaintAction] is checked while the
    paint tool is active, and running it leaves the tool when checked and
    starts it otherwise.  Maya's current tool is the one piece of state:
    [PaintTool.is_painting()] reads it, [cmds.setToolTo] and
    [paint_tool.start()] write it.  The documentation actions open the
    plugin's site, whose base depends on [DEBUG_MODE], at a fixed path.
    [RandomColors] is the random-colours action of [operations/layers.py]. *)

From Stdlib Require Import QArith.
From stdpp Require Import gmap.
From S2P Require Import Prelude.

Module Paint.

(** Maya's current tool, as far as the actions see it. *)
Inductive Tool := MoveTool | PaintTool | OtherTool.

(** [PaintTool.is_painting()] *)
Definition is_painting (t : Tool) : bool := if t is PaintTool then true else false.

(** What the actions read of the session. *)
Record PaintSession := mkPaintSession {
  tool : Tool;
  selected_skin_cluster : option pystr;
  current_layer : option (nat * list nat)
}.

(** [session.paint_tool.flood(layer, influences=layer.paint_targets)] *)
Inductive PaintCall := CallFlood (layer : nat) (influences : list nat).

Inductive PaintError := NoCurrentLayer.

(** [FloodAction.run()]: [AttributeError] on a missing layer. *)
Definition flood_run (s : PaintSession) : list PaintCall + PaintError :=
  match current_layer s with
  | Some (l, targets) => inl [CallFlood l targets]
  | None => inr NoCurrentLayer
  end.

(** [FloodAction.enabled()] *)
Definition flood_enabled (s : PaintSession) : bool :=
  is_painting (tool s) && bool_decide (selected_skin_cluster s <> None) && bool_decide (current_layer s <> None).

(** [PaintAction.checked()] *)
Definition paint_checked (s : PaintSession) : bool := is_painting (tool s).

(** [PaintAction.run()]: [cmds.setToolTo("moveSuperContext")] or
    [paint_tool.start()]. *)
Definition paint_run (s : PaintSession) : PaintSession :=
  mkPaintSession (if paint_checked s then MoveTool else PaintTool) (selected_skin_cluster s) (current_layer s).

Lemma flood_enabled_runs s : flood_enabled s = true -> exists l targets, flood_run s = inl [CallFlood l targets].
Proof.
  unfold flood_enabled, flood_run. intros H. apply andb_prop in H as [_ H].
  apply bool_decide_eq_true_1 in H. destruct (current_layer s) as [[l targets]|]; [by eauto|done].
Qed.

(** Running the paint action twice from the paint tool comes back to it. *)
Lemma paint_run_twice s : is_painting (tool s) = true -> paint_run (paint_run s) = s.
Proof. destruct s as [[] ? ?]; done. Qed.

End Paint.

Module WebsiteLinks.

(** [website_base_url()] *)
Definition website_base_url (debug_mode : bool) : pystr :=
  if debug_mode then py "http://localhost:1313" else py "https://ngskintools-shuishan.netlify.app".

(** The actions of [WebsiteLinksActions]: title and path. *)
Definition documentation_actions : list (pystr * pystr) :=
  [(py "API文档", py "/docs/apidocs.html"); (py "用户指南", py "/docs/userdocs.html");
   (py "更新日志", py "/docs/中文ng更新记录.html"); (py "联系我们", py "/docs/lianxi.html")].

(** [handler()] of [make_documentation_action]: the URL opened. *)
Definition documentation_handler (debug_mode : bool) (url : pystr) : pystr := website_base_url debug_mode ++ url.

Lemma documentation_handler_prefix debug_mode url :
  exists base, documentation_handler debug_mode url = base ++ url /\ base = website_base_url debug_mode.
Proof. by eexists. Qed.

End WebsiteLinks.

(** [build_action_randomize_influences_colors] of [operations/layers.py]:
    the palette is read once when the action is built, the trigger gives
    every influence of the target a random colour of it. *)
Module RandomColors.

(** [tuple(cmds.colorIndex(i, q=True))]: the RGB floats of a palette
    entry, as rationals. *)
Definition Color : Type := Q * Q * Q.

#[local] Instance Q_eq_dec : EqDecision Q.
Proof. solve_decision. Defined.

Definition brightness (c : Color) : Q := let '(r, g, b) := c in r * r + g * g + b * b.

(** [color_filter(c)]: [brightness > 0.001 and brightness < 0.99],
    neither (almost) black nor (almost) white. *)
Definition color_filter (c : Color) : bool :=
  negb (Qle_bool (brightness c) (1 # 1000)) && negb (Qle_bool (99 # 100) (brightness c)).

(** [colors]: the distinct entries [1..29] of the palette that pass the
    filter.  [set()] keeps one copy of each colour; its iteration order is
    Python's and plays no part below, since [random.choice] may pick any
    position. *)
Definition palette_colors (colorIndex : nat -> Color) : list Color :=
  filter (fun c => color_filter c = true) (remove_dups (colorIndex <$> seq 1 29)).

(** [random.choice(colors)] at the [k]-th call: [colors[randbelow(len)]],
    with [randbelow] the [pick k mod len] of an arbitrary [pick];
    [IndexError] ([None]) on an empty list. *)
Definition choice (pick : nat -> nat) (k : nat) (colors : list Color) : option Color :=
  match colors with [] => None | _ => colors !! (pick k mod length colors) end.

(** What [triggered] reads and writes: the target, the logical indexes of
    [layers.list_influences()] in order, and [layers.config.influence_colors]. *)
Record ColorSession := mkColorSession {
  selectedSkinCluster : option pystr;
  influences : list nat;
  influence_colors : gmap nat Color
}.

Inductive ColorError := IndexError.

(** The dict comprehension [{i.logicalIndex: random.choice(colors) for i
    in ...}]: one draw per influence in order, a later key overwriting. *)
Fixpoint color_dict (pick : nat -> nat) (colors : list Color) (k : nat) (acc : gmap nat Color)
    (infl : list nat) : option (gmap nat Color) :=
  match infl with
  | [] => Some acc
  | i :: infl' => c ← choice pick k colors; color_dict pick colors (S k) (<[i:=c]> acc) infl'
  end.

(** [triggered()] *)
Definition triggered (colors : list Color) (pick : nat -> nat) (s : ColorSession) : ColorSession + ColorError :=
  match selectedSkinCluster s with
  | None => inl s
  | Some _ =>
      match color_dict pick colors 0 ∅ (influences s) with
      | Some m => inl (mkColorSession (selectedSkinCluster s) (influences s) m)
      | None => inr IndexError
      end
  end.

Definition randomize_colors_text : pystr := py "随机颜色".
Definition randomize_colors_tooltip : pystr := py "为每个影响物选择随机颜色，从Maya的索引颜色调色板中选择".

Lemma choice_elem pick k colors c : choice pick k colors = Some c -> c ∈ colors.
Proof. destruct colors as [|c0 cs]; [done|]. intros H. by eapply list_elem_of_lookup_2. Qed.

Lemma choice_Some pick k colors : colors <> [] -> is_Some (choice pick k colors).
Proof.
  destruct colors as [|c0 cs]; [done|]. intros _. apply lookup_lt_is_Some_2.
  apply Nat.mod_upper_bound. cbn. lia.
Qed.

Lemma color_dict_spec pick colors infl : forall k acc,
  colors <> [] ->
  exists m, color_dict pick colors k acc infl = Some m /\
    (forall i, is_Some (m !! i) <-> is_Some (acc !! i) \/ i ∈ infl) /\
    (forall i c, m !! i = Some c -> acc !! i = Some c \/ c ∈ colors).
Proof.
  induction infl as [|j infl IH]; intros k acc Hne; cbn.
  - exists acc. split_and!; [done| |by left]. intros i. set_solver.
  - destruct (choice_Some pick k colors Hne) as [c Hc]. rewrite Hc. cbn.
    destruct (IH (S k) (<[j:=c]> acc) Hne) as (m & -> & Hdom & Hval). exists m. split_and!; [done| |].
    + intros i. rewrite Hdom, elem_of_cons. destruct (decide (i = j)) as [->|Hij].
      * rewrite lookup_insert_eq. naive_solver.
      * rewrite lookup_insert_ne by done. naive_solver.
    + intros i c' Hi. destruct (Hval i c' Hi) as [Hacc|]; [|by right].
      destruct (decide (i = j)) as [->|Hij].
      * rewrite lookup_insert_eq in Hacc. injection Hacc as <-. right. by eapply choice_elem.
      * rewrite lookup_insert_ne in Hacc by done. by left.
Qed.

Lemma color_dict_empty pick k acc infl : infl <> [] -> color_dict pick [] k acc infl = None.
Proof. by destruct infl. Qed.

Lemma palette_colors_elem colorIndex c :
  c ∈ palette_colors colorIndex ->
  (exists i, 1 <= i <= 29 /\ colorIndex i = c) /\ (1 # 1000 < brightness c)%Q /\ (brightness c < 99 # 100)%Q.
Proof.
  unfold palette_colors. intros [Hf Hin]%list_elem_of_filter. rewrite elem_of_remove_dups in Hin.
  apply list_elem_of_fmap in Hin as (i & -> & Hi). rewrite elem_of_seq in Hi.
  unfold color_filter in Hf. apply andb_prop in Hf as [H1 H2].
  apply negb_true_iff in H1. apply negb_true_iff in H2. split_and!; [exists i; split; [lia|done]| |];
    apply Qnot_le_lt; intros Hle; apply Qle_bool_iff in Hle; congruence.
Qed.

(** C13. A trigger with a target gives every influence of the target, and
    nothing else, a colour of Maya's palette [1..29] that is neither
    black nor white, and leaves the target and influences alone; it raises
    [IndexError] exactly when no palette colour passes the filter and the
    target has influences; without a target it does nothing. *)
Theorem triggered_spec colorIndex pick s :
  match triggered (palette_colors colorIndex) pick s with
  | inl s' =>
      selectedSkinCluster s' = selectedSkinCluster s /\ influences s' = influences s /\
      (selectedSkinCluster s = None -> s' = s) /\
      (selectedSkinCluster s <> None ->
       (forall i, is_Some (influence_colors s' !! i) <-> i ∈ influences s) /\
       forall i c, influence_colors s' !! i = Some c ->
         (exists j, 1 <= j <= 29 /\ colorIndex j = c) /\ (1 # 1000 < brightness c)%Q /\ (brightness c < 99 # 100)%Q)
  | inr IndexError => selectedSkinCluster s <> None /\ palette_colors colorIndex = [] /\ influences s <> []
  end.
Proof.
  unfold triggered. destruct (selectedSkinCluster s) as [t|] eqn:Et; [|by split_and!].
  destruct (decide (palette_colors colorIndex = [])) as [Hp|Hp].
  - destruct (influences s) as [|i infl] eqn:Ei.
    + cbn. split_and!; [done|done|done|]. intros _. split; [|done]. intros i. rewrite lookup_empty. set_solver.
    + rewrite Hp, color_dict_empty by done. by split_and!.
  - destruct (color_dict_spec pick (palette_colors colorIndex) (influences s) 0 ∅ Hp) as (m & -> & Hdom & Hval).
    cbn. split_and!; [done|done|done|]. intros _. split.
    + intros i. rewrite Hdom, lookup_empty. naive_solver.
    + intros i c Hi. destruct (Hval i c Hi) as [Hc|Hc]; [by rewrite lookup_empty in Hc|].
      by apply palette_colors_elem.
Qed.

(** A palette of black, white and one red: only red passes, so both
    influences get it; a palette of black and white leaves nothing and the
    trigger raises. *)
Definition ex_palette (i : nat) : Color :=
  match i with 1 => (0, 0, 0)%Q | 2 => (1, 1, 1)%Q | _ => (1 # 2, 0, 0)%Q end.

Example triggered_red :
  (fun r => match r with
            | inl s' => (influence_colors s' !! 3, influence_colors s' !! 7, influence_colors s' !! 1)
            | inr _ => (None, None, None) end)
    (triggered (palette_colors ex_palette) (fun k => k) (mkColorSession (Some (py "skinCluster1")) [3; 7] ∅))
  = (Some (1 # 2, 0, 0)%Q, Some (1 # 2, 0, 0)%Q, None).
Proof. vm_compute. reflexivity. Qed.

Example triggered_no_colour :
  triggered (palette_colors (fun i => if decide (i = 1) then (0, 0, 0)%Q else (1, 1, 1)%Q)) (fun k => k)
    (mkColorSession (Some (py "skinCluster1")) [3] ∅) = inr IndexError.
Proof. vm_compute. reflexivity. Qed.

End RandomColors.
