(* ===== verification/TabTools.v ===== *)
(** * The tools tab of [ui/tabTools.py]

    The tab shows the options of two tool actions of [operations/tools.py]
    and the buttons that trigger them.  The options are [ObservableValue]s
    held by the action (which reads them when it runs) and by the tab (which
    writes them from its widgets and redraws the widgets on their [changed]
    signal): one object, two holders.  [ToolsTab] holds the options'
    values once, as the action sees them, next to the widgets' state.

    "Assign from closest joint" has two radio buttons for
    [options.all_influences] (the first checked means all influences) and a
    check box for [options.create_new_layer]; "unify weights" binds a slider
    to [overall_effect] and a check box to [single_cluster_mode] through
    [model_binds.bind] (not under [src/]: a widget edit sets the value, a
    value change sets the widget).  The tab is enabled when layers are
    available. *)

From Stdlib Require Import QArith.
From S2P Require Import Prelude Host Layers Tools.

Record ToolsTab := mkToolsTab {
  closest_options : ClosestJointOptions;
  unify_options : UnifyWeightsOptions;
  (** the index of the checked radio button, if any *)
  radio_checked : option nat;
  new_layer_checked : bool;
  intensity_shown : Q;
  single_cluster_checked : bool;
  tools_tab_enabled : bool
}.

Implicit Types t : ToolsTab.

(** [update_value()] of a radio button: [options.all_influences.set(...)];
    its [changed] signal runs [update_ui()], which checks the radio button
    of the new value (already checked, so nothing is emitted). *)
Definition update_value t : ToolsTab :=
  let all := bool_decide (radio_checked t = Some 0) in
  mkToolsTab (mkClosestJointOptions (create_new_layer (closest_options t)) all) (unify_options t)
    (Some (if all then 0 else 1)) (new_layer_checked t) (intensity_shown t) (single_cluster_checked t)
    (tools_tab_enabled t).

(** [update_ui()] of [influences_options()]: checks the radio button of
    the value; a radio button newly checked toggles, and its [update_value]
    sets the value again. *)
Definition update_radio_ui t : ToolsTab :=
  let i := if all_influences (closest_options t) then 0 else 1 in
  if decide (radio_checked t = Some i) then t
  else update_value (mkToolsTab (closest_options t) (unify_options t) (Some i) (new_layer_checked t)
                       (intensity_shown t) (single_cluster_checked t) (tools_tab_enabled t)).

(** [update_new_layer()]: [options.create_new_layer.set(new_layer.isChecked())];
    [update_ui()] then sets the check box to the value it already has. *)
Definition update_new_layer t : ToolsTab :=
  mkToolsTab (mkClosestJointOptions (new_layer_checked t) (all_influences (closest_options t)))
    (unify_options t) (radio_checked t) (new_layer_checked t) (intensity_shown t)
    (single_cluster_checked t) (tools_tab_enabled t).

(** [update_ui()] of [assign_weights_from_closest_joint_group()]. *)
Definition update_new_layer_ui t : ToolsTab :=
  if bool_decide (new_layer_checked t = create_new_layer (closest_options t)) then t
  else update_new_layer (mkToolsTab (closest_options t) (unify_options t) (radio_checked t)
                           (create_new_layer (closest_options t)) (intensity_shown t)
                           (single_cluster_checked t) (tools_tab_enabled t)).

(** [model_binds.bind(widget, value)]: the widget shows the value. *)
Definition bind_unify t : ToolsTab :=
  mkToolsTab (closest_options t) (unify_options t) (radio_checked t) (new_layer_checked t)
    (overall_effect (unify_options t)) (single_cluster_mode (unify_options t)) (tools_tab_enabled t).

(** [update_tab_enabled()] *)
Definition update_tools_tab_enabled (layersAvailable : bool) t : ToolsTab :=
  mkToolsTab (closest_options t) (unify_options t) (radio_checked t) (new_layer_checked t)
    (intensity_shown t) (single_cluster_checked t) layersAvailable.

(** [build_ui()] on the actions' options: no radio button checked and the
    check boxes off as Qt creates them; [update_ui()] of the influences
    options and of the group; the bindings; [update_tab_enabled()]. *)
Definition build_tools_tab (closest : ClosestJointOptions) (unify : UnifyWeightsOptions) (layersAvailable : bool) : ToolsTab :=
  let t := mkToolsTab closest unify None false 0 false true in
  update_tools_tab_enabled layersAvailable (bind_unify (update_new_layer_ui (update_radio_ui t))).

(** What the user does on the tab; the buttons of the actions run them
    with the options the tab holds. *)
Inductive ToolsTabEvent :=
  | ClickRadio (i : nat)
  | ClickNewLayer
  | SlideOverallEffect (v : Q)
  | ClickSingleCluster
  | ToolsTargetChanged (layersAvailable : bool).

(** A click on a radio button of the exclusive group checks it; the one it
    unchecks and the one it checks both run [update_value]. *)
Definition tools_tab_handle (e : ToolsTabEvent) t : ToolsTab :=
  if negb (tools_tab_enabled t) then
    match e with ToolsTargetChanged la => update_tools_tab_enabled la t | _ => t end
  else match e with
  | ClickRadio i =>
      if decide (i < 2 /\ radio_checked t <> Some i) then
        update_value (update_value (mkToolsTab (closest_options t) (unify_options t) (Some i)
                                      (new_layer_checked t) (intensity_shown t)
                                      (single_cluster_checked t) (tools_tab_enabled t)))
      else t
  | ClickNewLayer =>
      update_new_layer (mkToolsTab (closest_options t) (unify_options t) (radio_checked t)
                          (negb (new_layer_checked t)) (intensity_shown t)
                          (single_cluster_checked t) (tools_tab_enabled t))
  | SlideOverallEffect v =>
      mkToolsTab (closest_options t) (mkUnifyWeightsOptions v (single_cluster_mode (unify_options t)))
        (radio_checked t) (new_layer_checked t) v (single_cluster_checked t) (tools_tab_enabled t)
  | ClickSingleCluster =>
      let b := negb (single_cluster_checked t) in
      mkToolsTab (closest_options t) (mkUnifyWeightsOptions (overall_effect (unify_options t)) b)
        (radio_checked t) (new_layer_checked t) (intensity_shown t) b (tools_tab_enabled t)
  | ToolsTargetChanged la => update_tools_tab_enabled la t
  end.

Inductive tools_tab_reachable : ToolsTab -> Prop :=
  | tools_tab_built layersAvailable :
      tools_tab_reachable (build_tools_tab default_closest_joint_options default_unify_weights_options layersAvailable)
  | tools_tab_step t e : tools_tab_reachable t -> tools_tab_reachable (tools_tab_handle e t).

(** The widgets show the options. *)
Definition tools_tab_ok t : Prop :=
  closest_options t = mkClosestJointOptions (new_layer_checked t) (bool_decide (radio_checked t = Some 0))
  /\ radio_checked t <> None
  /\ unify_options t = mkUnifyWeightsOptions (intensity_shown t) (single_cluster_checked t).

(** ** Lemmas *)

Lemma update_value_ok t :
  create_new_layer (closest_options t) = new_layer_checked t ->
  unify_options t = mkUnifyWeightsOptions (intensity_shown t) (single_cluster_checked t) ->
  tools_tab_ok (update_value t).
Proof.
  intros Hc Hu. unfold tools_tab_ok, update_value. cbn. rewrite Hc, Hu.
  by destruct (bool_decide (radio_checked t = Some 0)).
Qed.

Lemma tools_tab_handle_ok e t : tools_tab_ok t -> tools_tab_ok (tools_tab_handle e t).
Proof.
  intros (Hc & Hr & Hu). unfold tools_tab_handle.
  destruct (tools_tab_enabled t); cbn [negb]; [|by destruct e].
  destruct e as [i| | | |la]; [|unfold tools_tab_ok; cbn; by rewrite ?Hc, ?Hu..].
  destruct (decide (i < 2 /\ radio_checked t <> Some i)); [|by split_and!].
  apply update_value_ok; [|done]. unfold update_value. cbn. by rewrite Hc.
Qed.

(** C37. In every state of the tools tab the options that the "assign from
    closest joint" and "unify weights" actions read when they run are the
    ones the tab's widgets show: [all_influences] is whether the first
    radio button is checked, [create_new_layer] the check box, and the unify
    options the slider and the check box. *)
Theorem tools_tab_options_shown t : tools_tab_reachable t ->
  closest_options t = mkClosestJointOptions (new_layer_checked t) (bool_decide (radio_checked t = Some 0))
  /\ unify_options t = mkUnifyWeightsOptions (intensity_shown t) (single_cluster_checked t).
Proof.
  intros Hr. enough (tools_tab_ok t) as (? & _ & ?) by done.
  induction Hr as [la|t e _ IH]; [|by apply tools_tab_handle_ok].
  by destruct la; vm_compute; split_and!.
Qed.

Lemma tools_tab_options_shown_witness :
  let t := tools_tab_handle (ClickRadio 1)
             (build_tools_tab default_closest_joint_options default_unify_weights_options true) in
  closest_options t = mkClosestJointOptions (new_layer_checked t) (bool_decide (radio_checked t = Some 0))
  /\ unify_options t = mkUnifyWeightsOptions (intensity_shown t) (single_cluster_checked t).
Proof. apply tools_tab_options_shown, tools_tab_step, tools_tab_built. Defined.
