(* ===== verification/Actions.v ===== *)
(** * The actions the builders of [operations/] return, and their enabled state

    Every builder makes a [QAction] with [actions.define_action(parent,
    text, callback, tooltip=...)] (or [QAction] and [setToolTip]), attaches
    an [update] to some signals with [@signal.on(...)], and most of them
    call [update()] once before returning the action.  [QtAction] records
    what a builder fixes: the text and tooltip, the signals, the enabled
    state [update] computes and whether it runs at build; the callbacks are
    the handlers of [Layers.v], [Tools.v], [ImportExport.v] and
    [CopyPaste.v].  The flag the action shows after a history of the
    session is [signal_enabled] of [Host.v], started from [update] on the
    first state or from Qt's default (enabled).  [ActionClass] holds what
    a subclass of [ui/action.Action] defines ([ToggleEnabledAction],
    [FloodAction], [PaintAction]); the base class is not under [src/], and
    its [QAction] is taken to follow [enabled()] and [checked()] on
    [update_on_signals()] the way the builders wire theirs.  [run_with]
    is a run of layer operations and selection changes, with the signals
    each step emits, each on the session the code emits it on.

    The theorems: an action whose builder runs [update()] shows what
    [update] computes on the current state as long as every change of what
    [update] reads comes with a signal it listens to; the clipboard actions,
    whose builders do not run it, show "enabled" until their first signal
    whatever the session.  A step is [heard] by an [update] when, if it
    changes what [update] computes, it emits one of the signals [update]
    listens to; along a run of heard steps the flag is [update] of the
    current state.  After any run of layer operations the create, delete
    and initialize actions show their [update] on the final session, and
    so do the eight tool actions without an [enabled_handler] (from a
    well-formed stack), the tools tab of [ui/tabTools.py] with its five
    buttons, and the toggle action's flag and check mark (when no toggle
    raised). *)

From S2P Require Import Prelude Host Layers Tools ImportExport CopyPaste MiscActions TabTools.

(** The signals updates subscribe to: the session's events and
    [session.context.selected_layers.changed]. *)
Inductive ActionSignal := OnSession (e : Event) | OnSelectedLayersChanged.

#[export] Instance ActionSignal_eq_dec : EqDecision ActionSignal.
Proof. solve_decision. Defined.

Record QtAction (St : Type) := mkQtAction {
  qa_text : pystr;
  qa_tooltip : option pystr;
  qa_signals : list ActionSignal;
  qa_update : St -> bool;
  (** the builder calls [update()] before returning the action *)
  qa_update_at_build : bool
}.

Arguments mkQtAction {St}. Arguments qa_text {St}. Arguments qa_tooltip {St}.
Arguments qa_signals {St}. Arguments qa_update {St}. Arguments qa_update_at_build {St}.

(** The flag of a new action: [update()] on the session of the build, or
    Qt's default. *)
Definition qa_enabled_built {St} (a : QtAction St) (st : St) : bool :=
  if qa_update_at_build a then qa_update a st else true.

(** The flag after a history of the session that starts at [st0]. *)
Definition qa_enabled {St} (a : QtAction St) (st0 : St) (h : list (St * option ActionSignal)) : bool :=
  signal_enabled (qa_signals a) (qa_update a) (qa_enabled_built a st0) h.

(** ** [operations/layers.py] *)

Section LayersActions.

Context {S : Type}.

(** [build_action_initialize_layers(session, parent)] *)
Definition build_action_initialize_layers : QtAction (LayersSession S) :=
  mkQtAction (py "初始化蒙皮图层") None [OnSession NodeSelectionChanged] initialize_action_enabled true.

(** [buildAction_createLayer(session, parent)] *)
Definition buildAction_createLayer : QtAction (LayersSession S) :=
  mkQtAction (py "创建图层") None [OnSession TargetChanged] create_layer_action_enabled true.

(** [buildAction_deleteLayer(session, parent)] *)
Definition buildAction_deleteLayer : QtAction (LayersSession S) :=
  mkQtAction (py "删除图层") None [OnSelectedLayersChanged; OnSession TargetChanged]
    toggle_enabled_action_enabled true.

End LayersActions.

(** ** [operations/tools.py] *)

Section ToolActions.

Context {S : Type} `{LayersApi S}.

(** [layer.index] *)
Variable layer_index : S -> nat -> nat.

(** [__create_tool_action__(parent, session, action_name, action_tooltip,
    exec_handler, enabled_handler)]: [update_state] on [targetChanged] and
    [currentLayerChanged], and once at build; [enabled_handler] reads the
    layers' state of the moment. *)
Definition create_tool_action (action_name action_tooltip : pystr)
    (enabled_handler : option (S -> option nat -> bool)) : QtAction (ToolsSession S) :=
  mkQtAction action_name (Some action_tooltip) [OnSession TargetChanged; OnSession CurrentLayerChanged]
    (fun s => tool_action_enabled ((fun h => h (layers_state (tbase s))) <$> enabled_handler) s) true.

Definition create_action__from_closest_joint : QtAction (ToolsSession S) :=
  create_tool_action (py "从最近的关节分配") (py "为所选图层中每个顶点的最接近影响物分配1.0权重") None.

Definition create_action__unify_weights : QtAction (ToolsSession S) :=
  create_tool_action (py "统一权重") (py "对于选定的顶点，使所有顶点的顶点都相同") None.

Definition create_action__merge_layers : QtAction (ToolsSession S) :=
  create_tool_action (py "合并") (py "将这一层的内容合并到底层,预效果权重将用于此")
    (Some (merge_layers_enabled layer_index)).

Definition create_action__duplicate_layer : QtAction (ToolsSession S) :=
  create_tool_action (py "复制") (py "复制所选图层") None.

Definition create_action__fill_transparency : QtAction (ToolsSession S) :=
  create_tool_action (py "填充透明度") (py "所选图层中的所有透明顶点都从其最近的非空相邻顶点接收权重") None.

Definition create_action__copy_component_weights : QtAction (ToolsSession S) :=
  create_tool_action (py "复制组件权重") (py "在内存中存储组件权重，以便进行基于组件的后续粘贴操作") None.

Definition create_action__paste_average_component_weight : QtAction (ToolsSession S) :=
  create_tool_action (py "给予平均组件权重") (py "计算复制组件权重的平均值，并将该值设置为当前选择的组件") None.

Definition create_action__add_influences : QtAction (ToolsSession S) :=
  create_tool_action (py "添加影响物") (py "将选定的影响物添加到当前皮肤簇") None.

Definition create_action__select_affected_vertices : QtAction (ToolsSession S) :=
  create_tool_action (py "选择受影响的顶点") (py "选择对当前影响物具有非零权重的顶点") None.

End ToolActions.

(** ** The buttons of [ui/tabTools.py] *)

Section ToolsTabButtons.

Context {S : Type} `{LayersApi S}.

(** [to_button(action)]: a push button bound to the action with
    [qt.bind_action_to_button]; it shows the action's text and state. *)
Definition to_button (action : QtAction (ToolsSession S)) : QtAction (ToolsSession S) := action.

(** The button of [assign_weights_from_closest_joint_group()]. *)
Definition closest_joint_button : QtAction (ToolsSession S) := to_button create_action__from_closest_joint.

(** The button of [unify_weights_group()]. *)
Definition unify_weights_button : QtAction (ToolsSession S) := to_button create_action__unify_weights.

(** The buttons of [other_tools_group()]. *)
Definition other_tools_buttons : list (QtAction (ToolsSession S)) :=
  [to_button create_action__fill_transparency; to_button create_action__copy_component_weights;
   to_button create_action__paste_average_component_weight].

Definition tools_tab_buttons : list (QtAction (ToolsSession S)) :=
  closest_joint_button :: unify_weights_button :: other_tools_buttons.

End ToolsTabButtons.

(** ** [operations/import_export_actions.py] *)

(** [buildAction_export(session, parent, ...)] *)
Definition buildAction_export : QtAction IOSession :=
  mkQtAction (py "将图层导出为Json…") (Some (py "保存图层信息到外部文件，适合导入权重到不同的场景/网格"))
    [OnSession TargetChanged] export_enabled true.

(** [buildAction_import(session, parent, ...)] *)
Definition buildAction_import : QtAction IOSession :=
  mkQtAction (py "从Json中导入图层…") (Some (py "装载以前导出的权重")) [OnSession TargetChanged] import_enabled true.

(** ** [operations/copy_paste_actions.py] *)

(** [action_copy_cut(session, parent, cut)]: no [update()] at build. *)
Definition action_copy_cut (cut : bool) : QtAction ClipSession :=
  mkQtAction (copy_cut_label cut) None (OnSession <$> copy_cut_signals) copy_cut_enabled false.

(** [action_paste(session, parent, operation)]: no [update()] at build. *)
Definition action_paste (operation : PasteOperation) : QtAction ClipSession :=
  mkQtAction (paste_label operation) (Some (py "从剪贴板粘贴以前复制的权重")) (OnSession <$> paste_signals)
    paste_enabled false.

(** ** [Action] subclasses *)

(** What a subclass of [ngSkinTools2.ui.action.Action] (not under [src/])
    defines: the class attributes [name], [tooltip] and [checkable],
    [update_on_signals()], and [enabled()] and [checked()]; [None] where
    the subclass does not override the base class. *)
Record ActionClass (St : Type) := mkActionClass {
  ac_name : pystr;
  ac_tooltip : option pystr;
  ac_checkable : option bool;
  ac_enabled : option (St -> bool);
  ac_checked : option (St -> bool);
  ac_update_on_signals : list ActionSignal
}.

Arguments mkActionClass {St}. Arguments ac_name {St}. Arguments ac_tooltip {St}.
Arguments ac_checkable {St}. Arguments ac_enabled {St}. Arguments ac_checked {St}.
Arguments ac_update_on_signals {St}.

(** The [QAction] of an [Action]: its enabled flag and its check mark are
    recomputed from [enabled()] and [checked()] on [update_on_signals()]
    and when it is made, the wiring every builder under [src/] uses;
    [base_enabled] and [base_checked] are the base class's methods. *)
Definition action_enabled_qt {St} (a : ActionClass St) (base_enabled : St -> bool) : QtAction St :=
  mkQtAction (ac_name a) (ac_tooltip a) (ac_update_on_signals a) (default base_enabled (ac_enabled a)) true.

Definition action_checked_qt {St} (a : ActionClass St) (base_checked : St -> bool) : QtAction St :=
  mkQtAction (ac_name a) (ac_tooltip a) (ac_update_on_signals a) (default base_checked (ac_checked a)) true.

(** [ToggleEnabledAction] of [operations/layers.py] *)
Definition ToggleEnabledAction {S} `{LayersApi S} : ActionClass (LayersSession S) :=
  mkActionClass (py "启用选中图层") None (Some true) (Some toggle_enabled_action_enabled) (Some checked)
    [OnSelectedLayersChanged; OnSession LayerListChanged; OnSession TargetChanged].

(** [FloodAction] of [operations/paint.py] *)
Definition FloodAction : ActionClass Paint.PaintSession :=
  mkActionClass (py "油漆桶") (Some (py "将当前画笔应用于整个选区")) None (Some Paint.flood_enabled) None
    [OnSession ToolChanged; OnSession CurrentLayerChanged; OnSession CurrentInfluenceChanged; OnSession TargetChanged].

(** [PaintAction] of [operations/paint.py] *)
Definition PaintAction : ActionClass Paint.PaintSession :=
  mkActionClass (py "绘制") (Some (py "切换绘画工具")) (Some true) None (Some Paint.paint_checked)
    [OnSession ToolChanged].

(** ** Runs of the layer operations *)

Section LayerRuns.

Context {S : Type} `{LayersApiLaws S}.
Variable generate_layer_name : list pystr -> pystr -> pystr.
Variable is_slow_mode_skin_cluster : option pystr -> bool.

Implicit Types s : LayersSession S.

(** The signals a step emits, in order: the session's new events, then
    [selected_layers.changed] when the selection changed. *)
Definition step_sigs s s' : list ActionSignal :=
  (OnSession <$> drop (length (events s)) (events s'))
  ++ (if decide (selected_layers s' = selected_layers s) then [] else [OnSelectedLayersChanged]).

(** The history a step adds: each signal with the step's new state, which
    is the session when the code emits it, since the steps of [layer_step]
    end where the operations emit ([addLayer] is cut in two at its
    [layerListChanged]; [deleteSelectedLayers], [run] and
    [initializeLayers] emit after their last change of what the updates
    read); a step that emits nothing is recorded with its new state. *)
Definition step_signals s s' : list (LayersSession S * option ActionSignal) :=
  match step_sigs s s' with
  | [] => [(s', None)]
  | sigs => (fun g => (s', Some g)) <$> sigs
  end.

(** A run of steps of [step], with the history the actions see. *)
Inductive run_with (step : LayersSession S -> LayersSession S -> Prop) :
    LayersSession S -> LayersSession S -> list (LayersSession S * option ActionSignal) -> Prop :=
  | run_nil s : run_with step s s []
  | run_step s s' s'' h : step s s' -> run_with step s' s'' h -> run_with step s s'' (step_signals s s' ++ h).

(** A run of layer operations and selection changes. *)
Definition layer_run := run_with (layer_step generate_layer_name is_slow_mode_skin_cluster).

(** A step that is a [ToggleEnabledAction.run] which raised. *)
Definition toggle_raised s s' : Prop := s' = (run s).1 /\ (run s).2 <> None.

End LayerRuns.

(** ** Lemmas *)

(** An action whose builder does not run [update()] stays enabled until a
    signal it listens to arrives. *)
Lemma qa_enabled_until_signal {St} (a : QtAction St) st0 h :
  qa_update_at_build a = false -> Forall (fun x => forall g, x.2 = Some g -> g ∉ qa_signals a) h ->
  qa_enabled a st0 h = true.
Proof.
  intros Hb Hh. unfold qa_enabled, qa_enabled_built. rewrite Hb. generalize true as b. intros b.
  induction Hh as [|[st [g|]] h Hx _ IH]; cbn; [|rewrite decide_False by (by apply Hx)|]; done.
Qed.

Section LayerRunLemmas.

Context {S : Type} `{LayersApiLaws S}.
Variable generate_layer_name : list pystr -> pystr -> pystr.
Variable is_slow_mode_skin_cluster : option pystr -> bool.

Implicit Types s : LayersSession S.

(** A step is heard by an [update] listening to [signals] when, if it
    changes what [update] computes, it emits one of them. *)
Definition heard (signals : list ActionSignal) (update : LayersSession S -> bool) s s' : Prop :=
  update s' <> update s -> exists g, g ∈ step_sigs s s' /\ g ∈ signals.

Lemma heard_mono signals signals' update s s' :
  signals ⊆ signals' -> heard signals update s s' -> heard signals' update s s'.
Proof. intros Hsub Hh Hne. destruct (Hh Hne) as (g & ? & ?). eauto. Qed.

Lemma step_sigs_event s s' e : e ∈ drop (length (events s)) (events s') -> OnSession e ∈ step_sigs s s'.
Proof. intros He. apply elem_of_app. left. by apply list_elem_of_fmap_2. Qed.

Lemma step_sigs_selection s s' :
  events s' = events s -> selected_layers s' <> selected_layers s -> OnSelectedLayersChanged ∈ step_sigs s s'.
Proof. unfold step_sigs. intros -> Hne. rewrite drop_all, decide_False by done. set_solver. Qed.

(** A heard step leaves the flag at [update] of its new state. *)
Lemma step_signals_heard signals update s s' :
  heard signals update s s' -> signal_enabled signals update (update s) (step_signals s s') = update s'.
Proof.
  unfold heard, step_signals. intros Hh. destruct (step_sigs s s') as [|g gs] eqn:E.
  - cbn. destruct (decide (update s' = update s)) as [->|Hne]; [done|].
    destruct (Hh Hne) as (g & Hin & _). set_solver.
  - rewrite signal_enabled_same. destruct (existsb _ _) eqn:Ex; [done|].
    destruct (decide (update s' = update s)) as [->|Hne]; [done|].
    destruct (Hh Hne) as (g' & Hin & Hs).
    assert (existsb (fun g => bool_decide (g ∈ signals)) (g :: gs) = true) as Ht; [|congruence].
    apply existsb_exists. exists g'. split; [by apply list_elem_of_In|by apply bool_decide_eq_true_2].
Qed.

(** Along a run whose steps, from states satisfying an invariant [P], are
    all heard, the flag follows [update]. *)
Lemma run_with_heard (P : LayersSession S -> Prop) step signals update s0 s h :
  run_with step s0 s h -> P s0 ->
  (forall s s', P s -> step s s' -> P s') ->
  (forall s s', P s -> step s s' -> heard signals update s s') ->
  signal_enabled signals update (update s0) h = update s.
Proof.
  intros Hrun HP Hinv Hh. induction Hrun as [|s s' s'' h Hs _ IH]; [done|].
  rewrite signal_enabled_app, step_signals_heard by eauto. eauto.
Qed.

Lemma qa_enabled_run (a : QtAction (LayersSession S)) (P : LayersSession S -> Prop) step s0 s h :
  qa_update_at_build a = true -> run_with step s0 s h -> P s0 ->
  (forall s s', P s -> step s s' -> P s') ->
  (forall s s', P s -> step s s' -> heard (qa_signals a) (qa_update a) s s') ->
  qa_enabled a s0 h = qa_update a s.
Proof. unfold qa_enabled, qa_enabled_built. intros ->. apply run_with_heard. Qed.

Lemma initializeLayers_fields b s :
  let s' := initializeLayers is_slow_mode_skin_cluster b s in
  Layers.selectedSkinCluster s' = Layers.selectedSkinCluster s /\ selected_layers s' = selected_layers s /\
  (Layers.layersAvailable s' = Layers.layersAvailable s /\ events s' = events s
   \/ Layers.layersAvailable s' = true /\ drop (length (events s)) (events s') = [TargetChanged]).
Proof.
  unfold initializeLayers. destruct (Layers.layersAvailable s) eqn:Ea; [by split_and!; [..|left]|].
  destruct b; [destruct (layers_add _ _)|];
    destruct (is_slow_mode_skin_cluster _); cbn; (split_and!; [done|done|right; split; [done|]]);
    by rewrite drop_app_length.
Qed.

(** What a step does to the fields the layer actions' updates read: it
    keeps them, or it initializes the layers and emits [targetChanged]
    first, or it is a change of selection and emits nothing on the
    session. *)
Lemma layer_step_fields s s' :
  layer_step generate_layer_name is_slow_mode_skin_cluster s s' ->
  Layers.selectedSkinCluster s' = Layers.selectedSkinCluster s /\
  (Layers.layersAvailable s' = Layers.layersAvailable s /\ selected_layers s' = selected_layers s /\ events s' = events s
   \/ Layers.layersAvailable s' = Layers.layersAvailable s /\ selected_layers s' = selected_layers s
   \/ Layers.layersAvailable s' = true /\ selected_layers s' = selected_layers s
      /\ drop (length (events s)) (events s') = [TargetChanged]
   \/ Layers.layersAvailable s' = Layers.layersAvailable s /\ events s' = events s).
Proof.
  destruct 1 as [b s|c a s|s|s layer _|s layer n|s|s|s layers].
  - destruct (initializeLayers_fields b s) as (? & ? & [[? ?]|[? ?]]); split; [done|left|done|right; right; left]; done.
  - unfold do_initialize. destruct c; [destruct a|].
    + destruct (initializeLayers_fields true (show_dialog s (DialogYesNo IMPORT_QUESTION))) as (? & ? & [[? ?]|[? ?]]);
        split; [done|left|done|right; right; left]; done.
    + split; [done|left]. done.
    + destruct (initializeLayers_fields true s) as (? & ? & [[? ?]|[? ?]]); split; [done|left|done|right; right; left]; done.
  - unfold addLayer_list. destruct (layers_add _ _). cbn. split; [done|right; left]. done.
  - split; [done|right; left]. done.
  - split; [done|left]. done.
  - split; [done|right; left]. done.
  - unfold run. destruct (selected_layers s) eqn:E; [cbn; split; [done|left]; done|].
    destruct (set_enabled_all _ _ _) as [st []]; cbn; split; [done|left|done|right; left]; done.
  - split; [done|right; right; right]. done.
Qed.

Lemma create_layer_step_heard s s' :
  layer_step generate_layer_name is_slow_mode_skin_cluster s s' ->
  heard (qa_signals (@buildAction_createLayer S)) create_layer_action_enabled s s'.
Proof.
  intros Hs Hne. unfold create_layer_action_enabled in Hne.
  destruct (layer_step_fields s s' Hs) as (_ & [(Ea & _)|[(Ea & _)|[(_ & _ & Ed)|(Ea & _)]]]);
    try congruence.
  exists (OnSession TargetChanged). split; [apply step_sigs_event; rewrite Ed|]; set_solver.
Qed.

Lemma delete_layer_step_heard s s' :
  layer_step generate_layer_name is_slow_mode_skin_cluster s s' ->
  heard (qa_signals (@buildAction_deleteLayer S)) toggle_enabled_action_enabled s s'.
Proof.
  intros Hs Hne. unfold toggle_enabled_action_enabled in Hne.
  destruct (layer_step_fields s s' Hs) as (_ & [(Ea & Esel & _)|[(Ea & Esel)|[(_ & _ & Ed)|(Ea & Ee)]]]).
  - rewrite Ea, Esel in Hne. congruence.
  - rewrite Ea, Esel in Hne. congruence.
  - exists (OnSession TargetChanged). split; [apply step_sigs_event; rewrite Ed|]; set_solver.
  - assert (selected_layers s' <> selected_layers s) by (intros Esel; rewrite Ea, Esel in Hne; congruence).
    exists OnSelectedLayersChanged. split; [by apply step_sigs_selection|set_solver].
Qed.

Lemma initialize_step_heard s s' :
  layer_step generate_layer_name is_slow_mode_skin_cluster s s' ->
  heard (qa_signals (@build_action_initialize_layers S)) initialize_action_enabled s s'.
Proof.
  intros Hs Hne. unfold initialize_action_enabled in Hne.
  destruct (layer_step_fields s s' Hs) as [Ec _]. by rewrite Ec in Hne.
Qed.

(** C40. The layer actions of [operations/layers.py] stay in step with the
    session: after any run of layer operations and selection changes, the
    enabled flag of "create layer", "delete layer" and "initialize layers"
    is what their [update] computes on the final session, because every
    change of what those updates read comes with a signal they listen to
    ([targetChanged] when the layers are initialized,
    [selected_layers.changed] when the selection changes). *)
Theorem layer_actions_track s0 s h :
  layer_run generate_layer_name is_slow_mode_skin_cluster s0 s h ->
  qa_enabled buildAction_createLayer s0 h = create_layer_action_enabled s /\
  qa_enabled buildAction_deleteLayer s0 h = toggle_enabled_action_enabled s /\
  qa_enabled build_action_initialize_layers s0 h = initialize_action_enabled s.
Proof.
  intros Hrun. split_and!; (erewrite (qa_enabled_run _ (fun _ => True)); [done|done|exact Hrun|done|done|]);
    intros s1 s2 _.
  - apply create_layer_step_heard.
  - apply delete_layer_step_heard.
  - apply initialize_step_heard.
Qed.

(** ** The check mark of [ToggleEnabledAction] *)

Lemma balance_ext (st st' : S) l :
  (forall j, layer_enabled st' j = layer_enabled st j) -> enabled_disabled_balance st' l = enabled_disabled_balance st l.
Proof.
  intros E. unfold enabled_disabled_balance. generalize 0%Z.
  induction l as [|j l IH]; intros acc; [done|]. cbn. rewrite E. apply IH.
Qed.

Lemma checked_ext s s' :
  selected_layers s' = selected_layers s ->
  (forall j, layer_enabled (layers_state s') j = layer_enabled (layers_state s) j) -> checked s' = checked s.
Proof. intros Es E. unfold checked. rewrite Es. destruct (selected_layers s); [done|]. by rewrite (balance_ext _ _ _ E). Qed.

Lemma initializeLayers_cases b s :
  initializeLayers is_slow_mode_skin_cluster b s = s
  \/ drop (length (events s)) (events (initializeLayers is_slow_mode_skin_cluster b s)) = [TargetChanged].
Proof.
  unfold initializeLayers. destruct (Layers.layersAvailable s); [by left|right].
  destruct b; [destruct (layers_add _ _)|]; destruct (is_slow_mode_skin_cluster _); apply drop_app_length.
Qed.

(** [ToggleEnabledAction.run] that does not raise changes nothing or emits
    [layerListChanged]. *)
Lemma run_ok_cases s :
  (run s).2 = None -> (run s).1 = s \/ events (run s).1 = events s ++ [LayerListChanged].
Proof.
  unfold run. destruct (selected_layers s); [by left|].
  destruct (set_enabled_all _ _ _) as [st []]; [done|by right].
Qed.

(** A step that is not a toggle which raised keeps [checked()], or emits
    [layerListChanged] or [targetChanged] first, or changes the selection
    and emits nothing. *)
Lemma layer_step_checked_cases s s' :
  layer_step generate_layer_name is_slow_mode_skin_cluster s s' -> ~ toggle_raised s s' ->
  checked s' = checked s
  \/ (exists e es, drop (length (events s)) (events s') = e :: es /\ (e = LayerListChanged \/ e = TargetChanged))
  \/ events s' = events s /\ selected_layers s' <> selected_layers s.
Proof.
  intros Hs Hr. destruct Hs as [b s|c a s|s|s layer _|s layer n|s|s|s layers].
  - destruct (initializeLayers_cases b s) as [->|E]; [by left|right; left; eauto].
  - unfold do_initialize. destruct c; [destruct a|].
    + destruct (initializeLayers_cases true (show_dialog s (DialogYesNo IMPORT_QUESTION))) as [->|E];
        [by left|right; left; eauto].
    + by left.
    + destruct (initializeLayers_cases true s) as [->|E]; [by left|right; left; eauto].
  - unfold addLayer_list. destruct (layers_add _ _). right; left. exists LayerListChanged, [].
    split; [|by left]. cbn. by rewrite drop_app_length.
  - left. apply checked_ext; [done|]. intros j. apply set_current_enabled.
  - left. apply checked_ext; [done|]. intros j. apply set_name_enabled.
  - right; left. exists LayerListChanged, [CurrentLayerChanged].
    split; [|by left]. cbn. by rewrite <- app_assoc, drop_app_length.
  - destruct ((run s).2) eqn:Er; [by destruct Hr; split; [|rewrite Er]|].
    destruct (run_ok_cases s Er) as [->|E]; [by left|right; left].
    exists LayerListChanged, []. split; [|by left]. by rewrite E, drop_app_length.
  - destruct (decide (layers = selected_layers s)) as [->|Hne]; [by left|right; right; done].
Qed.

Lemma toggle_step_checked_heard s s' :
  layer_step generate_layer_name is_slow_mode_skin_cluster s s' -> ~ toggle_raised s s' ->
  heard (ac_update_on_signals (@ToggleEnabledAction S _)) checked s s'.
Proof.
  intros Hs Hr Hne.
  destruct (layer_step_checked_cases s s' Hs Hr) as [E|[(e & es & Ed & He)|(Ee & Esel)]]; [congruence| |].
  - exists (OnSession e). split; [apply step_sigs_event; rewrite Ed; set_solver|].
    destruct He as [-> | ->]; set_solver.
  - exists OnSelectedLayersChanged. split; [by apply step_sigs_selection|set_solver].
Qed.

(** C34. The "enable selected layers" action ([ToggleEnabledAction])
    stays in step with the session: after any run of layer operations and
    selection changes in which no toggle raised, its enabled flag is
    [enabled()] and its check mark is [checked()] (most selected layers
    enabled) on the final session, since every step that changes what they
    read emits [selected_layers.changed], [layerListChanged] or
    [targetChanged] first. *)
Theorem toggle_action_tracks (base_enabled base_checked : LayersSession S -> bool) s0 s h :
  run_with (fun s s' => layer_step generate_layer_name is_slow_mode_skin_cluster s s' /\ ~ toggle_raised s s') s0 s h ->
  qa_enabled (action_enabled_qt ToggleEnabledAction base_enabled) s0 h = toggle_enabled_action_enabled s /\
  qa_enabled (action_checked_qt ToggleEnabledAction base_checked) s0 h = checked s.
Proof.
  intros Hrun. split; (erewrite (qa_enabled_run _ (fun _ => True)); [done|done|exact Hrun|done|done|]);
    intros s1 s2 _ [Hs Hr].
  - apply heard_mono with (qa_signals (@buildAction_deleteLayer S)); [set_solver|].
    by apply delete_layer_step_heard.
  - by apply toggle_step_checked_heard.
Qed.

(** ** The tool actions of [operations/tools.py] *)

(** A tool action seen on the layers session, the rest of the tools
    session (the calls made, Maya's selection) being [t]'s. *)
Definition on_base (t : ToolsSession S) (a : QtAction (ToolsSession S)) : QtAction (LayersSession S) :=
  mkQtAction (qa_text a) (qa_tooltip a) (qa_signals a) (fun b => qa_update a (with_base t b)) (qa_update_at_build a).

Lemma set_enabled_all_current b : forall layers (st : S),
  layers_wf st -> current_layer_id (set_enabled_all st layers b).1 = current_layer_id st.
Proof.
  induction layers as [|i ls IH]; intros st Hwf; [done|]. cbn.
  destruct (layer_set_enabled st i b) as [st'|] eqn:E; [|done].
  destruct (set_enabled_spec _ _ _ _ Hwf E) as (Hwf' & _ & Hc & _). by rewrite IH.
Qed.

(** From a well-formed stack a step keeps whether layers are available
    and the current layer, or emits [targetChanged] or
    [currentLayerChanged]. *)
Lemma layer_step_current_cases s s' :
  layers_wf (layers_state s) -> layer_step generate_layer_name is_slow_mode_skin_cluster s s' ->
  Layers.layersAvailable s' = Layers.layersAvailable s /\ current_layer_id (layers_state s') = current_layer_id (layers_state s)
  \/ exists e, (e = TargetChanged \/ e = CurrentLayerChanged) /\ e ∈ drop (length (events s)) (events s').
Proof.
  intros Hwf Hs. destruct Hs as [b s|c a s|s|s layer _|s layer n|s|s|s layers].
  - destruct (initializeLayers_cases b s) as [->|E]; [by left|right].
    exists TargetChanged. rewrite E. split; [by left|set_solver].
  - unfold do_initialize. destruct c; [destruct a|].
    + destruct (initializeLayers_cases true (show_dialog s (DialogYesNo IMPORT_QUESTION))) as [->|E]; [by left|right].
      change (events (show_dialog s (DialogYesNo IMPORT_QUESTION))) with (events s) in E.
      exists TargetChanged. rewrite E. split; [by left|set_solver].
    + by left.
    + destruct (initializeLayers_cases true s) as [->|E]; [by left|right].
      exists TargetChanged. rewrite E. split; [by left|set_solver].
  - left. unfold addLayer_list.
    pose proof (add_current (layers_state s) (generate_layer_name (all_layer_names (layers_state s)) NEW_LAYER_NAME)) as Hc.
    destruct (layers_add _ _). cbn in *. by rewrite set_parent_current.
  - right. exists CurrentLayerChanged. split; [by right|]. cbn. rewrite drop_app_length. set_solver.
  - left. split; [done|]. apply set_name_current.
  - right. exists CurrentLayerChanged. split; [by right|].
    cbn. rewrite <- app_assoc, drop_app_length. set_solver.
  - left. unfold run. destruct (selected_layers s) as [|i ls]; [done|].
    pose proof (set_enabled_all_current (negb (checked s)) (i :: ls) _ Hwf) as Hc.
    destruct (set_enabled_all _ _ _) as [st []]; cbn in *; by split.
  - by left.
Qed.

Lemma tool_step_heard (t : ToolsSession S) name tooltip s s' :
  layers_wf (layers_state s) -> layer_step generate_layer_name is_slow_mode_skin_cluster s s' ->
  heard (qa_signals (create_tool_action name tooltip None)) (qa_update (on_base t (create_tool_action name tooltip None))) s s'.
Proof.
  intros Hwf Hs Hne. destruct (layer_step_current_cases s s' Hwf Hs) as [(Ea & Ec)|(e & He & Hd)].
  - contradict Hne. cbn. unfold tool_action_enabled, current_layer. cbn. by rewrite Ea, Ec.
  - exists (OnSession e). split; [by apply step_sigs_event|]. destruct He as [-> | ->]; set_solver.
Qed.

(** A tool action without [enabled_handler] follows the session along a
    run from a well-formed stack. *)
Lemma tool_action_run (t : ToolsSession S) name tooltip s0 s h :
  layers_wf (layers_state s0) -> layer_run generate_layer_name is_slow_mode_skin_cluster s0 s h ->
  qa_enabled (on_base t (create_tool_action name tooltip None)) s0 h = tool_action_enabled None (with_base t s).
Proof.
  intros Hwf Hrun.
  erewrite (qa_enabled_run _ (fun s => layers_wf (layers_state s))); [done|done|exact Hrun|exact Hwf| |].
  - intros s1 s2 Hwf1 Hs. by apply (layer_step_wf generate_layer_name is_slow_mode_skin_cluster s1 s2).
  - intros s1 s2 Hwf1 Hs. by apply tool_step_heard.
Qed.

(** C39. The eight tool actions of [operations/tools.py] without an
    [enabled_handler] stay in step with the session: after any run of
    layer operations and selection changes from a well-formed stack, each
    is enabled exactly when layers are available and there is a current
    layer, because every step that changes either emits [targetChanged] or
    [currentLayerChanged], the signals [__create_tool_action__] subscribes
    [update_state] to. *)
Theorem tool_actions_track (t : ToolsSession S) a s0 s h :
  a ∈ [create_action__from_closest_joint; create_action__unify_weights; create_action__duplicate_layer;
       create_action__fill_transparency; create_action__copy_component_weights;
       create_action__paste_average_component_weight; create_action__add_influences;
       create_action__select_affected_vertices] ->
  layers_wf (layers_state s0) ->
  layer_run generate_layer_name is_slow_mode_skin_cluster s0 s h ->
  qa_enabled (on_base t a) s0 h = tool_action_enabled None (with_base t s).
Proof.
  intros Ha Hwf Hrun. set_unfold in Ha. destruct_or! Ha; subst a; by apply tool_action_run.
Qed.

(** ** The tools tab on a running session *)

(** The tools tab fed the [targetChanged] signals of a history: its
    [update_tab_enabled] runs on each, reading the session's
    [layersAvailable] there. *)
Definition tab_after (t0 : ToolsTab) (h : list (LayersSession S * option ActionSignal)) : ToolsTab :=
  foldl (fun t x => if decide (x.2 = Some (OnSession TargetChanged))
                    then tools_tab_handle (ToolsTargetChanged (Layers.layersAvailable x.1)) t else t) t0 h.

Lemma tools_tab_target_enabled la t : tools_tab_enabled (tools_tab_handle (ToolsTargetChanged la) t) = la.
Proof. unfold tools_tab_handle. by destruct (tools_tab_enabled t). Qed.

Lemma tab_after_enabled t0 h :
  tools_tab_enabled (tab_after t0 h)
  = signal_enabled [OnSession TargetChanged] Layers.layersAvailable (tools_tab_enabled t0) h.
Proof.
  revert t0. induction h as [|[st [g|]] h IH]; intros t0; cbn; rewrite ?IH; [done| |done]. f_equal.
  destruct (decide (g = OnSession TargetChanged)) as [->|Hne].
  - rewrite !decide_True by set_solver. apply tools_tab_target_enabled.
  - rewrite !decide_False by (by intros [=] || set_solver). done.
Qed.

(** C24. The tools tab and its buttons on a running session: after any
    run of layer operations and selection changes from a well-formed
    stack, the tab built on the first session is enabled exactly when the
    final session has layers (it hears every [targetChanged]), and each of
    its five buttons is enabled exactly when the final session has layers
    and a current layer. *)
Theorem tools_tab_buttons_track (t : ToolsSession S) closest unify b s0 s h :
  b ∈ tools_tab_buttons -> layers_wf (layers_state s0) ->
  layer_run generate_layer_name is_slow_mode_skin_cluster s0 s h ->
  tools_tab_enabled (tab_after (build_tools_tab closest unify (Layers.layersAvailable s0)) h) = Layers.layersAvailable s /\
  qa_enabled (on_base t b) s0 h = Layers.layersAvailable s && bool_decide (current_layer_id (layers_state s) <> None).
Proof.
  intros Hb Hwf Hrun. split.
  - rewrite tab_after_enabled. apply (run_with_heard (fun _ => True) _ _ _ _ _ _ Hrun); [done|done|].
    intros s1 s2 _ Hs. by apply create_layer_step_heard.
  - unfold tools_tab_buttons, other_tools_buttons, to_button in Hb. set_unfold in Hb.
    destruct_or! Hb; subst b; (etransitivity; [eapply tool_action_run; eassumption|reflexivity]).
Qed.

End LayerRunLemmas.

(** ** A run on the list-based stack of [Host.v] *)

(** No layers yet on [skinCluster1], layer 2 of the tree selected. *)
Definition ex_actions_session : LayersSession ListLayers.store :=
  mkLayersSession true false (Some (py "skinCluster1")) [2] ListLayers.ex_store [] [] [].

(** Initialize the layers, then clear the selection. *)
Definition ex_actions_initialized := initializeLayers ex_slow_mode true ex_actions_session.

Definition ex_actions_deselected : LayersSession ListLayers.store :=
  mkLayersSession (session_active ex_actions_initialized) (Layers.layersAvailable ex_actions_initialized)
    (Layers.selectedSkinCluster ex_actions_initialized) [] (layers_state ex_actions_initialized)
    (events ex_actions_initialized) (deferred ex_actions_initialized) (dialogs ex_actions_initialized).

Definition ex_actions_history :=
  step_signals ex_actions_session ex_actions_initialized ++ (step_signals ex_actions_initialized ex_actions_deselected ++ []).

Lemma ex_actions_run :
  layer_run ex_generate_layer_name ex_slow_mode ex_actions_session ex_actions_deselected ex_actions_history.
Proof. eapply run_step; [apply step_initialize|eapply run_step; [apply step_select|apply run_nil]]. Qed.

(** "create layer" ends enabled, "delete layer" disabled (nothing
    selected), and the session emitted [targetChanged] once. *)
Lemma layer_actions_track_witness :
  layer_run ex_generate_layer_name ex_slow_mode ex_actions_session ex_actions_deselected ex_actions_history /\
  qa_enabled buildAction_createLayer ex_actions_session ex_actions_history = true /\
  qa_enabled buildAction_deleteLayer ex_actions_session ex_actions_history = false /\
  qa_enabled build_action_initialize_layers ex_actions_session ex_actions_history = true.
Proof.
  pose proof (layer_actions_track ex_generate_layer_name ex_slow_mode _ _ _ ex_actions_run) as (E1 & E2 & E3).
  split_and!; [exact ex_actions_run|rewrite E1|rewrite E2|rewrite E3]; vm_compute; reflexivity.
Defined.

(** Toggle the disabled [child], then clear the selection: the check mark
    ends checked (nothing selected) and the action disabled. *)
Definition ex_toggled := (run ex_layers_session).1.

Definition ex_toggle_deselected : LayersSession ListLayers.store :=
  mkLayersSession (session_active ex_toggled) (Layers.layersAvailable ex_toggled)
    (Layers.selectedSkinCluster ex_toggled) [] (layers_state ex_toggled)
    (events ex_toggled) (deferred ex_toggled) (dialogs ex_toggled).

Definition ex_toggle_history :=
  step_signals ex_layers_session ex_toggled ++ (step_signals ex_toggled ex_toggle_deselected ++ []).

Lemma ex_toggle_run :
  run_with (fun s s' => layer_step ex_generate_layer_name ex_slow_mode s s' /\ ~ toggle_raised s s')
    ex_layers_session ex_toggle_deselected ex_toggle_history.
Proof.
  eapply run_step; [split; [apply step_toggle|]|eapply run_step; [split; [apply step_select|]|apply run_nil]].
  - intros [_ Hr]. by vm_compute in Hr.
  - intros [Hr _]. by vm_compute in Hr.
Qed.

Lemma toggle_action_tracks_witness :
  run_with (fun s s' => layer_step ex_generate_layer_name ex_slow_mode s s' /\ ~ toggle_raised s s')
    ex_layers_session ex_toggle_deselected ex_toggle_history /\
  qa_enabled (action_enabled_qt ToggleEnabledAction (fun _ => true)) ex_layers_session ex_toggle_history = false /\
  qa_enabled (action_checked_qt ToggleEnabledAction (fun _ => false)) ex_layers_session ex_toggle_history = true.
Proof.
  pose proof (toggle_action_tracks ex_generate_layer_name ex_slow_mode (fun _ => true) (fun _ => false) _ _ _
    ex_toggle_run) as (E1 & E2).
  split_and!; [exact ex_toggle_run|rewrite E1|rewrite E2]; vm_compute; reflexivity.
Defined.

(** A toggle that raises has already flipped the layers before the stale
    id and emits nothing: with [0] (enabled) and the stale [5] selected,
    layer [0] ends disabled, [checked()] turns false, and the check mark
    still shows true. *)
Example toggle_raised_stale_check :
  let s' := (run ex_stale_session).1 in
  layer_run ex_generate_layer_name ex_slow_mode ex_stale_session s' (step_signals ex_stale_session s' ++ []) /\
  toggle_raised ex_stale_session s' /\
  qa_enabled (action_checked_qt ToggleEnabledAction (fun _ => false)) ex_stale_session
    (step_signals ex_stale_session s' ++ []) = true /\
  checked s' = false.
Proof.
  intros s'. split_and!; [eapply run_step; [apply step_toggle|apply run_nil]|split; [done|by vm_compute]|..];
    vm_compute; reflexivity.
Qed.

(** Add a layer to [ex_layers_session], then clear the selection: the
    duplicate-layer action ends enabled. *)
Definition ex_added_list := (addLayer_list ex_generate_layer_name ex_layers_session).1.
Definition ex_added := (addLayer ex_generate_layer_name ex_layers_session).1.

Definition ex_added_deselected : LayersSession ListLayers.store :=
  mkLayersSession (session_active ex_added) (Layers.layersAvailable ex_added)
    (Layers.selectedSkinCluster ex_added) [] (layers_state ex_added)
    (events ex_added) (deferred ex_added) (dialogs ex_added).

Definition ex_added_history :=
  step_signals ex_layers_session ex_added_list
  ++ (step_signals ex_added_list ex_added ++ (step_signals ex_added ex_added_deselected ++ [])).

Lemma ex_added_run :
  layer_run ex_generate_layer_name ex_slow_mode ex_layers_session ex_added_deselected ex_added_history.
Proof.
  destruct (addLayer_steps ex_generate_layer_name ex_slow_mode ex_layers_session) as [H1 H2]; [exact ListLayers.ex_store_wf|].
  eapply run_step; [exact H1|eapply run_step; [exact H2|eapply run_step; [apply step_select|apply run_nil]]].
Qed.

Lemma tool_actions_track_witness :
  create_action__duplicate_layer ∈ [create_action__from_closest_joint; create_action__unify_weights;
    create_action__duplicate_layer; create_action__fill_transparency; create_action__copy_component_weights;
    create_action__paste_average_component_weight; create_action__add_influences;
    create_action__select_affected_vertices] /\
  layers_wf (layers_state ex_layers_session) /\
  layer_run ex_generate_layer_name ex_slow_mode ex_layers_session ex_added_deselected ex_added_history /\
  qa_enabled (on_base ex_tools_session create_action__duplicate_layer) ex_layers_session ex_added_history = true.
Proof.
  assert (Hin : create_action__duplicate_layer ∈ [create_action__from_closest_joint; create_action__unify_weights;
    create_action__duplicate_layer; create_action__fill_transparency; create_action__copy_component_weights;
    create_action__paste_average_component_weight; create_action__add_influences;
    create_action__select_affected_vertices]) by (right; right; left).
  split_and!; [exact Hin|exact ListLayers.ex_store_wf|exact ex_added_run|].
  rewrite (tool_actions_track ex_generate_layer_name ex_slow_mode ex_tools_session create_action__duplicate_layer
    ex_layers_session ex_added_deselected ex_added_history Hin ListLayers.ex_store_wf ex_added_run).
  vm_compute. reflexivity.
Defined.

Lemma tools_tab_buttons_track_witness :
  unify_weights_button ∈ tools_tab_buttons /\
  layers_wf (layers_state ex_layers_session) /\
  layer_run ex_generate_layer_name ex_slow_mode ex_layers_session ex_added_deselected ex_added_history /\
  tools_tab_enabled (tab_after (build_tools_tab default_closest_joint_options default_unify_weights_options
    (Layers.layersAvailable ex_layers_session)) ex_added_history) = true /\
  qa_enabled (on_base ex_tools_session unify_weights_button) ex_layers_session ex_added_history = true.
Proof.
  assert (Hin : unify_weights_button ∈ @tools_tab_buttons ListLayers.store _) by (right; left).
  destruct (tools_tab_buttons_track ex_generate_layer_name ex_slow_mode ex_tools_session default_closest_joint_options
    default_unify_weights_options unify_weights_button ex_layers_session ex_added_deselected ex_added_history Hin
    ListLayers.ex_store_wf ex_added_run) as [E1 E2].
  split_and!; [exact Hin|exact ListLayers.ex_store_wf|exact ex_added_run|rewrite E1|rewrite E2]; vm_compute; reflexivity.
Defined.
